(* ===== verification/_CoqProject ===== *)
-Q . S2P
Prelude.v
GoStd.v
Types.v
TypesFacts.v
Store.v
Writer.v
SubManager.v
Cache.v
CacheFacts.v
CacheSystem.v
CacheSystemFacts.v
CacheSystemProps.v
Stream.v
Json.v
JsonFacts.v
JsonParse.v
JsonText.v
Codec.v
Floats.v
Rfc3339.v
AnyJson.v
ApiJson.v
ApiJsonFacts.v
Rpc.v
Communicator.v
CommunicatorFacts.v
CommunicatorProps.v
RpcJson.v
RpcJsonFacts.v
RpcResponses.v
WireProps.v
Runtime.v
RuntimeFacts.v
RuntimeProps.v
Handlers.v
HandlersFacts.v
Process.v
ProcessFacts.v
ProcessInv.v
ProcessSeq.v
ProcessRuns.v
ProcessProps.v
Plugintest.v
InMemory.v
Logger.v
Metrics.v
TestMonad.v
Conformance.v
Scenarios.v
MemWorld.v
ConformanceFacts.v
ConformanceProps.v
ConformanceSound.v
ScenariosSound.v
MemWorldFacts.v
Builders.v
BuildersFacts.v
BuildersSound.v
OptionBuilders.v
SmokeTest.v
SmokeTestFacts.v
SmokeTestProps.v
SmokeMain.v
SmokeJson.v
SmokeJsonFacts.v
SmokeReader.v
SmokeWire.v
Options.v
OptionsProps.v
Startup.v
