(* ===== verification/Prelude.v ===== *)
(** * The Launcher Go SDK: a verification development

    The SDK (src/) lets a program act as a plugin of the Posit Launcher: it
    reads framed JSON requests from standard input, hands each to the plugin's
    methods, and writes framed responses back.  A job cache with subscriptions
    helps plugins answer queries and stream status changes.

    ** How the program is put together

    [protocol.Communicator] decodes requests ([protocol.Decoder]) and runs the
    handler made by [launcher.createHandler] in one goroutine per request.  The
    handler dispatches on the request type, keeps the running streams in a
    [streamStore], and gives the plugin a [defaultResponseWriter] that turns
    calls into response messages on a channel, which the communicator encodes.
    Plugins usually keep their jobs in a [cache.JobCache]: a locked store
    ([inMemoryStore]) plus a service goroutine that forwards status updates to
    the subscribers ([subManager]) of all jobs, of one job or of one user.

    Plugin authors test with recording writers and builders ([plugintest]) and
    with a conformance suite that drives a plugin through its methods
    ([conformance]).  The smoke test ([cmd/smoketest]) is a client on the other
    side of the protocol: it starts a plugin and sends it requests by hand.

    ** Files

    - Prelude.v (this file): outcomes of Go code (return or panic) as a monad,
      record update, shared tactics and list lemmas.
    - GoStd.v: the parts of Go's standard library that are used: 64-bit
      wrap-around, strings, decimal conversion, white space.
    - Types.v, TypesFacts.v: src/api/types.go.  Jobs, filters, error codes and
      error matching, the text forms of Env, Mount and Port.
    - Store.v: src/cache/store.go.  The map of jobs, its operations, the merge
      [syncJob2].  Map iteration order is a parameter known only to be a
      permutation of the entries.
    - Writer.v: the interfaces [ResponseWriter] and [StreamResponseWriter] of
      src/launcher/launcher.go as type classes, with a recording instance.
    - SubManager.v: channels (a heap of buffers), contexts, and the subscription
      lists of src/cache/cache.go.
    - Cache.v, CacheFacts.v: the operations of [JobCache], each atomic under the
      lock the code holds, and what they do on every branch.
    - CacheSystem.v, CacheSystemFacts.v, CacheSystemProps.v: the cache with all
      its goroutines as an interleaving semantics ([sys_step] executes one
      action; [reachable] closes over all interleavings), its invariant, and the
      theorems about every schedule.
    - Stream.v: src/internal/protocol/stream.go.  Framing over bytes.
    - Json.v, JsonFacts.v, JsonParse.v, JsonText.v: JSON texts as encoding/json
      reads and writes them: UTF-8, escapes, numbers, nesting; printing is
      inverted by parsing, and everything that is read is UTF-8.
    - Codec.v, Floats.v, Rfc3339.v, AnyJson.v: reading documents into Go types and
      writing them: structs with tags and embedding, pointers, slices, numbers,
      times, interface{} and maps, with the laws of what comes back.
    - ApiJson.v, ApiJsonFacts.v: the JSON of the types of src/api/types.go, with
      MountSource.UnmarshalJSON.
    - Rpc.v: src/internal/protocol/rpc.go.  Request and response types and the
      response constructors.
    - Communicator.v, CommunicatorFacts.v, CommunicatorProps.v:
      src/internal/protocol/communicator.go.  [RequestFromJSON], and [Serve] with
      its reader, its writer, the handlers and the goroutines they leave behind
      as an interleaving semantics ([serve_step], [serve_reachable]); handlers
      may send anything.
    - RpcJson.v, RpcJsonFacts.v, RpcResponses.v: the JSON of requests and
      responses; [json_requests] is the instance of the communicator's interface
      for json.Unmarshal, [response_json] is json.Marshal.
    - WireProps.v: what goes over the wire.
    - Runtime.v, RuntimeFacts.v, RuntimeProps.v: src/launcher/launcher.go.  The
      response writer (an instance of the interfaces), the stream store, and the
      request handler for an arbitrary plugin, as one action per request.
    - Handlers.v, HandlersFacts.v: the same handler as the sequence of actions its
      goroutine performs ([prog], [handler_prog]), which run without interruption
      is the handler of Runtime.v ([exec_handler]); what its programs send.
    - Process.v, ProcessFacts.v, ProcessInv.v, ProcessSeq.v, ProcessRuns.v,
      ProcessProps.v: a running plugin, [Runtime.Run] as a whole: [Serve] with these
      programs as its handlers ([proc_step] executes one action, [proc_reachable]
      closes over all interleavings), its simulation by [Serve], the invariants of
      the shared state, schedules, and the theorems about every schedule and every
      plugin.
    - Plugintest.v: src/plugintest/mocks.go and helpers.go.  The recording
      writers (instances of the interfaces) and the assertions.
    - InMemory.v: src/examples/inmemory/main.go, a plugin over the cache.
    - Logger.v: src/logger/, configuration and line format.
    - Metrics.v: src/launcher/metrics.go, over an interface for the Prometheus
      client.
    - TestMonad.v: the parts of package testing the suite uses: failures, early
      ends, subtests and deferred calls as a monad, with its Hoare triples.
    - Conformance.v, Scenarios.v: src/conformance/.  The helpers, the invariant
      tests, the scenarios and the workflows, for any plugin behind the class
      [World] (its methods, its streams, the clock).
    - ConformanceFacts.v, ConformanceProps.v, ConformanceSound.v,
      ScenariosSound.v: the suite ends; what a pass of it means.
    - MemWorld.v, MemWorldFacts.v: the in-memory plugin, its cache and its
      simulated jobs under one scheduler, as an instance of [World], and the
      suite run against it.
    - Builders.v, BuildersFacts.v, BuildersSound.v, OptionBuilders.v:
      src/plugintest/builders.go.  Structs, arrays and maps in a heap, so that
      aliasing shows; the builders against value-level effects.
    - SmokeTest.v, SmokeTestFacts.v, SmokeTestProps.v: src/cmd/smoketest/.  The
      main goroutine as a computation over an environment that stands for the
      plugin, the reader goroutine, the timers and the user.
    - SmokeMain.v: its process, from the command line to the exit code, over what
      the calls of the operating system return.
    - SmokeJson.v, SmokeJsonFacts.v, SmokeReader.v, SmokeWire.v: its messages in
      JSON, the requests they mean, what it reads of responses, and both
      directions end to end.
    - Options.v, OptionsProps.v: the command-line options and ConfigPathf of
      src/launcher/launcher.go, with the flag parser.
    - Startup.v: [Runtime] and [Run] up to Serve, the creation of loggers, and
      the main function of src/examples/inmemory/main.go.

    ** Conventions

    The method M of a Go type T is the definition T_M, a field F is T_F.  A
    pointer that may be nil is an [option]; an [error] is [option error]; a
    panic is the outcome [Panic].  Integer enumerations are integers.  Strings
    are byte strings with ASCII letter case.  Callbacks are functions that also
    return what they capture.  The current time, the choice of a [select] with
    several ready cases and the answers of [Context.Err] are arguments.

    ** What the theorems show

    Cache, all schedules: no goroutine panics; Close completes and releases every
    subscriber; a stream delivers, in order and without repetition, updates of
    its own topic only; the context of [RunningJobContext] ends when the end of
    the job reaches it.  Two further theorems exhibit schedules on which a
    subscriber misses the end of its job.

    Cache, operations: [AddOrUpdate], [Update], [Lookup], [Prune], [JobsForUser],
    [processUpdate] and [Notify] on every branch, and the merge of updates.

    Communicator, all schedules and all handlers: no panic as long as handlers
    leave no goroutine behind; a nil result means that all responses were written
    in order and that the input ended regularly; requests reach the handlers in
    order; [Serve] returns once its handlers have.  Further theorems exhibit
    deadlocks after an encoding error (a usage of NaN is enough) and the panic of a
    metrics tick after the response channel was closed.

    Running plugin, all schedules and any plugin: the process refines [Serve], and
    a handler that is not interrupted does what [createHandler] does in one go.
    When [Run] returns nil, every request of the input was answered completely and
    every response was written once, in order.  Responses answer the requests of
    their handlers; response IDs are given once each; the messages of a stream are
    numbered from 1 on; cancelling reaches the stream it is meant for only; plugin
    methods get valid arguments; the process panics in two situations only; it can
    always be stopped.  Further theorems exhibit schedules on which a cancel request
    is lost, and on which methods are called while [Bootstrap] runs.

    Runtime, one request at a time: every response answers its request, response
    IDs and sequence IDs are consecutive, cancelling ends one stream, invalid
    requests do not reach the plugin, the metrics loop starts once.

    Wire format: decoding inverts encoding, limits are enforced, and truncation
    is reported except at one position.

    JSON: jobs come back as they were; a projection shows exactly the members that
    were asked for; output keeps its text exactly if it is UTF-8.  The messages of
    the smoke test are read as the requests they mean, and its sessions are served
    in order; responses are filed under the requests they answer.

    Types: field projection, filters, round trips of text forms, error matching.
    Plugin: the job life cycle and job control.  Logger: precedence of settings
    and the meaning of groups.  Metrics: draining and reporting.  Test support:
    the mock writer records what the runtime writer sends.

    Conformance suite, any plugin: the suite and all scenarios end; a pass of
    [Run] or of the stop scenario implies the history the tests describe;
    [WaitForStatus] is a search over its polls.  The in-memory plugin passes the
    invariant tests from every state, and the example's tests as a whole.  Two
    further theorems show a plugin that crashes the suite by refusing a job, and
    one that ignores field lists and passes.

    Builders: programs of calls build what the methods say; with [Clone], in the
    fields it copies; in the others the original and the clone interfere.  Built
    cluster options keep their value.

    Smoke test, any environment: the main goroutine does not panic, its messages
    form a well-numbered transcript about jobs the plugin has named, waits are
    bounded by what is missing, and sessions end if streams pause.  Its process
    exits with 0 only after a session, with the plugin's input closed and the plugin
    killed if it did not stop.  A response to another request counts as a timeout.

    Options: command lines are read back; intervals are exact up to a bound;
    configuration paths are absolute, except that without XDG_CONFIG_DIRS the
    working directory is searched.  Start-up: the example reaches Serve with the
    options, the logging level and the destination that were configured; a short
    revision in the build information panics.

    ** Bounds

    Channels have the capacities of the code (64 updates in the cache, 1 per
    stream; 100 requests, 100 responses and 1 error in [Serve]).  Counters
    wrap at 64 bits (32 for the example's job counter, whose theorem is stated
    for fewer than 2^31 events).  [Decoder_loop] and [readResponses] take fuel;
    one more than the number of messages is enough, as [stream_roundtrip] and
    [reader_files_messages] state.  [poll_until] has [poll_fuel] turns, as many as
    fit into the timeout ([suite_terminates] shows they are enough);
    [wait_rounds] has one turn per missing response ([waitForResponse_spec]).  The
    streaming loops of the smoke test run as long as the plugin sends; their fuel
    is a parameter, and [session_returns] shows when it is enough; the number of
    requests a user makes is a parameter of [session] and [main].  [expand] has a
    turn per byte.  The capacity that [append] gives a new array is a parameter.
    [parse_value] has twice as many turns as the text has runes, and the nesting
    limit of encoding/json (10000); [parse_print] shows that both are enough.
    [FormatFloat] tries up to 17 digits, which identify every float64.

    ** Not modelled

    Of encoding/json: the texts of errors (a parameter of [json_requests]), what a
    failed decoding has stored before it failed (no caller looks), and the elements
    behind the end of a slice that a repeated member reads into again.  The
    time-zone database is a parameter, addresses of nodes are kept as text.
    Log messages and the texts printed are input and output; so are the signals
    that end the example's main.  What the operating system returns to the smoke
    test is a parameter, and so is the strconv.ParseFloat of the flag package.
    Outside the builders job values are immutable: the code copies jobs shallowly,
    and changes inside slices or maps that two copies share are not represented.
    The plugin of Process.v is any plugin that uses its writer from one goroutine
    at a time and not after the return of the method, and does not panic; the one
    of Runtime.v is a function of its state.  The in-memory plugin's output stream
    is written by a goroutine that outlives the handler; in MemWorld.v it is part
    of the stream. *)

From Stdlib Require Export Ascii.
From stdpp Require Export base tactics list strings gmap sorting numbers.

Declare Scope go_scope.
Delimit Scope go_scope with go.
Global Open Scope go_scope.

(** ** Outcomes of Go code

    A Go function either returns or panics (nil dereference, close of a closed
    channel, send on a closed channel).  Errors returned as values are ordinary
    results; only panics are [Panic]. *)
Inductive outcome (A : Type) : Type :=
| Ret (a : A)
| Panic (why : string).
Arguments Ret {A} a.
Arguments Panic {A} why.

#[export] Instance outcome_ret : MRet outcome := @Ret.
#[export] Instance outcome_bind : MBind outcome :=
  λ A B f m, match m with Ret a => f a | Panic w => Panic w end.
#[export] Instance outcome_fmap : FMap outcome :=
  λ A B f m, match m with Ret a => Ret (f a) | Panic w => Panic w end.

(** The run-time messages of the Go panics the model can raise. *)
Definition nil_deref : string :=
  "invalid memory address or nil pointer dereference".
Definition close_of_closed : string := "close of closed channel".
Definition send_on_closed : string := "send on closed channel".

(** Dereference of a possibly nil pointer. *)
Definition deref {A} (p : option A) : outcome A :=
  match p with Some a => Ret a | None => Panic nil_deref end.

Lemma bind_Ret {A B} (a : A) (f : A → outcome B) : (Ret a ≫= f) = f a.
Proof. reflexivity. Qed.

Lemma bind_assoc_outcome {A B C} (m : outcome A) (f : A → outcome B) (g : B → outcome C) :
  ((m ≫= f) ≫= g) = (m ≫= (λ a, f a ≫= g)).
Proof. by destruct m. Qed.

Lemma bind_Ret_inv {A B} (m : outcome A) (f : A → outcome B) b :
  (m ≫= f) = Ret b → ∃ a, m = Ret a ∧ f a = Ret b.
Proof. destruct m; simpl; naive_solver. Qed.

(** ** Record update

    [r <| f := v |>] is Go's field assignment on a copy of the struct [r]. *)
Class Setter {R F : Type} (proj : R → F) := set_field : F → R → R.
Arguments set_field {R F} proj {_} _ _ /.

(** The fields of a record spelled out; with an instance, updating a variable
    record computes. *)
Class Eta (R : Type) := eta : R → R.

Ltac solve_setter_eta :=
  match goal with
  | |- @Setter ?R ?F ?proj =>
      unfold Setter; intros v r;
      let c := eval hnf in (@eta R _ r) in
      match c with
      | context K [proj r] => let t := context K [v] in exact t
      end
  end.

Ltac solve_setter_destruct :=
  match goal with
  | |- @Setter ?R ?F ?proj =>
      unfold Setter; intros v r;
      let whole := fresh "whole" in
      pose (whole := r);
      destruct r;
      let c := eval cbv delta [whole] in whole in
      let p := eval cbv in (proj c) in
      clear whole;
      match c with
      | context K [p] => let t := context K [v] in exact t
      end
  end.

Ltac solve_setter := solve [solve_setter_eta] || solve [solve_setter_destruct].

Notation "r <| f := v |>" := (set_field f v r)
  (at level 1, left associativity, f at level 0, v at level 99,
   format "r  <| f  :=  v |>") : go_scope.

(** ** Automation *)
Create HintDb go.

(** Split every conditional of the goal and simplify. *)
Ltac go_cases :=
  repeat (case_match || case_bool_decide || case_decide); simplify_eq/=.

(** Close goals by computation on closed terms. *)
Ltac go_compute := vm_compute; repeat split; try done; try lia.

(** ** Booleans over lists

    Go's search loops ([match := false; for ... { if eq { match = true; break } }]). *)
Definition list_has `{EqDecision A} (x : A) (l : list A) : bool := bool_decide (x ∈ l).

Lemma existsb_elem_of `{EqDecision A} (x : A) (l : list A) :
  existsb (λ y, bool_decide (x = y)) l = bool_decide (x ∈ l).
Proof.
  induction l as [|y l IH]; simpl.
  - done.
  - rewrite IH, <- bool_decide_or. apply bool_decide_ext. by rewrite elem_of_cons.
Qed.

Lemma forallb_Forall_iff {A} (f : A → bool) (l : list A) :
  forallb f l = true ↔ Forall (λ x, f x = true) l.
Proof. rewrite forallb_forall, List.Forall_forall. done. Qed.

(** ** Sorted duplicate-free lists are determined by their elements *)
Lemma merge_sort_perm_eq {A} (R : relation A) `{∀ x y, Decision (R x y)}
    `{!Transitive R, !Total R, !AntiSymm (=) R} (l1 l2 : list A) :
  l1 ≡ₚ l2 → merge_sort R l1 = merge_sort R l2.
Proof.
  intros Hp. apply (Sorted_unique R); try apply (Sorted_merge_sort R).
  by rewrite !merge_sort_Permutation.
Qed.

Lemma mapM_Some_ext {A B} (f : A → option B) (g : A → B) (l : list A) :
  Forall (λ x, f x = Some (g x)) l → mapM f l = Some (g <$> l).
Proof.
  induction 1 as [|x l Hx _ IH]; [done|]. cbn. rewrite Hx. cbn.
  by rewrite IH.
Qed.

Lemma filter_ext_elem {A} (P Q : A → Prop) `{∀ x, Decision (P x), ∀ x, Decision (Q x)} (l : list A) :
  (∀ x, x ∈ l → P x ↔ Q x) → base.filter P l = base.filter Q l.
Proof.
  induction l as [|x l IH]; intros Hx; [done|]. rewrite !filter_cons.
  rewrite IH by (intros y Hy; apply Hx; by right).
  destruct (Hx x) as [HPQ HQP]; [by left|].
  case_decide as HP; case_decide as HQ; naive_solver.
Qed.

#[export] Hint Resolve Sorted_merge_sort merge_sort_Permutation : go.
