(* ===== verification/GoStd.v ===== *)
(** * The parts of Go's standard library the SDK uses

    Go strings are byte sequences and are modelled by [string] (a list of
    8-bit [ascii]).  [int] is the 64-bit signed integer of the supported
    platforms; integers are [Z] with their width written out.  This file holds
    [strings.Split], [strings.SplitN] with a one-byte separator,
    [strings.Join], [strings.ToLower] on bytes, [strings.TrimSpace], [path.IsAbs], [strconv.Atoi],
    decimal formatting ([%d]) and wrap-around arithmetic. *)

From Stdlib Require Import DecimalString DecimalN.
From S2P Require Import Prelude.

(** ** Machine integers *)
Definition int64_min : Z := -(2 ^ 63).
Definition int64_max : Z := 2 ^ 63 - 1.
Definition in_int64 (z : Z) : bool := (int64_min <=? z)%Z && (z <=? int64_max)%Z.

(** [uint64] arithmetic wraps modulo 2^64. *)
Definition wrap64 (z : Z) : Z := z `mod` 2 ^ 64.

Lemma wrap64_range z : (0 ≤ wrap64 z < 2 ^ 64)%Z.
Proof. apply Z.mod_pos_bound. lia. Qed.

Lemma wrap64_small z : (0 ≤ z < 2 ^ 64)%Z → wrap64 z = z.
Proof. apply Z.mod_small. Qed.

(** ** strings.Split and strings.Join for a one-byte separator *)

(** [strings.Split(s, sep)]: never empty; "" splits into [""]. *)
Fixpoint strings_Split (s : string) (sep : ascii) : list string :=
  match s with
  | EmptyString => [EmptyString]
  | String c s' =>
      if Ascii.eqb c sep then EmptyString :: strings_Split s' sep
      else match strings_Split s' sep with
           | w :: ws => String c w :: ws
           | [] => [String c EmptyString]
           end
  end.

(** [strings.SplitN(s, sep, 2)]: split at the first separator only. *)
Fixpoint strings_SplitN2 (s : string) (sep : ascii) : list string :=
  match s with
  | EmptyString => [EmptyString]
  | String c s' =>
      if Ascii.eqb c sep then [EmptyString; s']
      else match strings_SplitN2 s' sep with
           | w :: ws => String c w :: ws
           | [] => [String c EmptyString]
           end
  end.

Fixpoint strings_Join (l : list string) (sep : string) : string :=
  match l with
  | [] => EmptyString
  | [w] => w
  | w :: l' => w +:+ sep +:+ strings_Join l' sep
  end.

(** Does the byte [c] occur in [s]? *)
Fixpoint contains_byte (c : ascii) (s : string) : bool :=
  match s with
  | EmptyString => false
  | String d s' => Ascii.eqb d c || contains_byte c s'
  end.

(** [path.IsAbs]. *)
Definition path_IsAbs (p : string) : bool :=
  match p with String c _ => Ascii.eqb c "/"%char | EmptyString => false end.

(** [strings.ToLower] on the ASCII letters (other bytes are unchanged). *)
Definition lower_byte (c : ascii) : ascii :=
  let n := Ascii.nat_of_ascii c in
  if (65 <=? n)%nat && (n <=? 90)%nat then Ascii.ascii_of_nat (n + 32) else c.

Fixpoint strings_ToLower (s : string) : string :=
  match s with
  | EmptyString => EmptyString
  | String c s' => String (lower_byte c) (strings_ToLower s')
  end.

(** The white space of [unicode.IsSpace], in UTF-8. *)
Definition bytes_string (l : list nat) : string := foldr (λ n s, String (Ascii.ascii_of_nat n) s) "" l.

Definition space_runes : list string := bytes_string <$>
  [[9]; [10]; [11]; [12]; [13]; [32]; [194; 133]; [194; 160]; [225; 154; 128];
   [226; 128; 128]; [226; 128; 129]; [226; 128; 130]; [226; 128; 131]; [226; 128; 132]; [226; 128; 133];
   [226; 128; 134]; [226; 128; 135]; [226; 128; 136]; [226; 128; 137]; [226; 128; 138];
   [226; 128; 168]; [226; 128; 169]; [226; 128; 175]; [226; 129; 159]; [227; 128; 128]].

Fixpoint strip_prefix (p s : string) : option string :=
  match p, s with
  | EmptyString, _ => Some s
  | String c p', String d s' => if Ascii.eqb c d then strip_prefix p' s' else None
  | String _ _, EmptyString => None
  end.

(** What is left after the first of the runes that [s] starts with. *)
Fixpoint strip_any (rs : list string) (s : string) : option string :=
  match rs with
  | [] => None
  | r :: rs => match strip_prefix r s with Some s' => Some s' | None => strip_any rs s end
  end.

(** Each rune is at least a byte long, so the length of [s] bounds the rounds. *)
Fixpoint trim_left (fuel : nat) (rs : list string) (s : string) : string :=
  match fuel with
  | 0 => s
  | S fuel => match strip_any rs s with Some s' => trim_left fuel rs s' | None => s end
  end.

Definition string_rev (s : string) : string := String.string_of_list_ascii (reverse (String.list_ascii_of_string s)).

(** [strings.TrimSpace]. *)
Definition strings_TrimSpace (s : string) : string :=
  let s := trim_left (String.length s) space_runes s in
  string_rev (trim_left (String.length s) (string_rev <$> space_runes) (string_rev s)).

(** ** Decimal integers *)
Definition digit_val (c : ascii) : option N :=
  let n := Ascii.N_of_ascii c in
  if (48 <=? n)%N && (n <=? 57)%N then Some (n - 48)%N else None.

Fixpoint digits_go (acc : N) (s : string) : option N :=
  match s with
  | EmptyString => Some acc
  | String c s' => d ← digit_val c; digits_go (10 * acc + d)%N s'
  end.

(** A non-empty run of decimal digits. *)
Definition parse_digits (s : string) : option N :=
  match s with EmptyString => None | _ => digits_go 0 s end.

(** [strconv.Atoi]: an optional sign, at least one digit, nothing else, and a
    value that fits in [int]. *)
Definition strconv_Atoi (s : string) : option Z :=
  let '(neg, body) :=
    match s with
    | String c s' =>
        if Ascii.eqb c "-"%char then (true, s')
        else if Ascii.eqb c "+"%char then (false, s') else (false, s)
    | EmptyString => (false, s)
    end in
  n ← parse_digits body;
  let z := if (neg : bool) then (- Z.of_N n)%Z else Z.of_N n in
  if in_int64 z then Some z else None.

(** [%d] and [strconv.Itoa]. *)
Definition format_N (n : N) : string := NilZero.string_of_uint (N.to_uint n).

Definition strconv_Itoa (z : Z) : string :=
  if (z <? 0)%Z then String "-"%char (format_N (Z.to_N (- z))) else format_N (Z.to_N z).

(** ** Lemmas: splitting *)
Lemma string_app_assoc (s t u : string) : (s +:+ t) +:+ u = s +:+ (t +:+ u).
Proof. induction s as [|c s IH]; [done|]. unfold String.app in *. simpl. by rewrite IH. Qed.

Lemma string_app_nil_r (s : string) : (s ++ "")%string = s.
Proof. induction s as [|c s IH]; [done|]. unfold String.app in *. simpl. by rewrite IH. Qed.

Lemma Split_not_nil s sep : strings_Split s sep ≠ [].
Proof.
  destruct s as [|c s]; simpl; [done|].
  destruct (Ascii.eqb c sep); [done|]. by destruct (strings_Split s sep).
Qed.

Lemma Split_no_sep s sep : contains_byte sep s = false → strings_Split s sep = [s].
Proof.
  induction s as [|c s IH]; simpl; [done|].
  intros [Hc Hs]%orb_false_iff. rewrite Hc. by rewrite (IH Hs).
Qed.

Lemma Split_app_sep s sep t :
  contains_byte sep s = false →
  strings_Split (s +:+ String sep t) sep = s :: strings_Split t sep.
Proof.
  induction s as [|c s IH]; simpl.
  - intros _. by rewrite Ascii.eqb_refl.
  - intros [Hc Hs]%orb_false_iff. unfold String.app in *. simpl.
    rewrite Hc. by rewrite (IH Hs).
Qed.

Lemma Split_sep_In s sep :
  contains_byte sep s = true → (2 ≤ length (strings_Split s sep))%nat.
Proof.
  induction s as [|c s IH]; simpl; [done|].
  destruct (Ascii.eqb c sep) eqn:E; simpl.
  - intros _. pose proof (Split_not_nil s sep). destruct (strings_Split s sep); [done|simpl; lia].
  - intros H. specialize (IH H). destruct (strings_Split s sep); simpl in *; lia.
Qed.

Lemma Split_elem_no_sep s sep :
  Forall (λ w, contains_byte sep w = false) (strings_Split s sep).
Proof.
  induction s as [|c s IH]; simpl; [by repeat constructor|].
  destruct (Ascii.eqb c sep) eqn:E; [by constructor|].
  destruct (strings_Split s sep) as [|w ws]; simpl.
  - repeat constructor. simpl. by rewrite E.
  - inversion IH; subst. constructor; [simpl; by rewrite E|done].
Qed.

(** Joining the parts gives the string back. *)
Lemma Join_Split s sep : strings_Join (strings_Split s sep) (String sep EmptyString) = s.
Proof.
  induction s as [|c s IH]; simpl; [done|].
  destruct (Ascii.eqb c sep) eqn:E.
  - apply Ascii.eqb_eq in E as ->. pose proof (Split_not_nil s sep).
    destruct (strings_Split s sep); [done|]. cbn [strings_Join] in *.
    unfold String.app in *. simpl. by rewrite IH.
  - pose proof (Split_not_nil s sep). destruct (strings_Split s sep) as [|w ws]; [done|].
    destruct ws; cbn [strings_Join] in *; unfold String.app in *; simpl; by rewrite IH.
Qed.

Lemma SplitN2_no_sep s sep : contains_byte sep s = false → strings_SplitN2 s sep = [s].
Proof.
  induction s as [|c s IH]; simpl; [done|].
  intros [Hc Hs]%orb_false_iff. rewrite Hc. by rewrite (IH Hs).
Qed.

Lemma SplitN2_app_sep s sep t :
  contains_byte sep s = false → strings_SplitN2 (s +:+ String sep t) sep = [s; t].
Proof.
  induction s as [|c s IH]; simpl.
  - intros _. by rewrite Ascii.eqb_refl.
  - intros [Hc Hs]%orb_false_iff. unfold String.app in *. simpl.
    rewrite Hc. by rewrite (IH Hs).
Qed.

Lemma contains_byte_app c s t :
  contains_byte c (s +:+ t) = contains_byte c s || contains_byte c t.
Proof.
  induction s as [|d s IH]; simpl; [done|]. unfold String.app in *. simpl.
  rewrite IH. by rewrite orb_assoc.
Qed.

(** ** Lemmas: decimal round trip *)
Ltac eval_digit :=
  cbn [NilEmpty.string_of_uint digits_go];
  match goal with
  | |- context [digit_val ?c] =>
      let v := eval vm_compute in (digit_val c) in change (digit_val c) with v
  end;
  cbn [mbind option_bind Pos.of_uint_acc].

Lemma digits_go_uint (d : Decimal.uint) (p : positive) :
  digits_go (Npos p) (NilEmpty.string_of_uint d) = Some (Npos (Pos.of_uint_acc d p)).
Proof.
  revert p. induction d as [|d IH|d IH|d IH|d IH|d IH|d IH|d IH|d IH|d IH|d IH];
    intros p; [done|..]; eval_digit; rewrite <- IH; f_equal; lia.
Qed.

Lemma digits_go_zero (d : Decimal.uint) :
  digits_go 0 (NilEmpty.string_of_uint d) = Some (N.of_uint d).
Proof.
  induction d as [|d IH|d IH|d IH|d IH|d IH|d IH|d IH|d IH|d IH|d IH]; [done|..];
    eval_digit; [exact IH|..]; exact (digits_go_uint _ _).
Qed.

Lemma parse_digits_format n : parse_digits (format_N n) = Some n.
Proof.
  unfold format_N. pose proof (DecimalN.Unsigned.of_to n) as Hn.
  destruct (N.to_uint n) eqn:E; rewrite <- Hn.
  1: done.
  all: rewrite <- digits_go_zero; done.
Qed.

Lemma format_N_head n :
  ∃ c s, format_N n = String c s ∧ Ascii.eqb c "-"%char = false ∧ Ascii.eqb c "+"%char = false.
Proof.
  unfold format_N. destruct (N.to_uint n); simpl; eauto 10.
Qed.

(** The bytes of a formatted number are digits, so they contain no other byte. *)
Lemma format_N_no_byte c n : digit_val c = None → contains_byte c (format_N n) = false.
Proof.
  intros Hc. unfold format_N.
  assert (∀ d, contains_byte c (NilEmpty.string_of_uint d) = false) as Hd.
  { induction d; cbn [NilEmpty.string_of_uint contains_byte]; rewrite ?IHd, ?orb_false_r;
      try done;
      match goal with |- Ascii.eqb ?x c = false =>
        apply Ascii.eqb_neq; intros <-; vm_compute in Hc; discriminate end. }
  destruct (N.to_uint n); try apply Hd.
  cbn [NilZero.string_of_uint contains_byte]. rewrite orb_false_r.
  apply Ascii.eqb_neq. intros <-. vm_compute in Hc. discriminate.
Qed.

Lemma Itoa_no_byte c z :
  digit_val c = None → Ascii.eqb "-"%char c = false → contains_byte c (strconv_Itoa z) = false.
Proof.
  intros Hc Hm. unfold strconv_Itoa. case_match; cbn [contains_byte]; rewrite ?Hm; simpl;
    by apply format_N_no_byte.
Qed.

Lemma Atoi_Itoa z : in_int64 z = true → strconv_Atoi (strconv_Itoa z) = Some z.
Proof.
  intros Hz. unfold strconv_Atoi, strconv_Itoa.
  destruct (Z.ltb_spec z 0).
  - cbn. rewrite parse_digits_format. cbn.
    replace (- Z.of_N (Z.to_N (- z)))%Z with z by lia. by rewrite Hz.
  - destruct (format_N_head (Z.to_N z)) as (c & s & Hf & Hm & Hp).
    rewrite Hf. rewrite Hm, Hp. rewrite <- Hf, parse_digits_format. cbn.
    replace (Z.of_N (Z.to_N z)) with z by lia. by rewrite Hz.
Qed.

Lemma Atoi_range s z : strconv_Atoi s = Some z → in_int64 z = true.
Proof.
  unfold strconv_Atoi. destruct (match s with EmptyString => _ | String c s' => _ end) as [neg b].
  destruct (parse_digits b); simpl; [|done]. case_match; naive_solver.
Qed.

#[export] Hint Resolve Atoi_Itoa Itoa_no_byte : go.

(** ** Parts of strings *)
Lemma substring_prefix (s t : string) : String.substring 0 (String.length s) (s +:+ t) = s.
Proof. induction s as [|c s IH]; [by destruct t|]. exact (f_equal (String c) IH). Qed.

Lemma string_length_app (s t : string) : String.length (s +:+ t) = (String.length s + String.length t)%nat.
Proof. induction s as [|c s IH]; [done|]. exact (f_equal S IH). Qed.
