(* ===== verification/Types.v ===== *)
(** * Types of the Launcher Plugin API (src/api/types.go)

    The data types of the API with their methods: error codes and structured
    errors, job statuses and filters, the [Job] record with field projection
    ([WithFields]), job operations, and the flag-style text forms of [Env],
    [Mount] and [Port].

    Go enumerations over [int] stay open: they are [Z] with named constants,
    because values arrive from the wire unchecked.  Pointers are [option];
    pointed-to integers and times are never written through by the SDK, so
    copying a pointer is copying the value.  [time.Time] is an instant with a
    location; [Equal], [Before] and [After] compare instants only. *)

From S2P Require Import Prelude GoStd.

(** ** Error codes and errors *)
Abbreviation ErrCode := Z (only parsing).
Definition CodeUnknown : ErrCode := 0%Z.
Definition CodeRequestNotSupported : ErrCode := 1%Z.
Definition CodeInvalidRequest : ErrCode := 2%Z.
Definition CodeJobNotFound : ErrCode := 3%Z.
Definition CodePluginRestarted : ErrCode := 4%Z.
Definition CodeTimeout : ErrCode := 5%Z.
Definition CodeJobNotRunning : ErrCode := 6%Z.
Definition CodeJobOutputNotFound : ErrCode := 7%Z.
Definition CodeInvalidJobState : ErrCode := 8%Z.
Definition CodeJobControlFailure : ErrCode := 9%Z.
Definition CodeUnsupportedVersion : ErrCode := 10%Z.

Definition ErrCode_String (e : ErrCode) : string :=
  if decide (e = CodeUnknown) then "an error occurred"
  else if decide (e = CodeRequestNotSupported) then "not supported"
  else if decide (e = CodeInvalidRequest) then "invalid request"
  else if decide (e = CodeJobNotFound) then "job not found"
  else if decide (e = CodePluginRestarted) then "plugin is restarting"
  else if decide (e = CodeTimeout) then "timeout"
  else if decide (e = CodeJobNotRunning) then "job not running"
  else if decide (e = CodeJobOutputNotFound) then "job output not found"
  else if decide (e = CodeInvalidJobState) then "invalid job state"
  else if decide (e = CodeJobControlFailure) then "job control failure"
  else if decide (e = CodeUnsupportedVersion) then "unsupported version"
  else "an error occurred".

Record Error := mkError { Error_Code : ErrCode; Error_Msg : string }.

#[export] Instance Error_eq_dec : EqDecision Error.
Proof. solve_decision. Defined.

Abbreviation ConfigReloadErrorType := Z (only parsing).
Definition ReloadErrorUnknown : ConfigReloadErrorType := -1%Z.
Definition ReloadErrorNone : ConfigReloadErrorType := 0%Z.
Definition ReloadErrorLoad : ConfigReloadErrorType := 1%Z.
Definition ReloadErrorValidate : ConfigReloadErrorType := 2%Z.
Definition ReloadErrorSave : ConfigReloadErrorType := 3%Z.

Definition ConfigReloadErrorType_String (e : ConfigReloadErrorType) : string :=
  if decide (e = ReloadErrorUnknown) then "unknown error"
  else if decide (e = ReloadErrorNone) then "none"
  else if decide (e = ReloadErrorLoad) then "load error"
  else if decide (e = ReloadErrorValidate) then "validation error"
  else if decide (e = ReloadErrorSave) then "save error"
  else "unknown error".

(** Values of Go's [error] interface that the SDK builds or inspects:
    [*api.Error], [*launcher.ConfigReloadError], the package-level sentinels,
    [fmt.Errorf("prefix: %w", inner)] and [fmt.Errorf("%w: ...", inner, ...)].
    The last keeps the formatted argument unrendered. *)
Inductive error :=
| ErrAPI (e : Error)
| ErrReload (t : ConfigReloadErrorType) (msg : string)
| ErrSentinel (name : string)
| ErrWrap (prefix : string) (inner : error)
| ErrDetail (inner : error) (arg : string).

#[export] Instance error_eq_dec : EqDecision error.
Proof. solve_decision. Defined.

(** [api.Errorf]; the caller renders the format. *)
Definition Errorf (code : ErrCode) (msg : string) : Error := mkError code msg.

(** [Error.Error]. *)
Definition Error_Error (e : Error) : string :=
  if decide (Error_Msg e ≠ "") then Error_Msg e else ErrCode_String (Error_Code e).

(** [Error.Is]. *)
Definition Error_Is (e : Error) (err : error) : bool :=
  match err with
  | ErrAPI apiErr =>
      if decide (Error_Msg apiErr ≠ "" ∧ Error_Msg e ≠ "" ∧ Error_Msg apiErr ≠ Error_Msg e)
      then false
      else bool_decide (Error_Code apiErr = Error_Code e)
  | _ => false
  end.

(** [errors.Is]: identity at some layer of the chain, or that layer's [Is].
    Two [*api.Error] pointers with equal contents already satisfy [Error_Is]. *)
Fixpoint errors_Is (err target : error) : bool :=
  bool_decide (err = target)
  || match err with
     | ErrAPI e => Error_Is e target
     | ErrWrap _ inner => errors_Is inner target
     | ErrDetail inner _ => errors_Is inner target
     | _ => false
     end.

(** [errors.As] with a [*api.Error] target. *)
Fixpoint errors_As_API (err : error) : option Error :=
  match err with
  | ErrAPI e => Some e
  | ErrWrap _ inner => errors_As_API inner
  | ErrDetail inner _ => errors_As_API inner
  | _ => None
  end.

(** [errors.As] with a [*launcher.ConfigReloadError] target. *)
Fixpoint errors_As_Reload (err : error) : option (ConfigReloadErrorType * string) :=
  match err with
  | ErrReload t msg => Some (t, msg)
  | ErrWrap _ inner => errors_As_Reload inner
  | ErrDetail inner _ => errors_As_Reload inner
  | _ => None
  end.

Definition ErrJobNotRunning : Error := mkError CodeJobNotRunning "".
Definition ErrJobNotFound : Error := mkError CodeJobNotFound "".
Definition ErrInvalidJobState : Error := mkError CodeInvalidJobState "".

Definition ErrInvalidMountSpec : error := ErrSentinel "invalid mount spec".
Definition ErrInvalidMountPath : error := ErrSentinel "invalid mount path".
Definition ErrInvalidPortSpec : error := ErrSentinel "invalid port spec".
Definition ErrInvalidPort : error := ErrSentinel "invalid port".
Definition ErrInvalidEnvSpec : error := ErrSentinel "invalid env spec".

(** ** Job statuses *)
Definition StatusCanceled : string := "Canceled".
Definition StatusFailed : string := "Failed".
Definition StatusFinished : string := "Finished".
Definition StatusKilled : string := "Killed".
Definition StatusPending : string := "Pending".
Definition StatusRunning : string := "Running".
Definition StatusSuspended : string := "Suspended".

Definition TerminalStatus (status : string) : bool :=
  bool_decide (status ∈ [StatusCanceled; StatusFailed; StatusFinished; StatusKilled]).

(** ** Times *)
Record Time := mkTime { unixNano : Z; location : string }.

#[export] Instance Time_eq_dec : EqDecision Time.
Proof. solve_decision. Defined.

Definition Time_Equal (t u : Time) : bool := (unixNano t =? unixNano u)%Z.
Definition Time_Before (t u : Time) : bool := (unixNano t <? unixNano u)%Z.
Definition Time_Add (t : Time) (d : Z) : Time := mkTime (unixNano t + d) (location t).
Definition Time_After (t u : Time) : bool := (unixNano u <? unixNano t)%Z.

(** ** Small records *)
Abbreviation JobOutput := Z (only parsing).
Definition OutputStdout : JobOutput := 0%Z.
Definition OutputStderr : JobOutput := 1%Z.
Definition OutputBoth : JobOutput := 2%Z.

Definition JobOutput_String (o : JobOutput) : string :=
  if decide (o = OutputStdout) then "stdout"
  else if decide (o = OutputStderr) then "stderr"
  else if decide (o = OutputBoth) then "mixed"
  else "mixed".

Abbreviation JobID := string (only parsing).
Definition JobIDWildcard : JobID := "*".
Definition JobID_IsWildcard (id : JobID) : bool := bool_decide (id = JobIDWildcard).

Record Container := mkContainer {
  Container_Image : string;
  Container_RunAsUser : option Z;
  Container_RunAsGroup : option Z;
  Container_SupplementalGroups : list Z;
}.

Record Env := mkEnv { Env_Name : string; Env_Value : string }.

#[export] Instance Env_eq_dec : EqDecision Env.
Proof. solve_decision. Defined.

Record HostMount := mkHostMount { HostMount_Path : string }.
Definition MountTypeHost : string := "host".

(** A value of [interface{}]: what the JSON decoder stores in one, a
    [HostMount] or [json.RawMessage] put there by [MountSource.UnmarshalJSON],
    or a value of some other type, with the JSON text it has if it has one.  A
    number is a float64, given by its shortest text; a map is given by its
    entries; a nil [json.RawMessage] is the empty text. *)
Inductive any :=
| AnyNil
| AnyBool (b : bool)
| AnyNumber (lit : string)
| AnyString (s : string)
| AnySlice (l : list any)
| AnyMap (m : list (string * any))
| AnyHostMount (h : HostMount)
| AnyRawMessage (raw : string)
| AnyOther (type_name repr : string).

Record MountSource := mkMountSource { MountSource_Type : string; MountSource_Source : any }.

Record Mount := mkMount {
  Mount_Path : string;
  Mount_Name : string;
  Mount_ReadOnly : bool;
  Mount_Source : MountSource;
}.

Record InitContainer := mkInitContainer {
  InitContainer_Name : string;
  InitContainer_Image : string;
  InitContainer_Command : string;
  InitContainer_Exe : string;
  InitContainer_Args : list string;
  InitContainer_Mounts : list Mount;
  InitContainer_Env : list Env;
}.

Record JobConfig := mkJobConfig {
  JobConfig_Name : string; JobConfig_Type : string; JobConfig_Value : string }.

Record PlacementConstraint := mkPlacementConstraint {
  PlacementConstraint_Name : string;
  PlacementConstraint_Value : string;
  PlacementConstraint_Default : string;
}.

Record Port := mkPort {
  Port_TargetPort : Z;
  Port_PublishedPort : option Z;
  Port_Protocol : string;
}.

#[export] Instance Port_eq_dec : EqDecision Port.
Proof. solve_decision. Defined.

Record ResourceLimit := mkResourceLimit {
  ResourceLimit_Type : string;
  ResourceLimit_Value : string;
  ResourceLimit_Default : string;
  ResourceLimit_Max : string;
}.

Record ResourceProfile := mkResourceProfile {
  ResourceProfile_Name : string;
  ResourceProfile_DisplayName : string;
  ResourceProfile_Limits : list ResourceLimit;
  ResourceProfile_Queue : string;
  ResourceProfile_Constraints : list PlacementConstraint;
}.

(** [netip.Addr] is kept in its text form. *)
Record Node := mkNode {
  Node_Host : string; Node_IP : string; Node_Port : string;
  Node_LastSeen : Time; Node_Status : string }.

Definition Node_Online (n : Node) : bool := bool_decide (Node_Status n = "Online").

Record Version := mkVersion {
  Version_Major : Z; Version_Minor : Z; Version_Patch : Z;
  Version_Build : Z; Version_Revision : string }.

Definition APIVersion : Version := mkVersion 3 10 0 0 "".

(** ** Jobs *)
Record Job := mkJob {
  Job_ID : JobID;
  Job_Cluster : string;
  Job_Name : string;
  Job_User : string;
  Job_Group : string;
  Job_Queues : list string;
  Job_WorkDir : string;
  Job_Container : option Container;
  Job_InitContainers : list InitContainer;
  Job_Host : string;
  Job_Status : string;
  Job_StatusMsg : string;
  Job_StatusCode : string;
  Job_Pid : option Z;
  Job_ExitCode : option Z;
  Job_Command : string;
  Job_Exe : string;
  Job_Stdout : string;
  Job_Stderr : string;
  Job_Stdin : string;
  Job_Args : list string;
  Job_Env : list Env;
  Job_Constraints : list PlacementConstraint;
  Job_LastUpdated : option Time;
  Job_Submitted : option Time;
  Job_Ports : list Port;
  Job_Mounts : list Mount;
  Job_Config : list JobConfig;
  Job_Limits : list ResourceLimit;
  Job_Tags : list string;
  Job_Metadata : gmap string any;
  Job_Profile : string;
  Job_SystemJob : bool;
  Job_InstanceID : string;
  Job_Misc : gmap string any;
}.

(** The zero value [Job{}]. *)
Definition zeroJob : Job :=
  mkJob "" "" "" "" "" [] "" None [] "" "" "" "" None None "" "" "" "" "" [] [] [] None None [] [] [] [] [] ∅ "" false "" ∅.

#[export] Instance set_Job_ID : Setter Job_ID := ltac:(solve_setter).
#[export] Instance set_Job_Cluster : Setter Job_Cluster := ltac:(solve_setter).
#[export] Instance set_Job_Name : Setter Job_Name := ltac:(solve_setter).
#[export] Instance set_Job_User : Setter Job_User := ltac:(solve_setter).
#[export] Instance set_Job_Group : Setter Job_Group := ltac:(solve_setter).
#[export] Instance set_Job_Queues : Setter Job_Queues := ltac:(solve_setter).
#[export] Instance set_Job_WorkDir : Setter Job_WorkDir := ltac:(solve_setter).
#[export] Instance set_Job_Container : Setter Job_Container := ltac:(solve_setter).
#[export] Instance set_Job_InitContainers : Setter Job_InitContainers := ltac:(solve_setter).
#[export] Instance set_Job_Host : Setter Job_Host := ltac:(solve_setter).
#[export] Instance set_Job_Status : Setter Job_Status := ltac:(solve_setter).
#[export] Instance set_Job_StatusMsg : Setter Job_StatusMsg := ltac:(solve_setter).
#[export] Instance set_Job_StatusCode : Setter Job_StatusCode := ltac:(solve_setter).
#[export] Instance set_Job_Pid : Setter Job_Pid := ltac:(solve_setter).
#[export] Instance set_Job_ExitCode : Setter Job_ExitCode := ltac:(solve_setter).
#[export] Instance set_Job_Command : Setter Job_Command := ltac:(solve_setter).
#[export] Instance set_Job_Exe : Setter Job_Exe := ltac:(solve_setter).
#[export] Instance set_Job_Stdout : Setter Job_Stdout := ltac:(solve_setter).
#[export] Instance set_Job_Stderr : Setter Job_Stderr := ltac:(solve_setter).
#[export] Instance set_Job_Stdin : Setter Job_Stdin := ltac:(solve_setter).
#[export] Instance set_Job_Args : Setter Job_Args := ltac:(solve_setter).
#[export] Instance set_Job_Env : Setter Job_Env := ltac:(solve_setter).
#[export] Instance set_Job_Constraints : Setter Job_Constraints := ltac:(solve_setter).
#[export] Instance set_Job_LastUpdated : Setter Job_LastUpdated := ltac:(solve_setter).
#[export] Instance set_Job_Submitted : Setter Job_Submitted := ltac:(solve_setter).
#[export] Instance set_Job_Ports : Setter Job_Ports := ltac:(solve_setter).
#[export] Instance set_Job_Mounts : Setter Job_Mounts := ltac:(solve_setter).
#[export] Instance set_Job_Config : Setter Job_Config := ltac:(solve_setter).
#[export] Instance set_Job_Limits : Setter Job_Limits := ltac:(solve_setter).
#[export] Instance set_Job_Tags : Setter Job_Tags := ltac:(solve_setter).
#[export] Instance set_Job_Metadata : Setter Job_Metadata := ltac:(solve_setter).
#[export] Instance set_Job_Profile : Setter Job_Profile := ltac:(solve_setter).
#[export] Instance set_Job_SystemJob : Setter Job_SystemJob := ltac:(solve_setter).
#[export] Instance set_Job_InstanceID : Setter Job_InstanceID := ltac:(solve_setter).
#[export] Instance set_Job_Misc : Setter Job_Misc := ltac:(solve_setter).
(** The wire names of the fields and the copy each performs. *)
Definition jobFieldSetters : list (string * (Job → Job → Job)) := [
  ("cluster", λ d s, d <| Job_Cluster := Job_Cluster s |>);
  ("name", λ d s, d <| Job_Name := Job_Name s |>);
  ("user", λ d s, d <| Job_User := Job_User s |>);
  ("group", λ d s, d <| Job_Group := Job_Group s |>);
  ("queues", λ d s, d <| Job_Queues := Job_Queues s |>);
  ("workingDirectory", λ d s, d <| Job_WorkDir := Job_WorkDir s |>);
  ("container", λ d s, d <| Job_Container := Job_Container s |>);
  ("initContainers", λ d s, d <| Job_InitContainers := Job_InitContainers s |>);
  ("host", λ d s, d <| Job_Host := Job_Host s |>);
  ("status", λ d s, d <| Job_Status := Job_Status s |>);
  ("statusMessage", λ d s, d <| Job_StatusMsg := Job_StatusMsg s |>);
  ("statusCode", λ d s, d <| Job_StatusCode := Job_StatusCode s |>);
  ("pid", λ d s, d <| Job_Pid := Job_Pid s |>);
  ("exitCode", λ d s, d <| Job_ExitCode := Job_ExitCode s |>);
  ("command", λ d s, d <| Job_Command := Job_Command s |>);
  ("exe", λ d s, d <| Job_Exe := Job_Exe s |>);
  ("stdoutFile", λ d s, d <| Job_Stdout := Job_Stdout s |>);
  ("stderrFile", λ d s, d <| Job_Stderr := Job_Stderr s |>);
  ("stdin", λ d s, d <| Job_Stdin := Job_Stdin s |>);
  ("args", λ d s, d <| Job_Args := Job_Args s |>);
  ("environment", λ d s, d <| Job_Env := Job_Env s |>);
  ("placementConstraints", λ d s, d <| Job_Constraints := Job_Constraints s |>);
  ("lastUpdateTime", λ d s, d <| Job_LastUpdated := Job_LastUpdated s |>);
  ("submissionTime", λ d s, d <| Job_Submitted := Job_Submitted s |>);
  ("exposedPorts", λ d s, d <| Job_Ports := Job_Ports s |>);
  ("mounts", λ d s, d <| Job_Mounts := Job_Mounts s |>);
  ("config", λ d s, d <| Job_Config := Job_Config s |>);
  ("resourceLimits", λ d s, d <| Job_Limits := Job_Limits s |>);
  ("tags", λ d s, d <| Job_Tags := Job_Tags s |>);
  ("metadata", λ d s, d <| Job_Metadata := Job_Metadata s |>);
  ("resourceProfile", λ d s, d <| Job_Profile := Job_Profile s |>);
  ("systemJob", λ d s, d <| Job_SystemJob := Job_SystemJob s |>);
  ("instanceId", λ d s, d <| Job_InstanceID := Job_InstanceID s |>)
].

(** Lookup in a Go map literal (keys are distinct). *)
Fixpoint assoc_lookup {A} (k : string) (l : list (string * A)) : option A :=
  match l with
  | [] => None
  | (k', a) :: l' => if decide (k = k') then Some a else assoc_lookup k l'
  end.

(** [Job.WithFields]. *)
Definition Job_WithFields (job : Job) (fields : list string) : Job :=
  match fields with
  | [] => job
  | _ =>
      foldl (λ scrubbed f,
        match assoc_lookup f jobFieldSetters with
        | Some set => set scrubbed job
        | None => scrubbed
        end) (zeroJob <| Job_ID := Job_ID job |>) fields
  end.

(** ** Job filters *)
Record JobFilter := mkJobFilter {
  JobFilter_Tags : list string;
  JobFilter_StartTime : option Time;
  JobFilter_EndTime : option Time;
  JobFilter_Statuses : list string;
  JobFilter_Fields : list string;
}.

(** [f.Bound != nil && job.Submitted.Cmp(bound)]: a nil [Submitted] is
    dereferenced only when the bound is present. *)
Definition time_excluded (bound : option Time) (cmp : Time → Time → bool) (submitted : option Time)
    : outcome bool :=
  match bound with
  | None => Ret false
  | Some b => s ← deref submitted; Ret (cmp s b)
  end.

Definition status_matches (statuses : list string) (status : string) : bool :=
  Nat.eqb (length statuses) 0 || existsb (λ s, bool_decide (status = s)) statuses.

Definition tags_match (tags jobTags : list string) : bool :=
  forallb (λ tag, existsb (λ jTag, bool_decide (tag = jTag)) jobTags) tags.

(** [JobFilter.Includes]. *)
Definition JobFilter_Includes (f : JobFilter) (job : Job) : outcome bool :=
  early ← time_excluded (JobFilter_StartTime f) Time_Before (Job_Submitted job);
  if (early : bool) then Ret false else
  late ← time_excluded (JobFilter_EndTime f) Time_After (Job_Submitted job);
  if (late : bool) then Ret false else
  if negb (status_matches (JobFilter_Statuses f) (Job_Status job)) then Ret false else
  Ret (tags_match (JobFilter_Tags f) (Job_Tags job)).

(** ** Job operations *)
Abbreviation JobOperation := Z (only parsing).
Definition OperationSuspend : JobOperation := 0%Z.
Definition OperationResume : JobOperation := 1%Z.
Definition OperationStop : JobOperation := 2%Z.
Definition OperationKill : JobOperation := 3%Z.
Definition OperationCancel : JobOperation := 4%Z.

Definition JobOperation_ValidForStatus (o : JobOperation) : string :=
  if decide (o = OperationSuspend ∨ o = OperationStop ∨ o = OperationKill) then StatusRunning
  else if decide (o = OperationResume) then StatusSuspended
  else if decide (o = OperationCancel) then StatusPending
  else StatusPending.

Definition JobOperation_String (o : JobOperation) : string :=
  if decide (o = OperationSuspend) then "Suspend"
  else if decide (o = OperationResume) then "Resume"
  else if decide (o = OperationStop) then "Stop"
  else if decide (o = OperationKill) then "Kill"
  else if decide (o = OperationCancel) then "Cancel"
  else "Cancel".

Record ControlJobOptions := mkControlJobOptions {
  ControlJobOptions_StatusMessage : string;
  ControlJobOptions_StatusCode : string;
}.

(** ** Text forms of Env, Mount and Port ([flag.Value])

    [Set] returns the new receiver and the error; on error the receiver is
    unchanged. *)
Definition Env_String (e : option Env) : string :=
  match e with
  | None => ""
  | Some e => Env_Name e +:+ "=" +:+ Env_Value e
  end.

Definition Env_Set (e : Env) (s : string) : Env * option error :=
  match strings_Split s "="%char with
  | [name; value] => (mkEnv name value, None)
  | _ => (e, Some (ErrDetail ErrInvalidEnvSpec s))
  end.

Definition Mount_String (m : option Mount) : string :=
  match m with
  | None => ""
  | Some m =>
      if decide (MountSource_Type (Mount_Source m) ≠ MountTypeHost) then ""
      else
        let opt := if Mount_ReadOnly m then "ro" else "rw" in
        match MountSource_Source (Mount_Source m) with
        | AnyHostMount host => HostMount_Path host +:+ ":" +:+ Mount_Path m +:+ ":" +:+ opt
        | _ => ""
        end
  end.

Definition host_mount (src dst : string) (readonly : bool) : Mount :=
  mkMount dst "" readonly (mkMountSource MountTypeHost (AnyHostMount (mkHostMount src))).

Definition Mount_Set (m : Mount) (s : string) : Mount * option error :=
  let spec := strings_Split s ":"%char in
  let src := hd "" spec in
  if negb (path_IsAbs src) then (m, Some (ErrDetail ErrInvalidMountPath src)) else
  let bad_spec := (m, Some (ErrDetail ErrInvalidMountSpec s)) in
  let finish dst (readonly : bool) :=
    if negb (path_IsAbs dst) then (m, Some (ErrDetail ErrInvalidMountPath dst))
    else (host_mount src dst readonly, None) in
  match spec with
  | [_] => finish src false
  | [_; dst] => finish dst false
  | [_; dst; opt] =>
      if decide (opt = "rw") then finish dst false
      else if decide (opt = "ro") then finish dst true
      else bad_spec
  | _ => bad_spec
  end.

Definition Port_String (p : option Port) : string :=
  match p with
  | None => ""
  | Some p =>
      let proto := if decide (Port_Protocol p = "") then "tcp" else Port_Protocol p in
      let published := default (Port_TargetPort p) (Port_PublishedPort p) in
      strconv_Itoa published +:+ ":" +:+ strconv_Itoa (Port_TargetPort p) +:+ "/" +:+ proto
  end.

Definition Port_Set (p : Port) (s : string) : Port * option error :=
  let spec := strings_SplitN2 s "/"%char in
  let proto := match spec with [_; proto] => proto | _ => "tcp" end in
  let ports := strings_Split (hd "" spec) ":"%char in
  if (2 <? length ports)%nat then (p, Some (ErrDetail ErrInvalidPortSpec s)) else
  match strconv_Atoi (hd "" ports) with
  | None => (p, Some (ErrDetail ErrInvalidPort (hd "" ports)))
  | Some port =>
      match ports with
      | [_; t] =>
          match strconv_Atoi t with
          | None => (p, Some (ErrDetail ErrInvalidPort t))
          | Some target =>
              (mkPort target (if decide (target ≠ port) then Some port else None) proto, None)
          end
      | _ => (mkPort port None proto, None)
      end
  end.
