(* ===== verification/TypesFacts.v ===== *)
(** * Properties of the API types (src/api/types.go)

    Field projection is fully characterised ([WithFields] copies exactly the
    requested fields), filters are characterised together with the inputs on
    which they panic, and the text forms of [Env], [Mount] and [Port] are
    shown to parse back to what was printed. *)

From S2P Require Import Prelude GoStd Types.

(** ** A uniform view of the fields of a Job

    The specification of projection speaks about "the field with wire name f";
    fields have different types, so a view injects them into one. *)
Inductive FieldValue :=
| FString (v : string)
| FStrings (v : list string)
| FContainer (v : option Container)
| FInitContainers (v : list InitContainer)
| FInt (v : option Z)
| FEnv (v : list Env)
| FConstraints (v : list PlacementConstraint)
| FTime (v : option Time)
| FPorts (v : list Port)
| FMounts (v : list Mount)
| FConfig (v : list JobConfig)
| FLimits (v : list ResourceLimit)
| FAnyMap (v : gmap string any)
| FBool (v : bool).

Definition jobFieldViews : list (string * (Job → FieldValue)) := [
  ("cluster", λ j, FString (Job_Cluster j));
  ("name", λ j, FString (Job_Name j));
  ("user", λ j, FString (Job_User j));
  ("group", λ j, FString (Job_Group j));
  ("queues", λ j, FStrings (Job_Queues j));
  ("workingDirectory", λ j, FString (Job_WorkDir j));
  ("container", λ j, FContainer (Job_Container j));
  ("initContainers", λ j, FInitContainers (Job_InitContainers j));
  ("host", λ j, FString (Job_Host j));
  ("status", λ j, FString (Job_Status j));
  ("statusMessage", λ j, FString (Job_StatusMsg j));
  ("statusCode", λ j, FString (Job_StatusCode j));
  ("pid", λ j, FInt (Job_Pid j));
  ("exitCode", λ j, FInt (Job_ExitCode j));
  ("command", λ j, FString (Job_Command j));
  ("exe", λ j, FString (Job_Exe j));
  ("stdoutFile", λ j, FString (Job_Stdout j));
  ("stderrFile", λ j, FString (Job_Stderr j));
  ("stdin", λ j, FString (Job_Stdin j));
  ("args", λ j, FStrings (Job_Args j));
  ("environment", λ j, FEnv (Job_Env j));
  ("placementConstraints", λ j, FConstraints (Job_Constraints j));
  ("lastUpdateTime", λ j, FTime (Job_LastUpdated j));
  ("submissionTime", λ j, FTime (Job_Submitted j));
  ("exposedPorts", λ j, FPorts (Job_Ports j));
  ("mounts", λ j, FMounts (Job_Mounts j));
  ("config", λ j, FConfig (Job_Config j));
  ("resourceLimits", λ j, FLimits (Job_Limits j));
  ("tags", λ j, FStrings (Job_Tags j));
  ("metadata", λ j, FAnyMap (Job_Metadata j));
  ("resourceProfile", λ j, FString (Job_Profile j));
  ("systemJob", λ j, FBool (Job_SystemJob j));
  ("instanceId", λ j, FString (Job_InstanceID j))
].

(** The views, the ID and the plugin-local [Misc] determine a job. *)
Lemma job_ext (j1 j2 : Job) :
  Job_ID j1 = Job_ID j2 → Job_Misc j1 = Job_Misc j2 →
  Forall (λ fv, snd fv j1 = snd fv j2) jobFieldViews → j1 = j2.
Proof.
  intros Hid Hmisc Hall. unfold jobFieldViews in Hall.
  decompose_Forall_hyps.
  destruct j1, j2. simplify_eq/=. reflexivity.
Qed.

(** One setter copies its own field and leaves the others alone. *)
Lemma setters_frame d s :
  Forall (λ gs, Job_ID (snd gs d s) = Job_ID d ∧ Job_Misc (snd gs d s) = Job_Misc d ∧
    Forall (λ fv, snd fv (snd gs d s) = if decide (fst fv = fst gs) then snd fv s else snd fv d)
      jobFieldViews) jobFieldSetters.
Proof.
  destruct d, s. unfold jobFieldSetters, jobFieldViews.
  repeat (apply Forall_cons_2 || apply Forall_nil_2 || split); reflexivity.
Qed.

Lemma assoc_lookup_elem {A} k (l : list (string * A)) a :
  assoc_lookup k l = Some a → (k, a) ∈ l.
Proof.
  induction l as [|[k' a'] l IH]; simpl; [done|].
  case_decide; intros; simplify_eq; [by left|right; auto].
Qed.

Lemma assoc_lookup_None {A} k (l : list (string * A)) :
  assoc_lookup k l = None → k ∉ l.*1.
Proof.
  induction l as [|[k' a'] l IH]; simpl; [by intros _ ?%elem_of_nil|].
  case_decide; [done|]. rewrite elem_of_cons. naive_solver.
Qed.

(** Every view has a setter of the same wire name. *)
Lemma views_have_setters : jobFieldViews.*1 = jobFieldSetters.*1.
Proof. reflexivity. Qed.

Definition project_step (job : Job) (scrubbed : Job) (f : string) : Job :=
  match assoc_lookup f jobFieldSetters with
  | Some set => set scrubbed job
  | None => scrubbed
  end.

Lemma project_fold (job d : Job) (fs : list string) :
  let r := foldl (project_step job) d fs in
  Job_ID r = Job_ID d ∧ Job_Misc r = Job_Misc d ∧
  ∀ f view, (f, view) ∈ jobFieldViews → view r = if decide (f ∈ fs) then view job else view d.
Proof.
  revert d. induction fs as [|g fs IH]; intros d; simpl; [done|].
  destruct (IH (project_step job d g)) as (Hid & Hmisc & Hv).
  assert (Job_ID (project_step job d g) = Job_ID d ∧
          Job_Misc (project_step job d g) = Job_Misc d ∧
          ∀ f view, (f, view) ∈ jobFieldViews →
            view (project_step job d g) = if decide (f = g) then view job else view d)
    as (Hid1 & Hmisc1 & Hv1).
  { unfold project_step. destruct (assoc_lookup g jobFieldSetters) as [set|] eqn:Hg.
    - pose proof (setters_frame d job) as Hf. rewrite list.Forall_forall in Hf.
      destruct (Hf (g, set)) as (?&?&Hviews); [by apply assoc_lookup_elem|].
      rewrite list.Forall_forall in Hviews. repeat split; [done..|].
      intros f view Hin. exact (Hviews (f, view) Hin).
    - apply assoc_lookup_None in Hg. repeat split. intros f view Hin.
      rewrite decide_False; [done|]. intros ->. apply Hg. rewrite <- views_have_setters.
      apply list_elem_of_fmap. by exists (g, view). }
  repeat split; [congruence..|]. intros f view Hin. rewrite (Hv _ _ Hin), (Hv1 _ _ Hin).
  destruct (decide (f = g)) as [->|Hne].
  - rewrite (decide_True (P := g ∈ g :: fs)) by (by left). by case_decide.
  - case_decide as H1; case_decide as H2; try done; exfalso;
      rewrite elem_of_cons in H2; tauto.
Qed.

(** ** Filters *)

(** A filter looks at the submission time exactly when it has a time bound. *)
Definition has_time_bound (f : JobFilter) : Prop :=
  is_Some (JobFilter_StartTime f) ∨ is_Some (JobFilter_EndTime f).

(** What a filter asks of a job, in the words of its field comments. *)
Definition filter_accepts (f : JobFilter) (job : Job) : Prop :=
  (∀ t, JobFilter_StartTime f = Some t →
     ∃ s, Job_Submitted job = Some s ∧ (unixNano t ≤ unixNano s)%Z) ∧
  (∀ t, JobFilter_EndTime f = Some t →
     ∃ s, Job_Submitted job = Some s ∧ (unixNano s ≤ unixNano t)%Z) ∧
  (JobFilter_Statuses f ≠ [] → Job_Status job ∈ JobFilter_Statuses f) ∧
  JobFilter_Tags f ⊆ Job_Tags job.

Lemma status_matches_spec statuses status :
  status_matches statuses status = true ↔ (statuses ≠ [] → status ∈ statuses).
Proof.
  unfold status_matches. rewrite existsb_elem_of.
  destruct statuses as [|s l]; simpl; [naive_solver|].
  rewrite bool_decide_eq_true. naive_solver.
Qed.

Lemma tags_match_spec tags jobTags : tags_match tags jobTags = true ↔ tags ⊆ jobTags.
Proof.
  unfold tags_match. rewrite forallb_forall. split.
  - intros H t Ht%list_elem_of_In. specialize (H t Ht). rewrite existsb_elem_of in H.
    by apply bool_decide_eq_true in H.
  - intros H t Ht. rewrite existsb_elem_of. apply bool_decide_eq_true, H.
    by apply list_elem_of_In.
Qed.

Lemma time_excluded_None cmp s : time_excluded None cmp s = Ret false.
Proof. done. Qed.

Lemma Includes_total_iff f job :
  (∃ b, JobFilter_Includes f job = Ret b) ↔ (has_time_bound f → is_Some (Job_Submitted job)).
Proof.
  unfold JobFilter_Includes, has_time_bound, time_excluded, deref.
  destruct (JobFilter_StartTime f), (JobFilter_EndTime f), (Job_Submitted job);
    cbn; repeat case_match; split; intros; naive_solver eauto using mk_is_Some.
Qed.

Lemma Includes_true f job :
  JobFilter_Includes f job = Ret true ↔ filter_accepts f job.
Proof.
  unfold JobFilter_Includes, filter_accepts, time_excluded, deref.
  rewrite <- status_matches_spec, <- tags_match_spec.
  destruct (JobFilter_StartTime f) as [st|], (JobFilter_EndTime f) as [en|],
    (Job_Submitted job) as [s|]; cbn; unfold Time_Before, Time_After;
    repeat match goal with |- context [(?a <? ?b)%Z] => destruct (Z.ltb_spec a b) end;
    destruct (status_matches _ _); cbn; split; intros; destruct_and?; try done;
    try (repeat split; intros; simplify_eq; eexists; split; [done|lia]);
    try (by f_equal); try naive_solver lia.
Qed.

(** ** Errors *)
Lemma Error_Is_spec (e t : Error) :
  Error_Is e (ErrAPI t) = true ↔
  Error_Code e = Error_Code t ∧ (Error_Msg e = "" ∨ Error_Msg t = "" ∨ Error_Msg e = Error_Msg t).
Proof.
  unfold Error_Is. case_decide as H.
  - destruct H as (?&?&?). naive_solver.
  - rewrite bool_decide_eq_true.
    destruct (decide (Error_Msg e = "")), (decide (Error_Msg t = "")),
      (decide (Error_Msg e = Error_Msg t)); naive_solver.
Qed.

Lemma errors_Is_As (err : error) (e t : Error) :
  errors_As_API err = Some e → errors_Is err (ErrAPI t) = Error_Is e (ErrAPI t).
Proof.
  induction err as [e'| | |pre err IH|err IH arg]; simpl; intros; simplify_eq.
  - case_bool_decide as H; [injection H as ->|reflexivity].
    symmetry. apply Error_Is_spec. naive_solver.
  - by apply IH.
  - by apply IH.
Qed.

(** ** Text forms *)
Lemma Env_Set_form e name value :
  contains_byte "="%char name = false →
  Env_Set e (name +:+ "=" +:+ value) =
    if contains_byte "="%char value then (e, Some (ErrDetail ErrInvalidEnvSpec (name +:+ "=" +:+ value)))
    else (mkEnv name value, None).
Proof.
  intros Hn. unfold Env_Set. change ("=" +:+ value) with (String "="%char value).
  rewrite (Split_app_sep _ _ _ Hn). destruct (contains_byte _ value) eqn:Hv.
  - pose proof (Split_sep_In value _ Hv).
    destruct (strings_Split value _) as [|a [|b l]]; simpl in *; try lia. done.
  - by rewrite (Split_no_sep _ _ Hv).
Qed.

(** A port as [Port_Set] writes it: the default protocol filled in and the
    published port dropped when it equals the target. *)
Definition Port_normal (p : Port) : Port :=
  mkPort (Port_TargetPort p)
    (match Port_PublishedPort p with
     | Some q => if decide (Port_TargetPort p ≠ q) then Some q else None
     | None => None
     end)
    (if decide (Port_Protocol p = "") then "tcp" else Port_Protocol p).

Lemma Port_Set_form q published target proto :
  in_int64 published = true → in_int64 target = true →
  Port_Set q (strconv_Itoa published +:+ ":" +:+ strconv_Itoa target +:+ "/" +:+ proto) =
  (mkPort target (if decide (target ≠ published) then Some published else None) proto, None).
Proof.
  intros Hp Ht. unfold Port_Set.
  set (ports := strconv_Itoa published +:+ ":" +:+ strconv_Itoa target).
  assert (strconv_Itoa published +:+ ":" +:+ strconv_Itoa target +:+ "/" +:+ proto =
          ports +:+ String "/"%char proto) as ->.
  { unfold ports. by rewrite !string_app_assoc. }
  rewrite SplitN2_app_sep; [|by unfold ports; rewrite !contains_byte_app, !Itoa_no_byte].
  cbn [hd]. unfold ports.
  change (":" +:+ strconv_Itoa target) with (String ":"%char (strconv_Itoa target)).
  rewrite Split_app_sep by (by apply Itoa_no_byte).
  rewrite Split_no_sep by (by apply Itoa_no_byte).
  cbn. by rewrite !Atoi_Itoa.
Qed.

Lemma Mount_Set_form m src dst opt :
  contains_byte ":"%char src = false → contains_byte ":"%char dst = false →
  contains_byte ":"%char opt = false → path_IsAbs src = true → path_IsAbs dst = true →
  Mount_Set m (src +:+ ":" +:+ dst +:+ ":" +:+ opt) =
    if decide (opt = "rw") then (host_mount src dst false, None)
    else if decide (opt = "ro") then (host_mount src dst true, None)
    else (m, Some (ErrDetail ErrInvalidMountSpec (src +:+ ":" +:+ dst +:+ ":" +:+ opt))).
Proof.
  intros Hs Hd Ho As Ad. unfold Mount_Set.
  assert (strings_Split (src +:+ ":" +:+ dst +:+ ":" +:+ opt) ":"%char = [src; dst; opt]) as ->.
  { change (":" +:+ dst +:+ ":" +:+ opt) with (String ":"%char (dst +:+ String ":"%char opt)).
    by rewrite Split_app_sep, Split_app_sep, Split_no_sep. }
  cbn [hd]. rewrite As, Ad. done.
Qed.

(** ** Properties *)

(** A projected job carries the job's ID, no plugin-local data, the value of
    every requested field and the zero value of every other field; the request
    is a set (order and repetitions do not matter, unknown names are ignored).
    Together with [job_ext] this determines [WithFields] completely. *)
Theorem WithFields_spec (job : Job) (fs : list string) (Hfs : fs ≠ []) :
  Job_ID (Job_WithFields job fs) = Job_ID job ∧
  Job_Misc (Job_WithFields job fs) = ∅ ∧
  ∀ f view, (f, view) ∈ jobFieldViews →
    view (Job_WithFields job fs) = if decide (f ∈ fs) then view job else view zeroJob.
Proof.
  destruct fs as [|g fs]; [done|].
  pose proof (project_fold job (zeroJob <| Job_ID := Job_ID job |>) (g :: fs)) as (Hid & Hm & Hv).
  split; [exact Hid|split; [exact Hm|]]. intros f view Hin.
  etrans; [exact (Hv f view Hin)|]. case_decide; [done|].
  unfold jobFieldViews in Hin.
  repeat (apply elem_of_cons in Hin as [[= -> ->]|Hin]; [reflexivity|]).
  by apply elem_of_nil in Hin.
Qed.

(** A job with a name and a status, projected on its status. *)
Definition sample_job : Job :=
  zeroJob <| Job_ID := "job-1" |> <| Job_Name := "demo" |> <| Job_Status := StatusRunning |>
    <| Job_User := "alice" |>.

Lemma WithFields_spec_witness :
  Job_ID (Job_WithFields sample_job ["status"; "Status"]) = "job-1" ∧
  Job_Status (Job_WithFields sample_job ["status"; "Status"]) = StatusRunning ∧
  Job_Name (Job_WithFields sample_job ["status"; "Status"]) = "".
Proof.
  destruct (WithFields_spec sample_job ["status"; "Status"]) as (H & _ & _); [discriminate|].
  split; [exact H|]. vm_compute. done.
Defined.

(** A filter accepts exactly the jobs submitted within its bounds, with one
    of its statuses (if it names any) and with all of its tags. *)
Theorem Includes_spec (f : JobFilter) (job : Job) :
  JobFilter_Includes f job = Ret true ↔ filter_accepts f job.
Proof. apply Includes_true. Qed.

(** [Includes] panics (nil dereference of [Submitted]) exactly when the
    filter has a time bound and the job has no submission time, which the Job
    type documents as optional. *)
Theorem Includes_panics_iff (f : JobFilter) (job : Job) :
  (∃ why, JobFilter_Includes f job = Panic why) ↔
  has_time_bound f ∧ Job_Submitted job = None.
Proof.
  pose proof (Includes_total_iff f job) as Ht. rewrite eq_None_not_Some.
  destruct (JobFilter_Includes f job) as [b|why] eqn:E.
  - split; [naive_solver|]. intros [Hb Hs]. destruct Hs. apply Ht; eauto.
  - split; [|eauto]. intros _. unfold has_time_bound in *.
    destruct (JobFilter_StartTime f), (JobFilter_EndTime f), (Job_Submitted job);
      naive_solver eauto using mk_is_Some.
Qed.

(** Printing an environment variable and parsing it back succeeds exactly
    when neither name nor value contains '=', and then gives it back. *)
Theorem Env_roundtrip (e0 e : Env) :
  Env_Set e0 (Env_String (Some e)) = (e, None) ↔
  contains_byte "="%char (Env_Name e) = false ∧ contains_byte "="%char (Env_Value e) = false.
Proof.
  unfold Env_String. destruct e as [name value]; cbn [Env_Name Env_Value]. split.
  - unfold Env_Set. intros H.
    pose proof (Split_elem_no_sep (name +:+ "=" +:+ value) "="%char) as Hno.
    destruct (strings_Split _ _) as [|a [|b [|c l]]]; simplify_eq/=.
    by decompose_Forall_hyps.
  - intros [Hn Hv]. rewrite Env_Set_form by done. by rewrite Hv.
Qed.

(** Parsing the printed form of a port gives the port in normal form:
    default protocol "tcp", published port kept only if it differs. *)
Theorem Port_roundtrip (q p : Port)
    (Ht : in_int64 (Port_TargetPort p) = true)
    (Hp : from_option in_int64 true (Port_PublishedPort p) = true) :
  Port_Set q (Port_String (Some p)) = (Port_normal p, None).
Proof.
  destruct p as [target published proto]. unfold Port_String, Port_normal. cbn in *.
  rewrite Port_Set_form by (by destruct published). destruct published as [pub|]; cbn.
  - done.
  - by rewrite decide_False by (intros []; done).
Qed.

Lemma Port_roundtrip_witness :
  Port_Set (mkPort 0 None "") (Port_String (Some (mkPort 8080 (Some 80%Z) ""))) =
  (mkPort 8080 (Some 80%Z) "tcp", None).
Proof. exact (Port_roundtrip (mkPort 0 None "") (mkPort 8080 (Some 80%Z) "") eq_refl eq_refl). Defined.

(** A host mount with absolute, colon-free paths parses back from its
    printed form. *)
Theorem Mount_roundtrip (m : Mount) (src dst : string) (readonly : bool)
    (Hs : contains_byte ":"%char src = false) (Hd : contains_byte ":"%char dst = false)
    (As : path_IsAbs src = true) (Ad : path_IsAbs dst = true) :
  Mount_Set m (Mount_String (Some (host_mount src dst readonly))) =
  (host_mount src dst readonly, None).
Proof.
  change (Mount_String (Some (host_mount src dst readonly)))
    with (src +:+ ":" +:+ dst +:+ ":" +:+ (if readonly then "ro" else "rw")).
  rewrite Mount_Set_form by (by destruct readonly). by destruct readonly.
Qed.

Lemma Mount_roundtrip_witness :
  Mount_Set (host_mount "/a" "/b" false) (Mount_String (Some (host_mount "/mnt/data" "/home" true))) =
  (host_mount "/mnt/data" "/home" true, None).
Proof.
  exact (Mount_roundtrip (host_mount "/a" "/b" false) "/mnt/data" "/home" true
    eq_refl eq_refl eq_refl eq_refl).
Defined.

(** [errors.Is] against an API error sees through wrapping and compares
    codes, and messages only when both are present; so the code-only sentinels
    match every error with their code. *)
Theorem errors_Is_spec (err : error) (e t : Error) (He : errors_As_API err = Some e) :
  errors_Is err (ErrAPI t) = true ↔
  Error_Code e = Error_Code t ∧ (Error_Msg e = "" ∨ Error_Msg t = "" ∨ Error_Msg e = Error_Msg t).
Proof. rewrite (errors_Is_As _ _ _ He). apply Error_Is_spec. Qed.

Lemma errors_Is_spec_witness :
  errors_Is (ErrWrap "lookup" (ErrAPI (Errorf CodeJobNotFound "Job x not found"))) (ErrAPI ErrJobNotFound) = true.
Proof.
  apply (errors_Is_spec _ (Errorf CodeJobNotFound "Job x not found") ErrJobNotFound); [reflexivity|].
  split; [reflexivity|right; left; reflexivity].
Defined.
