(* ===== verification/Store.v ===== *)
(** * The in-memory job store (src/cache/store.go)

    The store is a map from job ID to job.  Every operation holds the store's
    lock for its whole duration, so operations are atomic functions on the
    map.  Jobs handed to callbacks are copies; a callback is a function that
    returns what it computed on the side (its captured variables) together
    with its Go result, and may panic.

    Go leaves the iteration order of a map unspecified: [range] is a parameter,
    of which only "a permutation of the entries" is known. *)

From S2P Require Import Prelude GoStd Types TypesFacts.

Record inMemoryStore := mkStore { store_jobs : gmap string Job }.

Definition newInMemoryStore : inMemoryStore := mkStore ∅.

Definition inMemoryStore_Count (s : inMemoryStore) : nat := size (store_jobs s).

Definition inMemoryStore_View {A} (s : inMemoryStore) (id : string) (fn : option Job → A) : A :=
  match store_jobs s !! id with
  | Some job => let snapshot := job in fn (Some snapshot)
  | None => fn None
  end.

(** [in.F != nil && (job.F == nil || *in.F != *job.F)]. *)
Definition ptr_differs {A} (ne : A → A → bool) (inF jobF : option A) : bool :=
  match inF, jobF with
  | None, _ => false
  | Some _, None => true
  | Some a, Some b => ne a b
  end.

(** [if cond { job.F = v; updated = true }] on the pair (job, updated). *)
Definition sync_field {F} (proj : Job → F) `{!Setter proj} (cond : Job → bool) (v : F)
    (st : Job * bool) : Job * bool :=
  if cond (fst st) then ((fst st) <| proj := v |>, true) else st.

(** [syncJob2(job, in)]; [now] is the value of [time.Now().UTC()]. *)
Definition syncJob2 (now : Time) (job inn : Job) : Job * bool :=
  let st := (job, false) in
  let st := sync_field Job_Status (λ job, bool_decide (Job_Status inn ≠ Job_Status job))
              (Job_Status inn) st in
  let st := sync_field Job_StatusMsg (λ job, bool_decide (Job_StatusMsg inn ≠ Job_StatusMsg job))
              (Job_StatusMsg inn) st in
  let st := sync_field Job_StatusCode (λ job, bool_decide (Job_StatusCode inn ≠ Job_StatusCode job))
              (Job_StatusCode inn) st in
  let st := sync_field Job_Pid (λ job, ptr_differs (λ a b, negb (a =? b)%Z) (Job_Pid inn) (Job_Pid job))
              (Job_Pid inn) st in
  let st := sync_field Job_Host
              (λ job, bool_decide (Job_Host inn ≠ "") && bool_decide (Job_Host inn ≠ Job_Host job))
              (Job_Host inn) st in
  let st := sync_field Job_ExitCode
              (λ job, ptr_differs (λ a b, negb (a =? b)%Z) (Job_ExitCode inn) (Job_ExitCode job))
              (Job_ExitCode inn) st in
  let st := sync_field Job_Submitted
              (λ job, ptr_differs (λ a b, negb (Time_Equal a b)) (Job_Submitted inn) (Job_Submitted job))
              (Job_Submitted inn) st in
  match Job_LastUpdated inn with
  | Some t => ((fst st) <| Job_LastUpdated := Some t |>, true)
  | None =>
      if negb (snd st) then (fst st, false)
      else ((fst st) <| Job_LastUpdated := Some now |>, snd st)
  end.

(** [Update]: the callback sees a snapshot; a nil result changes nothing, a
    result for an absent ID is stored, a result for a present one is merged. *)
Definition inMemoryStore_Update {A} (now : Time) (s : inMemoryStore) (id : string)
    (fn : option Job → outcome (A * option Job)) : outcome (A * inMemoryStore * bool) :=
  let cur := store_jobs s !! id in
  r ← fn cur;
  match snd r with
  | None => Ret (fst r, s, false)
  | Some inn =>
      match cur with
      | None => Ret (fst r, mkStore (<[id := inn]> (store_jobs s)), false)
      | Some cur =>
          let '(result, updated) := syncJob2 now cur inn in
          Ret (fst r, mkStore (<[id := result]> (store_jobs s)), updated)
      end
  end.

Definition inMemoryStore_Delete (s : inMemoryStore) (id : string) : inMemoryStore :=
  mkStore (delete id (store_jobs s)).

(** Does the loop body [continue] past this job?  Shared by [Jobs] and
    [JobsForUser]. *)
Definition job_selected (user : string) (filter : option JobFilter) (job : Job) : outcome bool :=
  if decide (user ≠ "*" ∧ Job_User job ≠ user) then Ret false
  else match filter with
       | None => Ret true
       | Some f => JobFilter_Includes f job
       end.

(** A callback-driven loop that stops when the callback answers [false]. *)
Fixpoint range_jobs {S} (user : string) (filter : option JobFilter)
    (yield : S → Job → outcome (S * bool)) (l : list (string * Job)) (st : S) : outcome S :=
  match l with
  | [] => Ret st
  | (_, job) :: l' =>
      sel ← job_selected user filter job;
      if (sel : bool) then
        r ← yield st job;
        if (snd r : bool) then range_jobs user filter yield l' (fst r) else Ret (fst r)
      else range_jobs user filter yield l' st
  end.

(** The IDs collected by the first loop of [JobsForUser]. *)
Fixpoint collect_ids (user : string) (filter : option JobFilter) (l : list (string * Job))
    : outcome (list JobID) :=
  match l with
  | [] => Ret []
  | (_, job) :: l' =>
      sel ← job_selected user filter job;
      ids ← collect_ids user filter l';
      Ret (if (sel : bool) then Job_ID job :: ids else ids)
  end.

(** [if filter == nil { &snapshot } else { snapshot.WithFields(filter.Fields) }]. *)
Definition project (filter : option JobFilter) (job : Job) : Job :=
  match filter with
  | None => job
  | Some f => Job_WithFields job (JobFilter_Fields f)
  end.

(** The second loop: look every ID up again. *)
Fixpoint lookup_ids (m : gmap string Job) (filter : option JobFilter) (ids : list JobID)
    : outcome (list Job) :=
  match ids with
  | [] => Ret []
  | id :: ids' =>
      snapshot ← deref (m !! id);
      out ← lookup_ids m filter ids';
      Ret (project filter snapshot :: out)
  end.

Section Iteration.
Variable range : gmap string Job → list (string * Job).

(** [Jobs(user, filter)(yield)]. *)
Definition inMemoryStore_Jobs {S} (s : inMemoryStore) (user : string) (filter : option JobFilter)
    (yield : S → Job → outcome (S * bool)) (st : S) : outcome S :=
  range_jobs user filter yield (range (store_jobs s)) st.

(** [JobsForUser]: the slice passed to the callback.  [sort.Slice] orders IDs
    by Go's byte-wise [<]. *)
Definition inMemoryStore_JobsForUser (s : inMemoryStore) (user : string) (filter : option JobFilter)
    : outcome (list Job) :=
  ids ← collect_ids user filter (range (store_jobs s));
  lookup_ids (store_jobs s) filter (merge_sort String.le ids).
End Iteration.

(** ** Invariant: jobs are filed under their own ID *)
Definition store_wf (s : inMemoryStore) : Prop :=
  ∀ id job, store_jobs s !! id = Some job → Job_ID job = id.

#[export] Instance store_wf_dec s : Decision (store_wf s).
Proof.
  change (Decision (map_Forall (λ id job, Job_ID job = id) (store_jobs s))). apply _.
Defined.

Lemma newInMemoryStore_wf : store_wf newInMemoryStore.
Proof. intros id job H. simpl in H. by rewrite lookup_empty in H. Qed.

Lemma Delete_wf s id : store_wf s → store_wf (inMemoryStore_Delete s id).
Proof. intros Hwf k job Hk. simpl in Hk. apply lookup_delete_Some in Hk as [_ Hk]. auto. Qed.

(** ** syncJob2 *)

(** The merge in closed form: what each field becomes, and whether any of them
    changed. *)
Definition sync_fields (job inn : Job) : Job :=
  job <| Job_Status := Job_Status inn |>
    <| Job_StatusMsg := Job_StatusMsg inn |>
    <| Job_StatusCode := Job_StatusCode inn |>
    <| Job_Pid := union (Job_Pid inn) (Job_Pid job) |>
    <| Job_Host := if decide (Job_Host inn = "") then Job_Host job else Job_Host inn |>
    <| Job_ExitCode := union (Job_ExitCode inn) (Job_ExitCode job) |>
    <| Job_Submitted :=
         if ptr_differs (λ a b, negb (Time_Equal a b)) (Job_Submitted inn) (Job_Submitted job)
         then Job_Submitted inn else Job_Submitted job |>.

Definition sync_changed (job inn : Job) : bool :=
  bool_decide (Job_Status inn ≠ Job_Status job)
  || bool_decide (Job_StatusMsg inn ≠ Job_StatusMsg job)
  || bool_decide (Job_StatusCode inn ≠ Job_StatusCode job)
  || ptr_differs (λ a b, negb (a =? b)%Z) (Job_Pid inn) (Job_Pid job)
  || (bool_decide (Job_Host inn ≠ "") && bool_decide (Job_Host inn ≠ Job_Host job))
  || ptr_differs (λ a b, negb (a =? b)%Z) (Job_ExitCode inn) (Job_ExitCode job)
  || ptr_differs (λ a b, negb (Time_Equal a b)) (Job_Submitted inn) (Job_Submitted job).

Lemma ptr_differs_union (a b : option Z) :
  (if ptr_differs (λ x y, negb (x =? y)%Z) a b then a else b) = a ∪ b.
Proof.
  destruct a as [x|], b as [y|]; cbn; try done. destruct (Z.eqb_spec x y); cbn; by subst.
Qed.

Lemma string_changed (a b : string) : (if bool_decide (a ≠ b) then a else b) = a.
Proof. case_bool_decide; [done|]. by destruct (decide (a = b)). Qed.

Lemma host_changed (a b : string) :
  (if bool_decide (a ≠ "") && bool_decide (a ≠ b) then a else b) = if decide (a = "") then b else a.
Proof. repeat case_bool_decide; case_decide; naive_solver. Qed.

(** One guarded assignment as an unconditional one. *)
Lemma sync_field_eq {F} (proj : Job → F) `{!Setter proj} cond v job u :
  job <| proj := proj job |> = job →
  sync_field proj cond v (job, u) =
  (job <| proj := if cond job then v else proj job |>, u || cond job).
Proof.
  intros Hr. unfold sync_field. cbn. destruct (cond job); [by rewrite orb_true_r|].
  cbn in Hr. by rewrite Hr, orb_false_r.
Qed.

Lemma syncJob2_eq now job inn :
  syncJob2 now job inn =
    ((sync_fields job inn)
       <| Job_LastUpdated :=
            match Job_LastUpdated inn with
            | Some t => Some t
            | None => if sync_changed job inn then Some now else Job_LastUpdated job
            end |>,
     bool_decide (is_Some (Job_LastUpdated inn)) || sync_changed job inn).
Proof.
  unfold syncJob2, sync_changed. cbv zeta. destruct job.
  do 7 (rewrite sync_field_eq by reflexivity).
  cbn -[orb bool_decide ptr_differs].
  rewrite !string_changed, host_changed, !ptr_differs_union, orb_false_l.
  destruct (Types.Job_LastUpdated inn); [reflexivity|].
  cbn -[orb bool_decide ptr_differs]. by destruct (_ || ptr_differs _ _ _).
Qed.

Lemma syncJob2_ID now job inn : Job_ID (syncJob2 now job inn).1 = Job_ID job.
Proof. rewrite syncJob2_eq. by destruct job. Qed.

Lemma syncJob2_User now job inn : Job_User (syncJob2 now job inn).1 = Job_User job.
Proof. rewrite syncJob2_eq. by destruct job. Qed.

Lemma syncJob2_Status now job inn : Job_Status (syncJob2 now job inn).1 = Job_Status inn.
Proof. rewrite syncJob2_eq. by destruct job. Qed.

(** ** Update *)

(** The callback keeps the filing invariant when what it returns for an absent
    ID carries that ID. *)
Definition files_under {A} (id : string) (fn : option Job → outcome (A * option Job)) : Prop :=
  ∀ a job, fn None = Ret (a, Some job) → Job_ID job = id.

Lemma Update_wf {A} now s id (fn : option Job → outcome (A * option Job)) a s' u :
  store_wf s → files_under id fn →
  inMemoryStore_Update now s id fn = Ret (a, s', u) → store_wf s'.
Proof.
  intros Hwf Hfn. unfold inMemoryStore_Update.
  destruct (store_jobs s !! id) as [cur|] eqn:Hcur; cbn;
    destruct (fn _) as [[a' [inn|]]|] eqn:Hf; cbn; intros; simplify_eq; try done.
  - destruct (syncJob2 now cur inn) as [res upd] eqn:Hs. simplify_eq.
    intros k j. cbn. rewrite lookup_insert_Some. intros [[-> <-]|[_ Hk]]; [|auto].
    pose proof (syncJob2_ID now cur inn) as Hid. rewrite Hs in Hid. cbn in Hid.
    rewrite Hid. auto.
  - intros k j. cbn. rewrite lookup_insert_Some. intros [[-> <-]|[_ Hk]]; eauto.
Qed.

(** Only the named entry can change. *)
Lemma Update_frame {A} now s id (fn : option Job → outcome (A * option Job)) a s' u k :
  inMemoryStore_Update now s id fn = Ret (a, s', u) → k ≠ id →
  store_jobs s' !! k = store_jobs s !! k.
Proof.
  unfold inMemoryStore_Update. intros H Hne.
  destruct (store_jobs s !! id) as [cur|] eqn:Hcur; cbn in H;
    destruct (fn _) as [[a' [inn|]]|]; cbn in H; simplify_eq; try done;
    [destruct (syncJob2 now cur inn); simplify_eq|]; cbn; by rewrite lookup_insert_ne.
Qed.

Lemma Update_present {A} now s id (fn : option Job → outcome (A * option Job)) cur a inn :
  store_jobs s !! id = Some cur → fn (Some cur) = Ret (a, Some inn) →
  inMemoryStore_Update now s id fn =
    Ret (a, mkStore (<[id := (syncJob2 now cur inn).1]> (store_jobs s)), (syncJob2 now cur inn).2).
Proof.
  intros Hc Hf. unfold inMemoryStore_Update. rewrite Hc, Hf. cbn.
  by destruct (syncJob2 now cur inn).
Qed.

Lemma Update_absent {A} now s id (fn : option Job → outcome (A * option Job)) a inn :
  store_jobs s !! id = None → fn None = Ret (a, Some inn) →
  inMemoryStore_Update now s id fn = Ret (a, mkStore (<[id := inn]> (store_jobs s)), false).
Proof. intros Hc Hf. unfold inMemoryStore_Update. by rewrite Hc, Hf. Qed.

Lemma Update_nil {A} now s id (fn : option Job → outcome (A * option Job)) a :
  fn (store_jobs s !! id) = Ret (a, None) →
  inMemoryStore_Update now s id fn = Ret (a, s, false).
Proof. intros Hf. unfold inMemoryStore_Update. by rewrite Hf. Qed.

(** ** Queries *)

(** The specification of which jobs a query returns. *)
Definition visible (user : string) (filter : option JobFilter) (job : Job) : Prop :=
  (user = "*" ∨ Job_User job = user) ∧ ∀ f, filter = Some f → filter_accepts f job.

(** The query does not dereference a nil submission time on this job. *)
Definition selection_safe (user : string) (filter : option JobFilter) (job : Job) : Prop :=
  ∀ f, filter = Some f → user = "*" ∨ Job_User job = user → has_time_bound f →
  is_Some (Job_Submitted job).

Definition selectedb (user : string) (filter : option JobFilter) (job : Job) : bool :=
  match job_selected user filter job with Ret b => b | Panic _ => false end.

Lemma job_selected_safe user filter job :
  selection_safe user filter job → job_selected user filter job = Ret (selectedb user filter job).
Proof.
  unfold selection_safe, selectedb, job_selected. case_decide as Hu; [done|].
  destruct filter as [f|]; [|done]. intros Hs.
  destruct (Includes_total_iff f job) as [_ Ht].
  destruct Ht as [b Hb]; [|by rewrite Hb]. intros Hf. apply (Hs f); [done| |done].
  destruct (decide (user = "*")); [by left|]. destruct (decide (Job_User job = user)); naive_solver.
Qed.

Lemma selectedb_visible user filter job :
  selectedb user filter job = true ↔ visible user filter job.
Proof.
  unfold selectedb, job_selected, visible. case_decide as Hu; [naive_solver|].
  assert (user = "*" ∨ Job_User job = user) as Hv.
  { destruct (decide (user = "*")), (decide (Job_User job = user)); naive_solver. }
  destruct filter as [f|]; [|naive_solver].
  pose proof (Includes_true f job) as Hi.
  destruct (JobFilter_Includes f job) as [[]|] eqn:E; naive_solver.
Qed.

Lemma collect_ids_safe user filter l :
  Forall (λ kv, selection_safe user filter kv.2) l →
  collect_ids user filter l =
    Ret ((λ kv, Job_ID kv.2) <$> base.filter (λ kv, selectedb user filter kv.2 = true) l).
Proof.
  induction 1 as [|[k job] l Hs _ IH]; [done|]. cbn -[base.filter].
  cbn in Hs. rewrite (job_selected_safe _ _ _ Hs), IH. rewrite filter_cons. cbn.
  destruct (selectedb user filter job); [rewrite decide_True by done|rewrite decide_False by done]; done.
Qed.

Lemma lookup_ids_total m filter ids :
  Forall (λ id, is_Some (m !! id)) ids →
  lookup_ids m filter ids = Ret (project filter <$> ((λ id, default zeroJob (m !! id)) <$> ids)).
Proof.
  induction 1 as [|id ids [job Hj] _ IH]; [done|]. cbn. rewrite Hj. cbn. by rewrite IH.
Qed.

Section Queries.
Variable range : gmap string Job → list (string * Job).
Hypothesis range_perm : ∀ m, range m ≡ₚ map_to_list m.

(** The jobs behind the output of [JobsForUser], in output order. *)
Definition query_ids (s : inMemoryStore) (user : string) (filter : option JobFilter) : list JobID :=
  merge_sort String.le ((λ kv, Job_ID kv.2) <$>
    base.filter (λ kv, selectedb user filter kv.2 = true) (map_to_list (store_jobs s))).

Lemma query_ids_elem s user filter id :
  store_wf s →
  id ∈ query_ids s user filter ↔
  ∃ job, store_jobs s !! id = Some job ∧ visible user filter job.
Proof.
  intros Hwf. unfold query_ids. rewrite merge_sort_Permutation, list_elem_of_fmap. split.
  - intros [[k job] [-> [Hsel Hin]%list_elem_of_filter]]. apply elem_of_map_to_list in Hin.
    cbn in *. rewrite (Hwf _ _ Hin). exists job. by rewrite <- selectedb_visible.
  - intros (job & Hj & Hv). exists (id, job). split; [symmetry; exact (Hwf _ _ Hj)|].
    apply list_elem_of_filter. by rewrite elem_of_map_to_list, selectedb_visible.
Qed.

Lemma query_ids_NoDup s user filter : store_wf s → NoDup (query_ids s user filter).
Proof.
  intros Hwf. unfold query_ids. rewrite merge_sort_Permutation.
  rewrite (list_fmap_ext _ fst).
  - eapply sublist_NoDup; [apply (NoDup_fst_map_to_list (store_jobs s))|].
    apply fmap_sublist, sublist_filter.
  - intros i [k job] Hi. cbn. apply Hwf. apply elem_of_map_to_list.
    apply list_elem_of_lookup_2, list_elem_of_filter in Hi. tauto.
Qed.

Lemma JobsForUser_eq s user filter :
  store_wf s →
  (∀ id job, store_jobs s !! id = Some job → selection_safe user filter job) →
  inMemoryStore_JobsForUser range s user filter =
    Ret (project filter <$> ((λ id, default zeroJob (store_jobs s !! id)) <$> query_ids s user filter)).
Proof.
  intros Hwf Hsafe. unfold inMemoryStore_JobsForUser.
  rewrite collect_ids_safe; cbn.
  - rewrite (merge_sort_perm_eq String.le _ ((λ kv, Job_ID kv.2) <$>
      base.filter (λ kv, selectedb user filter kv.2 = true) (map_to_list (store_jobs s))))
      by (by rewrite range_perm).
    apply lookup_ids_total. apply list.Forall_forall. intros id Hid.
    apply (query_ids_elem s user filter) in Hid as (job & Hj & _); [by exists job|done].
  - rewrite range_perm. apply list.Forall_forall. intros [k job] Hin%elem_of_map_to_list. eauto.
Qed.
End Queries.

(** ** Properties *)

(** [syncJob2] merges exactly the updatable fields.  The status triple is
    replaced; [Pid], [Host], [ExitCode] and [Submitted] are replaced when the
    input carries a (different) value; [LastUpdated] is the input's when given,
    else the current time if anything changed; everything else is kept.  The
    flag tells whether a field changed or the timestamp was set. *)
Theorem syncJob2_spec (now : Time) (job inn : Job) :
  syncJob2 now job inn =
    ((sync_fields job inn)
       <| Job_LastUpdated :=
            match Job_LastUpdated inn with
            | Some t => Some t
            | None => if sync_changed job inn then Some now else Job_LastUpdated job
            end |>,
     bool_decide (is_Some (Job_LastUpdated inn)) || sync_changed job inn).
Proof. apply syncJob2_eq. Qed.

(** The jobs of a query. *)
Lemma JobsForUser_elems (range : gmap string Job → list (string * Job))
    (range_perm : ∀ m, range m ≡ₚ map_to_list m)
    (s : inMemoryStore) (user : string) (filter : option JobFilter)
    (Hwf : store_wf s)
    (Hsafe : ∀ id job, store_jobs s !! id = Some job → selection_safe user filter job) :
  ∃ js, inMemoryStore_JobsForUser range s user filter = Ret (project filter <$> js) ∧
    Sorted String.le (Job_ID <$> js) ∧ NoDup (Job_ID <$> js) ∧
    ∀ job, job ∈ js ↔ store_jobs s !! Job_ID job = Some job ∧ visible user filter job.
Proof.
  exists ((λ id, default zeroJob (store_jobs s !! id)) <$> query_ids s user filter).
  split; [by apply JobsForUser_eq|].
  assert (Job_ID <$> ((λ id, default zeroJob (store_jobs s !! id)) <$> query_ids s user filter)
          = query_ids s user filter) as ->.
  { rewrite <- list_fmap_compose. rewrite (list_fmap_ext _ id); [by rewrite list_fmap_id|].
    intros i id Hi%list_elem_of_lookup_2. apply query_ids_elem in Hi as (job & Hj & _); [|done].
    cbn. rewrite Hj. by apply Hwf. }
  split; [apply (Sorted_merge_sort String.le)|]. split; [by apply query_ids_NoDup|].
  intros job. rewrite list_elem_of_fmap. split.
  - intros (id & -> & Hid). apply query_ids_elem in Hid as (j & Hj & Hv); [|done].
    rewrite Hj. cbn. by rewrite (Hwf _ _ Hj).
  - intros [Hj Hv]. exists (Job_ID job). rewrite Hj. split; [done|].
    apply query_ids_elem; eauto.
Qed.

(** Whatever order the map is iterated in, [JobsForUser] passes the same
    slice to its callback: exactly the stored jobs that are visible to the user
    and accepted by the filter, once each, in increasing ID order, projected on
    the requested fields; and it does not panic when no time-bounded filter
    meets a job without a submission time. *)
Theorem JobsForUser_spec (range : gmap string Job → list (string * Job))
    (range_perm : ∀ m, range m ≡ₚ map_to_list m)
    (s : inMemoryStore) (user : string) (filter : option JobFilter)
    (Hwf : store_wf s)
    (Hsafe : ∀ id job, store_jobs s !! id = Some job → selection_safe user filter job) :
  ∃ js, inMemoryStore_JobsForUser range s user filter = Ret (project filter <$> js) ∧
    Sorted String.le (Job_ID <$> js) ∧ NoDup (Job_ID <$> js) ∧
    ∀ job, job ∈ js ↔ store_jobs s !! Job_ID job = Some job ∧ visible user filter job.
Proof. by apply JobsForUser_elems. Qed.

(** Two users' jobs, one of them terminal. *)
Definition sample_store : inMemoryStore :=
  mkStore (<["job-2" := zeroJob <| Job_ID := "job-2" |> <| Job_User := "bob" |>
                          <| Job_Status := StatusPending |>]>
          (<["job-1" := sample_job]> ∅)).

Lemma JobsForUser_spec_witness :
  ∃ js, inMemoryStore_JobsForUser map_to_list sample_store "*" None = Ret (project None <$> js) ∧
    Sorted String.le (Job_ID <$> js) ∧ NoDup (Job_ID <$> js) ∧
    ∀ job, job ∈ js ↔ store_jobs sample_store !! Job_ID job = Some job ∧ visible "*" None job.
Proof.
  apply (JobsForUser_spec map_to_list (λ m, reflexivity _) sample_store "*" None).
  - apply (bool_decide_unpack (store_wf sample_store)). vm_compute. exact I.
  - intros id job _ f [=].
Defined.

Example sample_query :
  (map Job_ID) <$> inMemoryStore_JobsForUser map_to_list sample_store "*" None
    = Ret ["job-1"; "job-2"] ∧
  (map Job_ID) <$> inMemoryStore_JobsForUser map_to_list sample_store "bob" None = Ret ["job-2"].
Proof. vm_compute. done. Qed.

(** [Update] files jobs under their own ID as long as a job created for an
    absent ID carries that ID, which is what the cache's callbacks ensure; and
    it changes no entry but the named one. *)
Lemma Update_preserves_wf {A} (now : Time) (s s' : inMemoryStore) (id : string)
    (fn : option Job → outcome (A * option Job)) (a : A) (updated : bool)
    (Hwf : store_wf s) (Hfn : files_under id fn)
    (Hup : inMemoryStore_Update now s id fn = Ret (a, s', updated)) :
  store_wf s' ∧ ∀ k, k ≠ id → store_jobs s' !! k = store_jobs s !! k.
Proof. split; [by eapply Update_wf|]. intros k Hk. by eapply Update_frame. Qed.

Lemma Update_preserves_wf_witness :
  let fn := λ cur : option Job, Ret (tt, Some (sample_job <| Job_Status := StatusFinished |>)) in
  ∃ s' u, inMemoryStore_Update (mkTime 7 "UTC") sample_store "job-1" fn = Ret (tt, s', u) ∧
    store_wf s' ∧ (∀ k, k ≠ "job-1" → store_jobs s' !! k = store_jobs sample_store !! k) ∧
    (Job_Status <$> store_jobs s' !! "job-1") = Some StatusFinished.
Proof.
  intros fn.
  destruct (inMemoryStore_Update (mkTime 7 "UTC") sample_store "job-1" fn)
    as [[[[] s'] u]|w] eqn:E; [|vm_compute in E; discriminate].
  exists s', u. split; [reflexivity|].
  destruct (Update_preserves_wf (mkTime 7 "UTC") sample_store s' "job-1" fn tt u) as [H1 H2].
  - apply (bool_decide_unpack (store_wf sample_store)). vm_compute. exact I.
  - intros a job [= _ <-]. reflexivity.
  - exact E.
  - split; [exact H1|]. split; [exact H2|]. vm_compute in E. injection E as <- <-. reflexivity.
Defined.
