(* ===== verification/Writer.v ===== *)
(** * Response writers (src/launcher/launcher.go, the interfaces)

    [ResponseWriter] and [StreamResponseWriter] are the interfaces through
    which a plugin answers a request: type classes over the writer's state, one
    method per Go method, each returning the new state and the Go error.
    [WriterCall] reifies one call; a list of calls is itself a writer (it
    records), and [replay] performs recorded calls on any other writer.
    Client code (the cache, a plugin) is proved against the interface. *)

From Stdlib Require Import SpecFloat.
From S2P Require Import Prelude GoStd Types.

(** IEEE 754 double precision, as the standard library specifies it. *)
Abbreviation float64 := spec_float (only parsing).

(** [float64(n)]. *)
Definition float_of_Z (z : Z) : float64 := binary_normalize 53 1024 z 0 false.

(** A Go slice where nil and empty must be told apart. *)
Abbreviation slice A := (option (list A)) (only parsing).
Definition slice_len {A} (s : slice A) : nat := from_option length 0 s.

Record ImageOptions := mkImageOptions {
  ImageOptions_Default : string;
  ImageOptions_Images : slice string;
  ImageOptions_AllowUnknown : bool;
  ImageOptions_HostNetwork : bool;
  ImageOptions_InitContainers : bool;
}.

Record ClusterOptions := mkClusterOptions {
  ClusterOptions_Constraints : slice PlacementConstraint;
  ClusterOptions_Queues : slice string;
  ClusterOptions_DefaultQueue : string;
  ClusterOptions_Limits : slice ResourceLimit;
  ClusterOptions_ImageOpt : ImageOptions;
  ClusterOptions_Configs : slice JobConfig;
  ClusterOptions_Profiles : slice ResourceProfile;
}.

(** The interfaces.  The arguments of [WriteErrorf] arrive formatted. *)
Class ResponseWriter (W : Type) := {
  WriteErrorf : W → ErrCode → string → W * option error;
  WriteError : W → error → W * option error;
  WriteJobs : W → slice Job → W * option error;
  WriteControlJob : W → bool → string → W * option error;
  WriteJobNetwork : W → string → slice string → W * option error;
  WriteClusterInfo : W → ClusterOptions → W * option error;
}.

Class StreamResponseWriter (W : Type) := {
  stream_base :: ResponseWriter W;
  WriteJobStatus : W → JobID → string → string → string → string → W * option error;
  WriteJobOutput : W → string → JobOutput → W * option error;
  WriteJobResourceUtil : W → float64 → float64 → float64 → float64 → W * option error;
  WriterClose : W → W * option error;
}.

(** One call on a writer. *)
Inductive WriterCall :=
| CallErrorf (code : ErrCode) (msg : string)
| CallError (err : error)
| CallJobs (jobs : slice Job)
| CallControlJob (complete : bool) (msg : string)
| CallJobNetwork (host : string) (addr : slice string)
| CallClusterInfo (o : ClusterOptions)
| CallJobStatus (id : JobID) (name status statusCode msg : string)
| CallJobOutput (output : string) (outputType : JobOutput)
| CallJobResourceUtil (cpuPercent cpuTime residentMem virtualMem : float64)
| CallClose.

Definition perform {W} `{!StreamResponseWriter W} (w : W) (c : WriterCall) : W :=
  match c with
  | CallErrorf code msg => (WriteErrorf w code msg).1
  | CallError err => (WriteError w err).1
  | CallJobs jobs => (WriteJobs w jobs).1
  | CallControlJob complete msg => (WriteControlJob w complete msg).1
  | CallJobNetwork host addr => (WriteJobNetwork w host addr).1
  | CallClusterInfo o => (WriteClusterInfo w o).1
  | CallJobStatus id name status code msg => (WriteJobStatus w id name status code msg).1
  | CallJobOutput out t => (WriteJobOutput w out t).1
  | CallJobResourceUtil a b c d => (WriteJobResourceUtil w a b c d).1
  | CallClose => (WriterClose w).1
  end.

Definition replay {W} `{!StreamResponseWriter W} (w : W) (cs : list WriterCall) : W :=
  foldl perform w cs.

(** The recording writer. *)
Definition record (w : list WriterCall) (c : WriterCall) : list WriterCall * option error :=
  (w ++ [c], None).

#[export] Instance record_ResponseWriter : ResponseWriter (list WriterCall) := {
  WriteErrorf w code msg := record w (CallErrorf code msg);
  WriteError w err := record w (CallError err);
  WriteJobs w jobs := record w (CallJobs jobs);
  WriteControlJob w complete msg := record w (CallControlJob complete msg);
  WriteJobNetwork w host addr := record w (CallJobNetwork host addr);
  WriteClusterInfo w o := record w (CallClusterInfo o);
}.

#[export] Instance record_StreamResponseWriter : StreamResponseWriter (list WriterCall) := {
  WriteJobStatus w id name status code msg := record w (CallJobStatus id name status code msg);
  WriteJobOutput w out t := record w (CallJobOutput out t);
  WriteJobResourceUtil w a b c d := record w (CallJobResourceUtil a b c d);
  WriterClose w := record w CallClose;
}.

Lemma replay_app {W} `{!StreamResponseWriter W} (w : W) cs ds :
  replay w (cs ++ ds) = replay (replay w cs) ds.
Proof. apply foldl_app. Qed.

(** Replaying on the recording writer appends the calls. *)
Lemma replay_record (w cs : list WriterCall) : replay w cs = w ++ cs.
Proof.
  revert w. induction cs as [|c cs IH]; intros w; [by rewrite app_nil_r|].
  change (replay w (c :: cs)) with (replay (perform w c) cs). rewrite IH.
  replace (perform w c) with (w ++ [c]) by (by destruct c). by rewrite <- app_assoc.
Qed.
