(* ===== verification/SubManager.v ===== *)
(** * Channels and subscriptions (src/cache/cache.go, the subscription part)

    Subscriber channels live in a heap, because a manager, its subscriber and
    the goroutine reading the channel all refer to the same channel.  Closing a
    closed channel and sending on one panic.  A subscription list is owned by
    one [subManager]; the caller serialises its operations. *)

From S2P Require Import Prelude GoStd Types.

Record statusUpdate := mkStatusUpdate {
  statusUpdate_ID : JobID;
  statusUpdate_User : string;
  statusUpdate_Name : string;
  statusUpdate_Status : string;
  statusUpdate_StatusCode : string;
  statusUpdate_StatusMsg : string;
}.

#[export] Instance statusUpdate_eq_dec : EqDecision statusUpdate.
Proof. solve_decision. Defined.

Definition newStatusUpdateFromJob (job : Job) : statusUpdate :=
  mkStatusUpdate (Job_ID job) (Job_User job) (Job_Name job) (Job_Status job)
    (Job_StatusCode job) (Job_StatusMsg job).

(** ** Buffered channels of status updates *)
Record chan := mkChan { chan_buf : list statusUpdate; chan_cap : nat; chan_closed : bool }.

#[export] Instance eta_chan : Eta chan := λ c, mkChan (chan_buf c) (chan_cap c) (chan_closed c).
#[export] Instance set_chan_buf : Setter chan_buf := ltac:(solve_setter).
#[export] Instance set_chan_closed : Setter chan_closed := ltac:(solve_setter).

Abbreviation chan_heap := (gmap nat chan) (only parsing).

Definition make_chan (cap : nat) : chan := mkChan [] cap false.

(** [close(c)]. *)
Definition close_chan (h : chan_heap) (c : nat) : outcome chan_heap :=
  ch ← deref (h !! c);
  if chan_closed ch then Panic close_of_closed
  else Ret (<[c := ch <| chan_closed := true |>]> h).

(** [select { case c <- u: true; default: false }] on a channel with a buffer. *)
Definition try_send (h : chan_heap) (c : nat) (u : statusUpdate) : outcome (chan_heap * bool) :=
  ch ← deref (h !! c);
  if chan_closed ch then Panic send_on_closed
  else if (length (chan_buf ch) <? chan_cap ch)%nat
  then Ret (<[c := ch <| chan_buf := chan_buf ch ++ [u] |>]> h, true)
  else Ret (h, false).

(** The result of a receive: a value, "closed and drained" ([ok = false]), or
    the receiver blocks. *)
Inductive received :=
| Received (u : statusUpdate)
| ChanClosed
| Blocked.

Definition receive (h : chan_heap) (c : nat) : chan_heap * received :=
  match h !! c with
  | None => (h, Blocked)
  | Some ch =>
      match chan_buf ch with
      | u :: rest => (<[c := ch <| chan_buf := rest |>]> h, Received u)
      | [] => (h, if chan_closed ch then ChanClosed else Blocked)
      end
  end.

(** ** Contexts

    A context is the path of cancellable contexts from it up to the background
    context, innermost first; cancelling one cancels everything derived from
    it.  [cancelled] holds the contexts whose cancel function was called. *)
Abbreviation context := (list nat) (only parsing).

Definition context_WithCancel (parent : context) (id : nat) : context := id :: parent.

(** [ctx.Err() != nil]. *)
Fixpoint context_Err (cancelled : gset context) (ctx : context) : bool :=
  bool_decide (ctx ∈ cancelled) ||
  match ctx with
  | [] => false
  | _ :: parent => context_Err cancelled parent
  end.

Lemma context_Err_mono (c1 c2 : gset context) ctx :
  c1 ⊆ c2 → context_Err c1 ctx = true → context_Err c2 ctx = true.
Proof.
  intros Hs. induction ctx as [|i ctx IH]; cbn; rewrite !orb_true_iff, !bool_decide_eq_true;
    intuition eauto.
Qed.

(** ** Subscribers and their manager *)
Record subscriber := mkSubscriber {
  subscriber_Context : context;
  subscriber_Channel : nat;
  subscriber_closed : bool;
}.

Record subManager := mkSubManager { subs : list subscriber }.

Definition newSubManager : subManager := mkSubManager [].

Definition subManager_Count (s : subManager) : nat := length (subs s).

Definition subManager_Subscribe (s : subManager) (ctx : context) (ch : nat) : subManager :=
  mkSubManager (subs s ++ [mkSubscriber ctx ch false]).

(** The loop of [Notify] from some element on.  [err sub] is the answer of
    [sub.Context.Err() != nil] when the loop reaches [sub]. *)
Fixpoint notify_loop (err : subscriber → bool) (h : chan_heap) (l : list subscriber)
    (u : statusUpdate) : outcome (chan_heap * list subscriber * (nat * nat)) :=
  match l with
  | [] => Ret (h, [], (0, 0))
  | sub :: rest =>
      if err sub then
        h ← close_chan h (subscriber_Channel sub);
        notify_loop err h rest u
      else
        s ← try_send h (subscriber_Channel sub) u;
        r ← notify_loop err (fst s) rest u;
        let '(h, l, (notified, dropped)) := r in
        Ret (h, sub :: l, if (snd s : bool) then (S notified, dropped) else (notified, S dropped))
  end.

Definition subManager_Notify (err : subscriber → bool) (h : chan_heap) (s : subManager)
    (u : statusUpdate) : outcome (chan_heap * subManager * (nat * nat)) :=
  r ← notify_loop err h (subs s) u;
  let '(h, l, counts) := r in
  Ret (h, mkSubManager l, counts).

(** The loop of [Close]: remove the front element until none is left. *)
Fixpoint close_loop (h : chan_heap) (l : list subscriber) : outcome (chan_heap * nat) :=
  match l with
  | [] => Ret (h, 0)
  | sub :: rest =>
      if subscriber_closed sub then close_loop h rest
      else
        h ← close_chan h (subscriber_Channel sub);
        r ← close_loop h rest;
        Ret (fst r, S (snd r))
  end.

Definition subManager_Close (h : chan_heap) (s : subManager)
    : outcome (chan_heap * subManager * nat) :=
  r ← close_loop h (subs s);
  Ret (fst r, newSubManager, snd r).

(** ** Well-formed subscription lists

    No two subscribers share a channel, and every subscriber's channel is open
    and not marked closed. *)
Definition open_chan (h : chan_heap) (c : nat) : Prop :=
  ∃ ch, h !! c = Some ch ∧ chan_closed ch = false.

Definition subs_wf (h : chan_heap) (l : list subscriber) : Prop :=
  NoDup (subscriber_Channel <$> l) ∧
  Forall (λ sub, subscriber_closed sub = false ∧ open_chan h (subscriber_Channel sub)) l.

(** What one notification does to a subscriber's channel. *)
Definition deliver (err : subscriber → bool) (u : statusUpdate) (sub : subscriber) (ch : chan) : chan :=
  if err sub then ch <| chan_closed := true |>
  else if (length (chan_buf ch) <? chan_cap ch)%nat then ch <| chan_buf := chan_buf ch ++ [u] |>
  else ch.

(** Could the subscriber's channel take one more update? *)
Definition has_room (h : chan_heap) (sub : subscriber) : bool :=
  match h !! subscriber_Channel sub with
  | Some ch => (length (chan_buf ch) <? chan_cap ch)%nat
  | None => false
  end.

Definition live (err : subscriber → bool) (l : list subscriber) : list subscriber :=
  base.filter (λ sub, err sub = false) l.

Lemma subs_wf_cons h sub l :
  subs_wf h (sub :: l) ↔
  (subscriber_Channel sub ∉ subscriber_Channel <$> l) ∧ subscriber_closed sub = false ∧
  open_chan h (subscriber_Channel sub) ∧ subs_wf h l.
Proof. unfold subs_wf. rewrite fmap_cons, list.NoDup_cons, list.Forall_cons. tauto. Qed.

Lemma subs_wf_agree h h' l :
  subs_wf h l → (∀ c, c ∈ subscriber_Channel <$> l → h' !! c = h !! c) → subs_wf h' l.
Proof.
  intros [Hnd Hall] Hag. split; [done|]. rewrite list.Forall_forall in *.
  intros sub Hin. destruct (Hall sub Hin) as (? & ch & Hch & ?). split; [done|].
  exists ch. rewrite Hag; [done|]. by apply list_elem_of_fmap_2.
Qed.

Lemma subs_wf_insert h c ch l :
  c ∉ subscriber_Channel <$> l → subs_wf h l → subs_wf (<[c := ch]> h) l.
Proof.
  intros Hc Hwf. eapply subs_wf_agree; [done|]. intros c' Hc'.
  apply lookup_insert_ne. by intros ->.
Qed.

Lemma close_chan_open h c ch :
  h !! c = Some ch → chan_closed ch = false →
  close_chan h c = Ret (<[c := ch <| chan_closed := true |>]> h).
Proof. intros Hc Ho. unfold close_chan. rewrite Hc. cbn. by rewrite Ho. Qed.

Lemma try_send_open h c ch u :
  h !! c = Some ch → chan_closed ch = false →
  try_send h c u = Ret (if (length (chan_buf ch) <? chan_cap ch)%nat
    then (<[c := ch <| chan_buf := chan_buf ch ++ [u] |>]> h, true) else (h, false)).
Proof. intros Hc Ho. unfold try_send. rewrite Hc. cbn. rewrite Ho. by case_match. Qed.

Lemma has_room_insert h c ch sub :
  c ≠ subscriber_Channel sub → has_room (<[c := ch]> h) sub = has_room h sub.
Proof. intros Hne. unfold has_room. by rewrite lookup_insert_ne. Qed.

(** The room of the subscribers of [l] is not affected by a write to another
    channel. *)
Lemma room_filter_insert (b : bool) h c ch (l : list subscriber) :
  c ∉ subscriber_Channel <$> l →
  base.filter (λ sub, has_room (<[c := ch]> h) sub = b) l = base.filter (λ sub, has_room h sub = b) l.
Proof.
  intros Hc. apply filter_ext_elem. intros sub Hin.
  rewrite has_room_insert; [done|]. intros ->. apply Hc. by apply list_elem_of_fmap_2.
Qed.

Lemma live_channels err l c :
  c ∉ subscriber_Channel <$> l → c ∉ subscriber_Channel <$> live err l.
Proof.
  intros Hc Hin. apply Hc. unfold live in Hin. apply list_elem_of_fmap in Hin as (sub & -> & Hs).
  apply list_elem_of_filter in Hs as [_ Hs]. by apply list_elem_of_fmap_2.
Qed.

(** [Notify] on a well-formed list: no panic; the subscribers whose context
    has ended are removed and their channels closed; of the others, those with
    room get the update and count as notified, the rest count as dropped; no
    other channel changes. *)
Lemma notify_loop_spec err h l u :
  subs_wf h l →
  ∃ h', notify_loop err h l u =
      Ret (h', live err l,
           (length (base.filter (λ sub, has_room h sub = true) (live err l)),
            length (base.filter (λ sub, has_room h sub = false) (live err l)))) ∧
    (∀ sub, sub ∈ l →
       h' !! subscriber_Channel sub = deliver err u sub <$> h !! subscriber_Channel sub) ∧
    (∀ c, c ∉ subscriber_Channel <$> l → h' !! c = h !! c).
Proof.
  revert h. induction l as [|sub l IH]; intros h Hwf.
  { exists h. repeat split. by intros sub ?%elem_of_nil. }
  apply subs_wf_cons in Hwf as (Hfresh & Hcl & (ch & Hch & Hopen) & Hwf).
  set (c := subscriber_Channel sub) in *.
  (* both branches leave the head's channel as [deliver] says and recurse *)
  assert (∀ h1, h1 = <[c := deliver err u sub ch]> h →
    ∃ h', notify_loop err h1 l u =
        Ret (h', live err l,
             (length (base.filter (λ sub, has_room h sub = true) (live err l)),
              length (base.filter (λ sub, has_room h sub = false) (live err l)))) ∧
      (∀ sub', sub' ∈ sub :: l →
         h' !! subscriber_Channel sub' = deliver err u sub' <$> h !! subscriber_Channel sub') ∧
      (∀ c', c' ∉ subscriber_Channel <$> sub :: l → h' !! c' = h !! c')) as Hrec.
  { intros h1 ->. destruct (IH (<[c := deliver err u sub ch]> h)) as (h' & Hn & Hin & Hout).
    { by apply subs_wf_insert. }
    exists h'. rewrite !room_filter_insert in Hn by (by apply live_channels).
    split; [done|]. split.
    - intros sub' [->|Hl]%elem_of_cons.
      + fold c. rewrite Hout, lookup_insert_eq, Hch by done. done.
      + rewrite Hin by done. rewrite lookup_insert_ne; [done|].
        intros ->. apply Hfresh. by apply list_elem_of_fmap_2.
    - intros c' [Hne Hl]%not_elem_of_cons. rewrite Hout by done.
      by rewrite lookup_insert_ne. }
  cbn [notify_loop]. fold c. unfold live, deliver in Hrec |- *. rewrite !filter_cons.
  destruct (err sub) eqn:Herr.
  - rewrite (decide_False (P := true = false)) by done.
    rewrite (close_chan_open _ _ _ Hch Hopen). cbn [mbind outcome_bind].
    destruct (Hrec _ eq_refl) as (h' & -> & ? & ?). by exists h'.
  - rewrite (decide_True (P := false = false)) by done.
    rewrite (try_send_open _ _ _ _ Hch Hopen). cbn [mbind outcome_bind].
    rewrite !filter_cons. destruct (length (chan_buf ch) <? chan_cap ch)%nat eqn:Hlt.
    + assert (has_room h sub = true) as Hr by (unfold has_room; fold c; by rewrite Hch).
      destruct (Hrec _ eq_refl) as (h' & Hn & ? & ?). exists h'. cbn [fst snd].
      rewrite Hn. by rewrite decide_True, decide_False by congruence.
    + assert (has_room h sub = false) as Hr by (unfold has_room; fold c; by rewrite Hch).
      destruct (Hrec h) as (h' & Hn & ? & ?); [by rewrite insert_id|]. exists h'. cbn [fst snd].
      rewrite Hn. by rewrite decide_False, decide_True by congruence.
Qed.

(** [Close] on a well-formed list: no panic; every channel is closed and
    counted, and no other channel changes. *)
Lemma close_loop_spec h l :
  subs_wf h l →
  ∃ h', close_loop h l = Ret (h', length l) ∧
    (∀ c, c ∈ subscriber_Channel <$> l →
       h' !! c = (λ ch, ch <| chan_closed := true |>) <$> h !! c) ∧
    (∀ c, c ∉ subscriber_Channel <$> l → h' !! c = h !! c).
Proof.
  revert h. induction l as [|sub l IH]; intros h Hwf.
  { exists h. repeat split. by intros c ?%elem_of_nil. }
  apply subs_wf_cons in Hwf as (Hfresh & Hcl & (ch & Hch & Hopen) & Hwf).
  cbn [close_loop]. rewrite Hcl, (close_chan_open _ _ _ Hch Hopen). cbn [mbind outcome_bind].
  destruct (IH (<[subscriber_Channel sub := ch <| chan_closed := true |>]> h))
    as (h' & -> & Hin & Hout); [by apply subs_wf_insert|].
  exists h'. split; [done|]. split; intros c Hc; rewrite fmap_cons in Hc.
  - apply elem_of_cons in Hc as [->|Hc].
    + by rewrite Hout, lookup_insert_eq, Hch.
    + rewrite Hin, lookup_insert_ne by (done || by intros <-). done.
  - apply not_elem_of_cons in Hc as [Hne Hc]. by rewrite Hout, lookup_insert_ne.
Qed.

Lemma close_loop_app h l1 l2 :
  close_loop h (l1 ++ l2) =
    (r1 ← close_loop h l1; r2 ← close_loop (fst r1) l2; Ret (fst r2, snd r1 + snd r2)%nat).
Proof.
  revert h. induction l1 as [|sub l1 IH]; intros h; cbn.
  - by destruct (close_loop h l2) as [[]|].
  - destruct (subscriber_closed sub); [apply IH|].
    destruct (close_chan h _); cbn; [|done]. rewrite IH.
    destruct (close_loop _ l1) as [[]|]; cbn; [|done].
    by destruct (close_loop _ l2) as [[]|].
Qed.

Lemma notify_loop_app err h l1 l2 u :
  notify_loop err h (l1 ++ l2) u =
    (r1 ← notify_loop err h l1 u; r2 ← notify_loop err (r1.1.1) l2 u;
     Ret (r2.1.1, r1.1.2 ++ r2.1.2, (r1.2.1 + r2.2.1, r1.2.2 + r2.2.2))%nat).
Proof.
  revert h. induction l1 as [|sub l1 IH]; intros h; cbn [notify_loop app].
  - cbn. by destruct (notify_loop err h l2 u) as [[[] []]|].
  - destruct (err sub).
    + destruct (close_chan h _); cbn; [|done]. by rewrite IH.
    + destruct (try_send h _ u) as [[h1 b]|]; cbn; [|done]. rewrite IH.
      destruct (notify_loop err h1 l1 u) as [[[h2 l] [n d]]|]; cbn; [|done].
      destruct (notify_loop err h2 l2 u) as [[[h3 l'] [n' d']]|]; cbn; [|done].
      by destruct b.
Qed.

(** ** Properties *)

(** [Notify] on a well-formed subscription list never panics.  Subscribers
    whose context has ended are dropped from the list and their channels are
    closed; each other subscriber with room in its channel gets the update at
    the end of the channel and counts as notified, each one without room gets
    nothing and counts as dropped; no other channel changes and the list stays
    well formed. *)
Theorem Notify_spec (err : subscriber → bool) (h : gmap nat chan) (s : subManager) (u : statusUpdate)
    (Hwf : subs_wf h (subs s)) :
  ∃ h' s' notified dropped,
    subManager_Notify err h s u = Ret (h', s', (notified, dropped)) ∧
    subs s' = live err (subs s) ∧
    notified = length (base.filter (λ sub, has_room h sub = true) (live err (subs s))) ∧
    dropped = length (base.filter (λ sub, has_room h sub = false) (live err (subs s))) ∧
    (∀ sub, sub ∈ subs s →
       h' !! subscriber_Channel sub = deliver err u sub <$> h !! subscriber_Channel sub) ∧
    (∀ c, c ∉ subscriber_Channel <$> subs s → h' !! c = h !! c) ∧
    subs_wf h' (subs s').
Proof.
  destruct (notify_loop_spec err h (subs s) u Hwf) as (h' & Heq & Hin & Hout).
  unfold subManager_Notify. rewrite Heq. eexists h', _, _, _. split; [done|]. cbn [subs].
  do 4 (split; [done|]). split; [done|]. destruct Hwf as [Hnd Hall]. split.
  - eapply sublist_NoDup; [exact Hnd|]. apply fmap_sublist, sublist_filter.
  - apply list.Forall_forall. intros sub [He Hs]%list_elem_of_filter.
    rewrite list.Forall_forall in Hall. destruct (Hall _ Hs) as (Hcl & ch & Hch & Ho).
    split; [done|]. exists (deliver err u sub ch). rewrite Hin, Hch by done. split; [done|].
    unfold deliver. rewrite He. by case_match.
Qed.

Lemma Notify_spec_witness :
  let s := mkSubManager [mkSubscriber [1] 0 false; mkSubscriber [2] 1 false; mkSubscriber [3] 2 false] in
  let u := mkStatusUpdate "job-1" "alice" "demo" StatusRunning "" "" in
  let h := {[ 0 := make_chan 1; 1 := make_chan 1; 2 := mkChan [u] 1 false ]} : gmap nat chan in
  let err := λ sub, bool_decide (subscriber_Context sub = [2]) in
  ∃ h' s' notified dropped,
    subManager_Notify err h s u = Ret (h', s', (notified, dropped)) ∧
    subs s' = live err (subs s) ∧ notified = 1 ∧ dropped = 1 ∧ subs_wf h' (subs s').
Proof.
  intros s u h err.
  destruct (Notify_spec err h s u) as (h' & s' & n & d & Heq & Hs & Hn & Hd & _ & _ & Hwf).
  - split.
    + apply (bool_decide_unpack (NoDup (subscriber_Channel <$> subs s))). vm_compute. exact I.
    + repeat constructor; (eexists; split; [vm_compute; reflexivity|reflexivity]).
  - exists h', s', n, d. split; [exact Heq|]. split; [exact Hs|]. split; [rewrite Hn; vm_compute; reflexivity|].
    split; [rewrite Hd; vm_compute; reflexivity|exact Hwf].
Defined.
