(* ===== verification/Cache.v ===== *)
(** * The job cache (src/cache/cache.go)

    [JobCache] keeps the jobs in a store and tells subscribers about status
    changes: writers put updates into the buffered channel [ch] without
    blocking, the service goroutine takes them out and forwards them to the
    managers of all subscribers, of the job's ID and of the job's user.

    This file holds the cache's operations, each an atomic function as the
    store lock or the cache lock makes it; the goroutines that call them and
    their interleavings are in CacheSystem.v. *)

From S2P Require Import Prelude GoStd Types TypesFacts Store Writer SubManager.

(** Capacity of the internal channel, and of a stream's channel. *)
Definition update_cap : nat := 64.
Definition stream_cap : nat := 1.

(** [stop] and [done] tell whether the channel of that name is closed, and
    [closeOnce] whether its function has been started.  [chans] is the heap of
    subscriber channels. *)
Record JobCache := mkJobCache {
  JobCache_store : inMemoryStore;
  JobCache_ch : list statusUpdate;
  JobCache_updates : subManager;
  JobCache_updatesByID : gmap string subManager;
  JobCache_updatesByUser : gmap string subManager;
  JobCache_done : bool;
  JobCache_stop : bool;
  JobCache_closeOnce : bool;
  JobCache_chans : gmap nat chan;
}.

#[export] Instance eta_JobCache : Eta JobCache := λ r,
  mkJobCache (JobCache_store r) (JobCache_ch r) (JobCache_updates r) (JobCache_updatesByID r)
    (JobCache_updatesByUser r) (JobCache_done r) (JobCache_stop r) (JobCache_closeOnce r)
    (JobCache_chans r).

#[export] Instance set_JobCache_store : Setter JobCache_store := ltac:(solve_setter).
#[export] Instance set_JobCache_ch : Setter JobCache_ch := ltac:(solve_setter).
#[export] Instance set_JobCache_updates : Setter JobCache_updates := ltac:(solve_setter).
#[export] Instance set_JobCache_updatesByID : Setter JobCache_updatesByID := ltac:(solve_setter).
#[export] Instance set_JobCache_updatesByUser : Setter JobCache_updatesByUser := ltac:(solve_setter).
#[export] Instance set_JobCache_done : Setter JobCache_done := ltac:(solve_setter).
#[export] Instance set_JobCache_stop : Setter JobCache_stop := ltac:(solve_setter).
#[export] Instance set_JobCache_closeOnce : Setter JobCache_closeOnce := ltac:(solve_setter).
#[export] Instance set_JobCache_chans : Setter JobCache_chans := ltac:(solve_setter).

Definition NewJobCache : JobCache :=
  mkJobCache newInMemoryStore [] newSubManager ∅ ∅ false false false ∅.

(** ** Writing jobs *)

(** The non-blocking three-way select of [notify].  When there is room and the
    cache is closing, Go picks either case: [pick] is its choice. *)
Definition JobCache_notify (pick : bool) (r : JobCache) (ch : list statusUpdate) (job : Job)
    : list statusUpdate :=
  let u := newStatusUpdateFromJob job in
  if (length ch <? update_cap)%nat && (negb (JobCache_stop r) || pick) then ch ++ [u] else ch.

Definition JobCache_AddOrUpdate (pick : bool) (now : Time) (r : JobCache) (job : Job)
    : outcome (JobCache * option error) :=
  res ← inMemoryStore_Update now (JobCache_store r) (Job_ID job) (λ cur,
    match cur with
    | None => Ret (JobCache_notify pick r (JobCache_ch r) job, Some job)
    | Some cur =>
        if decide (Job_Status job ≠ Job_Status cur ∨ Job_StatusMsg job ≠ Job_StatusMsg cur)
        then Ret (JobCache_notify pick r (JobCache_ch r) job, Some job)
        else Ret (JobCache_ch r, Some job)
    end);
  let '(ch, store, _) := res in
  Ret (r <| JobCache_store := store |> <| JobCache_ch := ch |>, None).

(** The user may act on the job: [!(user != "*" && job.User != user)]. *)
Definition user_may (user : string) (job : Job) : bool :=
  bool_decide (user = "*" ∨ Job_User job = user).

Definition not_found_for (user : string) (id : JobID) : error :=
  ErrAPI (mkError CodeJobNotFound ("Job " ++ id ++ " not found for user " ++ user)).

(** [Update]: the callback gets a copy of the job, may return nil, and hands
    back what it captured. *)
Definition JobCache_Update {A} (pick : bool) (now : Time) (r : JobCache) (user : string) (id : JobID)
    (fn : Job → outcome (A * option Job)) : outcome (option A * JobCache * option error) :=
  res ← inMemoryStore_Update now (JobCache_store r) id (λ cur,
    match cur with
    | None => Ret ((None, JobCache_ch r), cur)
    | Some job0 =>
        if negb (user_may user job0) then Ret ((None, JobCache_ch r), cur)
        else
          let oldStatus := Job_Status job0 in
          let oldStatusMsg := Job_StatusMsg job0 in
          f ← fn job0;
          job ← deref (snd f);
          if decide (Job_Status job ≠ oldStatus ∨ Job_StatusMsg job ≠ oldStatusMsg)
          then Ret ((Some (fst f), JobCache_notify pick r (JobCache_ch r) job), Some job)
          else Ret ((Some (fst f), JobCache_ch r), Some job)
    end);
  let '(got, ch, store, _) := res in
  let r' := r <| JobCache_store := store |> <| JobCache_ch := ch |> in
  match got with
  | None => Ret (None, r', Some (not_found_for user id))
  | Some a => Ret (Some a, r', None)
  end.

(** ** Reading jobs *)

Definition JobCache_Lookup {A} (r : JobCache) (user : string) (id : JobID) (fn : Job → A) : A + error :=
  let res := inMemoryStore_View (JobCache_store r) id (λ job,
    match job with
    | None => None
    | Some job => if negb (user_may user job) then None else Some (fn job)
    end) in
  match res with
  | Some a => inl a
  | None =>
      if decide (user = "*")
      then inr (ErrAPI (mkError CodeJobNotFound ("Job " ++ id ++ " not found")))
      else inr (not_found_for user id)
  end.

Definition JobCache_WriteJob {W} `{!ResponseWriter W} (r : JobCache) (w : W) (user : string) (id : JobID) : W :=
  match JobCache_Lookup r user id (λ job, (WriteJobs w (Some [job])).1) with
  | inl w => w
  | inr err => (WriteError w err).1
  end.

Section Iterate.
Variable range : gmap string Job → list (string * Job).

Definition JobCache_WriteJobs {W} `{!ResponseWriter W} (r : JobCache) (w : W) (user : string)
    (filter : option JobFilter) : outcome W :=
  jobs ← inMemoryStore_JobsForUser range (JobCache_store r) user filter;
  Ret (WriteJobs w (Some jobs)).1.

Definition JobCache_All {S} (r : JobCache) (yield : S → Job → outcome (S * bool)) (st : S) : outcome S :=
  inMemoryStore_Jobs range (JobCache_store r) "*" None yield st.

Definition prune_filter : JobFilter :=
  mkJobFilter [] None None [StatusCanceled; StatusFailed; StatusFinished; StatusKilled] [].

(** [job.LastUpdated == nil || job.LastUpdated.After(cutoff)]. *)
Definition recently_updated (cutoff : Time) (job : Job) : bool :=
  match Job_LastUpdated job with
  | None => true
  | Some t => Time_After t cutoff
  end.

(** [Prune(interval)(yield)]: [now] is the time at which [Prune] is called; the
    iterator collects candidates and deletes them when the loop ends. *)
Definition JobCache_Prune {S} (now : Time) (interval : Z) (r : JobCache)
    (yield : S → Job → outcome (S * bool)) (st : S) : outcome (S * JobCache) :=
  let cutoff := Time_Add now (- interval) in
  res ← inMemoryStore_Jobs range (JobCache_store r) "*" (Some prune_filter)
    (λ (acc : S * list JobID) job,
       if recently_updated cutoff job then Ret (acc, true)
       else
         y ← yield (fst acc) job;
         if (snd y : bool) then Ret ((fst y, snd acc ++ [Job_ID job]), true)
         else Ret ((fst y, snd acc), false))
    (st, []);
  Ret (fst res, r <| JobCache_store := foldl inMemoryStore_Delete (JobCache_store r) (snd res) |>).
End Iterate.

(** ** Subscriptions *)

(** [subscribeToID(ctx, id, ch)]: a closing cache closes the channel at once. *)
Definition JobCache_subscribeToID (r : JobCache) (ctx : context) (id : JobID) (ch : nat)
    : outcome JobCache :=
  if JobCache_stop r then
    chans ← close_chan (JobCache_chans r) ch;
    Ret (r <| JobCache_chans := chans |>)
  else
    let mgr := default newSubManager (JobCache_updatesByID r !! id) in
    Ret (r <| JobCache_updatesByID :=
                <[id := subManager_Subscribe mgr ctx ch]> (JobCache_updatesByID r) |>).

Definition JobCache_subscribeToUser (r : JobCache) (ctx : context) (user : string) (ch : nat)
    : outcome JobCache :=
  if JobCache_stop r then
    chans ← close_chan (JobCache_chans r) ch;
    Ret (r <| JobCache_chans := chans |>)
  else if decide (user = "*") then
    Ret (r <| JobCache_updates := subManager_Subscribe (JobCache_updates r) ctx ch |>)
  else
    let mgr := default newSubManager (JobCache_updatesByUser r !! user) in
    Ret (r <| JobCache_updatesByUser :=
                <[user := subManager_Subscribe mgr ctx ch]> (JobCache_updatesByUser r) |>).

(** ** The service goroutine *)

(** [if mgr, ok := m[key]; ok { mgr.Notify(u) }]. *)
Definition notify_entry (err : subscriber → bool) (h : gmap nat chan) (m : gmap string subManager)
    (key : string) (u : statusUpdate) : outcome (gmap nat chan * gmap string subManager * (nat * nat)) :=
  match m !! key with
  | None => Ret (h, m, (0, 0))
  | Some mgr =>
      r ← subManager_Notify err h mgr u;
      let '(h, mgr, counts) := r in
      Ret (h, <[key := mgr]> m, counts)
  end.

(** [processUpdate(u)], with the numbers of subscribers notified and dropped.
    [err] answers the [Context.Err()] of each subscriber. *)
Definition JobCache_processUpdate (err : subscriber → bool) (r : JobCache) (u : statusUpdate)
    : outcome (JobCache * (nat * nat)) :=
  a ← subManager_Notify err (JobCache_chans r) (JobCache_updates r) u;
  let '(h, updates, (n0, d0)) := a in
  b ← notify_entry err h (JobCache_updatesByID r) (statusUpdate_ID u) u;
  let '(h, byID, (n1, d1)) := b in
  c ← notify_entry err h (JobCache_updatesByUser r) (statusUpdate_User u) u;
  let '(h, byUser, (n2, d2)) := c in
  Ret (r <| JobCache_chans := h |> <| JobCache_updates := updates |>
         <| JobCache_updatesByID := byID |> <| JobCache_updatesByUser := byUser |>,
       (n0 + n1 + n2, d0 + d1 + d2)%nat).

(** [for _, mgr := range m { closed += mgr.Close() }] over the entries in some
    order. *)
Fixpoint close_managers (h : gmap nat chan) (m : gmap string subManager)
    (entries : list (string * subManager)) (closed : nat)
    : outcome (gmap nat chan * gmap string subManager * nat) :=
  match entries with
  | [] => Ret (h, m, closed)
  | (key, mgr) :: rest =>
      r ← subManager_Close h mgr;
      let '(h, mgr, n) := r in
      close_managers h (<[key := mgr]> m) rest (closed + n)
  end.

Section Service.
Variable range : gmap string subManager → list (string * subManager).

Definition JobCache_closeSubscribers (r : JobCache) : outcome (JobCache * nat) :=
  a ← subManager_Close (JobCache_chans r) (JobCache_updates r);
  let '(h, updates, closed) := a in
  b ← close_managers h (JobCache_updatesByID r) (range (JobCache_updatesByID r)) closed;
  let '(h, byID, closed) := b in
  c ← close_managers h (JobCache_updatesByUser r) (range (JobCache_updatesByUser r)) closed;
  let '(h, byUser, closed) := c in
  Ret (r <| JobCache_chans := h |> <| JobCache_updates := updates |>
         <| JobCache_updatesByID := byID |> <| JobCache_updatesByUser := byUser |>, closed).

(** The service goroutine's deferred functions: tear down, then [close(r.done)]. *)
Definition JobCache_service_exit (r : JobCache) : outcome JobCache :=
  a ← JobCache_closeSubscribers r;
  Ret ((fst a) <| JobCache_done := true |>).
End Service.

(** [u := <-r.ch] in the service loop. *)
Definition JobCache_service_recv (r : JobCache) : option (statusUpdate * JobCache) :=
  match JobCache_ch r with
  | [] => None
  | u :: rest => Some (u, r <| JobCache_ch := rest |>)
  end.

(** [Close] up to the wait on [r.done]: only the first call closes [r.stop]. *)
Definition JobCache_Close (r : JobCache) : JobCache :=
  if JobCache_closeOnce r then r
  else r <| JobCache_closeOnce := true |> <| JobCache_stop := true |>.

(** ** The streaming helpers, piece by piece

    Between two pieces other goroutines run. *)

(** [w.WriteJobStatus(j.ID, j.Name, j.Status, j.StatusCode, j.StatusMsg)]. *)
Definition write_update {W} `{!StreamResponseWriter W} (w : W) (j : statusUpdate) : W :=
  (WriteJobStatus w (statusUpdate_ID j) (statusUpdate_Name j) (statusUpdate_Status j)
     (statusUpdate_StatusCode j) (statusUpdate_StatusMsg j)).1.

Definition write_status {W} `{!StreamResponseWriter W} (w : W) (job : Job) : W :=
  (WriteJobStatus w (Job_ID job) (Job_Name job) (Job_Status job) (Job_StatusCode job)
     (Job_StatusMsg job)).1.

(** [StreamJobStatus] before the subscription; the flag tells to return. *)
Definition StreamJobStatus_start {W} `{!StreamResponseWriter W} (r : JobCache) (w : W)
    (user : string) (id : JobID) : W * bool :=
  match JobCache_Lookup r user id (λ job, (write_status w job, TerminalStatus (Job_Status job))) with
  | inl res => res
  | inr err => ((WriteError w err).1, true)
  end.

(** [StreamJobStatuses] before the subscription. *)
Definition StreamJobStatuses_start {W} `{!StreamResponseWriter W}
    (range : gmap string Job → list (string * Job)) (r : JobCache) (w : W) (user : string) : outcome W :=
  jobs ← inMemoryStore_JobsForUser range (JobCache_store r) user None;
  Ret (foldl write_status w jobs).

(** One turn of the loop that both of them end in: [None] while the select
    blocks, else the new heap and writer, and whether the loop returns.
    [ctx_done] selects the [<-ctx.Done()] case. *)
Definition status_loop {W} `{!StreamResponseWriter W} (ctx_done : bool) (h : gmap nat chan)
    (ch : nat) (w : W) : option (gmap nat chan * W * bool) :=
  if ctx_done then Some (h, w, true)
  else match receive h ch with
       | (_, Blocked) => None
       | (h, ChanClosed) => Some (h, w, true)
       | (h, Received j) => Some (h, write_update w j, false)
       end.

Definition not_running_error : error :=
  ErrAPI (mkError CodeJobNotRunning "The job is not currently running").

(** [RunningJobContext] before the subscription: the error it returns, if any. *)
Definition RunningJobContext_start (r : JobCache) (user : string) (id : JobID) : option error :=
  match JobCache_Lookup r user id (λ job, TerminalStatus (Job_Status job)) with
  | inr err => Some err
  | inl true => Some not_running_error
  | inl false => None
  end.

(** The second look-up, after the subscription. *)
Definition RunningJobContext_recheck (r : JobCache) (user : string) (id : JobID) : option error :=
  match JobCache_Lookup r user id (λ job, TerminalStatus (Job_Status job)) with
  | inr _ | inl true => Some not_running_error
  | inl false => None
  end.

(** One turn of the watching goroutine's loop; the flag tells that it cancels
    the context and returns. *)
Definition running_loop (parent_done : bool) (h : gmap nat chan) (ch : nat)
    : option (gmap nat chan * bool) :=
  if parent_done then Some (h, true)
  else match receive h ch with
       | (_, Blocked) => None
       | (h, ChanClosed) => Some (h, true)
       | (h, Received u) => Some (h, TerminalStatus (statusUpdate_Status u))
       end.
