(* ===== verification/CacheFacts.v ===== *)
(** * Correctness of the cache's operations

    What [AddOrUpdate], [Update], [Lookup] and [Prune] do on every branch, and
    the effect of [processUpdate] and [closeSubscribers] on the subscribers. *)

From S2P Require Import Prelude GoStd Types TypesFacts Store Writer SubManager Cache.

(** ** Writing and reading jobs *)

(** What [AddOrUpdate] and [Update] leave stored when they write [job] over
    [cur]. *)
Definition merged (now : Time) (cur : option Job) (job : Job) : Job :=
  match cur with None => job | Some cur => (syncJob2 now cur job).1 end.

(** Subscribers are told when a job is new or its status or message changed. *)
Definition announces (cur : option Job) (job : Job) : bool :=
  match cur with
  | None => true
  | Some cur => bool_decide (Job_Status job ≠ Job_Status cur ∨ Job_StatusMsg job ≠ Job_StatusMsg cur)
  end.

Definition written (pick : bool) (now : Time) (r : JobCache) (id : JobID) (job : Job) : JobCache :=
  let cur := store_jobs (JobCache_store r) !! id in
  r <| JobCache_store := mkStore (<[id := merged now cur job]> (store_jobs (JobCache_store r))) |>
    <| JobCache_ch := if announces cur job then JobCache_notify pick r (JobCache_ch r) job
                      else JobCache_ch r |>.

Lemma written_lookup pick now r id job :
  store_jobs (JobCache_store (written pick now r id job)) !! id =
    Some (merged now (store_jobs (JobCache_store r) !! id) job).
Proof. apply lookup_insert_eq. Qed.

Lemma AddOrUpdate_eq pick now r job :
  JobCache_AddOrUpdate pick now r job = Ret (written pick now r (Job_ID job) job, None).
Proof.
  unfold JobCache_AddOrUpdate, written.
  destruct (store_jobs (JobCache_store r) !! Job_ID job) as [cur|] eqn:Hc.
  - rewrite (Update_present _ _ _ _ cur
      (if announces (Some cur) job then JobCache_notify pick r (JobCache_ch r) job
       else JobCache_ch r) job); [done|done|].
    cbn. by case_decide; [rewrite bool_decide_true|rewrite bool_decide_false].
  - by rewrite (Update_absent _ _ _ _ (JobCache_notify pick r (JobCache_ch r) job) job).
Qed.

(** The merge of a job with itself changes nothing. *)
Lemma ptr_differs_refl {A} (ne : A → A → bool) (p : option A) :
  (∀ x, ne x x = false) → ptr_differs ne p p = false.
Proof. intros Hne. destruct p; cbn; auto. Qed.

Lemma differs_refl (x : string) : bool_decide (x ≠ x) = false.
Proof. by apply bool_decide_eq_false_2; intros []. Qed.

Lemma sync_changed_self job : sync_changed job job = false.
Proof.
  unfold sync_changed, Time_Equal.
  rewrite !ptr_differs_refl by (intros; by rewrite Z.eqb_refl).
  by rewrite !differs_refl, andb_false_r.
Qed.

Lemma sync_self now job : (syncJob2 now job job).1 = job.
Proof.
  rewrite syncJob2_eq, sync_changed_self. cbn [fst]. unfold sync_fields, Time_Equal.
  rewrite ptr_differs_refl by (intros; by rewrite Z.eqb_refl).
  destruct job as [????????????? pid exit ???????? upd ???????????]. cbn -[decide].
  case_decide; by destruct upd, pid, exit.
Qed.

(** The three branches of [Update]. *)
Lemma Update_denied {A} pick now r user id (fn : Job → outcome (A * option Job)) :
  (∀ job, store_jobs (JobCache_store r) !! id = Some job → user_may user job = false) →
  JobCache_Update pick now r user id fn = Ret (None, r, Some (not_found_for user id)).
Proof.
  intros Hno. unfold JobCache_Update.
  destruct (store_jobs (JobCache_store r) !! id) as [job|] eqn:Hj.
  - rewrite (Update_present _ _ _ _ job (None, JobCache_ch r) job Hj)
      by (by rewrite (Hno job eq_refl)).
    cbn. rewrite sync_self, insert_id by done. by destruct r as [[] ????????].
  - rewrite Update_nil with (a := (None, JobCache_ch r)) by (by rewrite Hj).
    cbn. by destruct r.
Qed.

Lemma Update_allowed {A} pick now r user id (fn : Job → outcome (A * option Job)) cur a job :
  store_jobs (JobCache_store r) !! id = Some cur → user_may user cur = true →
  fn cur = Ret (a, Some job) →
  JobCache_Update pick now r user id fn = Ret (Some a, written pick now r id job, None).
Proof.
  intros Hc Hu Hf. unfold JobCache_Update, written. rewrite Hc.
  rewrite (Update_present _ _ _ _ cur
    (Some a, if announces (Some cur) job then JobCache_notify pick r (JobCache_ch r) job
             else JobCache_ch r) job Hc); [done|].
  cbn. rewrite Hu. cbn. rewrite Hf. cbn.
  by case_decide; [rewrite bool_decide_true|rewrite bool_decide_false].
Qed.

Lemma Update_returns_nil {A} pick now r user id (fn : Job → outcome (A * option Job)) cur a :
  store_jobs (JobCache_store r) !! id = Some cur → user_may user cur = true →
  fn cur = Ret (a, None) →
  JobCache_Update pick now r user id fn = Panic nil_deref.
Proof.
  intros Hc Hu Hf. unfold JobCache_Update, inMemoryStore_Update. rewrite Hc. cbn.
  rewrite Hu. cbn. by rewrite Hf.
Qed.

(** All branches of [Update] in one equation. *)
Lemma cache_Update_branches {A} (pick : bool) (now : Time) (r : JobCache) (user : string) (id : JobID)
    (fn : Job → outcome (A * option Job)) :
  JobCache_Update pick now r user id fn =
    match store_jobs (JobCache_store r) !! id with
    | None => Ret (None, r, Some (not_found_for user id))
    | Some cur =>
        if user_may user cur then
          f ← fn cur;
          match snd f with
          | Some job => Ret (Some (fst f), written pick now r id job, None)
          | None => Panic nil_deref
          end
        else Ret (None, r, Some (not_found_for user id))
    end.
Proof.
  destruct (store_jobs (JobCache_store r) !! id) as [cur|] eqn:Hc.
  - destruct (user_may user cur) eqn:Hu.
    + destruct (fn cur) as [[a [job|]]|w] eqn:Hf; cbn.
      * by eapply Update_allowed.
      * by eapply Update_returns_nil.
      * unfold JobCache_Update, inMemoryStore_Update. rewrite Hc. cbn. rewrite Hu. cbn. by rewrite Hf.
    + apply Update_denied. intros j Hj. simplify_eq. done.
  - apply Update_denied. intros j Hj. simplify_eq.
Qed.

(** [Lookup] in terms of the stored map. *)
Lemma Lookup_found {A} r user id (fn : Job → A) job :
  store_jobs (JobCache_store r) !! id = Some job → user_may user job = true →
  JobCache_Lookup r user id fn = inl (fn job).
Proof. intros Hj Hu. unfold JobCache_Lookup, inMemoryStore_View. by rewrite Hj, Hu. Qed.

Definition lookup_error (user : string) (id : JobID) : error :=
  if decide (user = "*")
  then ErrAPI (mkError CodeJobNotFound ("Job " ++ id ++ " not found"))
  else not_found_for user id.

Lemma Lookup_denied {A} r user id (fn : Job → A) :
  (∀ job, store_jobs (JobCache_store r) !! id = Some job → user_may user job = false) →
  JobCache_Lookup r user id fn = inr (lookup_error user id).
Proof.
  intros Hno. unfold JobCache_Lookup, inMemoryStore_View, lookup_error.
  destruct (store_jobs (JobCache_store r) !! id) as [job|]; [rewrite (Hno job) by done|];
    cbn; by case_decide.
Qed.

Lemma merged_User now cur job :
  Job_User (merged now (Some cur) job) = Job_User cur.
Proof. apply syncJob2_User. Qed.

Lemma user_may_merged user now cur job :
  user_may user (merged now (Some cur) job) = user_may user cur.
Proof. unfold user_may. by rewrite merged_User. Qed.

(** A merge keeps the owner. *)
Lemma user_may_default user now cur job :
  user_may user (merged now cur job) = user_may user (default job cur).
Proof. destruct cur; [apply user_may_merged|done]. Qed.

(** ** Iteration and pruning *)

(** A callback loop over jobs, without the selection. *)
Fixpoint iterate {S} (yield : S → Job → outcome (S * bool)) (l : list Job) (st : S) : outcome S :=
  match l with
  | [] => Ret st
  | job :: l' =>
      r ← yield st job;
      if (snd r : bool) then iterate yield l' (fst r) else Ret (fst r)
  end.

Lemma range_jobs_iterate {S} user filter (yield : S → Job → outcome (S * bool)) l st :
  Forall (λ kv, selection_safe user filter kv.2) l →
  range_jobs user filter yield l st =
    iterate yield (snd <$> base.filter (λ kv, selectedb user filter kv.2 = true) l) st.
Proof.
  intros Hs. revert st. induction Hs as [|[k job] l Hs _ IH]; intros st; [done|].
  cbn -[base.filter]. cbn in Hs. rewrite (job_selected_safe _ _ _ Hs), filter_cons. cbn.
  destruct (selectedb user filter job).
  - rewrite decide_True by done. cbn. destruct (yield st job) as [[st' []]|]; cbn; auto.
  - rewrite decide_False by done. apply IH.
Qed.

(** A job that [Prune] yields. *)
Definition stale (cutoff : Time) (job : Job) : Prop :=
  TerminalStatus (Job_Status job) = true ∧
  ∃ t, Job_LastUpdated job = Some t ∧ (unixNano t ≤ unixNano cutoff)%Z.

#[export] Instance stale_dec cutoff job : Decision (stale cutoff job).
Proof.
  unfold stale. destruct (Job_LastUpdated job) as [t|].
  - destruct (decide (TerminalStatus (Job_Status job) = true ∧ (unixNano t ≤ unixNano cutoff)%Z));
      [left|right]; naive_solver.
  - right. naive_solver.
Defined.

Lemma prune_filter_selects job :
  selectedb "*" (Some prune_filter) job = TerminalStatus (Job_Status job).
Proof.
  unfold selectedb, job_selected. rewrite decide_False by naive_solver. unfold JobFilter_Includes.
  cbn -[status_matches]. unfold status_matches. rewrite existsb_elem_of. cbn -[bool_decide].
  unfold TerminalStatus. by repeat case_bool_decide.
Qed.

Lemma prune_filter_safe job : selection_safe "*" (Some prune_filter) job.
Proof. intros f [= <-] _ Hb. unfold has_time_bound in Hb. naive_solver. Qed.

Lemma stale_alt cutoff job :
  stale cutoff job ↔
  selectedb "*" (Some prune_filter) job = true ∧ recently_updated cutoff job = false.
Proof.
  rewrite prune_filter_selects. unfold stale, recently_updated, Time_After.
  destruct (Job_LastUpdated job) as [t|]; [rewrite Z.ltb_ge|]; naive_solver.
Qed.

(** A consumer of [Prune]'s iterator: it collects what it is given and breaks
    off when [more] says so; [more] sees everything yielded so far. *)
Definition consumer (more : list Job → bool) (got : list Job) (job : Job)
    : outcome (list Job * bool) := Ret (got ++ [job], more (got ++ [job])).

(** How the loop body of [Prune] treats the selected jobs. *)
Definition prune_body {S} (cutoff : Time) (yield : S → Job → outcome (S * bool))
    (acc : S * list JobID) (job : Job) : outcome ((S * list JobID) * bool) :=
  if recently_updated cutoff job then Ret (acc, true)
  else
    y ← yield (fst acc) job;
    if (snd y : bool) then Ret ((fst y, snd acc ++ [Job_ID job]), true)
    else Ret ((fst y, snd acc), false).

Lemma prune_body_eq cutoff more got ids job :
  prune_body cutoff (consumer more) (got, ids) job =
    Ret (if recently_updated cutoff job then ((got, ids), true)
         else if more (got ++ [job]) then ((got ++ [job], ids ++ [Job_ID job]), true)
         else ((got ++ [job], ids), false)).
Proof. unfold prune_body, consumer. cbn. by repeat case_match. Qed.

Lemma prune_loop cutoff more l got ids :
  let old := base.filter (λ job, recently_updated cutoff job = false) l in
  ∃ Y D, iterate (prune_body cutoff (consumer more)) l (got, ids)
           = Ret (got ++ Y, ids ++ (Job_ID <$> D)) ∧
    ((Y = old ∧ D = Y) ∨ (∃ job, Y = D ++ [job] ∧ Y `prefix_of` old ∧ more (got ++ Y) = false)).
Proof.
  cbv zeta. revert got ids. induction l as [|job l IH]; intros got ids.
  { exists [], []. cbn. rewrite !app_nil_r. naive_solver. }
  cbn [iterate]. rewrite prune_body_eq, filter_cons.
  destruct (recently_updated cutoff job) eqn:Hr.
  { rewrite decide_False by done. apply IH. }
  rewrite decide_True by done.
  destruct (more (got ++ [job])) eqn:Hm; cbn [mbind outcome_bind fst snd].
  - destruct (IH (got ++ [job]) (ids ++ [Job_ID job])) as (Y & D & -> & Hcase).
    exists (job :: Y), (job :: D). rewrite fmap_cons, <- !app_assoc. split; [done|].
    destruct Hcase as [[-> ->]|(j & -> & Hp & Hmore)]; [by left|right].
    exists j. rewrite <- app_assoc in Hmore. split; [done|]. split; [by apply prefix_cons|done].
  - exists [job], []. cbn. rewrite app_nil_r. split; [done|]. right. exists job.
    split; [done|]. split; [by apply prefix_cons, prefix_nil|done].
Qed.

Lemma Delete_all_lookup ids s id :
  store_jobs (foldl inMemoryStore_Delete s ids) !! id =
    if decide (id ∈ ids) then None else store_jobs s !! id.
Proof.
  revert s. induction ids as [|k ids IH]; intros s; [done|]. cbn [foldl]. rewrite IH.
  unfold inMemoryStore_Delete. cbn [store_jobs].
  destruct (decide (id = k)) as [->|Hne].
  - rewrite lookup_delete_eq. by repeat case_decide; set_solver.
  - rewrite lookup_delete_ne by done. by repeat case_decide; set_solver.
Qed.

Lemma Prune_eq range now interval r more :
  let cutoff := Time_Add now (- interval) in
  let old := base.filter (stale cutoff) (snd <$> range (store_jobs (JobCache_store r))) in
  ∃ Y D, JobCache_Prune range now interval r (consumer more) []
      = Ret (Y, r <| JobCache_store :=
                       foldl inMemoryStore_Delete (JobCache_store r) (Job_ID <$> D) |>) ∧
    ((Y = old ∧ D = Y) ∨ (∃ job, Y = D ++ [job] ∧ Y `prefix_of` old ∧ more Y = false)).
Proof.
  cbv zeta. set (cutoff := Time_Add now (- interval)).
  unfold JobCache_Prune, inMemoryStore_Jobs. fold cutoff.
  rewrite range_jobs_iterate
    by (apply list.Forall_forall; intros [k j] _; apply prune_filter_safe).
  set (l := range (store_jobs (JobCache_store r))).
  destruct (prune_loop cutoff more
    (snd <$> base.filter (λ kv, selectedb "*" (Some prune_filter) kv.2 = true) l) [] [])
    as (Y & D & Hit & Hcase).
  unfold prune_body in Hit. exists Y, D. rewrite Hit. split; [done|].
  replace (base.filter (stale cutoff) (snd <$> l)) with
    (base.filter (λ job, recently_updated cutoff job = false)
      (snd <$> base.filter (λ kv, selectedb "*" (Some prune_filter) kv.2 = true) l)); [done|].
  clear. induction l as [|[k job] l IH]; [done|]. rewrite fmap_cons, !filter_cons. cbn [snd].
  destruct (decide (selectedb "*" (Some prune_filter) job = true)) as [Hs|Hs].
  - rewrite fmap_cons, filter_cons, IH. cbn [snd]. pose proof (stale_alt cutoff job).
    by repeat case_decide; intuition.
  - rewrite IH. pose proof (stale_alt cutoff job). by repeat case_decide; intuition.
Qed.

(** ** Notification and teardown across the managers *)

(** The subscription lists of a cache, by what they subscribe to. *)
Inductive topic := TopicAll | TopicID (id : JobID) | TopicUser (user : string).

#[export] Instance topic_eq_dec : EqDecision topic.
Proof. solve_decision. Defined.

Definition topic_subs (r : JobCache) (k : topic) : list subscriber :=
  match k with
  | TopicAll => subs (JobCache_updates r)
  | TopicID id => from_option subs [] (JobCache_updatesByID r !! id)
  | TopicUser user => from_option subs [] (JobCache_updatesByUser r !! user)
  end.

Definition topic_matches (k : topic) (u : statusUpdate) : bool :=
  match k with
  | TopicAll => true
  | TopicID id => bool_decide (statusUpdate_ID u = id)
  | TopicUser user => bool_decide (statusUpdate_User u = user)
  end.

(** The subscribers an update is for, in the order they are notified. *)
Definition targets (r : JobCache) (u : statusUpdate) : list subscriber :=
  topic_subs r TopicAll ++ topic_subs r (TopicID (statusUpdate_ID u)) ++
  topic_subs r (TopicUser (statusUpdate_User u)).

Lemma targets_elem r u sub :
  sub ∈ targets r u ↔ ∃ k, topic_matches k u = true ∧ sub ∈ topic_subs r k.
Proof.
  unfold targets. rewrite !elem_of_app. split.
  - intros [?|[?|?]]; eexists; (split; [|eassumption]); cbn; by rewrite ?bool_decide_true.
  - intros ([|id|user] & Hm & Hin); cbn in Hm; try apply bool_decide_eq_true in Hm; subst; auto.
Qed.

(** Every update reaches each of its subscribers once: a channel is registered
    under one topic only. *)
Definition subs_disjoint (r : JobCache) : Prop :=
  (∀ k, subs_wf (JobCache_chans r) (topic_subs r k)) ∧
  (∀ k1 k2 c, c ∈ subscriber_Channel <$> topic_subs r k1 →
     c ∈ subscriber_Channel <$> topic_subs r k2 → k1 = k2).

Lemma subs_wf_app h l1 l2 :
  subs_wf h l1 → subs_wf h l2 →
  (∀ c, c ∈ subscriber_Channel <$> l1 → c ∉ subscriber_Channel <$> l2) →
  subs_wf h (l1 ++ l2).
Proof.
  intros [Hn1 Hf1] [Hn2 Hf2] Hd. split; [|by apply Forall_app].
  rewrite fmap_app. by apply list.NoDup_app.
Qed.

Lemma targets_wf r u : subs_disjoint r → subs_wf (JobCache_chans r) (targets r u).
Proof.
  intros [Hwf Hd]. unfold targets.
  repeat apply subs_wf_app; auto; intros c Hc; rewrite ?fmap_app, ?elem_of_app.
  - intros Hc'. by specialize (Hd _ _ _ Hc Hc').
  - intros [Hc'|Hc']; by specialize (Hd _ _ _ Hc Hc').
Qed.

Lemma notify_loop_live err h l u h' l' counts :
  notify_loop err h l u = Ret (h', l', counts) → l' = live err l.
Proof.
  revert h h' l' counts. induction l as [|sub l IH]; intros h h' l' counts; cbn [notify_loop]; [by intros [=]|].
  unfold live. rewrite filter_cons. destruct (err sub).
  - rewrite decide_False by done. intros (h1 & _ & Hn)%bind_Ret_inv. by apply IH in Hn.
  - rewrite decide_True by done.
    intros (s & _ & (((h2 & l2) & n & d) & Hn & Hr)%bind_Ret_inv)%bind_Ret_inv.
    apply IH in Hn. simplify_eq. done.
Qed.

(** The list an entry of a map of managers stands for, and the map after its
    list has become [l]. *)
Definition set_entry (m : gmap string subManager) (key : string) (l : list subscriber)
    : gmap string subManager :=
  match m !! key with None => m | Some _ => <[key := mkSubManager l]> m end.

Lemma set_entry_lookup m key l k :
  from_option subs [] (set_entry m key l !! k) =
    if decide (k = key) then (if m !! key then l else []) else from_option subs [] (m !! k).
Proof.
  unfold set_entry. destruct (m !! key) eqn:Hk; case_decide as Hd; subst.
  - by rewrite lookup_insert_eq.
  - by rewrite lookup_insert_ne.
  - by rewrite Hk.
  - done.
Qed.

Lemma notify_entry_eq err h m key u :
  notify_entry err h m key u =
    (r ← notify_loop err h (from_option subs [] (m !! key)) u;
     Ret (r.1.1, set_entry m key r.1.2, r.2)).
Proof.
  unfold notify_entry, set_entry, subManager_Notify. destruct (m !! key) as [mgr|]; [|done]. cbn.
  by destruct (notify_loop err h (subs mgr) u) as [[[] ]|].
Qed.

(** The parts of a cache that notification and teardown leave alone. *)
Definition same_store (r r' : JobCache) : Prop :=
  JobCache_store r' = JobCache_store r ∧ JobCache_ch r' = JobCache_ch r ∧
  JobCache_stop r' = JobCache_stop r ∧ JobCache_closeOnce r' = JobCache_closeOnce r.

Lemma live_empty_entry err m key :
  (if (m : gmap string subManager) !! key then live err (from_option subs [] (m !! key)) else [])
  = live err (from_option subs [] (m !! key)).
Proof. by destruct (m !! key). Qed.

Lemma room_counts h l :
  (length (base.filter (λ sub, has_room h sub = true) l) +
   length (base.filter (λ sub, has_room h sub = false) l) = length l)%nat.
Proof.
  induction l as [|sub l IH]; [done|]. rewrite !filter_cons. destruct (has_room h sub) eqn:E; cbn [length];
    repeat case_decide; try congruence; cbn [length]; lia.
Qed.

Lemma processUpdate_eq err r u :
  subs_disjoint r →
  ∃ r', JobCache_processUpdate err r u =
      Ret (r', (length (base.filter (λ sub, has_room (JobCache_chans r) sub = true) (live err (targets r u))),
                length (base.filter (λ sub, has_room (JobCache_chans r) sub = false) (live err (targets r u))))) ∧
    same_store r r' ∧ JobCache_done r' = JobCache_done r ∧
    (∀ k, topic_subs r' k =
            if topic_matches k u then live err (topic_subs r k) else topic_subs r k) ∧
    (∀ sub, sub ∈ targets r u →
       JobCache_chans r' !! subscriber_Channel sub =
         deliver err u sub <$> JobCache_chans r !! subscriber_Channel sub) ∧
    (∀ c, c ∉ subscriber_Channel <$> targets r u →
       JobCache_chans r' !! c = JobCache_chans r !! c).
Proof.
  intros Hd. destruct (notify_loop_spec err _ _ u (targets_wf r u Hd)) as (h' & Heq & Hin & Hout).
  unfold targets in Heq at 1. rewrite !notify_loop_app in Heq.
  apply bind_Ret_inv in Heq as ([[h1 l1] [n1 d1]] & H1 & Heq). cbn in Heq.
  rewrite notify_loop_app in Heq.
  apply bind_Ret_inv in Heq as ([[h3 l3] [n3 d3]] & H3 & Heq).
  apply bind_Ret_inv in H3 as ([[h2 l2] [n2 d2]] & H2 & H3). cbn in H3.
  apply bind_Ret_inv in H3 as ([[h3' l3'] [n3' d3']] & H3 & H3'). cbn in *. simplify_eq.
  unfold JobCache_processUpdate, subManager_Notify. cbn in H1. rewrite H1. cbn.
  rewrite notify_entry_eq. cbn in H2. rewrite H2. cbn.
  rewrite notify_entry_eq. cbn in H3. rewrite H3. cbn.
  eexists. split; [by rewrite <- H0, <- H4, !Nat.add_assoc|].
  apply notify_loop_live in H1, H2, H3. subst. clear -Hin Hout.
  destruct r as [st ch up byID byUser dn sp once h]. cbn in *.
  split; [done|]. split; [done|]. split; [|done].
  intros [|id|user]; cbn; [done| |]; rewrite set_entry_lookup, live_empty_entry;
    repeat (case_decide || case_bool_decide); naive_solver.
Qed.

(** The subscribers of all entries of a map of managers. *)
Definition entries_subs (entries : list (string * subManager)) : list subscriber :=
  entries ≫= λ kv, subs kv.2.

Lemma close_managers_eq h m entries closed :
  close_managers h m entries closed =
    (r ← close_loop h (entries_subs entries);
     Ret (r.1, foldl (λ m kv, <[kv.1 := newSubManager]> m) m entries, (closed + r.2)%nat)).
Proof.
  revert h m closed. induction entries as [|[k mgr] entries IH]; intros h m closed.
  - cbn. by rewrite Nat.add_0_r.
  - cbn [close_managers]. unfold entries_subs. cbn [mbind list_bind].
    rewrite close_loop_app. unfold subManager_Close. cbn [snd].
    destruct (close_loop h (subs mgr)) as [[h1 n1]|]; cbn; [|done].
    rewrite IH. unfold entries_subs.
    destruct (close_loop h1 _) as [[h2 n2]|]; cbn; [|done]. by rewrite Nat.add_assoc.
Qed.

Lemma reset_entries_lookup (entries : list (string * subManager)) (m : gmap string subManager) k :
  from_option subs [] (foldl (λ m kv, <[kv.1 := newSubManager]> m) m entries !! k) =
    if decide (k ∈ entries.*1) then [] else from_option subs [] (m !! k).
Proof.
  revert m. induction entries as [|[k' mgr] entries IH]; intros m; [done|]. cbn [foldl].
  rewrite IH. cbn. destruct (decide (k = k')) as [->|].
  - rewrite lookup_insert_eq. by repeat case_decide; set_solver.
  - rewrite lookup_insert_ne by done. repeat case_decide; set_solver.
Qed.

Lemma entries_subs_elem entries c :
  c ∈ subscriber_Channel <$> entries_subs entries ↔
  ∃ kv, kv ∈ entries ∧ c ∈ subscriber_Channel <$> subs kv.2.
Proof.
  unfold entries_subs. rewrite list_elem_of_fmap. setoid_rewrite list_elem_of_bind.
  setoid_rewrite list_elem_of_fmap. naive_solver.
Qed.

Section Teardown.
Variable range : gmap string subManager → list (string * subManager).
Hypothesis range_perm : ∀ m, range m ≡ₚ map_to_list m.

Lemma range_elem m k mgr : (k, mgr) ∈ range m ↔ m !! k = Some mgr.
Proof. by rewrite range_perm, elem_of_map_to_list. Qed.

Lemma range_keys m k : k ∈ (range m).*1 ↔ is_Some (m !! k).
Proof.
  rewrite list_elem_of_fmap. split.
  - intros ([k' mgr] & -> & Hin%range_elem). by exists mgr.
  - intros [mgr Hm]. exists (k, mgr). by rewrite range_elem.
Qed.

(** The entries of one map are disjoint when the topics are. *)
Lemma entries_wf r (f : string → topic) (entries : list (string * subManager)) :
  subs_disjoint r → Inj (=) (=) f → NoDup entries.*1 →
  Forall (λ kv, subs kv.2 = topic_subs r (f kv.1)) entries →
  subs_wf (JobCache_chans r) (entries_subs entries).
Proof.
  intros [Hwf Hd] Hf. induction entries as [|[k mgr] entries IH]; intros Hnd Hall.
  { split; [constructor|constructor]. }
  cbn in Hnd. apply list.NoDup_cons in Hnd as [Hk Hnd]. apply list.Forall_cons in Hall as [Hm Hall].
  cbn in Hm. unfold entries_subs. cbn [mbind list_bind]. apply subs_wf_app.
  - cbn. rewrite Hm. apply Hwf.
  - by apply IH.
  - intros c Hc ([k' mgr'] & Hin & Hc')%entries_subs_elem. cbn in *.
    rewrite list.Forall_forall in Hall. specialize (Hall _ Hin). cbn in Hall.
    rewrite Hm in Hc. rewrite Hall in Hc'. specialize (Hd _ _ _ Hc Hc'). apply Hf in Hd as ->.
    apply Hk. apply list_elem_of_fmap. by exists (k', mgr').
Qed.

Lemma entries_topic r (m : gmap string subManager) (f : string → topic) :
  (∀ k, topic_subs r (f k) = from_option subs [] (m !! k)) →
  Forall (λ kv, subs kv.2 = topic_subs r (f kv.1)) (range m).
Proof.
  intros Hf. apply list.Forall_forall. intros [k mgr] Hin%range_elem. cbn. by rewrite Hf, Hin.
Qed.

Lemma entries_chan r (m : gmap string subManager) (f : string → topic) c :
  (∀ k, topic_subs r (f k) = from_option subs [] (m !! k)) →
  c ∈ subscriber_Channel <$> entries_subs (range m) ↔
  ∃ k, c ∈ subscriber_Channel <$> topic_subs r (f k).
Proof.
  intros Hf. rewrite entries_subs_elem. split.
  - intros ([k mgr] & Hin%range_elem & Hc). exists k. by rewrite Hf, Hin.
  - intros (k & Hc). rewrite Hf in Hc. destruct (m !! k) as [mgr|] eqn:Hm; [|by apply elem_of_nil in Hc].
    exists (k, mgr). by rewrite range_elem.
Qed.

(** All subscribers, in the order of the teardown. *)
Definition all_subs (r : JobCache) : list subscriber :=
  topic_subs r TopicAll ++ entries_subs (range (JobCache_updatesByID r)) ++
  entries_subs (range (JobCache_updatesByUser r)).

Lemma all_subs_elem r c :
  c ∈ subscriber_Channel <$> all_subs r ↔ ∃ k, c ∈ subscriber_Channel <$> topic_subs r k.
Proof.
  unfold all_subs. rewrite !fmap_app, !elem_of_app.
  rewrite (entries_chan r _ TopicID), (entries_chan r _ TopicUser) by done. split.
  - intros [Hc|[[k Hc]|[k Hc]]]; eauto.
  - intros [[|id|user] Hc]; eauto.
Qed.

Lemma all_subs_wf r : subs_disjoint r → subs_wf (JobCache_chans r) (all_subs r).
Proof.
  intros Hd. pose proof Hd as [Hwf Hdis]. unfold all_subs.
  assert (∀ (m : gmap string subManager) f, Inj (=) (=) f →
    (∀ k, topic_subs r (f k) = from_option subs [] (m !! k)) →
    subs_wf (JobCache_chans r) (entries_subs (range m))) as Hm.
  { intros m f Hf Htop. eapply entries_wf; [done|done| |by apply entries_topic].
    rewrite range_perm. apply NoDup_fst_map_to_list. }
  apply subs_wf_app; [apply Hwf|apply subs_wf_app|].
  - apply (Hm _ TopicID); [by intros ?? [=]|done].
  - apply (Hm _ TopicUser); [by intros ?? [=]|done].
  - intros c Hc Hc'. apply (entries_chan r _ TopicID) in Hc as [k1 Hc]; [|done].
    apply (entries_chan r _ TopicUser) in Hc' as [k2 Hc']; [|done]. by specialize (Hdis _ _ _ Hc Hc').
  - intros c Hc. rewrite fmap_app, elem_of_app.
    rewrite (entries_chan r _ TopicID), (entries_chan r _ TopicUser) by done.
    intros [[k Hc']|[k Hc']]; by specialize (Hdis _ _ _ Hc Hc').
Qed.

(** Teardown: every list becomes empty, every registered channel is closed and
    counted, nothing else changes. *)
Lemma closeSubscribers_eq r :
  subs_disjoint r →
  ∃ r', JobCache_closeSubscribers range r = Ret (r', length (all_subs r)) ∧
    same_store r r' ∧ JobCache_done r' = JobCache_done r ∧ (∀ k, topic_subs r' k = []) ∧
    (∀ k c, c ∈ subscriber_Channel <$> topic_subs r k →
       JobCache_chans r' !! c = (λ ch, ch <| chan_closed := true |>) <$> JobCache_chans r !! c) ∧
    (∀ c, (∀ k, c ∉ subscriber_Channel <$> topic_subs r k) →
       JobCache_chans r' !! c = JobCache_chans r !! c).
Proof.
  intros Hd. destruct (close_loop_spec _ _ (all_subs_wf r Hd)) as (h' & Heq & Hin & Hout).
  unfold all_subs in Heq at 1. rewrite !close_loop_app in Heq.
  apply bind_Ret_inv in Heq as ([h1 n1] & H1 & Heq). cbn in Heq.
  rewrite close_loop_app in Heq.
  apply bind_Ret_inv in Heq as ([h3 n3] & H3 & Heq).
  apply bind_Ret_inv in H3 as ([h2 n2] & H2 & H3). cbn in H3.
  apply bind_Ret_inv in H3 as ([h3' n3'] & H3 & H3'). cbn in Heq, H3'. simplify_eq.
  unfold JobCache_closeSubscribers, subManager_Close. cbn in H1. rewrite H1. cbn.
  rewrite close_managers_eq, H2. cbn. rewrite close_managers_eq. cbn in H3. rewrite H3. cbn.
  eexists. split; [by rewrite <- H, <- Nat.add_assoc|]. clear -Hin Hout range_perm.
  assert (∀ (m : gmap string subManager) k,
    from_option subs [] (foldl (λ m kv, <[kv.1 := newSubManager]> m) m (range m) !! k) = []) as Hre.
  { intros m k. rewrite reset_entries_lookup. case_decide as Hk; [done|].
    destruct (m !! k) eqn:Hm; [|done]. destruct Hk. apply range_keys. by rewrite Hm. }
  setoid_rewrite all_subs_elem in Hin. setoid_rewrite all_subs_elem in Hout.
  destruct r as [st ch up byID byUser dn sp once h]. cbn in *.
  split; [done|]. split; [done|]. split; [intros [|id|user]; cbn; auto|].
  split; [eauto|]. intros c Hc. apply Hout. intros [k Hk]. by apply (Hc k).
Qed.
End Teardown.

(** ** Properties *)

(** Two stored jobs, and two subscribers: one to job-1, one to everything. *)
Definition sample_cache : JobCache :=
  NewJobCache <| JobCache_store := sample_store |>
    <| JobCache_updates := mkSubManager [mkSubscriber [1] 0 false] |>
    <| JobCache_updatesByID := {[ "job-1" := mkSubManager [mkSubscriber [2] 1 false] ]} |>
    <| JobCache_chans := {[ 0 := make_chan stream_cap; 1 := make_chan stream_cap ]} |>.

(** C27: [AddOrUpdate] always succeeds and is what [Lookup] reads back: the job
    is found under its ID as given when it is new, and merged into the stored
    one otherwise, by every user who may see the stored job; all other entries
    stay; and the update is queued for the subscribers exactly when the job is
    new or its status or message changed, the queue has room, and the cache is
    not closing (or Go's select still prefers the queue). *)
Theorem AddOrUpdate_spec {A} (pick : bool) (now : Time) (r : JobCache) (job : Job) (fn : Job → A) :
  let id := Job_ID job in
  let cur := store_jobs (JobCache_store r) !! id in
  ∃ r', JobCache_AddOrUpdate pick now r job = Ret (r', None) ∧
    (∀ user, JobCache_Lookup r' user id fn =
       if user_may user (default job cur) then inl (fn (merged now cur job))
       else inr (lookup_error user id)) ∧
    (∀ user k, k ≠ id → JobCache_Lookup r' user k fn = JobCache_Lookup r user k fn) ∧
    JobCache_ch r' = JobCache_ch r ++
      (if announces cur job && (length (JobCache_ch r) <? update_cap)%nat &&
          (negb (JobCache_stop r) || pick)
       then [newStatusUpdateFromJob job] else []).
Proof.
  cbv zeta. rewrite AddOrUpdate_eq. eexists. split; [done|]. split; [|split].
  - intros user. rewrite <- (user_may_default user now).
    destruct (user_may user _) eqn:Hu; [apply Lookup_found|apply Lookup_denied];
      rewrite ?written_lookup; [done|done|]. by intros ? [= <-].
  - intros user k Hk. unfold JobCache_Lookup, inMemoryStore_View, written. cbn.
    by rewrite lookup_insert_ne.
  - unfold written, JobCache_notify. cbn. destruct (announces _ job); cbn; [|by rewrite app_nil_r].
    case_match; by rewrite ?app_nil_r.
Qed.

(** [Update] on every branch: a missing job, or one of another user, gives
    a not-found error and leaves the cache exactly as it was; otherwise the
    callback's job is merged into the stored one and announced like an
    [AddOrUpdate]; and a callback that returns nil crashes the cache. *)
Theorem cache_Update_spec {A} (pick : bool) (now : Time) (r : JobCache) (user : string) (id : JobID)
    (fn : Job → outcome (A * option Job)) :
  JobCache_Update pick now r user id fn =
    match store_jobs (JobCache_store r) !! id with
    | None => Ret (None, r, Some (not_found_for user id))
    | Some cur =>
        if user_may user cur then
          f ← fn cur;
          match snd f with
          | Some job => Ret (Some (fst f), written pick now r id job, None)
          | None => Panic nil_deref
          end
        else Ret (None, r, Some (not_found_for user id))
    end.
Proof. apply cache_Update_branches. Qed.

(** Because the merge takes over a timestamp of its input, [Update] with a
    callback that changes the status of the job it is given, and touches
    nothing else, never advances [LastUpdated] of a job that has one: the job
    keeps the time of its previous update. *)
Theorem Update_keeps_LastUpdated (pick : bool) (now t : Time) (r : JobCache) (user : string) (id : JobID)
    (cur : Job) (status : string)
    (Hcur : store_jobs (JobCache_store r) !! id = Some cur) (Hmay : user_may user cur = true)
    (Ht : Job_LastUpdated cur = Some t) :
  ∃ r' job, JobCache_Update pick now r user id (λ job, Ret (tt, Some (job <| Job_Status := status |>)))
      = Ret (Some tt, r', None) ∧
    store_jobs (JobCache_store r') !! id = Some job ∧
    Job_Status job = status ∧ Job_LastUpdated job = Some t.
Proof.
  set (job' := cur <| Job_Status := status |>).
  exists (written pick now r id job'), (syncJob2 now cur job').1.
  split; [by eapply Update_allowed|]. split; [unfold written; cbn; by rewrite Hcur, lookup_insert_eq|].
  subst job'. rewrite syncJob2_Status, syncJob2_eq. clear Hcur Hmay.
  destruct cur. cbn in Ht. by subst.
Qed.

Lemma Update_keeps_LastUpdated_witness :
  ∃ r' job, JobCache_Update true (mkTime 900 "UTC")
      (NewJobCache <| JobCache_store := mkStore {[ "job-1" :=
          sample_job <| Job_LastUpdated := Some (mkTime 7 "UTC") |> ]} |>)
      "*" "job-1" (λ job, Ret (tt, Some (job <| Job_Status := StatusFinished |>)))
      = Ret (Some tt, r', None) ∧
    store_jobs (JobCache_store r') !! "job-1" = Some job ∧
    Job_Status job = StatusFinished ∧ Job_LastUpdated job = Some (mkTime 7 "UTC").
Proof.
  eapply (Update_keeps_LastUpdated true (mkTime 900 "UTC") (mkTime 7 "UTC") _ "*" "job-1");
    vm_compute; reflexivity.
Defined.

(** [Prune] yields stored jobs that are stale (terminal, and not updated
    since the cutoff), never panics, and deletes exactly the jobs yielded
    before the consumer broke off.  A consumer that lets the iterator finish
    sees every stale job, and all of them are deleted; the job on which a
    consumer breaks off is yielded but stays. *)
Theorem Prune_spec (range : gmap string Job → list (string * Job))
    (range_perm : ∀ m, range m ≡ₚ map_to_list m)
    (now : Time) (interval : Z) (r : JobCache) (more : list Job → bool)
    (Hwf : store_wf (JobCache_store r)) :
  let stored := store_jobs (JobCache_store r) in
  ∃ yielded deleted r',
    JobCache_Prune range now interval r (consumer more) [] = Ret (yielded, r') ∧
    (∀ job, job ∈ yielded → stored !! Job_ID job = Some job ∧ stale (Time_Add now (- interval)) job) ∧
    ((deleted = yielded ∧
      ∀ job, stored !! Job_ID job = Some job → stale (Time_Add now (- interval)) job → job ∈ yielded) ∨
     (∃ job, yielded = deleted ++ [job] ∧ more yielded = false)) ∧
    (∀ id, store_jobs (JobCache_store r') !! id =
       if decide (id ∈ Job_ID <$> deleted) then None else stored !! id).
Proof.
  cbv zeta. destruct (Prune_eq range now interval r more) as (Y & D & -> & Hcase).
  assert (∀ job, job ∈ base.filter (stale (Time_Add now (- interval)))
                   (snd <$> range (store_jobs (JobCache_store r))) ↔
    store_jobs (JobCache_store r) !! Job_ID job = Some job ∧ stale (Time_Add now (- interval)) job) as Hold.
  { intros job. rewrite list_elem_of_filter, list_elem_of_fmap. split.
    - intros (Hs & [k j] & -> & Hin). rewrite range_perm, elem_of_map_to_list in Hin. cbn in *.
      by rewrite (Hwf _ _ Hin).
    - intros [Hj Hs]. split; [done|]. exists (Job_ID job, job).
      by rewrite range_perm, elem_of_map_to_list. }
  exists Y, D. eexists. split; [done|]. split; [|split].
  - intros job Hin. apply Hold. destruct Hcase as [[-> _]|(j & _ & [k ->] & _)]; [done|].
    apply elem_of_app. by left.
  - destruct Hcase as [[-> ->]|(j & HY & _ & Hm)]; [left|right; by exists j].
    split; [done|]. intros job Hj Hs. by apply Hold.
  - intros id. destruct r. cbn. apply Delete_all_lookup.
Qed.

Lemma Prune_spec_witness :
  let r := NewJobCache <| JobCache_store := mkStore {[ "job-1" := sample_job
             <| Job_Status := StatusFinished |> <| Job_LastUpdated := Some (mkTime 7 "UTC") |> ]} |> in
  let stored := store_jobs (JobCache_store r) in
  ∃ yielded deleted r',
    JobCache_Prune map_to_list (mkTime 1000 "UTC") 60 r (consumer (λ _, false)) [] = Ret (yielded, r') ∧
    (∀ job, job ∈ yielded →
       stored !! Job_ID job = Some job ∧ stale (Time_Add (mkTime 1000 "UTC") (- 60)) job) ∧
    ((deleted = yielded ∧
      ∀ job, stored !! Job_ID job = Some job → stale (Time_Add (mkTime 1000 "UTC") (- 60)) job → job ∈ yielded) ∨
     (∃ job, yielded = deleted ++ [job] ∧ false = false)) ∧
    (∀ id, store_jobs (JobCache_store r') !! id =
       if decide (id ∈ Job_ID <$> deleted) then None else stored !! id).
Proof.
  intros r. apply (Prune_spec map_to_list (λ m, reflexivity _) (mkTime 1000 "UTC") 60 r (λ _, false)).
  apply (bool_decide_unpack (store_wf (JobCache_store r))). vm_compute. exact I.
Defined.

(** The job on which the consumer breaks off stays; run to the end, it goes. *)
Example prune_break_keeps :
  let r := NewJobCache <| JobCache_store := mkStore {[ "job-1" := sample_job
             <| Job_Status := StatusFinished |> <| Job_LastUpdated := Some (mkTime 7 "UTC") |> ]} |> in
  let run more := (λ res, (map Job_ID res.1, bool_decide (store_jobs (JobCache_store res.2) = ∅))) <$>
       JobCache_Prune map_to_list (mkTime 1000 "UTC") 60 r (consumer more) [] in
  run (λ _, false) = Ret (["job-1"], false) ∧ run (λ _, true) = Ret (["job-1"], true).
Proof. vm_compute. done. Qed.

(** C14: [processUpdate] reaches exactly the subscribers to everything, to the
    update's job and to its user.  When no channel is registered twice it never
    panics; every such subscriber is treated as [Notify] says, the subscribers
    of all other topics and their channels are untouched, the counts are those
    of the live targets with and without room, and the stored jobs and the
    queue stay as they are. *)
Theorem processUpdate_spec (err : subscriber → bool) (r : JobCache) (u : statusUpdate)
    (Hd : subs_disjoint r) :
  ∃ r' notified dropped, JobCache_processUpdate err r u = Ret (r', (notified, dropped)) ∧
    (notified + dropped = length (live err (targets r u)))%nat ∧
    same_store r r' ∧
    (∀ k, topic_subs r' k = if topic_matches k u then live err (topic_subs r k) else topic_subs r k) ∧
    (∀ sub, sub ∈ targets r u →
       JobCache_chans r' !! subscriber_Channel sub =
         deliver err u sub <$> JobCache_chans r !! subscriber_Channel sub) ∧
    (∀ c, c ∉ subscriber_Channel <$> targets r u →
       JobCache_chans r' !! c = JobCache_chans r !! c).
Proof.
  destruct (processUpdate_eq err r u Hd) as (r' & Heq & Hs & _ & HT & Hin & Hout).
  eexists r', _, _. split; [exact Heq|]. split; [apply room_counts|]. auto.
Qed.

Lemma processUpdate_spec_witness :
  let u := newStatusUpdateFromJob (sample_job <| Job_Status := StatusFinished |>) in
  ∃ r' notified dropped, JobCache_processUpdate (λ _, false) sample_cache u = Ret (r', (notified, dropped)) ∧
    (notified + dropped = 2)%nat ∧
    (∀ k, topic_subs r' k = if topic_matches k u then live (λ _, false) (topic_subs sample_cache k)
                            else topic_subs sample_cache k).
Proof.
  intros u. destruct (processUpdate_spec (λ _, false) sample_cache u) as (r' & n & d & Heq & Hn & _ & HT & _).
  - split.
    + intros [|id|user]; cbn.
      * split; [apply NoDup_singleton|].
        constructor; [|constructor]. split; [done|]. by eexists.
      * destruct (decide (id = "job-1")) as [->|Hne].
        -- rewrite lookup_singleton_eq. cbn. split; [apply NoDup_singleton|].
           constructor; [|constructor]. split; [done|]. by eexists.
        -- rewrite lookup_singleton_ne by done. split; constructor.
      * rewrite lookup_empty. split; constructor.
    + intros [|id1|u1] [|id2|u2] c; cbn; rewrite ?lookup_empty; cbn; try done;
        try (destruct (decide (id1 = "job-1")) as [->|]; [rewrite lookup_singleton_eq|rewrite lookup_singleton_ne by done]);
        try (destruct (decide (id2 = "job-1")) as [->|]; [rewrite lookup_singleton_eq|rewrite lookup_singleton_ne by done]);
        cbn; rewrite ?elem_of_cons, ?elem_of_nil; intros; intuition congruence.
  - exists r', n, d. split; [exact Heq|]. split; [rewrite Hn; vm_compute; reflexivity|exact HT].
Defined.
