(* ===== verification/CacheSystem.v ===== *)
(** * The cache and its goroutines (src/cache/cache.go, concurrency)

    A system is a cache together with the goroutines that use it: the service
    goroutine started by [NewJobCache] and any number of threads running
    [StreamJobStatus], [StreamJobStatuses] or [RunningJobContext] (with the
    goroutine the latter starts).  [sys_step] executes one atomic action; an
    interleaving is a list of events.  The store lock makes each store
    operation one action, the cache lock each subscription, notification and
    teardown. *)

From S2P Require Import Prelude GoStd Types TypesFacts Store Writer SubManager Cache CacheFacts.

(** The calls a thread can be executing. *)
Inductive proc :=
| StreamJobStatus (user : string) (id : JobID)
| StreamJobStatuses (user : string)
| RunningJobContext (user : string) (id : JobID).

(** Where the thread is: before the first look at the store, before the
    subscription, before the second look-up, in the receive loop, returned. *)
Inductive pc := PcStart | PcSubscribe | PcRecheck | PcLoop | PcReturned (err : option error).

(** [thread_ctx] is the caller's context, [thread_chan] and [thread_sub] the
    local variables [ch] and the context the subscription was made with,
    [thread_out] the calls made on the response writer and [thread_recv] the
    updates received so far. *)
Record thread := mkThread {
  thread_proc : proc;
  thread_ctx : context;
  thread_pc : pc;
  thread_chan : option nat;
  thread_sub : context;
  thread_out : list WriterCall;
  thread_recv : list statusUpdate;
}.

#[export] Instance eta_thread : Eta thread := λ r,
  mkThread (thread_proc r) (thread_ctx r) (thread_pc r) (thread_chan r) (thread_sub r)
    (thread_out r) (thread_recv r).
#[export] Instance set_thread_pc : Setter thread_pc := ltac:(solve_setter).
#[export] Instance set_thread_chan : Setter thread_chan := ltac:(solve_setter).
#[export] Instance set_thread_sub : Setter thread_sub := ltac:(solve_setter).
#[export] Instance set_thread_out : Setter thread_out := ltac:(solve_setter).
#[export] Instance set_thread_recv : Setter thread_recv := ltac:(solve_setter).

(** The service goroutine: in its select, holding a received update, gone. *)
Inductive service := SvcListening | SvcGot (u : statusUpdate) | SvcExited.

(** [sys_processed] records the updates the service has processed, in order. *)
Record System := mkSystem {
  sys_cache : JobCache;
  sys_service : service;
  sys_threads : gmap nat thread;
  sys_cancelled : gset context;
  sys_next_ctx : nat;
  sys_processed : list statusUpdate;
}.

#[export] Instance eta_System : Eta System := λ s,
  mkSystem (sys_cache s) (sys_service s) (sys_threads s) (sys_cancelled s) (sys_next_ctx s)
    (sys_processed s).
#[export] Instance set_sys_cache : Setter sys_cache := ltac:(solve_setter).
#[export] Instance set_sys_service : Setter sys_service := ltac:(solve_setter).
#[export] Instance set_sys_threads : Setter sys_threads := ltac:(solve_setter).
#[export] Instance set_sys_cancelled : Setter sys_cancelled := ltac:(solve_setter).
#[export] Instance set_sys_next_ctx : Setter sys_next_ctx := ltac:(solve_setter).
#[export] Instance set_sys_processed : Setter sys_processed := ltac:(solve_setter).

Definition initial : System := mkSystem NewJobCache SvcListening ∅ ∅ 0 [].

(** What a thread subscribes to. *)
Definition topic_of (p : proc) : topic :=
  match p with
  | StreamJobStatus _ id | RunningJobContext _ id => TopicID id
  | StreamJobStatuses user => if decide (user = "*") then TopicAll else TopicUser user
  end.

Definition set_thread (t : nat) (th : thread) (s : System) : System :=
  s <| sys_threads := <[t := th]> (sys_threads s) |>.

Section Step.
Variable range_jobs : gmap string Job → list (string * Job).
Variable range_mgrs : gmap string subManager → list (string * subManager).

(** The part before the subscription. *)
Definition start_step (s : System) (t : nat) (th : thread) : outcome System :=
  match thread_proc th with
  | StreamJobStatus user id =>
      let '(w, returns) := StreamJobStatus_start (sys_cache s) (thread_out th) user id in
      Ret (set_thread t (th <| thread_out := w |>
        <| thread_pc := if (returns : bool) then PcReturned None else PcSubscribe |>) s)
  | StreamJobStatuses user =>
      w ← StreamJobStatuses_start range_jobs (sys_cache s) (thread_out th) user;
      Ret (set_thread t (th <| thread_out := w |> <| thread_pc := PcSubscribe |>) s)
  | RunningJobContext user id =>
      Ret (set_thread t (th <| thread_pc :=
        match RunningJobContext_start (sys_cache s) user id with
        | Some err => PcReturned (Some err)
        | None => PcSubscribe
        end |>) s)
  end.

(** [make(chan)] and the subscription, [RunningJobContext] with a derived
    context. *)
Definition subscribe_step (s : System) (t : nat) (th : thread) : outcome System :=
  let r := sys_cache s in
  let c := fresh (dom (JobCache_chans r)) in
  let r := r <| JobCache_chans := <[c := make_chan stream_cap]> (JobCache_chans r) |> in
  match thread_proc th with
  | StreamJobStatus user id =>
      r ← JobCache_subscribeToID r (thread_ctx th) id c;
      Ret (set_thread t (th <| thread_chan := Some c |> <| thread_sub := thread_ctx th |>
                            <| thread_pc := PcLoop |>) (s <| sys_cache := r |>))
  | StreamJobStatuses user =>
      r ← JobCache_subscribeToUser r (thread_ctx th) user c;
      Ret (set_thread t (th <| thread_chan := Some c |> <| thread_sub := thread_ctx th |>
                            <| thread_pc := PcLoop |>) (s <| sys_cache := r |>))
  | RunningJobContext user id =>
      let ctx := context_WithCancel (thread_ctx th) (sys_next_ctx s) in
      r ← JobCache_subscribeToID r ctx id c;
      Ret (set_thread t (th <| thread_chan := Some c |> <| thread_sub := ctx |>
                            <| thread_pc := PcRecheck |>)
             (s <| sys_cache := r |> <| sys_next_ctx := S (sys_next_ctx s) |>))
  end.

Definition recheck_step (s : System) (t : nat) (th : thread) (user : string) (id : JobID) : System :=
  match RunningJobContext_recheck (sys_cache s) user id with
  | Some err =>
      set_thread t (th <| thread_pc := PcReturned (Some err) |>)
        (s <| sys_cancelled := {[thread_sub th]} ∪ sys_cancelled s |>)
  | None => set_thread t (th <| thread_pc := PcLoop |>) s
  end.

(** One turn of the receive loop; [done] picks the context's case, which must
    be ready. *)
Definition loop_step (s : System) (t : nat) (th : thread) (c : nat) (done : bool) : option System :=
  if done && negb (context_Err (sys_cancelled s) (thread_ctx th)) then None else
  let r := sys_cache s in
  let got := match receive (JobCache_chans r) c with (_, Received u) => [u] | _ => [] end in
  let th' := if done then th else th <| thread_recv := thread_recv th ++ got |> in
  match thread_proc th with
  | RunningJobContext _ _ =>
      '(h, returns) ← running_loop done (JobCache_chans r) c;
      let s := s <| sys_cache := r <| JobCache_chans := h |> |> in
      Some (if (returns : bool)
            then set_thread t (th' <| thread_pc := PcReturned None |>)
                   (s <| sys_cancelled := {[thread_sub th]} ∪ sys_cancelled s |>)
            else set_thread t th' s)
  | _ =>
      '(h, w, returns) ← status_loop done (JobCache_chans r) c (thread_out th);
      let th' := th' <| thread_out := w |> in
      let s := s <| sys_cache := r <| JobCache_chans := h |> |> in
      Some (set_thread t (if (returns : bool) then th' <| thread_pc := PcReturned None |> else th') s)
  end.

(** One action of thread [t]; [None] when it cannot move. *)
Definition thread_step (s : System) (t : nat) (done : bool) : option (outcome System) :=
  th ← sys_threads s !! t;
  match thread_pc th, thread_chan th, thread_proc th with
  | PcStart, _, _ => Some (start_step s t th)
  | PcSubscribe, _, _ => Some (subscribe_step s t th)
  | PcRecheck, _, RunningJobContext user id => Some (Ret (recheck_step s t th user id))
  | PcLoop, Some c, _ => Ret <$> loop_step s t th c done
  | _, _, _ => None
  end.

Inductive event :=
| EAddOrUpdate (pick : bool) (now : Time) (job : Job)
| EUpdate (pick : bool) (now : Time) (user : string) (id : JobID) (fn : Job → Job)
| EDelete (id : JobID)
| ESpawn (t : nat) (p : proc) (ctx : context)
| EThread (t : nat) (done : bool)
| ECancel (ctx : context)
| EServiceRecv
| EServiceProcess (err : subscriber → bool)
| EServiceStop
| EClose.

(** A context that has ended when the service takes its lock is seen as ended;
    others may end while the service is at work. *)
Definition sees_cancelled (cancelled : gset context) (err : subscriber → bool) (l : list subscriber) : bool :=
  forallb (λ sub, implb (context_Err cancelled (subscriber_Context sub)) (err sub)) l.

Definition sys_step (s : System) (e : event) : option (outcome System) :=
  let r := sys_cache s in
  match e with
  | EAddOrUpdate pick now job =>
      Some (res ← JobCache_AddOrUpdate pick now r job; Ret (s <| sys_cache := fst res |>))
  | EUpdate pick now user id fn =>
      Some (res ← JobCache_Update pick now r user id (λ job, Ret (tt, Some (fn job)));
            Ret (s <| sys_cache := res.1.2 |>))
  | EDelete id =>
      Some (Ret (s <| sys_cache := r <| JobCache_store := inMemoryStore_Delete (JobCache_store r) id |> |>))
  | ESpawn t p ctx =>
      match sys_threads s !! t with
      | Some _ => None
      | None => Some (Ret (set_thread t (mkThread p ctx PcStart None ctx [] []) s))
      end
  | EThread t done => thread_step s t done
  | ECancel ctx => Some (Ret (s <| sys_cancelled := {[ctx]} ∪ sys_cancelled s |>))
  | EServiceRecv =>
      match sys_service s with
      | SvcListening =>
          '(u, r) ← JobCache_service_recv r;
          Some (Ret (s <| sys_cache := r |> <| sys_service := SvcGot u |>))
      | _ => None
      end
  | EServiceProcess err =>
      match sys_service s with
      | SvcGot u =>
          if sees_cancelled (sys_cancelled s) err (targets r u) then
            Some (res ← JobCache_processUpdate err r u;
                  Ret (s <| sys_cache := fst res |> <| sys_service := SvcListening |>
                         <| sys_cancelled :=
                              list_to_set (subscriber_Context <$> base.filter (λ sub, err sub = true) (targets r u))
                              ∪ sys_cancelled s |>
                         <| sys_processed := sys_processed s ++ [u] |>))
          else None
      | _ => None
      end
  | EServiceStop =>
      match sys_service s with
      | SvcListening =>
          if JobCache_stop r then
            Some (r ← JobCache_service_exit range_mgrs r;
                  Ret (s <| sys_cache := r |> <| sys_service := SvcExited |>))
          else None
      | _ => None
      end
  | EClose => Some (Ret (s <| sys_cache := JobCache_Close r |>))
  end.

(** Executing a sequence of events: [None] when one of them is not enabled. *)
Fixpoint sys_run (s : System) (es : list event) : option (outcome System) :=
  match es with
  | [] => Some (Ret s)
  | e :: es' =>
      match sys_step s e with
      | Some (Ret s') => sys_run s' es'
      | other => other
      end
  end.

(** The states some interleaving leads to. *)
Inductive reachable : System → Prop :=
| reachable_initial : reachable initial
| reachable_step s e s' : reachable s → sys_step s e = Some (Ret s') → reachable s'.
End Step.
