(* ===== verification/CacheSystemFacts.v ===== *)
(** * Safety of the concurrent cache

    The invariant of the reachable systems of CacheSystem.v and what follows
    from it: no goroutine panics, a closed cache has closed every subscriber
    channel, every stream sees its own updates in order, and shutdown always
    completes. *)

From S2P Require Import Prelude GoStd Types TypesFacts Store Writer SubManager.
From S2P Require Import Cache CacheFacts CacheSystem.

(** ** Channels, subscriptions and their owners *)

(** [h] is the channel heap, [T] the subscription lists, [ths] the threads and
    [P] the processed updates.  Every subscription belongs to the thread that
    made it; a thread's channel is closed or still registered under the
    thread's topic; and what the thread has received, followed by what waits in
    its channel, is a subsequence of the matching updates. *)
Record chans_inv (h : gmap nat chan) (T : topic → list subscriber) (ths : gmap nat thread)
    (P : list statusUpdate) : Prop := {
  ci_wf : ∀ k, subs_wf h (T k);
  ci_owner : ∀ k sub, sub ∈ T k → ∃ t th, ths !! t = Some th ∧
    thread_chan th = Some (subscriber_Channel sub) ∧ topic_of (thread_proc th) = k ∧
    thread_sub th = subscriber_Context sub;
  ci_inj : ∀ t1 t2 th1 th2 c, ths !! t1 = Some th1 → ths !! t2 = Some th2 →
    thread_chan th1 = Some c → thread_chan th2 = Some c → t1 = t2;
  ci_chan : ∀ t th c, ths !! t = Some th → thread_chan th = Some c → ∃ ch, h !! c = Some ch ∧
    chan_cap ch = stream_cap ∧
    (chan_closed ch = false → c ∈ subscriber_Channel <$> T (topic_of (thread_proc th))) ∧
    thread_recv th ++ chan_buf ch `sublist_of`
      base.filter (λ u, topic_matches (topic_of (thread_proc th)) u = true) P;
  ci_none : ∀ t th, ths !! t = Some th → thread_chan th = None → thread_recv th = [];
}.

(** A channel is registered under one topic only. *)
Lemma ci_topic h T ths P k1 k2 c :
  chans_inv h T ths P →
  c ∈ subscriber_Channel <$> T k1 → c ∈ subscriber_Channel <$> T k2 → k1 = k2.
Proof.
  intros HI (sub1 & -> & H1)%list_elem_of_fmap (sub2 & Hc & H2)%list_elem_of_fmap.
  destruct (ci_owner _ _ _ _ HI _ _ H1) as (t1 & th1 & Ht1 & Hc1 & <- & _).
  destruct (ci_owner _ _ _ _ HI _ _ H2) as (t2 & th2 & Ht2 & Hc2 & <- & _).
  rewrite <- Hc in Hc2. assert (t1 = t2) as -> by (by eapply (ci_inj _ _ _ _ HI)). by simplify_eq.
Qed.

Lemma chans_inv_disjoint r ths P :
  chans_inv (JobCache_chans r) (topic_subs r) ths P → subs_disjoint r.
Proof. intros HI. split; [apply HI|]. intros. by eapply ci_topic. Qed.

(** What the invariant reads of a thread. *)
Definition same_chan (th th' : thread) : Prop :=
  thread_proc th' = thread_proc th ∧ thread_chan th' = thread_chan th ∧
  thread_sub th' = thread_sub th ∧ thread_recv th' = thread_recv th.

Lemma chans_inv_update h T ths P t th th' :
  chans_inv h T ths P → ths !! t = Some th → same_chan th th' →
  chans_inv h T (<[t := th']> ths) P.
Proof.
  intros HI Ht (Hp & Hc & Hs & Hr).
  assert (∀ t1 th1, <[t := th']> ths !! t1 = Some th1 → ∃ th0, ths !! t1 = Some th0 ∧ same_chan th0 th1)
    as Hback.
  { intros t1 th1. rewrite lookup_insert_Some. intros [[-> <-]|[_ H1]]; [by exists th|by exists th1]. }
  split.
  - apply HI.
  - intros k sub Hin. destruct (ci_owner _ _ _ _ HI _ _ Hin) as (t0 & th0 & Ht0 & ? & ? & ?).
    destruct (decide (t0 = t)) as [->|Hne].
    + exists t, th'. rewrite lookup_insert_eq. simplify_eq. rewrite Hc, Hp, Hs. done.
    + exists t0, th0. by rewrite lookup_insert_ne.
  - intros t1 t2 th1 th2 c H1 H2 Hc1 Hc2.
    apply Hback in H1 as (? & ? & _ & E1 & _), H2 as (? & ? & _ & E2 & _).
    rewrite E1 in Hc1. rewrite E2 in Hc2. by eapply (ci_inj _ _ _ _ HI).
  - intros t1 th1 c H1 Hc1. apply Hback in H1 as (th0 & H0 & E1 & E2 & _ & E3).
    rewrite E2 in Hc1. rewrite E1, E3. by eapply (ci_chan _ _ _ _ HI).
  - intros t1 th1 H1 Hc1. apply Hback in H1 as (th0 & H0 & E1 & E2 & _ & E3).
    rewrite E2 in Hc1. rewrite E3. by eapply (ci_none _ _ _ _ HI).
Qed.

Lemma chans_inv_spawn h T ths P t th :
  chans_inv h T ths P → ths !! t = None → thread_chan th = None → thread_recv th = [] →
  chans_inv h T (<[t := th]> ths) P.
Proof.
  intros HI Ht Hc Hr. split.
  - apply HI.
  - intros k sub Hin. destruct (ci_owner _ _ _ _ HI _ _ Hin) as (t0 & th0 & Ht0 & ?).
    exists t0, th0. rewrite lookup_insert_ne; [done|]. by intros ->; simplify_eq.
  - intros t1 t2 th1 th2 c [[-> <-]|[_ H1]]%lookup_insert_Some [[-> <-]|[_ H2]]%lookup_insert_Some;
      [done|congruence|congruence|]. by eapply (ci_inj _ _ _ _ HI).
  - intros t1 th1 c [[-> <-]|[_ H1]]%lookup_insert_Some; [congruence|]. by eapply (ci_chan _ _ _ _ HI).
  - intros t1 th1 [[-> <-]|[_ H1]]%lookup_insert_Some; [done|]. by eapply (ci_none _ _ _ _ HI).
Qed.

(** A new channel [c], made by thread [t]: registered under the thread's topic
    when it is open. *)
Lemma chans_inv_new h T T' ths P t th th' c ch :
  chans_inv h T ths P → ths !! t = Some th → thread_chan th = None → h !! c = None →
  thread_proc th' = thread_proc th → thread_chan th' = Some c → thread_recv th' = [] →
  chan_buf ch = [] → chan_cap ch = stream_cap →
  (if chan_closed ch then ∀ k, T' k = T k
   else ∀ k, T' k = if decide (k = topic_of (thread_proc th))
                    then T k ++ [mkSubscriber (thread_sub th') c false] else T k) →
  chans_inv (<[c := ch]> h) T' (<[t := th']> ths) P.
Proof.
  intros HI Ht Hnone Hfresh Hp Hc Hr Hbuf Hcap HT.
  assert (∀ t1 th1, ths !! t1 = Some th1 → thread_chan th1 ≠ Some c) as Hnew.
  { intros t1 th1 H1 H2. destruct (ci_chan _ _ _ _ HI _ _ _ H1 H2) as (? & ? & _). congruence. }
  assert (∀ k, c ∉ subscriber_Channel <$> T k) as HnewT.
  { intros k (sub & -> & Hin)%list_elem_of_fmap.
    destruct (ci_owner _ _ _ _ HI _ _ Hin) as (t1 & th1 & H1 & H2 & _). by eapply Hnew. }
  assert (∀ k sub, sub ∈ T' k → sub ∈ T k ∨
    (k = topic_of (thread_proc th) ∧ sub = mkSubscriber (thread_sub th') c false)) as Hcases.
  { intros k sub Hin. destruct (chan_closed ch); rewrite HT in Hin; [by left|]. case_decide; [|by left].
    apply elem_of_app in Hin as [|Hin]; [by left|]. apply list_elem_of_singleton in Hin. by right. }
  split.
  - intros k. destruct (chan_closed ch) eqn:Hcl; rewrite HT.
    + by apply subs_wf_insert, HI.
    + case_decide; [|by apply subs_wf_insert, HI].
      apply subs_wf_app; [by apply subs_wf_insert, HI| |].
      * apply subs_wf_cons. cbn. rewrite elem_of_nil. split; [tauto|]. split; [done|].
        split; [exists ch; by rewrite lookup_insert_eq|]. split; constructor.
      * intros c' Hc'. cbn. rewrite list_elem_of_singleton. intros ->. by eapply HnewT.
  - intros k sub [Hin|[-> ->]]%Hcases.
    + destruct (ci_owner _ _ _ _ HI _ _ Hin) as (t0 & th0 & Ht0 & Hc0 & ?).
      exists t0, th0. rewrite lookup_insert_ne; [done|]. intros ->. simplify_eq.
    + exists t, th'. rewrite lookup_insert_eq. cbn. by rewrite Hp.
  - intros t1 t2 th1 th2 c1 [[<- <-]|[Hn1 H1]]%lookup_insert_Some [[<- <-]|[Hn2 H2]]%lookup_insert_Some Hc1 Hc2;
      simplify_eq; [done|exfalso; by eapply Hnew|exfalso; by eapply Hnew|]. by eapply (ci_inj _ _ _ _ HI).
  - intros t1 th1 c1 [[<- <-]|[Hn1 H1]]%lookup_insert_Some Hc1.
    + simplify_eq. exists ch. rewrite lookup_insert_eq, Hp, Hr, Hbuf. repeat split; [done| |apply sublist_nil_l].
      intros Hop. rewrite Hop in HT. rewrite HT, decide_True by done.
      rewrite fmap_app, elem_of_app. right. by apply list_elem_of_singleton.
    + destruct (ci_chan _ _ _ _ HI _ _ _ H1 Hc1) as (ch1 & Hch1 & ? & Hreg & ?).
      exists ch1. rewrite lookup_insert_ne by congruence. repeat split; [done|done| |done].
      intros Hop. destruct (chan_closed ch); rewrite HT; [auto|]. case_decide; [|auto].
      rewrite fmap_app, elem_of_app. auto.
  - intros t1 th1 [[<- <-]|[Hn1 H1]]%lookup_insert_Some; [congruence|]. by eapply (ci_none _ _ _ _ HI).
Qed.

(** Subscriptions are unaffected by a channel update that keeps it open. *)
Lemma subs_wf_same_closed h c ch ch' l :
  h !! c = Some ch → chan_closed ch' = chan_closed ch → subs_wf h l → subs_wf (<[c := ch']> h) l.
Proof.
  intros Hc Hcl [Hn Hall]. split; [done|]. eapply list.Forall_impl; [exact Hall|].
  intros sub (? & ch0 & H0 & ?). split; [done|].
  destruct (decide (subscriber_Channel sub = c)) as [<-|].
  - exists ch'. rewrite lookup_insert_eq. split; congruence.
  - exists ch0. by rewrite lookup_insert_ne.
Qed.

(** The thread takes the first update out of its channel. *)
Lemma chans_inv_receive h T ths P t th th' c ch u rest :
  chans_inv h T ths P → ths !! t = Some th → thread_chan th = Some c → h !! c = Some ch →
  chan_buf ch = u :: rest →
  thread_proc th' = thread_proc th → thread_chan th' = thread_chan th →
  thread_sub th' = thread_sub th → thread_recv th' = thread_recv th ++ [u] →
  chans_inv (<[c := ch <| chan_buf := rest |>]> h) T (<[t := th']> ths) P.
Proof.
  intros HI Ht Hc Hch Hbuf Hp Hc' Hs Hr.
  assert (∀ t1 th1, <[t := th']> ths !! t1 = Some th1 →
    (t1 = t ∧ th1 = th') ∨ (t1 ≠ t ∧ ths !! t1 = Some th1 ∧ thread_chan th1 ≠ Some c)) as Hback.
  { intros t1 th1 [[<- <-]|[Hne H1]]%lookup_insert_Some; [by left|right].
    split; [done|]. split; [done|]. intros Hc1. apply Hne. symmetry. by eapply (ci_inj _ _ _ _ HI). }
  split.
  - intros k. eapply subs_wf_same_closed; [done|by destruct ch|apply HI].
  - intros k sub Hin. destruct (ci_owner _ _ _ _ HI _ _ Hin) as (t0 & th0 & Ht0 & ? & ? & ?).
    destruct (decide (t0 = t)) as [->|Hne].
    + exists t, th'. rewrite lookup_insert_eq. simplify_eq. rewrite Hc', Hp, Hs. done.
    + exists t0, th0. by rewrite lookup_insert_ne.
  - intros t1 t2 th1 th2 c1 [[-> ->]|(Hn1 & H1 & Hx1)]%Hback [[-> ->]|(Hn2 & H2 & Hx2)]%Hback Hc1 Hc2;
      [done|congruence|congruence|]. by eapply (ci_inj _ _ _ _ HI).
  - intros t1 th1 c1 [[-> ->]|(Hn1 & H1 & Hx1)]%Hback Hc1.
    + assert (c1 = c) as -> by congruence.
      destruct (ci_chan _ _ _ _ HI _ _ _ Ht Hc) as (ch1 & Hch1 & ? & ? & Hsub). simplify_eq.
      eexists. rewrite lookup_insert_eq. split; [done|]. rewrite Hp, Hr. destruct ch. cbn in *. subst.
      rewrite <- app_assoc. done.
    + destruct (ci_chan _ _ _ _ HI _ _ _ H1 Hc1) as (ch1 & Hch1 & ? & ? & ?).
      exists ch1. by rewrite lookup_insert_ne by congruence.
  - intros t1 th1 [[-> ->]|(Hn1 & H1 & Hx1)]%Hback Hc1; [congruence|]. by eapply (ci_none _ _ _ _ HI).
Qed.

(** The effect of a notification on one channel. *)
Lemma deliver_props err u sub ch :
  chan_cap (deliver err u sub ch) = chan_cap ch ∧
  (err sub = false → chan_closed (deliver err u sub ch) = chan_closed ch) ∧
  (err sub = true → chan_closed (deliver err u sub ch) = true) ∧
  chan_buf (deliver err u sub ch) `sublist_of` chan_buf ch ++ [u].
Proof.
  unfold deliver. destruct ch. repeat case_match; cbn; repeat split; try done;
    by apply sublist_inserts_r.
Qed.

Lemma live_elem err sub l : sub ∈ live err l ↔ sub ∈ l ∧ err sub = false.
Proof. unfold live. rewrite list_elem_of_filter. tauto. Qed.

Lemma NoDup_channels_live err l :
  NoDup (subscriber_Channel <$> l) → NoDup (subscriber_Channel <$> live err l).
Proof. intros H. eapply sublist_NoDup; [exact H|]. apply fmap_sublist, sublist_filter. Qed.

Lemma NoDup_channel_eq l sub1 sub2 :
  NoDup (subscriber_Channel <$> l) → sub1 ∈ l → sub2 ∈ l →
  subscriber_Channel sub1 = subscriber_Channel sub2 → sub1 = sub2.
Proof.
  intros Hn [i1 H1]%list_elem_of_lookup [i2 H2]%list_elem_of_lookup He.
  assert (i1 = i2) as ->; [|by simplify_eq].
  eapply NoDup_lookup; [exact Hn| |]; rewrite list_lookup_fmap.
  - by rewrite H1.
  - rewrite H2. cbn. by rewrite He.
Qed.

Lemma chans_inv_process r r' ths P err u :
  chans_inv (JobCache_chans r) (topic_subs r) ths P →
  (∀ k, topic_subs r' k = if topic_matches k u then live err (topic_subs r k) else topic_subs r k) →
  (∀ sub, sub ∈ targets r u → JobCache_chans r' !! subscriber_Channel sub =
     deliver err u sub <$> JobCache_chans r !! subscriber_Channel sub) →
  (∀ c, c ∉ subscriber_Channel <$> targets r u → JobCache_chans r' !! c = JobCache_chans r !! c) →
  chans_inv (JobCache_chans r') (topic_subs r') ths (P ++ [u]).
Proof.
  intros HI HT Hin Hout. pose proof (chans_inv_disjoint _ _ _ HI) as Hd.
  pose proof (targets_wf r u Hd) as [HndT _].
  (* a registered channel under a topic that does not match is left alone *)
  assert (∀ k c, topic_matches k u = false → c ∈ subscriber_Channel <$> topic_subs r k →
    JobCache_chans r' !! c = JobCache_chans r !! c) as Hother.
  { intros k c Hk Hc. apply Hout. intros (sub & -> & (k' & Hk' & Hs)%targets_elem)%list_elem_of_fmap.
    assert (k = k') as ->; [|congruence]. eapply ci_topic; [exact HI|exact Hc|]. by apply list_elem_of_fmap_2. }
  assert (∀ k sub, sub ∈ topic_subs r' k → sub ∈ topic_subs r k) as Hsubs.
  { intros k sub. rewrite HT. destruct (topic_matches k u); [|done]. by intros [? _]%live_elem. }
  split.
  - intros k. destruct (ci_wf _ _ _ _ HI k) as [Hnd Hall]. rewrite HT.
    destruct (topic_matches k u) eqn:Hk.
    + split; [by apply NoDup_channels_live|]. apply list.Forall_forall.
      intros sub [Hs He]%live_elem. rewrite list.Forall_forall in Hall.
      destruct (Hall _ Hs) as (? & ch & Hch & Ho). split; [done|]. exists (deliver err u sub ch).
      rewrite Hin, Hch by (apply targets_elem; eauto). split; [done|].
      destruct (deliver_props err u sub ch) as (_ & Hcl & _). by rewrite Hcl.
    + eapply subs_wf_agree; [done|]. intros c Hc. by eapply Hother.
  - intros k sub Hs. apply (ci_owner _ _ _ _ HI). auto.
  - apply HI.
  - intros t th c Ht Hc. destruct (ci_chan _ _ _ _ HI _ _ _ Ht Hc) as (ch & Hch & Hcap & Hreg & Hsub).
    set (k := topic_of (thread_proc th)) in *. rewrite list.filter_app.
    destruct (decide (c ∈ subscriber_Channel <$> targets r u)) as [Hct|Hct].
    + apply list_elem_of_fmap in Hct as (sub & -> & Hst).
      pose proof Hst as (k' & Hk' & Hs')%targets_elem.
      destruct (ci_owner _ _ _ _ HI _ _ Hs') as (t' & th' & Ht' & Hc' & Hk & _).
      assert (t' = t) as -> by (by eapply (ci_inj _ _ _ _ HI)).
      assert (th' = th) as -> by congruence. fold k in Hk. subst k'.
      destruct (deliver_props err u sub ch) as (Hcap' & Hkeep & Hclose & Hbuf).
      exists (deliver err u sub ch). rewrite Hin, Hch by done. split; [done|].
      rewrite Hcap'. split; [done|]. split.
      * rewrite HT, Hk'. intros Hop. destruct (err sub) eqn:He; [by rewrite Hclose in Hop|].
        apply list_elem_of_fmap_2. by apply live_elem.
      * rewrite filter_cons_True by done.
        etransitivity; [apply sublist_app; [reflexivity|exact Hbuf]|].
        rewrite app_assoc. by apply sublist_app.
    + exists ch. rewrite Hout by done. split; [done|]. split; [done|]. split.
      * intros Hop. rewrite HT. destruct (topic_matches k u) eqn:Hk; [|auto].
        exfalso. apply Hct. specialize (Hreg Hop). apply list_elem_of_fmap in Hreg as (sub & -> & Hs).
        apply list_elem_of_fmap_2, targets_elem. eauto.
      * by apply sublist_inserts_r.
  - apply HI.
Qed.

Lemma chans_inv_close r r' ths P :
  chans_inv (JobCache_chans r) (topic_subs r) ths P →
  (∀ k, topic_subs r' k = []) →
  (∀ k c, c ∈ subscriber_Channel <$> topic_subs r k →
     JobCache_chans r' !! c = (λ ch, ch <| chan_closed := true |>) <$> JobCache_chans r !! c) →
  (∀ c, (∀ k, c ∉ subscriber_Channel <$> topic_subs r k) →
     JobCache_chans r' !! c = JobCache_chans r !! c) →
  chans_inv (JobCache_chans r') (topic_subs r') ths P ∧
  ∀ t th c ch, ths !! t = Some th → thread_chan th = Some c → JobCache_chans r' !! c = Some ch →
    chan_closed ch = true.
Proof.
  intros HI HT Hin Hout.
  assert (∀ t th c, ths !! t = Some th → thread_chan th = Some c → ∃ ch ch',
    JobCache_chans r !! c = Some ch ∧ JobCache_chans r' !! c = Some ch' ∧
    chan_closed ch' = true ∧ chan_buf ch' = chan_buf ch ∧ chan_cap ch' = chan_cap ch) as Hch.
  { intros t th c Ht Hc. destruct (ci_chan _ _ _ _ HI _ _ _ Ht Hc) as (ch & Hch & _ & Hreg & _).
    set (k := topic_of (thread_proc th)) in *.
    destruct (decide (c ∈ subscriber_Channel <$> topic_subs r k)) as [Hk|Hk].
    - exists ch. eexists. split; [done|]. rewrite (Hin k c Hk), Hch. split; [done|]. by destruct ch.
    - exists ch, ch. rewrite Hout; [|].
      + destruct (chan_closed ch); [done|]. destruct Hk. by apply Hreg.
      + intros k' Hc'. apply Hk. apply list_elem_of_fmap in Hc' as (sub & -> & Hs).
        destruct (ci_owner _ _ _ _ HI _ _ Hs) as (t' & th' & Ht' & Hc' & Hk' & _).
        assert (t' = t) as -> by (by eapply (ci_inj _ _ _ _ HI)). simplify_eq.
        by apply list_elem_of_fmap_2. }
  split.
  - split.
    + intros k. rewrite HT. split; constructor.
    + intros k sub. rewrite HT. by intros ?%elem_of_nil.
    + apply HI.
    + intros t th c Ht Hc. destruct (Hch t th c Ht Hc) as (ch & ch' & H1 & H2 & H3 & H4 & H5).
      destruct (ci_chan _ _ _ _ HI _ _ _ Ht Hc) as (ch0 & H6 & ? & _ & ?). simplify_eq.
      exists ch'. split; [done|]. split; [congruence|]. split; [congruence|by rewrite H4].
    + apply HI.
  - intros t th c ch1 Ht Hc H1. destruct (Hch t th c Ht Hc) as (? & ? & ? & ? & ? & _). congruence.
Qed.

(** ** The invariant of the system *)

(** The call that forwards an update to the client. *)
Definition update_call (u : statusUpdate) : WriterCall :=
  CallJobStatus (statusUpdate_ID u) (statusUpdate_Name u) (statusUpdate_Status u)
    (statusUpdate_StatusCode u) (statusUpdate_StatusMsg u).

(** The call reports on job [id], or an error. *)
Definition status_about (id : JobID) (c : WriterCall) : Prop :=
  match c with
  | CallJobStatus id' _ _ _ _ => id' = id
  | CallError _ => True
  | _ => False
  end.

Definition pc_ok (th : thread) : Prop :=
  match thread_pc th with
  | PcStart => thread_chan th = None ∧ thread_out th = []
  | PcSubscribe => thread_chan th = None
  | PcRecheck => is_Some (thread_chan th) ∧ ∃ user id, thread_proc th = RunningJobContext user id
  | PcLoop => is_Some (thread_chan th)
  | PcReturned _ => True
  end.

(** The client of a stream has been sent a first report and then the updates
    received, of one job if the stream is of one job. *)
Definition out_ok (th : thread) : Prop :=
  match thread_proc th with
  | StreamJobStatus user id =>
      Forall (status_about id) (thread_out th) ∧
      ∃ first, length first ≤ 1 ∧ thread_out th = first ++ (update_call <$> thread_recv th)
  | StreamJobStatuses user => ∃ first, thread_out th = first ++ (update_call <$> thread_recv th)
  | RunningJobContext user id => thread_out th = []
  end.

Definition thread_ok (th : thread) : Prop := pc_ok th ∧ out_ok th.

Record cache_ok (r : JobCache) : Prop := {
  co_store : store_wf (JobCache_store r);
  co_queue : length (JobCache_ch r) ≤ update_cap;
  co_stop : JobCache_stop r = JobCache_closeOnce r;
  co_done : JobCache_done r = true → JobCache_stop r = true ∧ ∀ k, topic_subs r k = [];
}.

Record sys_inv (s : System) : Prop := {
  si_chans : chans_inv (JobCache_chans (sys_cache s)) (topic_subs (sys_cache s)) (sys_threads s)
               (sys_processed s);
  si_cache : cache_ok (sys_cache s);
  si_threads : ∀ t th, sys_threads s !! t = Some th → thread_ok th;
  si_service : sys_service s = SvcExited ↔ JobCache_done (sys_cache s) = true;
}.

Lemma initial_inv : sys_inv initial.
Proof.
  split.
  - split.
    + intros []; split; constructor.
    + intros [] sub; cbn; rewrite ?lookup_empty; cbn; by intros ?%elem_of_nil.
    + intros t1 t2 th1 th2 c H1. cbn in H1. by rewrite lookup_empty in H1.
    + intros t th c H1. cbn in H1. by rewrite lookup_empty in H1.
    + intros t th H1. cbn in H1. by rewrite lookup_empty in H1.
  - split; cbn; [apply newInMemoryStore_wf|lia|done|done].
  - intros t th H1. cbn in H1. by rewrite lookup_empty in H1.
  - done.
Qed.

(** *** Writers *)

Lemma written_ok pick now r id job :
  cache_ok r → (store_jobs (JobCache_store r) !! id = None → Job_ID job = id) →
  cache_ok (written pick now r id job).
Proof.
  intros [Hst Hq Hstop Hdone] Hid. split; cbn; [| |done|done].
  - intros k j. cbn. rewrite lookup_insert_Some. intros [[<- <-]|[_ Hk]]; [|auto].
    unfold merged. destruct (store_jobs (JobCache_store r) !! id) eqn:Hc; [|auto].
    rewrite syncJob2_ID. auto.
  - destruct (announces _ _); [|done]. unfold JobCache_notify.
    destruct (Nat.ltb_spec (length (JobCache_ch r)) update_cap); cbn; [|done].
    case_match; [|done]. rewrite length_app. cbn. lia.
Qed.

Lemma inv_with_cache s r :
  sys_inv s → cache_ok r →
  JobCache_chans r = JobCache_chans (sys_cache s) →
  (∀ k, topic_subs r k = topic_subs (sys_cache s) k) →
  JobCache_done r = JobCache_done (sys_cache s) →
  sys_inv (s <| sys_cache := r |>).
Proof.
  intros [HC HK HT HS] Hr Hh HTop Hd. split; cbn; [|done|done|by rewrite Hd].
  destruct HC as [H1 H2 H3 H4 H5]. rewrite Hh. split.
  - intros k. rewrite HTop. apply H1.
  - intros k sub. rewrite HTop. apply H2.
  - apply H3.
  - intros t th c Ht Hc. rewrite HTop. by apply (H4 t).
  - apply H5.
Qed.

Lemma inv_with_thread s t th th' :
  sys_inv s → sys_threads s !! t = Some th → same_chan th th' → thread_ok th' →
  sys_inv (set_thread t th' s).
Proof.
  intros [HC HK HT HS] Ht Hsame Hok. split; cbn; [by eapply chans_inv_update|done| |done].
  intros t1 th1 [[<- <-]|[_ H1]]%lookup_insert_Some; eauto.
Qed.

Lemma inv_with_cancelled s c : sys_inv s → sys_inv (s <| sys_cancelled := c |>).
Proof. intros [HC HK HT HS]. by split. Qed.

Lemma inv_with_next_ctx s c : sys_inv s → sys_inv (s <| sys_next_ctx := c |>).
Proof. intros [HC HK HT HS]. by split. Qed.

(** *** The look-ups before the subscription *)

Lemma Lookup_cases {A} r user id (fn : Job → A) :
  (∃ job, store_jobs (JobCache_store r) !! id = Some job ∧ user_may user job = true ∧
     JobCache_Lookup r user id fn = inl (fn job)) ∨
  JobCache_Lookup r user id fn = inr (lookup_error user id).
Proof.
  destruct (store_jobs (JobCache_store r) !! id) as [job|] eqn:Hj.
  - destruct (user_may user job) eqn:Hu.
    + left. exists job. split; [done|]. split; [done|]. by apply Lookup_found.
    + right. apply Lookup_denied. naive_solver.
  - right. apply Lookup_denied. naive_solver.
Qed.

(** *** Subscriptions *)

(** The effect of making channel [c] and subscribing it to topic [k]. *)
Definition subscribed (r r' : JobCache) (k : topic) (ctx : context) (c : nat) : Prop :=
  same_store r r' ∧ JobCache_done r' = JobCache_done r ∧
  JobCache_chans r' = <[c := mkChan [] stream_cap (JobCache_stop r)]> (JobCache_chans r) ∧
  ∀ k', topic_subs r' k' =
    if JobCache_stop r then topic_subs r k'
    else if decide (k' = k) then topic_subs r k' ++ [mkSubscriber ctx c false] else topic_subs r k'.

Definition with_chan (r : JobCache) (c : nat) : JobCache :=
  r <| JobCache_chans := <[c := make_chan stream_cap]> (JobCache_chans r) |>.

Lemma add_entry_lookup (m : gmap string subManager) key sub k :
  from_option subs [] (<[key := mkSubManager (subs (default newSubManager (m !! key)) ++ [sub])]> m !! k) =
    if decide (k = key) then from_option subs [] (m !! k) ++ [sub] else from_option subs [] (m !! k).
Proof.
  case_decide as Hk; [subst|by rewrite lookup_insert_ne].
  rewrite lookup_insert_eq. by destruct (m !! key).
Qed.

Lemma close_new_chan r c :
  close_chan (JobCache_chans (with_chan r c)) c =
    Ret (<[c := mkChan [] stream_cap true]> (JobCache_chans r)).
Proof.
  rewrite (close_chan_open _ _ (make_chan stream_cap)); cbn; [|by rewrite lookup_insert_eq|done].
  by rewrite insert_insert_eq.
Qed.

Lemma subscribeToID_eq r ctx id c :
  ∃ r', JobCache_subscribeToID (with_chan r c) ctx id c = Ret r' ∧ subscribed r r' (TopicID id) ctx c.
Proof.
  unfold JobCache_subscribeToID, subscribed. change (JobCache_stop (with_chan r c)) with (JobCache_stop r).
  destruct (JobCache_stop r) eqn:Hs.
  - rewrite close_new_chan. eexists. split; [done|]. unfold same_store. cbn. by rewrite Hs.
  - eexists. split; [done|]. unfold same_store. cbn. rewrite Hs. repeat split.
    intros [|k|k]; [done| |done]. etransitivity; [apply add_entry_lookup|].
    repeat case_decide; naive_solver.
Qed.

Lemma subscribeToUser_eq r ctx user c :
  ∃ r', JobCache_subscribeToUser (with_chan r c) ctx user c = Ret r' ∧
    subscribed r r' (topic_of (StreamJobStatuses user)) ctx c.
Proof.
  unfold JobCache_subscribeToUser, subscribed, topic_of.
  change (JobCache_stop (with_chan r c)) with (JobCache_stop r).
  destruct (JobCache_stop r) eqn:Hs.
  - rewrite close_new_chan. eexists. split; [done|]. unfold same_store. cbn. by rewrite Hs.
  - destruct (decide (user = "*")); eexists; (split; [done|]); unfold same_store; cbn; rewrite Hs;
      repeat split; intros [|k|k]; try done; [].
    etransitivity; [apply add_entry_lookup|]. repeat case_decide; naive_solver.
Qed.

Lemma subscribed_inv s t th th' r' c :
  sys_inv s → sys_threads s !! t = Some th → thread_chan th = None →
  JobCache_chans (sys_cache s) !! c = None →
  subscribed (sys_cache s) r' (topic_of (thread_proc th)) (thread_sub th') c →
  thread_proc th' = thread_proc th → thread_chan th' = Some c →
  thread_recv th' = thread_recv th → thread_ok th' →
  sys_inv (set_thread t th' (s <| sys_cache := r' |>)).
Proof.
  intros HI Ht Hnone Hfresh ((Hst & Hch & Hstop & Honce) & Hdone & Hh & HT) Hp Hc Hr Hok.
  destruct HI as [HC [K1 K2 K3 K4] HTh HS]. pose proof (ci_none _ _ _ _ HC _ _ Ht Hnone) as Hnil.
  split; cbn.
  - rewrite Hh. eapply chans_inv_new; try done; [congruence|]. cbn.
    destruct (JobCache_stop (sys_cache s)); exact HT.
  - split; [by rewrite Hst|by rewrite Hch|congruence|]. rewrite Hdone, Hstop. intros Hd.
    destruct (K4 Hd) as [Hstop' Hemp]. split; [done|]. intros k. by rewrite HT, Hstop'.
  - intros t1 th1 [[<- <-]|[_ H1]]%lookup_insert_Some; eauto.
  - by rewrite Hdone.
Qed.

Lemma fresh_chan r : JobCache_chans r !! fresh (dom (JobCache_chans r)) = None.
Proof. apply not_elem_of_dom, is_fresh. Qed.

Lemma subscribe_inv s t th :
  sys_inv s → sys_threads s !! t = Some th → thread_pc th = PcSubscribe →
  ∃ s', subscribe_step s t th = Ret s' ∧ sys_inv s'.
Proof.
  intros HI Ht Hpc. destruct (si_threads _ HI _ _ Ht) as [Hok Hout].
  unfold pc_ok in Hok. rewrite Hpc in Hok.
  unfold subscribe_step. cbv zeta. fold (with_chan (sys_cache s) (fresh (dom (JobCache_chans (sys_cache s))))).
  set (c := fresh _). assert (JobCache_chans (sys_cache s) !! c = None) as Hc by apply fresh_chan.
  assert (∀ th', thread_proc th' = thread_proc th → thread_out th' = thread_out th →
    thread_recv th' = thread_recv th → out_ok th') as Hout'.
  { intros th' E1 E2 E3. unfold out_ok. rewrite E1, E2, E3. exact Hout. }
  destruct (thread_proc th) as [user id|user|user id] eqn:Hp.
  - destruct (subscribeToID_eq (sys_cache s) (thread_ctx th) id c) as (r' & -> & Hsub).
    eexists. split; [done|]. eapply (subscribed_inv s t th); try done; [by rewrite Hp|].
    split; [by eexists|]. by apply Hout'.
  - destruct (subscribeToUser_eq (sys_cache s) (thread_ctx th) user c) as (r' & -> & Hsub).
    eexists. split; [done|]. eapply (subscribed_inv s t th); try done; [by rewrite Hp|].
    split; [by eexists|]. by apply Hout'.
  - destruct (subscribeToID_eq (sys_cache s) (context_WithCancel (thread_ctx th) (sys_next_ctx s)) id c)
      as (r' & -> & Hsub).
    eexists. split; [done|]. apply inv_with_next_ctx with (s := set_thread t _ (s <| sys_cache := r' |>)).
    eapply (subscribed_inv s t th); try done; [by rewrite Hp|].
    split; [split; [by eexists|by eauto]|]. by apply Hout'.
Qed.

Lemma recheck_inv s t th user id :
  sys_inv s → sys_threads s !! t = Some th → thread_pc th = PcRecheck →
  sys_inv (recheck_step s t th user id).
Proof.
  intros HI Ht Hpc. destruct (si_threads _ HI _ _ Ht) as [Hok Hout].
  unfold pc_ok in Hok. rewrite Hpc in Hok. destruct Hok as [Hc _].
  unfold recheck_step. destruct (RunningJobContext_recheck _ _ _).
  - eapply inv_with_thread; [by apply inv_with_cancelled|done|by unfold same_chan|]. by split.
  - eapply inv_with_thread; [done|done|by unfold same_chan|]. by split.
Qed.

(** *** The receive loop *)

(** A thread's channel holds updates of the thread's topic only. *)
Lemma buffered_matches h T ths P t th c ch u :
  chans_inv h T ths P → ths !! t = Some th → thread_chan th = Some c → h !! c = Some ch →
  u ∈ chan_buf ch → topic_matches (topic_of (thread_proc th)) u = true.
Proof.
  intros HI Ht Hc Hch Hu. destruct (ci_chan _ _ _ _ HI _ _ _ Ht Hc) as (ch' & ? & _ & _ & Hsub).
  simplify_eq. eapply elem_of_sublist in Hsub; [|apply elem_of_app; right; exact Hu].
  by apply list_elem_of_filter in Hsub as [? _].
Qed.

(** Receiving changes the outputs as it should. *)
Lemma out_ok_receive th th' u :
  out_ok th → topic_matches (topic_of (thread_proc th)) u = true →
  thread_proc th' = thread_proc th → thread_recv th' = thread_recv th ++ [u] →
  thread_out th' = thread_out th ++
    (match thread_proc th with RunningJobContext _ _ => [] | _ => [update_call u] end) →
  out_ok th'.
Proof.
  unfold out_ok. intros Hok Hm Hp Hr Ho. rewrite Hp, Hr, Ho. clear Hp Hr Ho.
  destruct (thread_proc th) as [user id|user|user id].
  - cbn in Hm. apply bool_decide_eq_true in Hm. destruct Hok as [Hall (first & Hl & Heq)].
    split; [apply Forall_app; split; [done|]; by constructor; [|constructor]|].
    exists first. split; [done|]. rewrite Heq, fmap_app. by rewrite <- app_assoc.
  - destruct Hok as [first Heq]. exists first. rewrite Heq, fmap_app. by rewrite <- app_assoc.
  - by rewrite Hok.
Qed.

(** What one turn of the loop does, by case: the channel's first update is
    consumed, or the loop ends. *)
Lemma loop_step_cases s t th c done s' ch :
  loop_step s t th c done = Some s' → JobCache_chans (sys_cache s) !! c = Some ch →
  (∃ u rest th' cancelled,
     s' = set_thread t th' (s <| sys_cache := (sys_cache s)
       <| JobCache_chans := <[c := ch <| chan_buf := rest |>]> (JobCache_chans (sys_cache s)) |> |>
       <| sys_cancelled := cancelled |>) ∧
     done = false ∧ chan_buf ch = u :: rest ∧
     thread_proc th' = thread_proc th ∧ thread_chan th' = thread_chan th ∧
     thread_sub th' = thread_sub th ∧ thread_recv th' = thread_recv th ++ [u] ∧
     thread_out th' = thread_out th ++
       (match thread_proc th with RunningJobContext _ _ => [] | _ => [update_call u] end) ∧
     (thread_pc th' = thread_pc th ∨ thread_pc th' = PcReturned None)) ∨
  (∃ cancelled, (done = true ∨ chan_buf ch = [] ∧ chan_closed ch = true) ∧
     s' = set_thread t (th <| thread_pc := PcReturned None |>) (s <| sys_cancelled := cancelled |>)).
Proof.
  intros Hstep Hch. unfold loop_step in Hstep. case_match; [done|].
  unfold status_loop, running_loop, receive in Hstep. rewrite Hch in Hstep.
  destruct th as [p ctx pc0 oc sub out recv], s as [r svc ths canc next proc0], r. cbn in *.
  destruct done.
  { right. destruct p; cbn in Hstep; simplify_eq; eexists; (split; [by left|reflexivity]). }
  destruct (chan_buf ch) as [|u rest] eqn:Hbuf; cbn in Hstep.
  { right. destruct (chan_closed ch) eqn:Hcl; [|by destruct p]. rewrite app_nil_r in Hstep.
    destruct p; cbn in Hstep; simplify_eq; eexists; (split; [by right|reflexivity]). }
  left. exists u, rest. destruct p; cbn in Hstep; simplify_eq.
  - eexists _, _. split; [reflexivity|]. cbn. naive_solver.
  - eexists _, _. split; [reflexivity|]. cbn. naive_solver.
  - destruct (TerminalStatus _); eexists _, _; (split; [reflexivity|]); cbn;
      rewrite app_nil_r; naive_solver.
Qed.

Lemma loop_inv s t th c done s' :
  sys_inv s → sys_threads s !! t = Some th → thread_pc th = PcLoop → thread_chan th = Some c →
  loop_step s t th c done = Some s' → sys_inv s'.
Proof.
  intros HI Ht Hpc Hc Hstep. destruct (si_threads _ HI _ _ Ht) as [Hok Hout].
  destruct (ci_chan _ _ _ _ (si_chans _ HI) _ _ _ Ht Hc) as (ch & Hch & _).
  destruct (loop_step_cases _ _ _ _ _ _ _ Hstep Hch)
    as [(u & rest & th' & canc & -> & _ & Hbuf & Hp & Hc' & Hs & Hr & Ho & Hpc')|(canc & _ & ->)].
  - destruct HI as [HC [K1 K2 K3 K4] HT HS]. split; cbn; [|done| |done].
    + by eapply chans_inv_receive.
    + intros t1 th1 [[<- <-]|[_ H1]]%lookup_insert_Some; [|eauto]. split.
      * unfold pc_ok. rewrite Hc'. destruct Hpc' as [-> | ->]; [rewrite Hpc, Hc; by eexists|done].
      * eapply out_ok_receive; [done| |done|done|done].
        eapply buffered_matches; [done|done|done|done|]. rewrite Hbuf. by left.
  - eapply inv_with_thread; [by apply inv_with_cancelled|done|by unfold same_chan|]. by split.
Qed.

(** *** The service goroutine *)

Lemma process_inv s u err :
  sys_inv s → sys_service s = SvcGot u →
  ∃ r' n, JobCache_processUpdate err (sys_cache s) u = Ret (r', n) ∧
    ∀ canc, sys_inv (s <| sys_cache := r' |> <| sys_service := SvcListening |>
      <| sys_cancelled := canc |> <| sys_processed := sys_processed s ++ [u] |>).
Proof.
  intros [HC [K1 K2 K3 K4] HTh HS] Hsvc.
  destruct (processUpdate_eq err (sys_cache s) u) as (r' & Heq & (E1 & E2 & E3 & E4) & Hd & HT & Hin & Hout);
    [by eapply chans_inv_disjoint|].
  exists r'. eexists. split; [exact Heq|]. intros canc.
  assert (JobCache_done (sys_cache s) = false) as Hnd.
  { destruct (JobCache_done (sys_cache s)); [|done]. destruct HS as [_ HS].
    rewrite HS in Hsvc by done. discriminate. }
  split; cbn; [by eapply chans_inv_process| |done|by rewrite Hd, Hnd].
  split; [by rewrite E1|by rewrite E2|congruence|by rewrite Hd, Hnd].
Qed.

Section Inv.
Variable rj : gmap string Job → list (string * Job).
Variable rm : gmap string subManager → list (string * subManager).
Hypothesis rj_perm : ∀ m, rj m ≡ₚ map_to_list m.
Hypothesis rm_perm : ∀ m, rm m ≡ₚ map_to_list m.

Lemma start_inv s t th :
  sys_inv s → sys_threads s !! t = Some th → thread_pc th = PcStart →
  ∃ s', start_step rj s t th = Ret s' ∧ sys_inv s'.
Proof.
  intros HI Ht Hpc. destruct (si_threads _ HI _ _ Ht) as [Hok Hout].
  unfold pc_ok in Hok. rewrite Hpc in Hok. destruct Hok as [Hc Hnil].
  pose proof (ci_none _ _ _ _ (si_chans _ HI) _ _ Ht Hc) as Hrecv.
  unfold start_step, out_ok in *. destruct (thread_proc th) as [user id|user|user id] eqn:Hp.
  - unfold StreamJobStatus_start. rewrite Hnil.
    destruct (Lookup_cases (sys_cache s) user id
      (λ job, (write_status [] job, TerminalStatus (Job_Status job)))) as [(job & Hj & _ & ->)| ->].
    + eexists. split; [done|]. eapply inv_with_thread; [done|done|by unfold same_chan|].
      split; [unfold pc_ok; cbn; by destruct (TerminalStatus _)|].
      unfold out_ok. cbn. rewrite Hp, Hrecv. split; [|by eexists [_]].
      constructor; [|constructor]. cbn. by apply (co_store _ (si_cache _ HI)).
    + eexists. split; [done|]. eapply inv_with_thread; [done|done|by unfold same_chan|].
      split; [by unfold pc_ok|]. unfold out_ok. cbn. rewrite Hp, Hrecv.
      split; [by constructor; [|constructor]|by eexists [_]].
  - unfold StreamJobStatuses_start. rewrite (JobsForUser_eq rj rj_perm);
      [|apply (si_cache _ HI)|by intros ? ? _ ? [=]].
    eexists. split; [done|]. eapply inv_with_thread; [done|done|by unfold same_chan|].
    split; [by unfold pc_ok|]. unfold out_ok. cbn. rewrite Hp, Hrecv. eexists. by rewrite app_nil_r.
  - eexists. split; [done|]. eapply inv_with_thread; [done|done|by unfold same_chan|].
    split; [unfold pc_ok; cbn; by destruct (RunningJobContext_start _ _ _)|]. unfold out_ok. cbn. by rewrite Hp.
Qed.

Lemma exit_inv s :
  sys_inv s → JobCache_stop (sys_cache s) = true →
  ∃ r', JobCache_service_exit rm (sys_cache s) = Ret r' ∧ JobCache_done r' = true ∧
    sys_inv (s <| sys_cache := r' |> <| sys_service := SvcExited |>).
Proof.
  intros [HC [K1 K2 K3 K4] HTh HS] Hstop.
  destruct (closeSubscribers_eq rm rm_perm (sys_cache s)) as
    (r' & Heq & (E1 & E2 & E3 & E4) & Hd & HT & Hin & Hout); [by eapply chans_inv_disjoint|].
  unfold JobCache_service_exit. rewrite Heq. eexists. split; [done|]. split; [done|].
  destruct (chans_inv_close _ _ _ _ HC HT Hin Hout) as [HC' _].
  split; cbn; [exact HC'| |done|done].
  split; cbn; [by rewrite E1|by rewrite E2|congruence|]. intros _. split; [congruence|exact HT].
Qed.

Lemma thread_inv s t done res :
  sys_inv s → thread_step rj s t done = Some res → ∃ s', res = Ret s' ∧ sys_inv s'.
Proof.
  intros HI. unfold thread_step. destruct (sys_threads s !! t) as [th|] eqn:Ht; [|done]. cbn.
  destruct (si_threads _ HI _ _ Ht) as [Hok _]. unfold pc_ok in Hok.
  destruct (thread_pc th) as [| | | |] eqn:Hpc.
  - intros [= <-]. by apply start_inv.
  - intros [= <-]. by apply subscribe_inv.
  - destruct (thread_proc th) as [| |user id] eqn:Hp; [done|done|].
    intros [= <-]. eexists. split; [done|]. by apply recheck_inv.
  - destruct (thread_chan th) as [c|] eqn:Hc; [|done].
    destruct (loop_step s t th c done) as [s'|] eqn:Hl; cbn; [|done]. intros [= <-].
    exists s'. split; [done|]. by eapply loop_inv.
  - done.
Qed.

(** Every enabled action of a good state succeeds and leads to a good state. *)
Lemma step_inv s e res :
  sys_inv s → sys_step rj rm s e = Some res → ∃ s', res = Ret s' ∧ sys_inv s'.
Proof.
  intros HI. pose proof (si_cache _ HI) as HK. destruct e; cbn [sys_step].
  - rewrite AddOrUpdate_eq. intros [= <-]. eexists. split; [done|].
    apply inv_with_cache; try done. by apply written_ok.
  - intros [= <-]. set (fn' := λ job, Ret (tt, Some (fn job))).
    destruct (store_jobs (JobCache_store (sys_cache s)) !! id) as [cur|] eqn:Hc.
    + destruct (user_may user cur) eqn:Hu.
      * rewrite (Update_allowed _ _ _ _ _ fn' cur tt (fn cur)) by done.
        eexists. split; [done|]. apply inv_with_cache; try done. apply written_ok; [done|congruence].
      * rewrite Update_denied by naive_solver. eexists. split; [done|]. by apply inv_with_cache.
    + rewrite Update_denied by naive_solver. eexists. split; [done|]. by apply inv_with_cache.
  - intros [= <-]. eexists. split; [done|]. apply inv_with_cache; try done.
    destruct HK as [K1 K2 K3 K4]. split; [by apply Delete_wf|done|done|done].
  - destruct (sys_threads s !! t) eqn:Ht; [done|]. intros [= <-]. eexists. split; [done|].
    destruct HI as [HC HK' HT HS]. split; cbn; [by apply chans_inv_spawn|done| |done].
    intros t1 th1 [[<- <-]|[_ H1]]%lookup_insert_Some; [|eauto].
    split; [done|]. unfold out_ok. cbn. destruct p; cbn; [|by exists []|done].
    split; [constructor|]. exists []. split; [cbn; lia|done].
  - by apply thread_inv.
  - intros [= <-]. eexists. split; [done|]. by apply inv_with_cancelled.
  - destruct (sys_service s) eqn:Hsvc; [|done|done]. unfold JobCache_service_recv.
    destruct (JobCache_ch (sys_cache s)) as [|u rest] eqn:Hq; [done|]. cbn. intros [= <-].
    eexists. split; [done|]. destruct HI as [HC [K1 K2 K3 K4] HT HS]. split; cbn; [done| |done|].
    + split; cbn; [done| |done|done]. rewrite Hq in K2. cbn in K2. lia.
    + split; [done|]. intros Hd. apply HS in Hd. congruence.
  - destruct (sys_service s) as [|u|] eqn:Hsvc; [done| |done]. case_match; [|done].
    destruct (process_inv s u err HI Hsvc) as (r' & n & -> & Hinv). intros [= <-].
    eexists. split; [done|]. apply Hinv.
  - destruct (sys_service s) eqn:Hsvc; [|done|done].
    destruct (JobCache_stop (sys_cache s)) eqn:Hstop; [|done].
    destruct (exit_inv s HI Hstop) as (r' & -> & _ & Hinv). intros [= <-]. eexists. split; [done|exact Hinv].
  - intros [= <-]. eexists. split; [done|]. unfold JobCache_Close.
    destruct (JobCache_closeOnce (sys_cache s)) eqn:Ho; [by apply inv_with_cache|].
    apply inv_with_cache; try done. destruct HK as [K1 K2 K3 K4].
    split; cbn; [done|done|done|]. intros Hd. apply K4 in Hd as [_ Hd]. by split.
Qed.

Lemma reachable_inv s : reachable rj rm s → sys_inv s.
Proof.
  induction 1 as [|s e s' _ IH Hs]; [apply initial_inv|].
  destruct (step_inv s e (Ret s') IH Hs) as (s0 & [= <-] & Hinv). exact Hinv.
Qed.
End Inv.

(** ** Progress *)

Lemma run_reachable rj rm s es s' :
  reachable rj rm s → sys_run rj rm s es = Some (Ret s') → reachable rj rm s'.
Proof.
  revert s. induction es as [|e es IH]; intros s Hr; cbn; [by intros [= <-]|].
  destruct (sys_step rj rm s e) as [[s1|]|] eqn:Hs; [|done|done].
  apply IH. by eapply reachable_step.
Qed.

(** A receive loop can move when its channel is closed or holds an update. *)
Lemma loop_enabled s t th c ch :
  JobCache_chans (sys_cache s) !! c = Some ch → chan_closed ch = true ∨ chan_buf ch ≠ [] →
  ∃ s', loop_step s t th c false = Some s'.
Proof.
  intros Hch Hor. unfold loop_step, status_loop, running_loop, receive. cbn. rewrite Hch.
  destruct (chan_buf ch) as [|u rest].
  - destruct Hor as [->|]; [|done]. destruct (thread_proc th); cbn; by eexists.
  - destruct (thread_proc th); cbn; by eexists.
Qed.

Lemma thread_step_loop rj s t th c done :
  sys_threads s !! t = Some th → thread_pc th = PcLoop → thread_chan th = Some c →
  thread_step rj s t done = Ret <$> loop_step s t th c done.
Proof. intros Ht Hpc Hc. unfold thread_step. rewrite Ht. cbn. by rewrite Hpc, Hc. Qed.

(** Once its channel is closed, a receive loop drains it and returns. *)
Lemma closed_loop_returns rj rm n s t th c ch :
  sys_threads s !! t = Some th → thread_pc th = PcLoop → thread_chan th = Some c →
  JobCache_chans (sys_cache s) !! c = Some ch → chan_closed ch = true → length (chan_buf ch) ≤ n →
  ∃ m s' th', m ≤ S n ∧ sys_run rj rm s (replicate m (EThread t false)) = Some (Ret s') ∧
    sys_threads s' !! t = Some th' ∧ thread_pc th' = PcReturned None.
Proof.
  revert s th ch. induction n as [|n IH]; intros s th ch Ht Hpc Hc Hch Hcl Hlen;
    (destruct (loop_enabled s t th c ch) as [s1 Hl]; [done|by left|]);
    pose proof (thread_step_loop rj s t th c false Ht Hpc Hc) as Hts; rewrite Hl in Hts;
    destruct (loop_step_cases _ _ _ _ _ _ _ Hl Hch)
      as [(u & rest & th' & canc & -> & _ & Hbuf & _ & Hc' & _ & _ & _ & Hpc')|(canc & _ & ->)];
    rewrite ?Hbuf in Hlen; cbn in Hlen; try lia.
  - exists 1. eexists _, _. split; [lia|]. cbn. rewrite Hts. cbn. split; [done|].
    split; [apply lookup_insert_eq|done].
  - destruct Hpc' as [Hpc'|Hpc'].
    + edestruct (IH (set_thread t th' (s <| sys_cache := (sys_cache s)
        <| JobCache_chans := <[c := ch <| chan_buf := rest |>]> (JobCache_chans (sys_cache s)) |> |>
        <| sys_cancelled := canc |>)) th') as (m & s' & th2 & Hm & Hrun & Hth2 & Hret).
      * apply lookup_insert_eq.
      * congruence.
      * congruence.
      * apply lookup_insert_eq.
      * done.
      * cbn. lia.
      * exists (S m), s', th2. split; [lia|]. cbn. rewrite Hts. done.
    + exists 1. eexists _, _. split; [lia|]. cbn. rewrite Hts. cbn. split; [done|].
      by split; [apply lookup_insert_eq|].
  - exists 1. eexists _, _. split; [lia|]. cbn. rewrite Hts. cbn. split; [done|].
    by split; [apply lookup_insert_eq|].
Qed.

(** Every subscriber channel of a stopped cache is closed. *)
Lemma done_closed s t th c :
  sys_inv s → JobCache_done (sys_cache s) = true →
  sys_threads s !! t = Some th → thread_chan th = Some c →
  ∃ ch, JobCache_chans (sys_cache s) !! c = Some ch ∧ chan_closed ch = true.
Proof.
  intros HI Hd Ht Hc. destruct (ci_chan _ _ _ _ (si_chans _ HI) _ _ _ Ht Hc) as (ch & Hch & _ & Hreg & _).
  exists ch. split; [done|]. destruct (chan_closed ch); [done|]. specialize (Hreg eq_refl).
  destruct (co_done _ (si_cache _ HI) Hd) as [_ Hemp]. rewrite Hemp in Hreg. by apply elem_of_nil in Hreg.
Qed.

(** The service can always finish once the cache is closing. *)
Lemma service_finishes rj rm s :
  (∀ m, rm m ≡ₚ map_to_list m) → sys_inv s → JobCache_stop (sys_cache s) = true →
  ∃ es s', length es ≤ 2 ∧ sys_run rj rm s es = Some (Ret s') ∧ JobCache_done (sys_cache s') = true.
Proof.
  intros Hrm HI Hstop.
  assert (∀ s, sys_inv s → sys_service s = SvcListening → JobCache_stop (sys_cache s) = true →
    ∃ s', sys_run rj rm s [EServiceStop] = Some (Ret s') ∧ JobCache_done (sys_cache s') = true) as Hlast.
  { intros s1 H1 Hsvc Hst. destruct (exit_inv rm Hrm s1 H1 Hst) as (r' & He & Hd & _).
    eexists. cbn. rewrite Hsvc, Hst, He. by split. }
  destruct (sys_service s) as [|u|] eqn:Hsvc.
  - destruct (Hlast s HI Hsvc Hstop) as (s' & ? & ?). exists [EServiceStop], s'. cbn [length]. auto.
  - set (err := λ sub, context_Err (sys_cancelled s) (subscriber_Context sub)).
    destruct (processUpdate_eq err (sys_cache s) u) as (r' & Heq & (_ & _ & Hst & _) & _);
      [eapply chans_inv_disjoint, (si_chans _ HI)|].
    destruct (process_inv s u err HI Hsvc) as (r1 & n1 & Heq1 & Hinv).
    rewrite Heq in Heq1. injection Heq1 as -> <-.
    edestruct (Hlast _ (Hinv (list_to_set (subscriber_Context <$>
      base.filter (λ sub, err sub = true) (targets (sys_cache s) u)) ∪ sys_cancelled s)))
      as (s' & Hrun & Hd); [done|cbn; congruence|].
    exists [EServiceProcess err; EServiceStop], s'. split; [done|]. split; [|done].
    cbn [sys_run]. cbn [sys_step]. rewrite Hsvc.
    replace (sees_cancelled _ _ _) with true; [rewrite Heq; exact Hrun|].
    symmetry. unfold sees_cancelled. apply forallb_Forall_iff, list.Forall_forall. intros sub _.
    unfold err. by destruct (context_Err _ _).
  - exists [], s. split; [cbn; lia|]. split; [done|]. by apply (si_service _ HI).
Qed.
