(* ===== verification/CacheSystemProps.v ===== *)
(** * Properties of the concurrent cache

    The theorems about all interleavings, each with a concrete run, and the two
    schedules on which a subscriber misses the end of its job. *)

From S2P Require Import Prelude GoStd Types TypesFacts Store Writer SubManager.
From S2P Require Import Cache CacheFacts CacheSystem CacheSystemFacts.

(** A run: a stream of job-1 is opened, the job finishes, the stream is told,
    the cache is closed. *)
Definition running_job : Job := sample_job.
Definition finished_job : Job := sample_job <| Job_Status := StatusFinished |>.
Definition no_err : subscriber → bool := λ _, false.
Definition at_time : Time := mkTime 7 "UTC".

Definition demo_open : list event :=
  [EAddOrUpdate true at_time running_job; EServiceRecv; EServiceProcess no_err;
   ESpawn 0 (StreamJobStatus "alice" "job-1") [5]; EThread 0 false; EThread 0 false;
   EAddOrUpdate true at_time finished_job; EServiceRecv; EServiceProcess no_err].

Definition demo_close : list event :=
  [EThread 0 false; EClose; EServiceStop].

Definition run_from (s : System) (es : list event) : System :=
  match sys_run map_to_list map_to_list s es with Some (Ret s') => s' | _ => s end.

Definition demo_state : System := run_from initial (demo_open ++ demo_close).

Lemma demo_reachable : reachable map_to_list map_to_list demo_state.
Proof.
  apply (run_reachable _ _ initial (demo_open ++ demo_close)); [constructor|].
  vm_compute. reflexivity.
Qed.



(** C2: after [Close] has returned ([done] is closed) no subscription is left,
    the channel of every thread that ever subscribed is closed, and every
    receive loop still running returns within as many turns as there are
    updates left in its channel, plus one. *)
Theorem close_releases_subscribers (rj : gmap string Job → list (string * Job))
    (rm : gmap string subManager → list (string * subManager))
    (rj_perm : ∀ m, rj m ≡ₚ map_to_list m) (rm_perm : ∀ m, rm m ≡ₚ map_to_list m)
    (s : System) (Hs : reachable rj rm s) (Hdone : JobCache_done (sys_cache s) = true) :
  (∀ k, topic_subs (sys_cache s) k = []) ∧
  ∀ t th c, sys_threads s !! t = Some th → thread_chan th = Some c →
    ∃ ch, JobCache_chans (sys_cache s) !! c = Some ch ∧ chan_closed ch = true ∧
      (thread_pc th = PcLoop →
       ∃ m s' th', m ≤ S (length (chan_buf ch)) ∧
         sys_run rj rm s (replicate m (EThread t false)) = Some (Ret s') ∧
         sys_threads s' !! t = Some th' ∧ thread_pc th' = PcReturned None).
Proof.
  apply (reachable_inv rj rm rj_perm rm_perm) in Hs as HI. split.
  - by apply (co_done _ (si_cache _ HI)).
  - intros t th c Ht Hc. destruct (done_closed s t th c) as (ch & Hch & Hcl); [done..|].
    exists ch. split; [done|]. split; [done|]. intros Hpc. by eapply closed_loop_returns.
Qed.

Lemma close_releases_subscribers_witness :
  JobCache_done (sys_cache demo_state) = true ∧
  (∀ k, topic_subs (sys_cache demo_state) k = []) ∧
  ∀ t th c, sys_threads demo_state !! t = Some th → thread_chan th = Some c →
    ∃ ch, JobCache_chans (sys_cache demo_state) !! c = Some ch ∧ chan_closed ch = true ∧
      (thread_pc th = PcLoop →
       ∃ m s' th', m ≤ S (length (chan_buf ch)) ∧
         sys_run map_to_list map_to_list demo_state (replicate m (EThread t false)) = Some (Ret s') ∧
         sys_threads s' !! t = Some th' ∧ thread_pc th' = PcReturned None).
Proof.
  split; [vm_compute; reflexivity|].
  apply (close_releases_subscribers map_to_list map_to_list (λ m, reflexivity _) (λ m, reflexivity _)
    demo_state demo_reachable).
  vm_compute. reflexivity.
Defined.

(** [Close] does not hang: once it has signalled the service goroutine, at
    most two actions of that goroutine (finishing the update it holds, and
    tearing down) close [done], whatever state the other goroutines are in. *)
Theorem close_completes (rj : gmap string Job → list (string * Job))
    (rm : gmap string subManager → list (string * subManager))
    (rj_perm : ∀ m, rj m ≡ₚ map_to_list m) (rm_perm : ∀ m, rm m ≡ₚ map_to_list m)
    (s : System) (Hs : reachable rj rm s) :
  ∃ s1 es s2, sys_step rj rm s EClose = Some (Ret s1) ∧ length es ≤ 2 ∧
    sys_run rj rm s1 es = Some (Ret s2) ∧ JobCache_done (sys_cache s2) = true.
Proof.
  apply (reachable_inv rj rm rj_perm rm_perm) in Hs as HI.
  destruct (step_inv rj rm rj_perm rm_perm s EClose _ HI eq_refl) as (s1 & [= <-] & HI1).
  destruct (service_finishes rj rm _ rm_perm HI1) as (es & s2 & Hlen & Hrun & Hd).
  - cbn. unfold JobCache_Close. destruct (JobCache_closeOnce (sys_cache s)) eqn:Ho; [|done].
    by rewrite (co_stop _ (si_cache _ HI)).
  - by eexists _, es, s2.
Qed.

Lemma close_completes_witness :
  ∃ s1 es s2, sys_step map_to_list map_to_list (run_from initial demo_open) EClose = Some (Ret s1) ∧
    length es ≤ 2 ∧ sys_run map_to_list map_to_list s1 es = Some (Ret s2) ∧
    JobCache_done (sys_cache s2) = true.
Proof.
  apply (close_completes map_to_list map_to_list (λ m, reflexivity _) (λ m, reflexivity _)).
  apply (run_reachable _ _ initial demo_open); [constructor|]. vm_compute. reflexivity.
Defined.

(** C3: what a status stream sends its client is a first report followed by
    the updates received, in order; the updates received are a subsequence, in
    order, of the processed updates of the stream's topic, so a stream never
    reports on another job (or another user's job), repeats an update or
    reorders two; and a stream of one job sends nothing but statuses of that
    job and look-up errors. *)
Theorem streams_are_ordered (rj : gmap string Job → list (string * Job))
    (rm : gmap string subManager → list (string * subManager))
    (rj_perm : ∀ m, rj m ≡ₚ map_to_list m) (rm_perm : ∀ m, rm m ≡ₚ map_to_list m)
    (s : System) (Hs : reachable rj rm s) (t : nat) (th : thread)
    (Ht : sys_threads s !! t = Some th) :
  out_ok th ∧
  thread_recv th `sublist_of`
    base.filter (λ u, topic_matches (topic_of (thread_proc th)) u = true) (sys_processed s).
Proof.
  apply (reachable_inv rj rm rj_perm rm_perm) in Hs as HI. split; [by apply (si_threads _ HI t th)|].
  destruct (thread_chan th) as [c|] eqn:Hc.
  - destruct (ci_chan _ _ _ _ (si_chans _ HI) _ _ _ Ht Hc) as (ch & _ & _ & _ & Hsub).
    etransitivity; [|exact Hsub]. by apply sublist_inserts_r.
  - rewrite (ci_none _ _ _ _ (si_chans _ HI) _ _ Ht Hc). apply sublist_nil_l.
Qed.

Lemma streams_are_ordered_witness :
  ∃ th, sys_threads demo_state !! 0 = Some th ∧
    map (λ c, match c with CallJobStatus id _ st _ _ => (id, st) | _ => ("", "") end) (thread_out th)
      = [("job-1", StatusRunning); ("job-1", StatusFinished)] ∧
    out_ok th ∧
    thread_recv th `sublist_of`
      base.filter (λ u, topic_matches (topic_of (thread_proc th)) u = true) (sys_processed demo_state).
Proof.
  destruct (sys_threads demo_state !! 0) as [th|] eqn:Ht; [|vm_compute in Ht; discriminate].
  exists th. split; [reflexivity|].
  split; [vm_compute in Ht; injection Ht as <-; vm_compute; reflexivity|].
  apply (streams_are_ordered map_to_list map_to_list (λ m, reflexivity _) (λ m, reflexivity _)
    demo_state demo_reachable 0 th Ht).
Defined.

(** ** Watching a running job *)

(** Schedules below: thread 0 is the watcher or stream of job-1. *)
Definition cancelled_in (s : System) (t : nat) : bool :=
  match sys_threads s !! t with
  | Some th => context_Err (sys_cancelled s) (thread_sub th)
  | None => false
  end.

Lemma context_Err_member (cancelled : gset context) ctx :
  ctx ∈ cancelled → context_Err cancelled ctx = true.
Proof. intros H. destruct ctx; cbn; by rewrite bool_decide_true. Qed.

(** The watcher's turn on a closed channel, or on one with a terminal update in
    front, cancels the context. *)
Lemma watcher_turn rj s t th user id c ch :
  sys_threads s !! t = Some th → thread_proc th = RunningJobContext user id →
  thread_pc th = PcLoop → thread_chan th = Some c → JobCache_chans (sys_cache s) !! c = Some ch →
  (match chan_buf ch with
   | u :: _ => TerminalStatus (statusUpdate_Status u) = true
   | [] => chan_closed ch = true
   end) →
  ∃ s', thread_step rj s t false = Some (Ret s') ∧ cancelled_in s' t = true.
Proof.
  intros Ht Hp Hpc Hc Hch Hend. rewrite (thread_step_loop rj s t th c false Ht Hpc Hc).
  unfold loop_step, running_loop, receive. cbn. rewrite Hp, Hch.
  destruct (chan_buf ch) as [|u rest]; rewrite Hend; cbn; (eexists; split; [done|]);
    unfold cancelled_in; cbn; rewrite lookup_insert_eq; apply context_Err_member; set_solver.
Qed.

(** C15: the context of [RunningJobContext] ends with the job: once the service
    processes a terminal update of the job while the watcher's channel is empty
    (or has been closed), the watcher's next turn cancels the context, whatever
    contexts end in between. *)
Theorem running_context_ends (rj : gmap string Job → list (string * Job))
    (rm : gmap string subManager → list (string * subManager))
    (rj_perm : ∀ m, rj m ≡ₚ map_to_list m) (rm_perm : ∀ m, rm m ≡ₚ map_to_list m)
    (s : System) (Hs : reachable rj rm s) (t : nat) (th : thread) (user : string) (id : JobID)
    (c : nat) (ch : chan) (u : statusUpdate) (err : subscriber → bool)
    (Ht : sys_threads s !! t = Some th) (Hp : thread_proc th = RunningJobContext user id)
    (Hpc : thread_pc th = PcLoop) (Hc : thread_chan th = Some c)
    (Hch : JobCache_chans (sys_cache s) !! c = Some ch) (Hempty : chan_buf ch = [])
    (Hsvc : sys_service s = SvcGot u) (Hid : statusUpdate_ID u = id)
    (Hterm : TerminalStatus (statusUpdate_Status u) = true)
    (Herr : sees_cancelled (sys_cancelled s) err (targets (sys_cache s) u) = true) :
  ∃ s', sys_run rj rm s [EServiceProcess err; EThread t false] = Some (Ret s') ∧
    cancelled_in s' t = true.
Proof.
  apply (reachable_inv rj rm rj_perm rm_perm) in Hs as HI. subst id.
  destruct (processUpdate_eq err (sys_cache s) u) as (r' & Heq & _ & _ & _ & Hin & Hout);
    [eapply chans_inv_disjoint, (si_chans _ HI)|].
  destruct (ci_chan _ _ _ _ (si_chans _ HI) _ _ _ Ht Hc) as (ch0 & Hch0 & Hcap & Hreg & _).
  simplify_eq. rewrite Hp in Hreg. cbn [sys_run sys_step]. rewrite Hsvc, Herr, Heq. cbn [mbind outcome_bind fst].
  (* the watcher's channel after the update *)
  assert (∃ ch', JobCache_chans r' !! c = Some ch' ∧
    match chan_buf ch' with
    | u :: _ => TerminalStatus (statusUpdate_Status u) = true
    | [] => chan_closed ch' = true
    end) as (ch' & Hch' & Hend).
  { destruct (decide (c ∈ subscriber_Channel <$> targets (sys_cache s) u)) as [Hct|Hct].
    - apply list_elem_of_fmap in Hct as (sub & -> & Hsub). exists (deliver err u sub ch).
      rewrite Hin, Hch by done. split; [done|]. unfold deliver. rewrite Hempty, Hcap.
      destruct (err sub); cbn; by rewrite ?Hempty.
    - exists ch. rewrite Hout by done. split; [done|]. rewrite Hempty.
      destruct (chan_closed ch); [done|]. destruct Hct. specialize (Hreg eq_refl).
      apply list_elem_of_fmap in Hreg as (sub & -> & Hsub). apply list_elem_of_fmap_2, targets_elem.
      exists (TopicID (statusUpdate_ID u)). split; [by apply bool_decide_eq_true|done]. }
  match goal with |- context [thread_step rj ?s1 t false] =>
    destruct (watcher_turn rj s1 t th user (statusUpdate_ID u) c ch') as (s' & -> & Hcanc) end; try done.
  by exists s'.
Qed.

Definition watch_open : list event :=
  [EAddOrUpdate true at_time running_job; EServiceRecv; EServiceProcess no_err;
   ESpawn 0 (RunningJobContext "alice" "job-1") [5]; EThread 0 false; EThread 0 false; EThread 0 false].

Definition watch_state : System :=
  run_from initial (watch_open ++ [EAddOrUpdate true at_time finished_job; EServiceRecv]).

Lemma running_context_ends_witness :
  ∃ s', sys_run map_to_list map_to_list watch_state [EServiceProcess no_err; EThread 0 false] = Some (Ret s') ∧
    cancelled_in s' 0 = true.
Proof.
  assert (reachable map_to_list map_to_list watch_state) as Hr.
  { apply (run_reachable _ _ initial
      (watch_open ++ [EAddOrUpdate true at_time finished_job; EServiceRecv])); [constructor|].
    vm_compute. reflexivity. }
  destruct (sys_threads watch_state !! 0) as [th|] eqn:Ht; [|vm_compute in Ht; discriminate].
  apply (running_context_ends map_to_list map_to_list (λ m, reflexivity _) (λ m, reflexivity _)
    watch_state Hr 0 th "alice" "job-1" 0 (make_chan 1) (newStatusUpdateFromJob finished_job) no_err Ht);
    vm_compute in Ht; try (injection Ht as <-); vm_compute; reflexivity.
Defined.

(** The system is at rest: the queue is empty, the service waits, the cache is
    open, thread 0 is blocked in its loop; yet the job is over. *)
Definition stuck_after_end (s : System) (id : JobID) : Prop :=
  JobCache_ch (sys_cache s) = [] ∧ sys_service s = SvcListening ∧
  JobCache_stop (sys_cache s) = false ∧
  (∃ job, store_jobs (JobCache_store (sys_cache s)) !! id = Some job ∧
     TerminalStatus (Job_Status job) = true) ∧
  sys_step map_to_list map_to_list s (EThread 0 false) = None ∧
  (∃ th, sys_threads s !! 0 = Some th ∧ thread_pc th = PcLoop).

(** [RunningJobContext] can miss the end of its job.  Its channel holds one
    update and the service drops updates for full channels: when the job goes
    through a message change and then ends before the watcher runs, the end is
    dropped, and the context it returned stays alive although the job is over
    and nothing more will happen. *)
Theorem running_context_can_outlive_job :
  ∃ es s, sys_run map_to_list map_to_list initial es = Some (Ret s) ∧
    stuck_after_end s "job-1" ∧ cancelled_in s 0 = false.
Proof.
  exists (watch_open ++
    [EAddOrUpdate true at_time (running_job <| Job_StatusMsg := "step 2" |>); EServiceRecv;
     EServiceProcess no_err; EAddOrUpdate true at_time finished_job; EServiceRecv;
     EServiceProcess no_err; EThread 0 false]).
  eexists. split; [vm_compute; reflexivity|]. unfold stuck_after_end.
  repeat split; try (vm_compute; reflexivity); eexists; split; vm_compute; reflexivity.
Qed.

(** [StreamJobStatus] looks at the job before it subscribes and not again
    after: a job that ends in between leaves its client with the running
    status for ever. *)
Theorem stream_can_miss_the_end :
  ∃ es s th, sys_run map_to_list map_to_list initial es = Some (Ret s) ∧
    stuck_after_end s "job-1" ∧ sys_threads s !! 0 = Some th ∧
    thread_out th = [CallJobStatus "job-1" "demo" StatusRunning "" ""].
Proof.
  exists [EAddOrUpdate true at_time running_job; EServiceRecv; EServiceProcess no_err;
    ESpawn 0 (StreamJobStatus "alice" "job-1") [5]; EThread 0 false;
    EAddOrUpdate true at_time finished_job; EServiceRecv; EServiceProcess no_err; EThread 0 false].
  eexists _, _. split; [vm_compute; reflexivity|]. unfold stuck_after_end.
  repeat split; try (vm_compute; reflexivity); eexists; split; vm_compute; reflexivity.
Qed.
