(* ===== verification/Stream.v ===== *)
(** * The wire format (src/internal/protocol/stream.go)

    A message is a big-endian 32-bit length followed by that many bytes.  The
    encoder writes through an [io.Writer]; the decoder reads from an
    [io.Reader], which delivers some bytes and then an error ([io.EOF] at a
    regular end).  What the bytes of a message mean is JSON's business:
    [json_Valid] is a parameter of the operations that call it. *)

From Stdlib Require Import Strings.Byte.
From S2P Require Import Prelude GoStd Types.

Abbreviation bytes := (list byte) (only parsing).

Definition DefaultMaxMsgSize : Z := 5242880.

Definition ErrMsgTooLarge : error := ErrSentinel "message exceeds maximum message size".
Definition ErrMsgInvalid : error := ErrSentinel "invalid message".
Definition io_EOF : error := ErrSentinel "EOF".
Definition io_ErrUnexpectedEOF : error := ErrSentinel "unexpected EOF".

(** ** Big-endian 32-bit integers ([encoding/binary]) *)
Definition byte_of_Z (z : Z) : byte := default x00 (Byte.of_N (Z.to_N (Z.land z 255))).
Definition Z_of_byte (b : byte) : Z := Z.of_N (Byte.to_N b).

Definition BigEndian_PutUint32 (v : Z) : bytes :=
  [byte_of_Z (Z.shiftr v 24); byte_of_Z (Z.shiftr v 16); byte_of_Z (Z.shiftr v 8); byte_of_Z v].

Definition BigEndian_Uint32 (b : bytes) : Z :=
  match b with
  | [b0; b1; b2; b3] =>
      Z.lor (Z_of_byte b3) (Z.lor (Z.shiftl (Z_of_byte b2) 8)
        (Z.lor (Z.shiftl (Z_of_byte b1) 16) (Z.shiftl (Z_of_byte b0) 24)))
  | _ => 0
  end.

Lemma Z_of_byte_of_Z z : Z_of_byte (byte_of_Z z) = Z.land z 255.
Proof.
  unfold Z_of_byte, byte_of_Z. change 255%Z with (Z.ones 8). rewrite Z.land_ones by lia.
  pose proof (Z.mod_pos_bound z (2 ^ 8) ltac:(lia)) as Hb.
  destruct (Byte.of_N _) as [b|] eqn:E; cbn.
  - apply Byte.to_of_N in E. rewrite E. lia.
  - apply Byte.of_N_None_iff in E. lia.
Qed.

Lemma testbit_255 i : (0 ≤ i)%Z → Z.testbit 255 i = (i <? 8)%Z.
Proof.
  intros Hi. change 255%Z with (Z.ones 8). destruct (Z.ltb_spec i 8).
  - by apply Z.ones_spec_low.
  - apply Z.ones_spec_high. lia.
Qed.

Lemma BigEndian_roundtrip v :
  (0 ≤ v < 2 ^ 32)%Z → BigEndian_Uint32 (BigEndian_PutUint32 v) = v.
Proof.
  intros Hv. unfold BigEndian_PutUint32, BigEndian_Uint32. rewrite !Z_of_byte_of_Z.
  apply Z.bits_inj'. intros i Hi.
  assert (32 ≤ i → Z.testbit v i = false)%Z as Hhigh.
  { intros H. destruct (decide (v = 0%Z)) as [->|]; [apply Z.bits_0|].
    apply Z.bits_above_log2; [lia|]. apply Z.log2_lt_pow2; [lia|].
    apply Z.lt_le_trans with (2 ^ 32)%Z; [lia|]. by apply Z.pow_le_mono_r. }
  rewrite !Z.lor_spec, Z.land_spec, testbit_255, !Z.shiftl_spec by lia.
  assert (∀ k, (0 ≤ k)%Z → Z.testbit (Z.land (Z.shiftr v k) 255) (i - k) =
    ((k <=? i)%Z && (i <? k + 8)%Z && Z.testbit v i)) as Hk.
  { intros k Hk. destruct (Z.leb_spec k i).
    - rewrite Z.land_spec, testbit_255, Z.shiftr_spec by lia.
      replace (i - k + k)%Z with i by lia. rewrite andb_comm. cbn. f_equal.
      destruct (Z.ltb_spec (i - k) 8), (Z.ltb_spec i (k + 8)); lia || done.
    - rewrite Z.testbit_neg_r by lia. done. }
  rewrite !Hk by lia.
  destruct (Z.leb_spec 8 i), (Z.leb_spec 16 i), (Z.leb_spec 24 i), (Z.ltb_spec i 8),
    (Z.ltb_spec i (8 + 8)), (Z.ltb_spec i (16 + 8)), (Z.ltb_spec i (24 + 8)); try lia; cbn;
    rewrite ?andb_false_r, ?andb_true_r, ?orb_false_r; try done.
  rewrite Hhigh by lia. done.
Qed.

(** ** Encoder *)

(** [io.Writer]: the new state and the error of one [Write]. *)
Class Writer (W : Type) := Write : W → bytes → W * option error.

Record Encoder (W : Type) := mkEncoder { Encoder_w : W; Encoder_maxSize : Z }.
Arguments mkEncoder {W}.
Arguments Encoder_w {W}.
Arguments Encoder_maxSize {W}.

Definition NewEncoder {W} (w : W) (maxSize : Z) : Encoder W := mkEncoder w maxSize.

Section Encoding.
Context {W : Type} `{!Writer W}.
Variable json_Valid : bytes → bool.

Definition Encoder_write (e : Encoder W) (msg : bytes) : Encoder W * option error :=
  let len := Z.of_nat (length msg) in
  if (Encoder_maxSize e <? len)%Z then (e, Some ErrMsgTooLarge)
  else if (2 ^ 32 - 1 <? len)%Z then (e, Some ErrMsgTooLarge)
  else
    let header := len in
    match Write (Encoder_w e) (BigEndian_PutUint32 header) with
    | (w, Some err) => (mkEncoder w (Encoder_maxSize e), Some err)
    | (w, None) =>
        match Write w msg with
        | (w, err) => (mkEncoder w (Encoder_maxSize e), err)
        end
    end.

(** [Encode(msg)], given the result of [json.Marshal(msg)]. *)
Definition Encoder_Encode (e : Encoder W) (marshalled : option bytes) : Encoder W * option error :=
  match marshalled with
  | None => (e, Some ErrMsgInvalid)
  | Some buf => Encoder_write e buf
  end.

Definition Encoder_EncodeRaw (e : Encoder W) (msg : bytes) : Encoder W * option error :=
  if negb (json_Valid msg) then (e, Some ErrMsgInvalid) else Encoder_write e msg.
End Encoding.

(** ** Decoder *)

(** [io.Reader]: the bytes it will deliver, then the error. *)
Record Reader := mkReader { Reader_data : bytes; Reader_end : error }.

(** [io.ReadFull(r, buf[:n])]: the reader afterwards, the bytes read, and the
    error; the end of the input in the middle of the read is unexpected. *)
Definition io_ReadFull (r : Reader) (n : nat) : Reader * bytes * option error :=
  let got := take n (Reader_data r) in
  let r' := mkReader (drop n (Reader_data r)) (Reader_end r) in
  if (length got =? n)%nat then (r', got, None)
  else (r', got, Some (match got with
                       | [] => Reader_end r
                       | _ => if decide (Reader_end r = io_EOF) then io_ErrUnexpectedEOF
                              else Reader_end r
                       end)).

Record Decoder := mkDecoder {
  Decoder_r : Reader;
  Decoder_headerBuf : bytes;
  Decoder_buf : bytes;
  Decoder_msgLen : Z;
  Decoder_err : option error;
}.

#[export] Instance eta_Decoder : Eta Decoder := λ d,
  mkDecoder (Decoder_r d) (Decoder_headerBuf d) (Decoder_buf d) (Decoder_msgLen d) (Decoder_err d).
#[export] Instance set_Decoder_r : Setter Decoder_r := ltac:(solve_setter).
#[export] Instance set_Decoder_headerBuf : Setter Decoder_headerBuf := ltac:(solve_setter).
#[export] Instance set_Decoder_buf : Setter Decoder_buf := ltac:(solve_setter).
#[export] Instance set_Decoder_msgLen : Setter Decoder_msgLen := ltac:(solve_setter).
#[export] Instance set_Decoder_err : Setter Decoder_err := ltac:(solve_setter).

Definition NewDecoder (r : Reader) (maxSize : nat) : Decoder :=
  mkDecoder r (replicate 4 x00) (replicate maxSize x00) 0 None.

(** Reading into the front of a buffer. *)
Definition overwrite (buf got : bytes) : bytes := got ++ drop (length got) buf.

Definition Decoder_More (d : Decoder) : Decoder * bool :=
  match Decoder_err d with
  | Some _ => (d, false)
  | None =>
      let d := d <| Decoder_msgLen := 0%Z |> in
      let '(r, got, err) := io_ReadFull (Decoder_r d) 4 in
      let d := d <| Decoder_r := r |> <| Decoder_headerBuf := overwrite (Decoder_headerBuf d) got |>
                 <| Decoder_err := err |> in
      match err with
      | Some _ => (d, false)
      | None =>
          let d := d <| Decoder_msgLen := BigEndian_Uint32 (Decoder_headerBuf d) |> in
          if (Z.of_nat (length (Decoder_buf d)) <? Decoder_msgLen d)%Z
          then (d <| Decoder_err := Some ErrMsgTooLarge |>, false)
          else
            let '(r, got, err) := io_ReadFull (Decoder_r d) (Z.to_nat (Decoder_msgLen d)) in
            let d := d <| Decoder_r := r |> <| Decoder_buf := overwrite (Decoder_buf d) got |>
                       <| Decoder_err := err |> in
            match err with
            | Some _ => (d, false)
            | None => (d, true)
            end
      end
  end.

(** [d.buf[:d.msgLen]]. *)
Definition Decoder_current (d : Decoder) : bytes := take (Z.to_nat (Decoder_msgLen d)) (Decoder_buf d).

(** The value inside a valid JSON text: [json.Unmarshal] hands a [RawMessage]
    the bytes without the surrounding white space. *)
Definition json_space (b : byte) : bool :=
  match b with x20 | x09 | x0a | x0d => true | _ => false end.

Fixpoint skip_space (b : bytes) : bytes :=
  match b with
  | c :: b' => if json_space c then skip_space b' else b
  | [] => []
  end.

Definition json_trim (b : bytes) : bytes := reverse (skip_space (reverse (skip_space b))).

Definition Decoder_Raw (json_Valid : bytes → bool) (d : Decoder) : Decoder * option bytes :=
  match Decoder_err d with
  | Some _ => (d, None)
  | None =>
      if json_Valid (Decoder_current d) then (d, Some (json_trim (Decoder_current d)))
      else (d <| Decoder_err := Some ErrMsgInvalid |>, None)
  end.

Definition Decoder_MsgSize (d : Decoder) : Z := Decoder_msgLen d.

Definition Decoder_Err (d : Decoder) : option error :=
  match Decoder_err d with
  | None => None
  | Some err =>
      if decide (err = io_EOF) then None else Some (ErrWrap "failed to read from stream" err)
  end.

(** ** Framing *)

#[export] Instance bytes_Writer : Writer (list byte) := λ w b, (w ++ b, None).

Definition frame (msg : bytes) : bytes := BigEndian_PutUint32 (Z.of_nat (length msg)) ++ msg.

(** A message an encoder and a decoder with the given limits both accept. *)
Definition fits (limit : nat) (msg : bytes) : Prop :=
  length msg ≤ limit ∧ (Z.of_nat (length msg) < 2 ^ 32)%Z.

Lemma Encoder_write_fits (w : bytes) (maxSize : nat) msg :
  fits maxSize msg →
  Encoder_write (NewEncoder w (Z.of_nat maxSize)) msg = (NewEncoder (w ++ frame msg) (Z.of_nat maxSize), None).
Proof.
  intros [H1 H2]. unfold Encoder_write, NewEncoder. cbn [Encoder_w Encoder_maxSize].
  destruct (Z.ltb_spec (Z.of_nat maxSize) (Z.of_nat (length msg))); [lia|].
  destruct (Z.ltb_spec (2 ^ 32 - 1) (Z.of_nat (length msg))); [lia|].
  cbn [Write bytes_Writer]. unfold frame. by rewrite app_assoc.
Qed.

Lemma ReadFull_enough r n :
  n ≤ length (Reader_data r) →
  io_ReadFull r n = (mkReader (drop n (Reader_data r)) (Reader_end r), take n (Reader_data r), None).
Proof.
  intros Hn. unfold io_ReadFull. rewrite length_take, Nat.min_l by done. by rewrite Nat.eqb_refl.
Qed.

Lemma ReadFull_short r n :
  length (Reader_data r) < n → Reader_end r = io_EOF →
  io_ReadFull r n = (mkReader [] io_EOF, Reader_data r,
    Some (if decide (Reader_data r = []) then io_EOF else io_ErrUnexpectedEOF)).
Proof.
  intros Hn He. unfold io_ReadFull. rewrite take_ge, drop_ge by lia.
  destruct (Nat.eqb_spec (length (Reader_data r)) n); [lia|]. rewrite He.
  by destruct (Reader_data r).
Qed.

(** The decoder's buffers keep their size. *)
Definition Decoder_wf (d : Decoder) : Prop := length (Decoder_headerBuf d) = 4.

Lemma overwrite_full buf got : length got = length buf → overwrite buf got = got.
Proof. intros H. unfold overwrite. by rewrite drop_ge, app_nil_r by lia. Qed.

Lemma overwrite_length buf got : length got ≤ length buf → length (overwrite buf got) = length buf.
Proof. intros H. unfold overwrite. rewrite length_app, length_drop. lia. Qed.

Lemma header_length v : length (BigEndian_PutUint32 v) = 4.
Proof. done. Qed.

(** One well-formed message at the head of the input. *)
Lemma More_frame d msg rest :
  Decoder_wf d → Decoder_err d = None → Reader_data (Decoder_r d) = frame msg ++ rest →
  fits (length (Decoder_buf d)) msg →
  ∃ d', Decoder_More d = (d', true) ∧ Decoder_wf d' ∧ Decoder_err d' = None ∧
    Decoder_current d' = msg ∧ length (Decoder_buf d') = length (Decoder_buf d) ∧
    Decoder_r d' = mkReader rest (Reader_end (Decoder_r d)).
Proof.
  intros Hwf Herr Hdata [Hlen H32]. destruct d as [r hdr buf n err].
  unfold Decoder_wf in Hwf. cbn [Decoder_headerBuf Decoder_err Decoder_r Decoder_buf] in *. subst err.
  unfold Decoder_More. cbn [Decoder_err Decoder_r].
  assert (take 4 (Reader_data r) = BigEndian_PutUint32 (Z.of_nat (length msg))) as Htake.
  { rewrite Hdata. unfold frame. by rewrite <- app_assoc, take_app_length'. }
  assert (drop 4 (Reader_data r) = msg ++ rest) as Hdrop.
  { rewrite Hdata. unfold frame. by rewrite <- app_assoc, drop_app_length'. }
  change (Decoder_r (set_field Decoder_msgLen 0%Z _)) with r.
  rewrite ReadFull_enough by (rewrite Hdata; unfold frame; rewrite !length_app, header_length; lia).
  rewrite Htake, Hdrop.
  cbn -[BigEndian_PutUint32 BigEndian_Uint32 Z.ltb io_ReadFull overwrite Z.of_nat Z.to_nat].
  rewrite overwrite_full by (by rewrite header_length). rewrite BigEndian_roundtrip by lia.
  destruct (Z.ltb_spec (Z.of_nat (length buf)) (Z.of_nat (length msg))); [lia|].
  rewrite Nat2Z.id, ReadFull_enough by (cbn; rewrite length_app; lia).
  cbn -[BigEndian_PutUint32 overwrite]. rewrite take_app_length, drop_app_length.
  eexists. split; [done|]. unfold Decoder_wf, Decoder_current. cbn -[BigEndian_PutUint32 overwrite].
  rewrite overwrite_length, Nat2Z.id by done. repeat split.
  unfold overwrite. by rewrite take_app_length.
Qed.

(** [for d.More() { use(d.buf[:d.msgLen]) }], for at most [fuel] messages. *)
Fixpoint Decoder_loop (fuel : nat) (d : Decoder) : list bytes * Decoder :=
  match fuel with
  | O => ([], d)
  | S fuel =>
      match Decoder_More d with
      | (d, false) => ([], d)
      | (d, true) => let '(msgs, d') := Decoder_loop fuel d in (Decoder_current d :: msgs, d')
      end
  end.

(** The input ends regularly: no message, and no error to report. *)
Lemma More_end d :
  Decoder_err d = None → Decoder_r d = mkReader [] io_EOF →
  ∃ d', Decoder_More d = (d', false) ∧ Decoder_err d' = Some io_EOF.
Proof.
  intros Herr Hr. unfold Decoder_More. rewrite Herr.
  change (Decoder_r (set_field Decoder_msgLen 0%Z d)) with (Decoder_r d). rewrite Hr.
  eexists. split; [reflexivity|]. reflexivity.
Qed.

Lemma Decoder_loop_frames msgs d :
  Decoder_wf d → Decoder_err d = None →
  Decoder_r d = mkReader (mjoin (frame <$> msgs)) io_EOF →
  Forall (fits (length (Decoder_buf d))) msgs →
  ∃ d', Decoder_loop (S (length msgs)) d = (msgs, d') ∧ Decoder_err d' = Some io_EOF.
Proof.
  revert d. induction msgs as [|msg msgs IH]; intros d Hwf Herr Hr Hfit.
  - destruct (More_end d Herr Hr) as (d' & Hm & He). exists d'. cbn [Decoder_loop length].
    by rewrite Hm.
  - apply list.Forall_cons in Hfit as [Hmsg Hfit].
    destruct (More_frame d msg (mjoin (frame <$> msgs))) as (d1 & Hm & Hwf1 & He1 & Hc & Hlen & Hr1);
      [done|done|by rewrite Hr|done|].
    rewrite Hr in Hr1. destruct (IH d1) as (d2 & Hl & He2); [done|done|done|by rewrite Hlen|].
    exists d2. change (length (msg :: msgs)) with (S (length msgs)).
    remember (S (length msgs)) as n. cbn [Decoder_loop]. rewrite Hm, Hl. by rewrite Hc.
Qed.

Lemma NewDecoder_wf r n : Decoder_wf (NewDecoder r n).
Proof. done. Qed.

(** Encoding several messages in a row, stopping at the first error. *)
Fixpoint encode_all {W} `{!Writer W} (e : Encoder W) (msgs : list bytes) : Encoder W * option error :=
  match msgs with
  | [] => (e, None)
  | msg :: msgs =>
      match Encoder_write e msg with
      | (e, Some err) => (e, Some err)
      | (e, None) => encode_all e msgs
      end
  end.

Lemma encode_all_fits (w : bytes) (maxSize : nat) msgs :
  Forall (fits maxSize) msgs →
  encode_all (NewEncoder w (Z.of_nat maxSize)) msgs =
    (NewEncoder (w ++ mjoin (frame <$> msgs)) (Z.of_nat maxSize), None).
Proof.
  intros Hf. revert w. induction Hf as [|msg msgs Hm _ IH]; intros w; cbn [encode_all].
  - cbn. by rewrite app_nil_r.
  - rewrite Encoder_write_fits, IH by done.
    change (mjoin (frame <$> msg :: msgs)) with (frame msg ++ mjoin (frame <$> msgs)).
    by rewrite app_assoc.
Qed.

(** ** Properties *)

(** C28: whatever an encoder wrote, a decoder with at least the encoder's limit
    reads back: the same messages, byte for byte and in order, and then a
    regular end without error; the loop needs one turn per message and a last
    one. *)
Theorem stream_roundtrip (msgs : list bytes) (maxSize : nat) (Hfit : Forall (fits maxSize) msgs) :
  ∃ w, encode_all (NewEncoder [] (Z.of_nat maxSize)) msgs = (NewEncoder w (Z.of_nat maxSize), None) ∧
  ∃ d', Decoder_loop (S (length msgs)) (NewDecoder (mkReader w io_EOF) maxSize) = (msgs, d') ∧
    Decoder_Err d' = None.
Proof.
  rewrite encode_all_fits by done. eexists. split; [done|].
  destruct (Decoder_loop_frames msgs (NewDecoder (mkReader (mjoin (frame <$> msgs)) io_EOF) maxSize))
    as (d' & Hl & He); [done|done|done|cbn; by rewrite length_replicate|].
  exists d'. split; [exact Hl|]. unfold Decoder_Err. by rewrite He, decide_True by done.
Qed.

Lemma stream_roundtrip_witness :
  ∃ w, encode_all (NewEncoder [] (Z.of_nat 16)) [[x7b; x7d]; []; [x5b; x5d]] = (NewEncoder w (Z.of_nat 16), None) ∧
  ∃ d', Decoder_loop 4 (NewDecoder (mkReader w io_EOF) 16) = ([[x7b; x7d]; []; [x5b; x5d]], d') ∧
    Decoder_Err d' = None.
Proof.
  apply (stream_roundtrip [[x7b; x7d]; []; [x5b; x5d]] 16).
  repeat constructor; cbn; lia.
Defined.

(** A message over the encoder's limit is refused before anything is
    written, and a frame announcing more than the decoder's buffer makes the
    decoder stop with [ErrMsgTooLarge], for good: later calls of [More] read
    nothing. *)
Theorem oversized_messages_refused (w : bytes) (maxSize : nat) (msg rest : bytes)
    (Hbig : maxSize < length msg) (H32 : (Z.of_nat (length msg) < 2 ^ 32)%Z) :
  Encoder_write (NewEncoder w (Z.of_nat maxSize)) msg = (NewEncoder w (Z.of_nat maxSize), Some ErrMsgTooLarge) ∧
  ∃ d', Decoder_More (NewDecoder (mkReader (frame msg ++ rest) io_EOF) maxSize) = (d', false) ∧
    Decoder_Err d' = Some (ErrWrap "failed to read from stream" ErrMsgTooLarge) ∧
    Decoder_More d' = (d', false).
Proof.
  split.
  - unfold Encoder_write, NewEncoder. cbn [Encoder_w Encoder_maxSize].
    destruct (Z.ltb_spec (Z.of_nat maxSize) (Z.of_nat (length msg))); [done|lia].
  - unfold Decoder_More at 1, NewDecoder. cbn [Decoder_err].
    rewrite ReadFull_enough by (cbn; rewrite length_app; cbn; lia).
    unfold frame. cbn -[BigEndian_PutUint32 BigEndian_Uint32 Z.ltb io_ReadFull overwrite Z.of_nat Z.to_nat take drop].
    rewrite <- app_assoc, take_app_length', drop_app_length', overwrite_full by done.
    rewrite BigEndian_roundtrip by lia.
    rewrite length_replicate. destruct (Z.ltb_spec (Z.of_nat maxSize) (Z.of_nat (length msg))); [|lia].
    eexists. split; [done|]. done.
Qed.

Lemma oversized_messages_refused_witness :
  Encoder_write (NewEncoder ([] : bytes) (Z.of_nat 1)) [x7b; x7d]
    = (NewEncoder [] (Z.of_nat 1), Some ErrMsgTooLarge) ∧
  ∃ d', Decoder_More (NewDecoder (mkReader (frame [x7b; x7d] ++ []) io_EOF) 1) = (d', false) ∧
    Decoder_Err d' = Some (ErrWrap "failed to read from stream" ErrMsgTooLarge) ∧
    Decoder_More d' = (d', false).
Proof. apply (oversized_messages_refused [] 1 [x7b; x7d] []); cbn; lia. Defined.

(** When the input breaks off inside a message, [More] stops, and [Err]
    reports the truncation unless it happened exactly between the length and
    the body: then the second read sees a bare end of file, and [Err] says that
    all is well. *)
Theorem truncation_reported_iff (maxSize : nat) (msg : bytes) (k : nat)
    (Hfit : fits maxSize msg) (Hk : 0 < k < length (frame msg)) :
  ∃ d', Decoder_More (NewDecoder (mkReader (take k (frame msg)) io_EOF) maxSize) = (d', false) ∧
    (Decoder_Err d' = None ↔ k = 4).
Proof.
  destruct Hfit as [Hlen H32]. unfold frame in Hk. rewrite length_app, header_length in Hk.
  unfold Decoder_More, NewDecoder. cbn [Decoder_err].
  destruct (decide (k < 4)) as [Hk4|Hk4].
  - rewrite ReadFull_short; [|cbn [Reader_data Decoder_r set_field set_Decoder_msgLen]; rewrite length_take; lia|done].
    rewrite decide_False.
    2:{ unfold frame. intros H%(f_equal length). cbn -[take] in H. rewrite length_take in H. cbn in H. lia. }
    eexists. split; [done|]. split; [done|lia].
  - rewrite ReadFull_enough by (cbn [Reader_data Decoder_r set_field set_Decoder_msgLen]; rewrite length_take; unfold frame; rewrite length_app, header_length; lia).
    cbn -[BigEndian_PutUint32 BigEndian_Uint32 Z.ltb io_ReadFull overwrite Z.of_nat Z.to_nat take drop frame].
    rewrite take_take, Nat.min_l by lia. unfold frame.
    rewrite take_app_length', overwrite_full by done. rewrite BigEndian_roundtrip by lia.
    rewrite length_replicate. destruct (Z.ltb_spec (Z.of_nat maxSize) (Z.of_nat (length msg))); [lia|].
    rewrite Nat2Z.id, take_app_ge, drop_app_length' by (cbn; lia). rewrite header_length.
    rewrite ReadFull_short; [|cbn -[take]; rewrite length_take; lia|done].
    eexists. split; [done|]. unfold Decoder_Err. cbn -[take decide].
    destruct (decide (take (k - 4) msg = [])) as [Hd|Hd].
    + apply (f_equal length) in Hd. cbn -[take] in Hd. rewrite length_take in Hd.
      rewrite decide_True by done. split; [lia|done].
    + rewrite decide_False by done. split; [done|]. intros ->. destruct Hd. by rewrite Nat.sub_diag.
Qed.

Lemma truncation_reported_iff_witness :
  ∃ d', Decoder_More (NewDecoder (mkReader (take 4 (frame [x7b; x7d])) io_EOF) 16) = (d', false) ∧
    (Decoder_Err d' = None ↔ 4 = 4).
Proof. apply (truncation_reported_iff 16 [x7b; x7d] 4); [split; cbn; lia|cbn; lia]. Defined.
