(* ===== verification/Json.v ===== *)
(** * JSON texts (encoding/json)

    The texts the SDK reads and writes.  A text is a byte string; it is first cut
    into runes as package utf8 does, because strings with invalid UTF-8 are
    repaired on the way in and out.  [parse] is the syntax check and the reading
    of json.Unmarshal: it yields a document that keeps the raw text of strings,
    arrays and objects, which json.RawMessage and the UnmarshalJSON methods see.
    [print] is the compact output of json.Marshal.

    Documents keep the members of an object in order and with repetitions; what
    a repeated member means is decided by the type that is decoded. *)

From S2P Require Import Prelude GoStd.

(** ** UTF-8 *)
Abbreviation code := Ascii.N_of_ascii (only parsing).
Definition within (lo hi : N) (c : ascii) : bool := (lo <=? code c)%N && (code c <=? hi)%N.
Definition cont : ascii → bool := within 128 191.

(** The well-formed sequences of two, three and four bytes: no overlong forms, no
    surrogates, nothing above U+10FFFF. *)
Definition two (a b : ascii) : bool := within 194 223 a && cont b.
Definition three (a b c : ascii) : bool :=
  ((within 224 224 a && within 160 191 b) || (within 225 236 a && cont b) ||
   (within 237 237 a && within 128 159 b) || (within 238 239 a && cont b)) && cont c.
Definition four (a b c d : ascii) : bool :=
  ((within 240 240 a && within 144 191 b) || (within 241 243 a && cont b) ||
   (within 244 244 a && within 128 143 b)) && cont c && cont d.

(** A rune: an ASCII byte, a longer sequence, or a byte that begins no rune. *)
Inductive rune := RAscii (c : ascii) | RMulti (bs : string) | RBad (c : ascii).

#[export] Instance rune_eq_dec : EqDecision rune.
Proof. solve_decision. Defined.

Definition is_ascii : ascii → bool := within 0 127.

Fixpoint decode_utf8 (s : string) : list rune :=
  match s with
  | "" => []
  | String a s1 =>
      if is_ascii a then RAscii a :: decode_utf8 s1
      else
        match s1 with
        | String b s2 =>
            if two a b then RMulti (String a (String b "")) :: decode_utf8 s2
            else
              match s2 with
              | String c s3 =>
                  if three a b c then RMulti (String a (String b (String c ""))) :: decode_utf8 s3
                  else
                    match s3 with
                    | String d s4 =>
                        if four a b c d
                        then RMulti (String a (String b (String c (String d "")))) :: decode_utf8 s4
                        else RBad a :: decode_utf8 s1
                    | "" => RBad a :: decode_utf8 s1
                    end
              | "" => RBad a :: decode_utf8 s1
              end
        | "" => RBad a :: decode_utf8 s1
        end
  end.

Definition rune_bytes (r : rune) : string :=
  match r with RAscii c | RBad c => String c "" | RMulti bs => bs end.

Definition encode_utf8 (l : list rune) : string := foldr (λ r s, rune_bytes r +:+ s) "" l.

(** U+FFFD, which stands for a byte that begins no rune. *)
Definition replacement : string := bytes_string [239; 191; 189].
Definition repaired (r : rune) : string := match r with RBad _ => replacement | _ => rune_bytes r end.
Definition repair (l : list rune) : string := foldr (λ r s, repaired r +:+ s) "" l.

(** A string of well-formed UTF-8. *)
Definition utf8_Valid (s : string) : bool :=
  forallb (λ r, match r with RBad _ => false | _ => true end) (decode_utf8 s).

(** ** Documents *)
Inductive doc :=
| DNull
| DBool (b : bool)
| DNumber (lit : string)
| DString (raw : string) (s : string)
| DArray (raw : string) (l : list doc)
| DObject (raw : string) (m : list (string * doc)).

Definition bool_text (b : bool) : string := if b then "true" else "false".

(** The bytes of the text that a document was read from. *)
Definition raw_text (d : doc) : string :=
  match d with
  | DNull => "null"
  | DBool b => bool_text b
  | DNumber lit => lit
  | DString raw _ | DArray raw _ | DObject raw _ => raw
  end.

(** ** Reading *)
Definition is_space (c : ascii) : bool :=
  within 32 32 c || within 9 10 c || within 13 13 c.

Fixpoint skip_ws (l : list rune) : list rune :=
  match l with
  | RAscii c :: l' => if is_space c then skip_ws l' else l
  | _ => l
  end.

Definition is_digit : ascii → bool := within 48 57.

Fixpoint span_digits (l : list rune) : string * list rune :=
  match l with
  | RAscii c :: l' => if is_digit c then let '(ds, r) := span_digits l' in (String c ds, r) else ("", l)
  | _ => ("", l)
  end.

(** At least one digit. *)
Definition digits1 (l : list rune) : option (string * list rune) :=
  match span_digits l with ("", _) => None | r => Some r end.

(** The next byte, when it is one of [cs]. *)
Definition one_of (cs : list ascii) (l : list rune) : option (ascii * list rune) :=
  match l with
  | RAscii c :: l' => if existsb (Ascii.eqb c) cs then Some (c, l') else None
  | _ => None
  end.

(** The parts of a number: sign, integer, fraction, exponent. *)
Definition scan_sign (l : list rune) : string * list rune :=
  match one_of ["-"%char] l with Some (c, l') => (String c "", l') | None => ("", l) end.

Definition scan_int (l : list rune) : option (string * list rune) :=
  match one_of ["0"%char] l with
  | Some (c, l') => Some (String c "", l')
  | None => digits1 l
  end.

Definition scan_frac (l : list rune) : option (string * list rune) :=
  match one_of ["."%char] l with
  | Some (c, l') => '(ds, r) ← digits1 l'; Some (String c ds, r)
  | None => Some ("", l)
  end.

Definition scan_exp (l : list rune) : option (string * list rune) :=
  match one_of ["e"%char; "E"%char] l with
  | Some (c, l') =>
      let '(sign, l') := match one_of ["+"%char; "-"%char] l' with
                         | Some (c, l'') => (String c "", l'')
                         | None => ("", l')
                         end in
      '(ds, r) ← digits1 l'; Some (String c (sign +:+ ds), r)
  | None => Some ("", l)
  end.

Definition scan_number (l : list rune) : option (string * list rune) :=
  let '(sign, l) := scan_sign l in
  '(int, l) ← scan_int l;
  '(frac, l) ← scan_frac l;
  '(exp, l) ← scan_exp l;
  Some (sign +:+ int +:+ frac +:+ exp, l).

(** The pieces of a string: a rune, an escaped byte, a UTF-16 code unit. *)
Inductive item := IRune (r : rune) | IByte (c : ascii) | IUnit (u : N).

(** The byte that an escape stands for. *)
Definition unescape (c : ascii) : option ascii :=
  match c with
  | "b"%char => Some (Ascii.ascii_of_nat 8)
  | "f"%char => Some (Ascii.ascii_of_nat 12)
  | "n"%char => Some (Ascii.ascii_of_nat 10)
  | "r"%char => Some (Ascii.ascii_of_nat 13)
  | "t"%char => Some (Ascii.ascii_of_nat 9)
  | "\"%char | "/"%char => Some c
  | _ => if (code c =? 34)%N then Some c else None
  end.

Definition hex_val (c : ascii) : option N :=
  if within 48 57 c then Some (code c - 48)%N
  else if within 97 102 c then Some (code c - 87)%N
  else if within 65 70 c then Some (code c - 55)%N
  else None.

Definition hex4 (a b c d : ascii) : option N :=
  a ← hex_val a; b ← hex_val b; c ← hex_val c; d ← hex_val d;
  Some (((a * 16 + b) * 16 + c) * 16 + d)%N.

Definition is_quote (c : ascii) : bool := (code c =? 34)%N.
Definition is_backslash (c : ascii) : bool := (code c =? 92)%N.

(** The rest of a string, up to its closing quote.  Control characters have to be
    escaped. *)
Fixpoint scan_string (l : list rune) : option (list item * list rune) :=
  match l with
  | [] => None
  | RAscii c :: l1 =>
      if is_quote c then Some ([], l1)
      else if is_backslash c then
        match l1 with
        | RAscii e :: l2 =>
            if Ascii.eqb e "u"%char then
              match l2 with
              | RAscii h1 :: RAscii h2 :: RAscii h3 :: RAscii h4 :: l3 =>
                  u ← hex4 h1 h2 h3 h4; '(items, r) ← scan_string l3; Some (IUnit u :: items, r)
              | _ => None
              end
            else b ← unescape e; '(items, r) ← scan_string l2; Some (IByte b :: items, r)
        | _ => None
        end
      else if (code c <? 32)%N then None
      else '(items, r) ← scan_string l1; Some (IRune (RAscii c) :: items, r)
  | r0 :: l1 => '(items, r) ← scan_string l1; Some (IRune r0 :: items, r)
  end.

(** utf8.EncodeRune. *)
Definition byte_of (n : N) : ascii := Ascii.ascii_of_N n.
Definition encode_rune (u : N) : string :=
  if (u <? 128)%N then String (byte_of u) ""
  else if (u <? 2048)%N then String (byte_of (192 + u / 64)) (String (byte_of (128 + u `mod` 64)) "")
  else if (u <? 65536)%N then
    String (byte_of (224 + u / 4096)) (String (byte_of (128 + (u / 64) `mod` 64)) (String (byte_of (128 + u `mod` 64)) ""))
  else
    String (byte_of (240 + u / 262144)) (String (byte_of (128 + (u / 4096) `mod` 64))
      (String (byte_of (128 + (u / 64) `mod` 64)) (String (byte_of (128 + u `mod` 64)) ""))).

Definition is_high (u : N) : bool := (55296 <=? u)%N && (u <? 56320)%N.
Definition is_low (u : N) : bool := (56320 <=? u)%N && (u <? 57344)%N.

(** The string that the pieces stand for: surrogates that form a pair are one
    rune, others are replaced. *)
Fixpoint items_value (l : list item) : string :=
  match l with
  | [] => ""
  | IRune r :: l => repaired r +:+ items_value l
  | IByte c :: l => String c (items_value l)
  | IUnit u :: l' =>
      if is_high u then
        match l' with
        | IUnit v :: l'' =>
            if is_low v then encode_rune (65536 + (u - 55296) * 1024 + (v - 56320)) +:+ items_value l''
            else replacement +:+ items_value l'
        | _ => replacement +:+ items_value l'
        end
      else if is_low u then replacement +:+ items_value l'
      else encode_rune u +:+ items_value l'
  end.

(** [l] without its end [r], as text. *)
Definition taken (l r : list rune) : string := encode_utf8 (take (length l - length r) l).

(** The rest of [l] behind a fixed word. *)
Fixpoint expect (w : string) (l : list rune) : option (list rune) :=
  match w with
  | "" => Some l
  | String c w => match l with RAscii d :: l => if Ascii.eqb c d then expect w l else None | _ => None end
  end.

(** The rest behind the byte [c], which white space may precede. *)
Definition token (c : ascii) (l : list rune) : option (list rune) :=
  match skip_ws l with RAscii d :: r => if Ascii.eqb c d then Some r else None | _ => None end.

Definition dquote_char : ascii := Ascii.ascii_of_nat 34.

(** Values nest at most so deep. *)
Definition maxNestingDepth : nat := 10000.
Arguments maxNestingDepth : simpl never.

(** What the first byte of a value says. *)
Inductive kind := KString | KArray | KObject | KWord (w : string) (d : doc) | KNumber.

Definition kind_of (c : ascii) : kind :=
  if is_quote c then KString
  else if Ascii.eqb c "["%char then KArray
  else if Ascii.eqb c "{"%char then KObject
  else if Ascii.eqb c "t"%char then KWord "true" (DBool true)
  else if Ascii.eqb c "f"%char then KWord "false" (DBool false)
  else if Ascii.eqb c "n"%char then KWord "null" DNull
  else KNumber.

(** Up to the closing byte: nothing, or a list of entries. *)
Definition bracketed {A} (c : ascii) (entries : list rune → option (list A * list rune)) (l : list rune)
    : option (list A * list rune) :=
  match token c l with Some r => Some ([], r) | None => entries l end.

(** Behind an entry: a comma and more entries, or the closing byte. *)
Definition and_more {A} (c : ascii) (entries : list rune → option (list A * list rune)) (a : A) (l : list rune)
    : option (list A * list rune) :=
  match token "," l with
  | Some r => '(l, r) ← entries r; Some (a :: l, r)
  | None => r ← token c l; Some ([a], r)
  end.

(** A value at the head of the text, and the rest.  Every call but the first is
    behind a byte that was read, so twice the length of the text is enough fuel. *)
Fixpoint parse_value (fuel depth : nat) (l : list rune) : option (doc * list rune) :=
  match fuel with
  | 0 => None
  | S fuel =>
      match l with
      | RAscii c :: l1 =>
          match kind_of c with
          | KString => '(items, r) ← scan_string l1; Some (DString (taken l r) (items_value items), r)
          | KArray =>
              match depth with
              | 0 => None
              | S depth => '(ds, r) ← bracketed "]" (parse_elems fuel depth) l1; Some (DArray (taken l r) ds, r)
              end
          | KObject =>
              match depth with
              | 0 => None
              | S depth => '(ms, r) ← bracketed "}" (parse_members fuel depth) l1; Some (DObject (taken l r) ms, r)
              end
          | KWord w d => r ← expect w l; Some (d, r)
          | KNumber => '(lit, r) ← scan_number l; Some (DNumber lit, r)
          end
      | _ => None
      end
  end
with parse_elems (fuel depth : nat) (l : list rune) : option (list doc * list rune) :=
  match fuel with
  | 0 => None
  | S fuel =>
      '(d, r) ← parse_value fuel depth (skip_ws l);
      and_more "]" (parse_elems fuel depth) d r
  end
with parse_members (fuel depth : nat) (l : list rune) : option (list (string * doc) * list rune) :=
  match fuel with
  | 0 => None
  | S fuel =>
      r ← token dquote_char l;
      '(items, r) ← scan_string r;
      r ← token ":" r;
      '(d, r) ← parse_value fuel depth (skip_ws r);
      and_more "}" (parse_members fuel depth) (items_value items, d) r
  end.

Definition parse_runes (l : list rune) : option doc :=
  '(d, r) ← parse_value (2 * length l) maxNestingDepth (skip_ws l);
  match skip_ws r with [] => Some d | _ => None end.

Definition parse (s : string) : option doc := parse_runes (decode_utf8 s).

(** json.Valid. *)
Definition json_valid (s : string) : bool := bool_decide (is_Some (parse s)).

(** ** Writing *)

(** What json.Marshal is given: [JsonRaw] is text that is already compact. *)
Inductive json :=
| JsonNull
| JsonBool (b : bool)
| JsonNum (lit : string)
| JsonStr (s : string)
| JsonArr (l : list json)
| JsonObj (m : list (string * json))
| JsonRaw (text : string).

Definition hex_digit (n : N) : ascii := byte_of (if (n <? 10)%N then 48 + n else 87 + n)%N.
Definition ascii_runes (s : string) : list rune := RAscii <$> String.list_ascii_of_string s.

(** [\u] and four hexadecimal digits. *)
Definition unit_escape (u : N) : list rune :=
  RAscii "\"%char :: RAscii "u"%char ::
  (RAscii ∘ hex_digit <$> [u / 4096; (u / 256) `mod` 16; (u / 16) `mod` 16; u `mod` 16]%N).

(** The escapes of appendString: quotes, control characters, and what is unsafe
    inside HTML or JavaScript. *)
Definition escape_byte (c : ascii) : list rune :=
  if is_quote c || is_backslash c then [RAscii "\"%char; RAscii c]
  else
    match N.to_nat (code c) with
    | 8 => ascii_runes "\b"
    | 12 => ascii_runes "\f"
    | 10 => ascii_runes "\n"
    | 13 => ascii_runes "\r"
    | 9 => ascii_runes "\t"
    | _ =>
        if (code c <? 32)%N || existsb (Ascii.eqb c) ["<"%char; ">"%char; "&"%char]
        then unit_escape (code c) else [RAscii c]
    end.

Definition line_separator : string := bytes_string [226; 128; 168].
Definition paragraph_separator : string := bytes_string [226; 128; 169].

Definition escape_rune (r : rune) : list rune :=
  match r with
  | RAscii c => escape_byte c
  | RBad _ => unit_escape 65533
  | RMulti bs =>
      if String.eqb bs line_separator then unit_escape 8232
      else if String.eqb bs paragraph_separator then unit_escape 8233
      else [r]
  end.

Definition dquote : rune := RAscii dquote_char.

Definition quote_string (s : string) : list rune :=
  dquote :: mbind escape_rune (decode_utf8 s) ++ [dquote].

(** [ts] with commas between them. *)
Fixpoint commas (ts : list (list rune)) : list rune :=
  match ts with
  | [] => []
  | [t] => t
  | t :: ts => t ++ RAscii ","%char :: commas ts
  end.

Fixpoint print_runes (v : json) : list rune :=
  match v with
  | JsonNull => ascii_runes "null"
  | JsonBool b => ascii_runes (bool_text b)
  | JsonNum lit => ascii_runes lit
  | JsonStr s => quote_string s
  | JsonArr l => RAscii "["%char :: commas (print_runes <$> l) ++ [RAscii "]"%char]
  | JsonObj m =>
      RAscii "{"%char ::
      commas ((λ '(k, v), quote_string k ++ RAscii ":"%char :: print_runes v) <$> m) ++ [RAscii "}"%char]
  | JsonRaw text => decode_utf8 text
  end.

Definition print (v : json) : string := encode_utf8 (print_runes v).

(** appendCompact: the text of a document without white space, with the escapes
    of HTML and JavaScript in its strings. *)
Definition compact_rune (r : rune) : list rune :=
  match r with
  | RAscii c => if existsb (Ascii.eqb c) ["<"%char; ">"%char; "&"%char] then unit_escape (code c) else [r]
  | RMulti bs =>
      if String.eqb bs line_separator then unit_escape 8232
      else if String.eqb bs paragraph_separator then unit_escape 8233
      else [r]
  | RBad _ => [r]
  end.

(** White space outside of strings goes; the byte behind a backslash is part of
    the string. *)
Fixpoint compact_runes (in_string escaped : bool) (l : list rune) : list rune :=
  match l with
  | [] => []
  | RAscii c :: l' =>
      if in_string then
        compact_rune (RAscii c) ++
        (if escaped then compact_runes true false l'
         else if is_quote c then compact_runes false false l'
         else compact_runes true (is_backslash c) l')
      else if is_space c then compact_runes false false l'
      else RAscii c :: compact_runes (is_quote c) false l'
  | r :: l' => compact_rune r ++ compact_runes in_string false l'
  end.

Definition compact (s : string) : string := encode_utf8 (compact_runes false false (decode_utf8 s)).
