(* ===== verification/JsonFacts.v ===== *)
(** * Facts about JSON texts

    Decoding UTF-8 and its inverse, strings through their escapes, and the round
    trip: what [print] writes [parse] reads back ([parse_print]).  Reading does
    not depend on what follows a value ([parse_value_app]). *)

From S2P Require Import Prelude GoStd Json.

(** ** UTF-8 *)
Ltac ranges := unfold two, three, four, cont, is_ascii, within in *;
  repeat match goal with
  | H : (_ && _) = true |- _ => apply andb_true_iff in H as [? ?]
  | H : (_ || _) = true |- _ => apply orb_true_iff in H as [?|?]
  | H : (_ <=? _)%N = true |- _ => apply N.leb_le in H
  end.

(** The runes of [decode_utf8] other than [RBad]. *)
Definition good_rune (r : rune) : Prop :=
  match r with
  | RAscii c => is_ascii c = true
  | RBad _ => False
  | RMulti bs =>
      match bs with
      | String a (String b "") => two a b = true
      | String a (String b (String c "")) => three a b c = true
      | String a (String b (String c (String d ""))) => four a b c d = true
      | _ => False
      end
  end.

Lemma not_below lo hi c : (code c < lo)%N → within lo hi c = false.
Proof. intros H. unfold within. destruct (N.leb_spec lo (code c)); [lia|done]. Qed.

Lemma not_above lo hi c : (hi < code c)%N → within lo hi c = false.
Proof. intros H. unfold within. destruct (N.leb_spec (code c) hi); [lia|]. apply andb_false_r. Qed.

(** One rune at the head of a string. *)
Lemma decode_rune r s : good_rune r → decode_utf8 (rune_bytes r +:+ s) = r :: decode_utf8 s.
Proof.
  destruct r as [c|bs|c]; cbn [good_rune]; [|destruct bs as [|a [|b [|c [|d [|e bs]]]]]; try done|done].
  - intros H. cbn. unfold String.app. cbn. by rewrite H.
  - intros H. unfold String.app. cbn. rewrite H.
    assert (is_ascii a = false) as ->; [ranges; apply not_above; lia|done].
  - intros H. unfold String.app. cbn. rewrite H.
    assert (is_ascii a = false) as ->; [ranges; apply not_above; lia|].
    assert (two a b = false) as ->; [|done]. unfold two. apply andb_false_iff. left. ranges; apply not_above; lia.
  - intros H. unfold String.app. cbn. rewrite H.
    assert (is_ascii a = false) as ->; [ranges; apply not_above; lia|].
    assert (two a b = false) as ->.
    { unfold two. apply andb_false_iff. left. ranges; apply not_above; lia. }
    assert (three a b c = false) as ->; [|done].
    unfold three. apply andb_false_iff. left. rewrite !orb_false_iff, !andb_false_iff.
    repeat split; left; ranges; apply not_above; lia.
Qed.

Lemma decode_encode l : Forall good_rune l → decode_utf8 (encode_utf8 l) = l.
Proof.
  induction 1 as [|r l Hr _ IH]; [done|].
  change (encode_utf8 (r :: l)) with (rune_bytes r +:+ encode_utf8 l). by rewrite decode_rune, IH.
Qed.

Lemma string_rank_ind (P : string → Prop) :
  (∀ s, (∀ t, (String.length t < String.length s)%nat → P t) → P s) → ∀ s, P s.
Proof.
  intros IH s. remember (String.length s) as n eqn:Hn. revert s Hn.
  induction n as [n IHn] using (well_founded_induction lt_wf). intros s ->. apply IH. intros t Ht. by eapply IHn.
Qed.

(** One rune at the head; the rest by induction. *)
Ltac by_rune IH t := destruct (IH t) as [? H2]; [cbn; lia|];
  split; [constructor; [by left|done]|cbn; unfold String.app; cbn; repeat f_equal; exact H2].

(** Decoding yields good runes and bad bytes that together are the string. *)
Lemma decode_spec s :
  Forall (λ r, good_rune r ∨ ∃ c, r = RBad c) (decode_utf8 s) ∧ encode_utf8 (decode_utf8 s) = s.
Proof.
  induction s as [s IH] using string_rank_ind. destruct s as [|a s1]; [done|]. cbn [decode_utf8].
  assert (Forall (λ r, good_rune r ∨ ∃ c, r = RBad c) (RBad a :: decode_utf8 s1) ∧
    encode_utf8 (RBad a :: decode_utf8 s1) = String a s1) as Hbad.
  { destruct (IH s1) as [H1 H2]; [cbn; lia|]. split; [constructor; eauto|]. cbn. unfold String.app. cbn.
    f_equal. exact H2. }
  destruct (is_ascii a) eqn:Ha; [by_rune IH s1|].
  destruct s1 as [|b s2]; [done|]. destruct (two a b) eqn:H2'; [by_rune IH s2|].
  destruct s2 as [|c s3]; [done|]. destruct (three a b c) eqn:H3; [by_rune IH s3|].
  destruct s3 as [|d s4]; [done|]. destruct (four a b c d) eqn:H4; [by_rune IH s4|done].
Qed.

Lemma encode_decode s : encode_utf8 (decode_utf8 s) = s.
Proof. apply decode_spec. Qed.

Lemma decode_good s : utf8_Valid s = true → Forall good_rune (decode_utf8 s).
Proof.
  unfold utf8_Valid. rewrite forallb_Forall_iff. intros Hv. destruct (decode_spec s) as [H _].
  induction H as [|r l Hr _ IH]; [done|]. apply list.Forall_cons in Hv as [H1 H2].
  constructor; [|by apply IH]. destruct Hr as [|[c ->]]; [done|discriminate].
Qed.

Lemma good_repaired r : good_rune r → repaired r = rune_bytes r.
Proof. by destruct r. Qed.

Lemma repair_valid s : utf8_Valid s = true → repair (decode_utf8 s) = s.
Proof.
  intros Hv. rewrite <- (encode_decode s) at 2. pose proof (decode_good s Hv) as H.
  unfold repair, encode_utf8. induction H as [|r l Hr _ IH]; [done|]. cbn. by rewrite IH, good_repaired.
Qed.

Lemma string_app_nil (s : string) : s +:+ "" = s.
Proof. apply string_app_nil_r. Qed.

Lemma string_app_cons c (s t : string) : String c s +:+ t = String c (s +:+ t).
Proof. done. Qed.

Lemma string_app_empty (t : string) : "" +:+ t = t.
Proof. done. Qed.

Lemma encode_app l1 l2 : encode_utf8 (l1 ++ l2) = encode_utf8 l1 +:+ encode_utf8 l2.
Proof.
  unfold encode_utf8. induction l1 as [|r l1 IH]; cbn; [done|]. by rewrite IH, string_app_assoc.
Qed.

Lemma encode_ascii s : encode_utf8 (ascii_runes s) = s.
Proof. induction s as [|c s IH]; [done|]. cbn. unfold String.app. cbn. f_equal. exact IH. Qed.

Lemma ascii_runes_app s t : ascii_runes (s +:+ t) = ascii_runes s ++ ascii_runes t.
Proof. unfold ascii_runes, String.app. induction s as [|c s IH]; [done|]. cbn. by rewrite IH. Qed.

(** ** Strings *)

(** What [scan_string] makes of an escaped rune. *)
Definition escape_item (r : rune) : item :=
  match r with
  | RAscii c =>
      match escape_byte c with
      | [_] => IRune r
      | [_; _] => IByte c
      | _ => IUnit (code c)
      end
  | RBad _ => IUnit 65533
  | RMulti bs =>
      if String.eqb bs line_separator then IUnit 8232
      else if String.eqb bs paragraph_separator then IUnit 8233
      else IRune r
  end.

Lemma scan_unit u rest :
  (u < 65536)%N → hex4 (hex_digit (u / 4096)) (hex_digit ((u / 256) `mod` 16)) (hex_digit ((u / 16) `mod` 16)) (hex_digit (u `mod` 16)) = Some u →
  scan_string (unit_escape u ++ rest) = '(items, r) ← scan_string rest; Some (IUnit u :: items, r).
Proof. intros _ Hu. unfold unit_escape. cbn -[hex4 hex_digit N.div N.modulo]. by rewrite Hu. Qed.

Lemma scan_escaped r rest :
  good_rune r ∨ (∃ c, r = RBad c) →
  scan_string (escape_rune r ++ rest) = '(items, rest) ← scan_string rest; Some (escape_item r :: items, rest).
Proof.
  intros [Hr|[c ->]]; [|by rewrite (scan_unit 65533)].
  destruct r as [c|bs|c]; [|cbn [escape_rune escape_item]|done].
  - destruct c as [[] [] [] [] [] [] [] []]; try (vm_compute in Hr; discriminate); reflexivity.
  - case_match; [by rewrite (scan_unit 8232)|]. case_match; [by rewrite (scan_unit 8233)|done].
Qed.

Lemma escape_item_value r items :
  good_rune r ∨ (∃ c, r = RBad c) →
  items_value (escape_item r :: items) = repaired r +:+ items_value items.
Proof.
  intros [Hr|[c ->]]; [|done].
  destruct r as [c|bs|c]; [|cbn [escape_item]|done].
  - destruct c as [[] [] [] [] [] [] [] []]; try (vm_compute in Hr; discriminate); reflexivity.
  - destruct (String.eqb_spec bs line_separator) as [->|]; [done|].
    by destruct (String.eqb_spec bs paragraph_separator) as [->|].
Qed.

Lemma scan_quoted s rest :
  ∃ items, scan_string (mbind escape_rune (decode_utf8 s) ++ dquote :: rest) = Some (items, rest) ∧
    items_value items = repair (decode_utf8 s).
Proof.
  destruct (decode_spec s) as [H _]. induction H as [|r l Hr _ (items & IH & Hv)]; [by exists []|].
  exists (escape_item r :: items). cbn [mbind list_bind]. rewrite <- app_assoc, scan_escaped by done.
  rewrite IH. split; [done|]. rewrite escape_item_value by done. by rewrite Hv.
Qed.

Lemma hex_digit_ascii n : (n < 16)%N → is_ascii (hex_digit n) = true.
Proof.
  intros Hn. unfold is_ascii, within, hex_digit, byte_of. destruct (N.ltb_spec n 10);
    rewrite Ascii.N_ascii_embedding by lia; apply andb_true_iff; split; apply N.leb_le; lia.
Qed.

Lemma unit_escape_good u : (u < 65536)%N → Forall good_rune (unit_escape u).
Proof.
  intros Hu. unfold unit_escape. repeat constructor; cbn [good_rune compose]; try apply hex_digit_ascii;
    try (apply N.mod_lt; lia). apply N.Div0.div_lt_upper_bound. lia.
Qed.

(** Runes of ASCII bytes, checked by computation. *)
Definition ascii_rune (r : rune) : bool := match r with RAscii c => is_ascii c | _ => false end.

Lemma ascii_all_good l : forallb ascii_rune l = true → Forall good_rune l.
Proof. rewrite forallb_Forall_iff. apply Forall_impl. by intros []. Qed.

Lemma escape_good r : good_rune r ∨ (∃ c, r = RBad c) → Forall good_rune (escape_rune r).
Proof.
  intros [Hr|[c ->]]; [|by apply unit_escape_good].
  destruct r as [c|bs|c]; [|cbn [escape_rune]|done].
  - apply ascii_all_good. destruct c as [[] [] [] [] [] [] [] []]; try (vm_compute in Hr; discriminate); reflexivity.
  - repeat case_match; [by apply unit_escape_good..|by constructor].
Qed.

Lemma quote_good s : Forall good_rune (quote_string s).
Proof.
  unfold quote_string. constructor; [done|]. apply Forall_app. split; [|by constructor].
  destruct (decode_spec s) as [H _]. induction H as [|r l Hr _ IH]; [done|].
  cbn. apply Forall_app. split; [by apply escape_good|done].
Qed.
