(* ===== verification/JsonParse.v ===== *)
(** * Reading back what was printed

    Reading a value depends only on its own text ([parse_value_app]): more fuel,
    a greater limit of nesting and text behind the value change nothing.  With
    this, [parse] inverts [print] ([parse_print]). *)

From S2P Require Import Prelude GoStd Json JsonFacts.

(** ** Text that ends a number *)
Definition number_byte (c : ascii) : bool :=
  is_digit c || existsb (Ascii.eqb c) ["."; "e"; "E"; "+"; "-"]%char.

Definition ends (l : list rune) : bool :=
  match l with RAscii c :: _ => negb (number_byte c) | _ => true end.

(** Text in front of [rest] that stops at [r]: if nothing is left, [rest] has to
    end it. *)
Definition stops (r rest : list rune) : Prop := r = [] → ends rest = true.

Lemma stops_cons x r rest : stops (x :: r) rest.
Proof. by intros ?. Qed.

Lemma existsb_ascii c cs : existsb (Ascii.eqb c) cs = true ↔ c ∈ cs.
Proof.
  rewrite existsb_exists. split.
  - intros (d & Hin & <-%Ascii.eqb_eq). by apply list_elem_of_In.
  - intros Hin. exists c. split; [by apply list_elem_of_In|apply Ascii.eqb_refl].
Qed.

Lemma one_of_Some cs l c l' : one_of cs l = Some (c, l') → l = RAscii c :: l' ∧ c ∈ cs.
Proof.
  unfold one_of. destruct l as [|[d| |] l]; try done. case_match eqn:E; [|done].
  intros [= -> ->]. by rewrite <- existsb_ascii.
Qed.

Lemma one_of_app cs l rest c l' : one_of cs l = Some (c, l') → one_of cs (l ++ rest) = Some (c, l' ++ rest).
Proof. unfold one_of. destruct l as [|[d| |] l]; try done. cbn. case_match; [|done]. by intros [= -> ->]. Qed.

Lemma one_of_none cs l rest :
  one_of cs l = None → cs ⊆ ["."; "e"; "E"; "+"; "-"]%char ∨ cs = ["0"%char] → stops l rest → one_of cs (l ++ rest) = None.
Proof.
  intros Hn Hcs Hst. destruct l as [|x l]; [|destruct x as [d| |]; [cbn in *; by case_match|done..]]. specialize (Hst eq_refl).
  unfold one_of. cbn. destruct rest as [|[c| |] rest]; try done. case_match eqn:E; [|done]. exfalso.
  apply existsb_ascii in E. cbn in Hst. unfold number_byte in Hst. apply negb_true_iff, orb_false_iff in Hst as [Hd Hc].
  destruct Hcs as [Hcs| ->].
  - apply Hcs, existsb_ascii in E. congruence.
  - apply list_elem_of_singleton in E as ->. vm_compute in Hd. discriminate.
Qed.

Lemma span_digits_app l rest ds r :
  span_digits l = (ds, r) → stops r rest → span_digits (l ++ rest) = (ds, r ++ rest).
Proof.
  revert ds. induction l as [|x l IH]; intros ds; cbn.
  - intros [= <- <-] Hst. specialize (Hst eq_refl). destruct rest as [|[c| |] rest]; try done. cbn in *.
    apply negb_true_iff, orb_false_iff in Hst as [-> _]. done.
  - destruct x as [c|bs|c]; try by intros [= <- <-]. destruct (is_digit c); [|by intros [= <- <-]].
    destruct (span_digits l) as [ds' r'] eqn:E. intros [= <- <-] Hst. by rewrite (IH ds').
Qed.

Lemma digits1_app l rest ds r :
  digits1 l = Some (ds, r) → stops r rest → digits1 (l ++ rest) = Some (ds, r ++ rest).
Proof.
  unfold digits1. destruct (span_digits l) as [ds' r'] eqn:E. intros H Hst.
  destruct ds'; [done|]. injection H as <- <-. by rewrite (span_digits_app _ _ _ _ E).
Qed.

(** Reading no digit, or no exponent, from nothing leaves nothing. *)
Lemma scan_frac_app l rest t r :
  scan_frac l = Some (t, r) → stops r rest → scan_frac (l ++ rest) = Some (t, r ++ rest).
Proof.
  unfold scan_frac. destruct (one_of ["."%char] l) as [[c l']|] eqn:E.
  - rewrite (one_of_app _ _ _ _ _ E). destruct (digits1 l') as [[ds r']|] eqn:E'; [|done]. cbn.
    intros [= <- <-] Hst. by rewrite (digits1_app _ _ _ _ E').
  - intros [= <- <-] Hst. rewrite one_of_none; [done|done|left; set_solver|done].
Qed.

Lemma scan_exp_app l rest t r :
  scan_exp l = Some (t, r) → stops r rest → scan_exp (l ++ rest) = Some (t, r ++ rest).
Proof.
  unfold scan_exp. destruct (one_of ["e"; "E"]%char l) as [[c l']|] eqn:E.
  - rewrite (one_of_app _ _ _ _ _ E). destruct (one_of ["+"; "-"]%char l') as [[c' l'']|] eqn:E''.
    + rewrite (one_of_app _ _ _ _ _ E''). destruct (digits1 l'') as [[ds r']|] eqn:E'; [|done]. cbn.
      intros [= <- <-] Hst. by rewrite (digits1_app _ _ _ _ E').
    + destruct (digits1 l') as [[ds r']|] eqn:E'; [|done]. cbn. intros [= <- <-] Hst.
      rewrite one_of_none; [|done|left; set_solver|intros ->; done]. by rewrite (digits1_app _ _ _ _ E').
  - intros [= <- <-] Hst. rewrite one_of_none; [done|done|left; set_solver|done].
Qed.

Lemma scan_int_app l rest t r :
  scan_int l = Some (t, r) → stops r rest → scan_int (l ++ rest) = Some (t, r ++ rest).
Proof.
  unfold scan_int. destruct (one_of ["0"%char] l) as [[c l']|] eqn:E.
  - rewrite (one_of_app _ _ _ _ _ E). by intros [= <- <-].
  - intros H Hst. rewrite one_of_none; [by apply digits1_app|done|by right|by intros ->].
Qed.

Lemma scan_number_app l rest t r :
  scan_number l = Some (t, r) → stops r rest → scan_number (l ++ rest) = Some (t, r ++ rest).
Proof.
  unfold scan_number. destruct (scan_sign l) as [sign l1] eqn:Es.
  destruct (scan_int l1) as [[int l2]|] eqn:Ei; [|done]. cbn.
  destruct (scan_frac l2) as [[frac l3]|] eqn:Ef; [|done]. cbn.
  destruct (scan_exp l3) as [[exp l4]|] eqn:Ee; [|done]. cbn. intros [= <- <-] Hst.
  assert (scan_sign (l ++ rest) = (sign, l1 ++ rest)) as ->.
  { unfold scan_sign in *. destruct (one_of ["-"%char] l) as [[c l']|] eqn:E.
    - rewrite (one_of_app _ _ _ _ _ E). by injection Es as <- <-.
    - injection Es as <- <-. rewrite one_of_none; [done|done|left; set_solver|by intros ->]. }
  assert (stops l3 rest) as H3 by (intros ->; injection Ee as <- <-; by apply Hst).
  assert (stops l2 rest) as H2 by (intros ->; injection Ef as <- <-; by apply H3).
  rewrite (scan_int_app _ _ _ _ Ei) by done. cbn. rewrite (scan_frac_app _ _ _ _ Ef) by done. cbn.
  by rewrite (scan_exp_app _ _ _ _ Ee).
Qed.

(** ** White space, words and strings *)
Lemma skip_ws_app l rest : skip_ws l ≠ [] → skip_ws (l ++ rest) = skip_ws l ++ rest.
Proof. induction l as [|[c| |] l IH]; cbn; try done. case_match; [|done]. by apply IH. Qed.

Lemma token_app c l rest r : token c l = Some r → token c (l ++ rest) = Some (r ++ rest).
Proof.
  unfold token. destruct (skip_ws l) as [|x l'] eqn:E; [done|]. rewrite skip_ws_app by by rewrite E.
  rewrite E. destruct x; try done. cbn. case_match; [|done]. by intros [= ->].
Qed.

(** A byte that is not there. *)
Lemma token_none c l rest : token c l = None → skip_ws l ≠ [] → token c (l ++ rest) = None.
Proof.
  intros H Hs. unfold token in *. rewrite skip_ws_app by done. destruct (skip_ws l) as [|[d| |] l'] eqn:E; try done.
  cbn. by case_match.
Qed.

Lemma token_nonempty c l r : token c l = Some r → skip_ws l ≠ [].
Proof. unfold token. by destruct (skip_ws l). Qed.

Lemma expect_app w l rest r : expect w l = Some r → expect w (l ++ rest) = Some (r ++ rest).
Proof.
  revert l. induction w as [|c w IH]; intros l; cbn; [by intros [= ->]|].
  destruct l as [|[d| |] l]; try done. cbn. case_match; [|done]. apply IH.
Qed.

Lemma scan_string_app l rest items r :
  scan_string l = Some (items, r) → scan_string (l ++ rest) = Some (items, r ++ rest).
Proof.
  revert items. induction l as [l IH] using (induction_ltof1 _ length). intros items.
  destruct l as [|x l1]; [done|].
  assert (∀ it l2 items', length l2 < S (length l1) →
    ('(its, r) ← scan_string l2; Some (it :: its, r)) = Some (items', r) →
    ('(its, r) ← scan_string (l2 ++ rest); Some (it :: its, r)) = Some (items', r ++ rest)) as Hrec.
  { intros it l2 items' Hl H. destruct (scan_string l2) as [[its r']|] eqn:E; [|done]. injection H as <- ->.
    by rewrite (IH l2 Hl its). }
  cbn [scan_string app]. destruct x as [c|bs|c]; [|by apply Hrec; cbn; lia..].
  destruct (is_quote c); [by intros [= <- <-]|]. destruct (is_backslash c).
  - destruct l1 as [|[e| |] l2]; try done. cbn [app]. destruct (Ascii.eqb e "u"%char).
    + destruct l2 as [|[h1| |] [|[h2| |] [|[h3| |] [|[h4| |] l3]]]]; try done. cbn [app].
      destruct (hex4 h1 h2 h3 h4) as [u|]; [|done]. cbn [mbind option_bind]. apply Hrec. cbn. lia.
    + destruct (unescape e) as [b|]; [|done]. cbn [mbind option_bind]. apply Hrec. cbn. lia.
  - destruct (code c <? 32)%N; [done|]. apply Hrec. cbn. lia.
Qed.

(** ** What is left is the end of the text *)
Lemma skip_ws_suffix l : skip_ws l `suffix_of` l.
Proof. induction l as [|[c| |] l IH]; cbn; try done. case_match; [|done]. by apply suffix_cons_r. Qed.

Lemma token_suffix c l r : token c l = Some r → r `suffix_of` l.
Proof.
  unfold token. pose proof (skip_ws_suffix l) as Hs. destruct (skip_ws l) as [|[d| |] l']; try done.
  destruct (Ascii.eqb c d); [|done]. intros [= <-]. etrans; [|exact Hs]. by apply suffix_cons_r.
Qed.

Lemma expect_suffix w l r : expect w l = Some r → r `suffix_of` l.
Proof.
  revert l. induction w as [|c w IH]; intros l; cbn; [by intros [= ->]|].
  destruct l as [|[d| |] l]; try done. case_match; [|done]. intros Hw. apply suffix_cons_r. eauto.
Qed.

Lemma scan_string_suffix l items r : scan_string l = Some (items, r) → r `suffix_of` l.
Proof.
  revert items. induction l as [l IH] using (induction_ltof1 _ length). intros items.
  destruct l as [|x l1]; [done|].
  assert (∀ it l2 items', length l2 < S (length l1) →
    ('(its, r) ← scan_string l2; Some (it :: its, r)) = Some (items', r) → r `suffix_of` l2) as Hrec.
  { intros it l2 items' Hl H. destruct (scan_string l2) as [[its r']|] eqn:E; [|done]. injection H as <- ->. eauto. }
  cbn [scan_string]. intros H. destruct x as [c|bs|c]; [|by apply suffix_cons_r; eapply Hrec; [|exact H]; cbn; lia..].
  destruct (is_quote c); [injection H as <- <-; by apply suffix_cons_r|]. destruct (is_backslash c).
  - destruct l1 as [|[e| |] l2]; try done. destruct (Ascii.eqb e "u"%char).
    + destruct l2 as [|[h1| |] [|[h2| |] [|[h3| |] [|[h4| |] l3]]]]; try done.
      destruct (hex4 h1 h2 h3 h4) as [u|]; [|done]. cbn [mbind option_bind] in H.
      do 6 apply suffix_cons_r. eapply Hrec; [|exact H]. cbn. lia.
    + destruct (unescape e) as [b|]; [|done]. cbn [mbind option_bind] in H.
      do 2 apply suffix_cons_r. eapply Hrec; [|exact H]. cbn. lia.
  - destruct (code c <? 32)%N; [done|]. apply suffix_cons_r. eapply Hrec; [|exact H]. cbn. lia.
Qed.

(** The text of a number is what was read. *)
Lemma one_of_text cs l c l' : one_of cs l = Some (c, l') → l = ascii_runes (String c "") ++ l'.
Proof. by intros [-> _]%one_of_Some. Qed.

Lemma span_digits_text l ds r : span_digits l = (ds, r) → l = ascii_runes ds ++ r.
Proof.
  revert ds. induction l as [|[c|bs|c] l IH]; intros ds; cbn; try by intros [= <- <-].
  destruct (is_digit c); [|by intros [= <- <-]]. destruct (span_digits l) as [ds' r'].
  intros [= <- <-]. cbn. f_equal. by apply IH.
Qed.

Lemma digits1_text l ds r : digits1 l = Some (ds, r) → l = ascii_runes ds ++ r.
Proof.
  unfold digits1. destruct (span_digits l) as [ds' r'] eqn:E. destruct ds'; [done|].
  intros [= <- <-]. by apply span_digits_text.
Qed.

Lemma scan_number_text l t r : scan_number l = Some (t, r) → l = ascii_runes t ++ r.
Proof.
  unfold scan_number. destruct (scan_sign l) as [sign l1] eqn:Es.
  destruct (scan_int l1) as [[int l2]|] eqn:Ei; [|done]. cbn.
  destruct (scan_frac l2) as [[frac l3]|] eqn:Ef; [|done]. cbn.
  destruct (scan_exp l3) as [[exp l4]|] eqn:Ee; [|done]. cbn. intros [= <- <-].
  rewrite !ascii_runes_app, <- !app_assoc.
  assert (l = ascii_runes sign ++ l1) as ->.
  { unfold scan_sign in Es. destruct (one_of _ l) as [[c l']|] eqn:E; injection Es as <- <-; [|done].
    by apply one_of_text in E. }
  assert (l1 = ascii_runes int ++ l2) as ->.
  { unfold scan_int in Ei. destruct (one_of _ l1) as [[c l']|] eqn:E; [|by apply digits1_text].
    injection Ei as <- <-. by apply one_of_text in E. }
  assert (l2 = ascii_runes frac ++ l3) as ->.
  { unfold scan_frac in Ef. destruct (one_of _ l2) as [[c l']|] eqn:E; [|by injection Ef as <- <-].
    destruct (digits1 l') as [[ds r']|] eqn:E'; [|done]. injection Ef as <- <-.
    apply one_of_text in E as ->. by apply digits1_text in E' as ->. }
  do 3 f_equal. unfold scan_exp in Ee. destruct (one_of _ l3) as [[c l']|] eqn:E; [|by injection Ee as <- <-].
  apply one_of_text in E as ->. destruct (one_of _ l') as [[c' l'']|] eqn:E';
    (destruct (digits1 _) as [[ds r']|] eqn:E''; [|done]); injection Ee as <- <-;
    [apply one_of_text in E' as ->|]; apply digits1_text in E'' as ->; [|done].
  cbn. do 2 f_equal.
Qed.

(** ** Reading a value is local *)
Fixpoint doc_depth (d : doc) : nat :=
  match d with
  | DArray _ l => S (max_list (doc_depth <$> l))
  | DObject _ m => S (max_list (doc_depth ∘ snd <$> m))
  | _ => 0
  end.

Lemma taken_app p r : taken (p ++ r) r = encode_utf8 p.
Proof. unfold taken. rewrite length_app. by replace (length p + length r - length r) with (length p) by lia; rewrite take_app_length. Qed.

Lemma taken_suffix l r rest : r `suffix_of` l → taken (l ++ rest) (r ++ rest) = taken l r.
Proof. intros [p ->]. by rewrite <- app_assoc, !taken_app. Qed.

Lemma parse_value_nonempty f n l d r : parse_value f n l = Some (d, r) → l ≠ [].
Proof. destruct f; [done|]. by destruct l. Qed.

Lemma bind_pair_Some {A B C} (m : option (A * B)) (k : A → B → option C) c :
  ('(a, b) ← m; k a b) = Some c ↔ ∃ a b, m = Some (a, b) ∧ k a b = Some c.
Proof.
  split; [|by intros (a & b & -> & H)]. destruct m as [[a b]|]; [|done]. cbn. eauto.
Qed.

Definition deep_elems (ds : list doc) : nat := max_list (doc_depth <$> ds).
Definition deep_members (ms : list (string * doc)) : nat := max_list (doc_depth ∘ snd <$> ms).

(** What holds of all reads with at most [f] fuel. *)
Definition value_local (f : nat) : Prop := ∀ n l d r, parse_value f n l = Some (d, r) →
  r `suffix_of` l ∧ ∀ f' n' rest, f ≤ f' → doc_depth d ≤ n' → stops r rest →
    parse_value f' n' (l ++ rest) = Some (d, r ++ rest).

Definition list_local {A} (depth : list A → nat) (p : nat → nat → list rune → option (list A * list rune)) (f : nat) : Prop :=
  ∀ n l a r, p f n l = Some (a, r) →
  r `suffix_of` l ∧ skip_ws l ≠ [] ∧ ∀ f' n' rest, f ≤ f' → depth a ≤ n' → p f' n' (l ++ rest) = Some (a, r ++ rest).

Lemma bracketed_local {A} (depth : list A → nat) p f c n l a r :
  list_local depth p f → bracketed c (p f n) l = Some (a, r) →
  r `suffix_of` l ∧ ∀ f' n' rest, f ≤ f' → depth a ≤ n' → bracketed c (p f' n') (l ++ rest) = Some (a, r ++ rest).
Proof.
  intros Hp. unfold bracketed. destruct (token c l) as [r'|] eqn:E.
  - intros [= <- <-]. split; [by eapply token_suffix|]. intros. by rewrite (token_app _ _ rest _ E).
  - intros H. destruct (Hp _ _ _ _ H) as (Hs & Hne & Hl). split; [done|]. intros f' n' rest Hf Hd.
    rewrite token_none by done. by apply Hl.
Qed.

Lemma and_more_local {A} (depth : list A → nat) (one : A → nat) p f c n x l a r :
  (∀ x l, depth (x :: l) = one x `max` depth l) →
  list_local depth p f → and_more c (p f n) x l = Some (a, r) →
  r `suffix_of` l ∧ skip_ws l ≠ [] ∧ one x ≤ depth a ∧
  ∀ f' n' rest, f ≤ f' → depth a ≤ n' → and_more c (p f' n') x (l ++ rest) = Some (a, r ++ rest).
Proof.
  intros Hmax Hp. unfold and_more. destruct (token "," l) as [r'|] eqn:E.
  - intros (a' & r'' & H & [= <- <-])%bind_pair_Some. destruct (Hp _ _ _ _ H) as (Hs & _ & Hl).
    pose proof (token_suffix _ _ _ E). split; [by etrans|]. split; [by eapply token_nonempty|].
    rewrite Hmax. split; [lia|]. intros f' n' rest Hf Hd. rewrite (token_app _ _ rest _ E).
    rewrite (Hl f' n' rest) by lia. done.
  - destruct (token c l) as [r'|] eqn:E'; [|done]. intros [= <- <-].
    split; [by eapply token_suffix|]. split; [by eapply token_nonempty|]. rewrite Hmax. split; [lia|].
    intros f' n' rest _ _. rewrite token_none; [|done|by eapply token_nonempty]. by rewrite (token_app _ _ rest _ E').
Qed.

(** With more fuel and a rest behind the text. *)
Ltac longer := intros [|f'] n' rest Hf Hd Hst; [lia|]; cbn [parse_value app].

Lemma value_local_step f :
  list_local deep_elems parse_elems f → list_local deep_members parse_members f → value_local (S f).
Proof.
  intros He Hm n l d r H. destruct l as [|[c| |] l1]; try done. cbn [parse_value] in H.
  assert (∀ r rest, r `suffix_of` l1 → taken (RAscii c :: l1 ++ rest) (r ++ rest) = taken (RAscii c :: l1) r) as Ht.
  { intros r0 rest Hs. apply (taken_suffix (RAscii c :: l1)). by apply suffix_cons_r. }
  destruct (kind_of c) as [| | |w d'|] eqn:Ek.
  - apply bind_pair_Some in H as (items & r' & E & [= <- <-]). pose proof (scan_string_suffix _ _ _ E).
    split; [by apply suffix_cons_r|]. longer. by rewrite Ek, (scan_string_app _ rest _ _ E); cbn [mbind option_bind]; rewrite Ht.
  - destruct n as [|n]; [done|]. apply bind_pair_Some in H as (ds & r' & E & [= <- <-]).
    destruct (bracketed_local deep_elems _ _ _ _ _ _ _ He E) as [Hs Hl]. split; [by apply suffix_cons_r|]. longer.
    rewrite Ek. destruct n' as [|n']; [cbn in Hd; lia|].
    by rewrite (Hl f' n' rest) by (cbn in Hd; unfold deep_elems; lia); cbn [mbind option_bind]; rewrite Ht.
  - destruct n as [|n]; [done|]. apply bind_pair_Some in H as (ms & r' & E & [= <- <-]).
    destruct (bracketed_local deep_members _ _ _ _ _ _ _ Hm E) as [Hs Hl]. split; [by apply suffix_cons_r|]. longer.
    rewrite Ek. destruct n' as [|n']; [cbn in Hd; lia|].
    by rewrite (Hl f' n' rest) by (cbn in Hd; unfold deep_members; lia); cbn [mbind option_bind]; rewrite Ht.
  - destruct (expect w (RAscii c :: l1)) as [r'|] eqn:E; [|done]. injection H as <- <-.
    split; [by eapply expect_suffix|]. longer. apply (expect_app _ _ rest) in E. cbn [app] in E. by rewrite Ek, E.
  - apply bind_pair_Some in H as (lit & r' & E & [= <- <-]). split; [eexists; by eapply scan_number_text|]. longer.
    apply (scan_number_app _ rest) in E; [|done]. cbn [app] in E. by rewrite Ek, E.
Qed.

Lemma elems_local_step f :
  value_local f → list_local deep_elems parse_elems f → list_local deep_elems parse_elems (S f).
Proof.
  intros Hv He n l ds r H. cbn [parse_elems] in H. apply bind_pair_Some in H as (d & r1 & E & H).
  destruct (Hv _ _ _ _ E) as [Hs Hl].
  destruct (and_more_local deep_elems doc_depth _ _ _ _ _ _ _ _ (λ _ _, eq_refl) He H) as (Hs' & Hne & Hd & Hl').
  pose proof (parse_value_nonempty _ _ _ _ _ E). split; [by repeat (etrans; [eassumption|]); apply skip_ws_suffix|].
  split; [done|]. intros [|f'] n' rest Hf Hn; [lia|]. cbn [parse_elems]. rewrite skip_ws_app by done.
  rewrite (Hl f' n' rest); [|lia..|]; [|by intros ->]. cbn [mbind option_bind]. apply Hl'; lia.
Qed.

Lemma members_local_step f :
  value_local f → list_local deep_members parse_members f → list_local deep_members parse_members (S f).
Proof.
  intros Hv Hm n l ms r H. cbn [parse_members] in H.
  destruct (token dquote_char l) as [r1|] eqn:E1; [|done]. cbn [mbind option_bind] in H.
  apply bind_pair_Some in H as (items & r2 & E2 & H). destruct (token ":" r2) as [r3|] eqn:E3; [|done].
  cbn [mbind option_bind] in H. apply bind_pair_Some in H as (d & r4 & E4 & H).
  destruct (Hv _ _ _ _ E4) as [Hs Hl]. pose proof (parse_value_nonempty _ _ _ _ _ E4).
  destruct (and_more_local deep_members (doc_depth ∘ snd) _ _ _ _ _ _ _ _ (λ _ _, eq_refl) Hm H) as (Hs' & Hne & Hd & Hl').
  split; [|split; [by eapply token_nonempty|]].
  - etrans; [exact Hs'|]. etrans; [exact Hs|]. etrans; [apply skip_ws_suffix|]. etrans; [by eapply token_suffix|].
    etrans; [by eapply scan_string_suffix|]. by eapply token_suffix.
  - intros [|f'] n' rest Hf Hn; [lia|]. cbn [parse_members]. rewrite (token_app _ _ rest _ E1). cbn [mbind option_bind].
    rewrite (scan_string_app _ rest _ _ E2). cbn [mbind option_bind]. rewrite (token_app _ _ rest _ E3).
    cbn [mbind option_bind]. rewrite skip_ws_app by done. cbn [compose snd] in Hd.
    rewrite (Hl f' n' rest); [|lia..|]; [|by intros ->]. cbn [mbind option_bind]. apply Hl'; lia.
Qed.

Lemma reads_local f :
  value_local f ∧ list_local deep_elems parse_elems f ∧ list_local deep_members parse_members f.
Proof.
  induction f as [|f (Hv & He & Hm)]; [by repeat split|].
  auto using value_local_step, elems_local_step, members_local_step.
Qed.

(** Reading a value: what follows, more fuel and a greater limit do not matter. *)
Lemma parse_value_app f n l d r f' n' rest :
  parse_value f n l = Some (d, r) → f ≤ f' → doc_depth d ≤ n' → stops r rest →
  parse_value f' n' (l ++ rest) = Some (d, r ++ rest).
Proof. intros H Hf Hd Hst. destruct (proj1 (reads_local f) _ _ _ _ H) as [_ Hl]. by apply Hl. Qed.

(** A value begins with its own first byte. *)
Lemma scan_number_head c l x : scan_number (RAscii c :: l) = Some x → c = "-"%char ∨ is_digit c = true.
Proof.
  unfold scan_number, scan_sign. destruct (one_of ["-"%char] (RAscii c :: l)) as [[d l']|] eqn:E.
  - apply one_of_Some in E as [[= -> ->] ->%list_elem_of_singleton]. by left.
  - unfold scan_int. destruct (one_of ["0"%char] (RAscii c :: l)) as [[d l']|] eqn:E'.
    + apply one_of_Some in E' as [[= -> ->] ->%list_elem_of_singleton]. by right.
    + unfold digits1. cbn. destruct (is_digit c); [by right|done].
Qed.

Lemma parse_value_head f n l x :
  parse_value f n l = Some x →
  skip_ws l = l ∧ token "]" l = None ∧ token "}" l = None.
Proof.
  destruct f; [done|]. destruct l as [|[c| |] l]; try done. cbn [parse_value]. intros H.
  assert (is_space c = false ∧ Ascii.eqb "]" c = false ∧ Ascii.eqb "}" c = false) as (H1 & H2 & H3).
  { destruct (kind_of c) eqn:Ek; cycle 4.
    - destruct (scan_number _) eqn:E; [|done]. apply scan_number_head in E as [->|Hd]; [done|].
      destruct c as [[] [] [] [] [] [] [] []]; vm_compute in Hd; done.
    - destruct c as [[] [] [] [] [] [] [] []]; vm_compute in Ek; done.
    - destruct c as [[] [] [] [] [] [] [] []]; vm_compute in Ek; done.
    - destruct c as [[] [] [] [] [] [] [] []]; vm_compute in Ek; done.
    - destruct c as [[] [] [] [] [] [] [] []]; vm_compute in Ek; done. }
  unfold token. cbn [skip_ws]. by rewrite H1, H2, H3.
Qed.

(** ** Printing and reading back *)

(** Literals and raw texts that may be written: a number is one, a raw text is a
    value without white space around it, in UTF-8. *)
Definition read_raw (text : string) : option (doc * list rune) :=
  let l := decode_utf8 text in parse_value (2 * length l) maxNestingDepth l.

Fixpoint json_ok (v : json) : bool :=
  match v with
  | JsonNum lit => bool_decide (scan_number (ascii_runes lit) = Some (lit, []))
  | JsonArr l => forallb json_ok l
  | JsonObj m => forallb (json_ok ∘ snd) m
  | JsonRaw text => utf8_Valid text && match read_raw text with Some (_, []) => true | _ => false end
  | _ => true
  end.

(** The document of a printed value. *)
Fixpoint doc_of (v : json) : doc :=
  match v with
  | JsonNull => DNull
  | JsonBool b => DBool b
  | JsonNum lit => DNumber lit
  | JsonStr s => DString (print v) (repair (decode_utf8 s))
  | JsonArr l => DArray (print v) (doc_of <$> l)
  | JsonObj m => DObject (print v) ((λ '(k, v), (repair (decode_utf8 k), doc_of v)) <$> m)
  | JsonRaw text => match read_raw text with Some (d, _) => d | None => DNull end
  end.

Section json_ind.
Variable P : json → Prop.
Hypothesis Hnull : P JsonNull.
Hypothesis Hbool : ∀ b, P (JsonBool b).
Hypothesis Hnum : ∀ lit, P (JsonNum lit).
Hypothesis Hstr : ∀ s, P (JsonStr s).
Hypothesis Harr : ∀ l, Forall P l → P (JsonArr l).
Hypothesis Hobj : ∀ m, Forall (P ∘ snd) m → P (JsonObj m).
Hypothesis Hraw : ∀ text, P (JsonRaw text).

Fixpoint json_nested_ind (v : json) : P v :=
  match v with
  | JsonNull => Hnull
  | JsonBool b => Hbool b
  | JsonNum lit => Hnum lit
  | JsonStr s => Hstr s
  | JsonArr l =>
      Harr l ((fix go l := match l return Forall P l with
                           | [] => Forall_nil_2 _
                           | v :: l => Forall_cons_2 _ _ _ (json_nested_ind v) (go l)
                           end) l)
  | JsonObj m =>
      Hobj m ((fix go m := match m return Forall (P ∘ snd) m with
                           | [] => Forall_nil_2 _
                           | kv :: m => Forall_cons_2 _ _ _ (json_nested_ind kv.2) (go m)
                           end) m)
  | JsonRaw text => Hraw text
  end.
End json_ind.

Lemma commas_cons t ts : ts ≠ [] → commas (t :: ts) = t ++ RAscii ","%char :: commas ts.
Proof. by destruct ts. Qed.

Definition member_runes (kv : string * json) : list rune :=
  quote_string kv.1 ++ RAscii ":"%char :: print_runes kv.2.

Lemma print_obj m :
  print_runes (JsonObj m) = RAscii "{"%char :: commas (member_runes <$> m) ++ [RAscii "}"%char].
Proof. cbn. do 3 f_equal. apply list_fmap_ext. by intros ? [k v] ?. Qed.

(** A printed value is read back in front of anything that ends it. *)
Definition reads_back (v : json) : Prop := ∀ f n rest,
  2 * length (print_runes v) ≤ f → doc_depth (doc_of v) ≤ n → ends rest = true →
  parse_value f n (print_runes v ++ rest) = Some (doc_of v, rest).

Lemma reads_back_head v n rest :
  reads_back v → doc_depth (doc_of v) ≤ n → ends rest = true →
  let l := print_runes v ++ rest in skip_ws l = l ∧ token "]" l = None ∧ token "}" l = None.
Proof. intros H Hn Hr. eapply parse_value_head. by apply (H (2 * length (print_runes v)) n rest). Qed.

Lemma and_more_comma {A} c (p : list rune → option (list A * list rune)) x l :
  and_more c p x (RAscii ","%char :: l) = '(a, r) ← p l; Some (x :: a, r).
Proof. done. Qed.

Lemma elems_read_back l : l ≠ [] → Forall reads_back l → ∀ f n rest,
  S (2 * length (commas (print_runes <$> l))) ≤ f → max_list (doc_depth ∘ doc_of <$> l) ≤ n →
  parse_elems f n (commas (print_runes <$> l) ++ RAscii "]"%char :: rest) = Some (doc_of <$> l, rest).
Proof.
  intros Hne Hl. induction Hl as [|v l Hv _ IH]; [done|]. intros [|f] n rest Hf Hn; [lia|]. cbn in Hn.
  destruct (decide (l = [])) as [->|Hl].
  - cbn [fmap list_fmap commas parse_elems] in *.
    destruct (reads_back_head v n (RAscii "]"%char :: rest)) as [-> _]; [done|lia|done|].
    rewrite Hv by (done || lia). done.
  - assert (print_runes <$> l ≠ []) as Hl' by by destruct l. change (print_runes <$> v :: l) with (print_runes v :: (print_runes <$> l)) in *.
    rewrite commas_cons, length_app in Hf by done. cbn [length] in Hf. rewrite commas_cons by done.
    rewrite <- app_assoc. cbn [app parse_elems].
    destruct (reads_back_head v n (RAscii ","%char :: commas (print_runes <$> l) ++ RAscii "]"%char :: rest)) as [-> _];
      [done|lia|done|].
    rewrite Hv by (done || lia). cbn [mbind option_bind]. rewrite and_more_comma, IH by (done || lia). done.
Qed.

Lemma quoted_key k rest : ∃ items,
  token dquote_char (quote_string k ++ rest) = Some (mbind escape_rune (decode_utf8 k) ++ dquote :: rest) ∧
  scan_string (mbind escape_rune (decode_utf8 k) ++ dquote :: rest) = Some (items, rest) ∧
  items_value items = repair (decode_utf8 k).
Proof.
  destruct (scan_quoted k rest) as (items & H & Hv). exists items. split; [|done].
  unfold quote_string. cbn [app]. rewrite <- app_assoc. done.
Qed.

Lemma members_read_back m : m ≠ [] → Forall (reads_back ∘ snd) m → ∀ f n rest,
  S (2 * length (commas (member_runes <$> m))) ≤ f → max_list (doc_depth ∘ doc_of ∘ snd <$> m) ≤ n →
  parse_members f n (commas (member_runes <$> m) ++ RAscii "}"%char :: rest) =
    Some ((λ '(k, v), (repair (decode_utf8 k), doc_of v)) <$> m, rest).
Proof.
  intros Hne Hm. induction Hm as [|[k v] m Hv _ IH]; [done|]. intros [|f] n rest Hf Hn; [lia|].
  cbn in Hn, Hv. destruct (decide (m = [])) as [->|Hm].
  - cbn [fmap list_fmap commas parse_members member_runes fst snd] in *. unfold member_runes in *. cbn [fst snd] in *.
    rewrite length_app in Hf. cbn [length] in Hf. rewrite <- app_assoc. cbn [app].
    destruct (quoted_key k (RAscii ":"%char :: print_runes v ++ RAscii "}"%char :: rest)) as (items & -> & Hsc & Hval).
    cbn [mbind option_bind]. rewrite Hsc. cbn [mbind option_bind].
    change (token ":" (RAscii ":"%char :: ?l)) with (Some l). cbn [mbind option_bind].
    destruct (reads_back_head v n (RAscii "}"%char :: rest)) as [-> _]; [done|lia|done|].
    rewrite Hv by (done || lia). by rewrite Hval.
  - assert (member_runes <$> m ≠ []) as Hm' by by destruct m.
    change (member_runes <$> (k, v) :: m) with (member_runes (k, v) :: (member_runes <$> m)) in *.
    rewrite commas_cons, length_app in Hf by done. cbn [length] in Hf. rewrite commas_cons by done.
    unfold member_runes in Hf at 1. cbn [fst snd] in Hf. rewrite length_app in Hf. cbn [length] in Hf.
    rewrite <- app_assoc. unfold member_runes at 1. cbn [fst snd]. rewrite <- app_assoc. cbn [app parse_members].
    destruct (quoted_key k (RAscii ":"%char :: print_runes v ++ RAscii ","%char :: commas (member_runes <$> m) ++
      RAscii "}"%char :: rest)) as (items & -> & Hsc & Hval).
    cbn [mbind option_bind]. rewrite Hsc. cbn [mbind option_bind].
    change (token ":" (RAscii ":"%char :: ?l)) with (Some l). cbn [mbind option_bind].
    destruct (reads_back_head v n (RAscii ","%char :: commas (member_runes <$> m) ++ RAscii "}"%char :: rest)) as [-> _];
      [done|lia|done|].
    rewrite Hv by (done || lia). cbn [mbind option_bind]. rewrite and_more_comma, IH by (done || lia). by rewrite Hval.
Qed.

Lemma ends_stops r rest : ends rest = true → stops r rest.
Proof. by intros H _. Qed.

Lemma doc_depth_members m :
  max_list (doc_depth ∘ snd <$> ((λ '(k, v), (repair (decode_utf8 k), doc_of v)) <$> m)) =
  max_list (doc_depth ∘ doc_of ∘ snd <$> m).
Proof. rewrite <- list_fmap_compose. f_equal. apply list_fmap_ext. by intros ? [k v] ?. Qed.

Lemma num_reads_back lit : json_ok (JsonNum lit) = true → reads_back (JsonNum lit).
Proof.
  cbn [json_ok]. intros Hok%bool_decide_eq_true f n rest Hf Hn Hr.
  pose proof (scan_number_app _ rest _ _ Hok (ends_stops _ _ Hr)) as Hs. cbn [print_runes doc_of] in *.
  destruct lit as [|c lit]; [done|]. destruct f; [cbn in Hf; lia|].
  change (ascii_runes (String c lit)) with (RAscii c :: ascii_runes lit) in *. cbn [app] in *. cbn [parse_value].
  assert (kind_of c = KNumber) as ->; [|by rewrite Hs].
  apply scan_number_head in Hok as [->|Hd]; [done|]. destruct c as [[] [] [] [] [] [] [] []]; vm_compute in Hd; done.
Qed.

Lemma str_reads_back s : reads_back (JsonStr s).
Proof.
  intros f n rest Hf Hn Hr. destruct f; [cbn in Hf; lia|]. destruct (scan_quoted s rest) as (items & H & Hv).
  assert (print_runes (JsonStr s) ++ rest = dquote :: mbind escape_rune (decode_utf8 s) ++ dquote :: rest) as Hp.
  { cbn. unfold quote_string. cbn [app]. by rewrite <- app_assoc. }
  rewrite Hp. cbn [parse_value]. change (kind_of dquote_char) with KString. cbn match. rewrite H.
  cbn [mbind option_bind doc_of]. rewrite Hv. unfold print. rewrite <- Hp. by rewrite taken_app.
Qed.

(** Entries between brackets. *)
Lemma elems_bracketed l f n rest :
  Forall reads_back l → S (2 * length (commas (print_runes <$> l))) ≤ f → max_list (doc_depth ∘ doc_of <$> l) ≤ n →
  bracketed "]" (parse_elems f n) (commas (print_runes <$> l) ++ RAscii "]"%char :: rest) = Some (doc_of <$> l, rest).
Proof.
  intros Hl Hf Hn. destruct l as [|v l]; [done|]. unfold bracketed.
  assert (token "]" (commas (print_runes <$> v :: l) ++ RAscii "]"%char :: rest) = None) as ->;
    [|by apply elems_read_back].
  inversion Hl as [|?? Hv Hl']; subst. cbn in Hn. destruct l as [|v' l'].
  - eapply (reads_back_head v n); [done|lia|done].
  - change (print_runes <$> v :: v' :: l') with (print_runes v :: (print_runes <$> v' :: l')).
    rewrite commas_cons by done. rewrite <- app_assoc. eapply (reads_back_head v n); [done|lia|done].
Qed.

Lemma members_bracketed m f n rest :
  Forall (reads_back ∘ snd) m → S (2 * length (commas (member_runes <$> m))) ≤ f →
  max_list (doc_depth ∘ doc_of ∘ snd <$> m) ≤ n →
  bracketed "}" (parse_members f n) (commas (member_runes <$> m) ++ RAscii "}"%char :: rest) =
    Some ((λ '(k, v), (repair (decode_utf8 k), doc_of v)) <$> m, rest).
Proof.
  intros Hm Hf Hn. destruct (decide (m = [])) as [->|Hne]; [done|]. unfold bracketed.
  assert (token "}" (commas (member_runes <$> m) ++ RAscii "}"%char :: rest) = None) as ->.
  { by destruct m as [|[k v] [|kv m]]. }
  by apply members_read_back.
Qed.

Lemma arr_reads_back l : Forall reads_back l → reads_back (JsonArr l).
Proof.
  intros Hl f n rest Hf Hn Hr. destruct f; [cbn in Hf; lia|]. destruct n; [cbn in Hn; lia|].
  assert (print_runes (JsonArr l) ++ rest = RAscii "["%char :: commas (print_runes <$> l) ++ RAscii "]"%char :: rest) as Hp.
  { cbn [print_runes app]. by rewrite <- app_assoc. }
  cbn [print_runes length] in Hf. rewrite length_app in Hf. cbn [doc_of doc_depth length] in Hf, Hn.
  rewrite <- list_fmap_compose in Hn. rewrite Hp. cbn [parse_value]. change (kind_of "[") with KArray. cbn match.
  rewrite elems_bracketed by (done || lia). cbn [mbind option_bind doc_of]. unfold print. rewrite <- Hp.
  by rewrite taken_app.
Qed.

Lemma obj_reads_back m : Forall (reads_back ∘ snd) m → reads_back (JsonObj m).
Proof.
  intros Hm f n rest Hf Hn Hr. destruct f; [cbn in Hf; lia|]. destruct n; [cbn in Hn; lia|].
  assert (print_runes (JsonObj m) ++ rest = RAscii "{"%char :: commas (member_runes <$> m) ++ RAscii "}"%char :: rest) as Hp.
  { rewrite print_obj. cbn [app]. by rewrite <- app_assoc. }
  rewrite print_obj in Hf. cbn [length] in Hf. rewrite length_app in Hf. cbn [doc_of doc_depth length] in Hf, Hn.
  rewrite doc_depth_members in Hn. rewrite Hp. cbn [parse_value]. change (kind_of "{") with KObject. cbn match.
  rewrite members_bracketed by (done || lia). cbn [mbind option_bind doc_of]. unfold print. rewrite <- Hp.
  by rewrite taken_app.
Qed.

Lemma raw_reads_back text : json_ok (JsonRaw text) = true → reads_back (JsonRaw text).
Proof.
  cbn [json_ok]. intros [_ Hok]%andb_true_iff f n rest Hf Hn Hr. cbn [print_runes doc_of] in *.
  unfold read_raw in *. destruct (parse_value _ maxNestingDepth _) as [[d [|]]|] eqn:E; try done.
  exact (parse_value_app _ _ _ _ _ f n rest E Hf Hn (ends_stops _ _ Hr)).
Qed.

Lemma Forall_forallb_impl {A} (f : A → bool) (P : A → Prop) l :
  Forall (λ x, f x = true → P x) l → forallb f l = true → Forall P l.
Proof. rewrite forallb_Forall_iff. intros H1 H2. induction H1; inversion H2; constructor; auto. Qed.

Lemma print_reads_back v : json_ok v = true → reads_back v.
Proof.
  induction v as [|b|lit|s|l IH|m IH|text] using json_nested_ind; intros Hok.
  - intros [|f] n rest Hf Hn Hr; [cbn in Hf; lia|done].
  - intros [|f] n rest Hf Hn Hr; [destruct b; cbn in Hf; lia|by destruct b].
  - by apply num_reads_back.
  - apply str_reads_back.
  - by apply arr_reads_back, (Forall_forallb_impl json_ok).
  - by apply obj_reads_back, (Forall_forallb_impl (json_ok ∘ snd)).
  - by apply raw_reads_back.
Qed.

(** *** Printed text is UTF-8 *)
Lemma commas_good ts : Forall (Forall good_rune) ts → Forall good_rune (commas ts).
Proof.
  induction 1 as [|t ts Ht _ IH]; [done|]. destruct ts as [|t' ts]; [done|]. rewrite commas_cons by done.
  apply Forall_app. split; [done|]. by constructor.
Qed.

Lemma ascii_runes_good s : forallb is_ascii (String.list_ascii_of_string s) = true → Forall good_rune (ascii_runes s).
Proof. rewrite forallb_Forall_iff. intros H. by apply Forall_fmap. Qed.

Lemma span_digits_good l : Forall good_rune (ascii_runes (span_digits l).1).
Proof.
  induction l as [|[c|bs|c] l IH]; cbn; try done. destruct (is_digit c) eqn:Hd; [|done].
  destruct (span_digits l) as [ds r]. constructor; [|exact IH].
  destruct c as [[] [] [] [] [] [] [] []]; vm_compute in Hd; done.
Qed.

Lemma digits1_good l ds r : digits1 l = Some (ds, r) → Forall good_rune (ascii_runes ds).
Proof.
  unfold digits1. pose proof (span_digits_good l) as H. destruct (span_digits l) as [ds' r']. destruct ds'; [done|].
  by intros [= <- <-].
Qed.

Lemma one_of_good cs l c l' :
  one_of cs l = Some (c, l') → cs ⊆ ["-"; "0"; "."; "e"; "E"; "+"]%char → good_rune (RAscii c).
Proof. intros [_ Hc]%one_of_Some Hcs. apply Hcs in Hc. set_unfold in Hc. by destruct_or? Hc; subst. Qed.

Lemma number_ascii lit : scan_number (ascii_runes lit) = Some (lit, []) → Forall good_rune (ascii_runes lit).
Proof.
  intros Hs. unfold scan_number in Hs. destruct (scan_sign (ascii_runes lit)) as [sign l1] eqn:Es.
  apply bind_pair_Some in Hs as (int & l2 & Ei & Hs). apply bind_pair_Some in Hs as (frac & l3 & Ef & Hs).
  apply bind_pair_Some in Hs as (exp & l4 & Ee & [= Hlit _]). rewrite <- Hlit.
  rewrite !ascii_runes_app, !Forall_app. repeat split.
  - unfold scan_sign in Es. destruct (one_of _ _) as [[c l']|] eqn:E; injection Es as <- <-; [|done].
    constructor; [|done]. eapply one_of_good; [exact E|set_solver].
  - unfold scan_int in Ei. destruct (one_of _ _) as [[c l']|] eqn:E; [|by eapply digits1_good]. injection Ei as <- <-.
    constructor; [|done]. eapply one_of_good; [exact E|set_solver].
  - unfold scan_frac in Ef. destruct (one_of _ _) as [[c l']|] eqn:E; [|by injection Ef as <- <-].
    apply bind_pair_Some in Ef as (ds & r & E' & [= <- <-]). constructor; [|by eapply digits1_good].
    eapply one_of_good; [exact E|set_solver].
  - unfold scan_exp in Ee. destruct (one_of _ l3) as [[c l']|] eqn:E; [|by injection Ee as <- <-].
    destruct (one_of _ l') as [[c' l'']|] eqn:E'; apply bind_pair_Some in Ee as (ds & r & E'' & [= <- <-]);
      (constructor; [eapply one_of_good; [exact E|set_solver]|]); [|by eapply digits1_good].
    constructor; [eapply one_of_good; [exact E'|set_solver]|by eapply digits1_good].
Qed.

Lemma print_good v : json_ok v = true → Forall good_rune (print_runes v).
Proof.
  induction v as [|b|lit|s|l IH|m IH|text] using json_nested_ind; intros Hok.
  - by apply ascii_runes_good.
  - apply ascii_runes_good. by destruct b.
  - by apply number_ascii, (bool_decide_eq_true_1 _ Hok).
  - apply quote_good.
  - constructor; [done|]. apply Forall_app. split; [|by constructor]. apply commas_good, Forall_fmap.
    by apply (Forall_forallb_impl json_ok).
  - rewrite print_obj. constructor; [done|]. apply Forall_app. split; [|by constructor]. apply commas_good, Forall_fmap.
    apply (Forall_forallb_impl (json_ok ∘ snd)) in IH; [|done]. revert IH. apply Forall_impl.
    intros [k v] Hv. apply Forall_app. split; [apply quote_good|by constructor].
  - cbn in Hok. apply andb_true_iff in Hok as [Hok _]. by apply decode_good.
Qed.

(** Printing and reading back: a value that may be written, of limited depth. *)
Theorem parse_print (v : json) :
  json_ok v = true → doc_depth (doc_of v) ≤ maxNestingDepth → parse (print v) = Some (doc_of v).
Proof.
  intros Hok Hd. unfold parse, parse_runes, print. rewrite decode_encode by by apply print_good.
  pose proof (print_reads_back v Hok) as Hv.
  destruct (reads_back_head v maxNestingDepth []) as [Hs _]; [done..|]. rewrite app_nil_r in Hs. rewrite Hs.
  specialize (Hv (2 * length (print_runes v)) maxNestingDepth []). rewrite app_nil_r in Hv. by rewrite Hv.
Qed.

(** The raw text of a value that was read is its text. *)
Lemma expect_text w l : expect w l = Some [] → l = ascii_runes w.
Proof.
  revert l. induction w as [|a w IH]; intros l; cbn; [by intros [= ->]|].
  destruct l as [|[b| |] l]; try done. destruct (Ascii.eqb_spec a b) as [->|]; [|done]. intros H.
  cbn. f_equal. by apply IH.
Qed.

Lemma raw_text_read f n l d : parse_value f n l = Some (d, []) → raw_text d = encode_utf8 l.
Proof.
  destruct f; [done|]. destruct l as [|[c| |] l1]; try done. cbn [parse_value]. intros E.
  assert (taken (RAscii c :: l1) [] = encode_utf8 (RAscii c :: l1)) as Ht.
  { rewrite <- (app_nil_r (RAscii c :: l1)) at 1. apply taken_app. }
  destruct (kind_of c) as [| | |w d'|] eqn:Ek; try destruct n as [|n]; try done;
    try by apply bind_pair_Some in E as (? & ? & _ & [= <- ->]).
  - destruct (expect _ _) as [r|] eqn:E'; [|done]. injection E as <- ->. apply expect_text in E' as ->.
    rewrite encode_ascii. unfold kind_of in Ek. repeat case_match; by simplify_eq.
  - destruct (expect _ _) as [r|] eqn:E'; [|done]. injection E as <- ->. apply expect_text in E' as ->.
    rewrite encode_ascii. unfold kind_of in Ek. repeat case_match; by simplify_eq.
  - apply bind_pair_Some in E as (lit & ? & E' & [= <- ->]). apply scan_number_text in E' as ->.
    by rewrite app_nil_r, encode_ascii.
  - apply bind_pair_Some in E as (lit & ? & E' & [= <- ->]). apply scan_number_text in E' as ->.
    by rewrite app_nil_r, encode_ascii.
Qed.

Lemma raw_text_doc_of v : json_ok v = true → raw_text (doc_of v) = print v.
Proof.
  destruct v as [|b|lit|s|l|m|text]; intros Hok; try done.
  - by destruct b.
  - cbn. unfold print. cbn. by rewrite encode_ascii.
  - cbn in *. apply andb_true_iff in Hok as [_ Hok]. unfold print. cbn.
    unfold read_raw in *. destruct (parse_value _ _ _) as [[d [|]]|] eqn:E; try done. by eapply raw_text_read.
Qed.
