(* ===== verification/JsonText.v ===== *)
(** * What the decoder delivers is UTF-8

    Whatever bytes are read, every string and every name in a document is
    well-formed UTF-8: bytes that begin no rune and halves of surrogate pairs have
    become U+FFFD. *)

From S2P Require Import Prelude GoStd Json JsonFacts JsonParse.

(** ** Strings built from runes *)
Lemma valid_rune r s : good_rune r → utf8_Valid s = true → utf8_Valid (rune_bytes r +:+ s) = true.
Proof. intros Hr Hs. unfold utf8_Valid in *. rewrite decode_rune by done. cbn. by destruct r. Qed.

Definition read_rune (r : rune) : Prop := good_rune r ∨ ∃ c, r = RBad c.

Lemma valid_repaired r s : read_rune r → utf8_Valid s = true → utf8_Valid (repaired r +:+ s) = true.
Proof.
  intros [Hr|[c ->]] Hs; [by rewrite good_repaired; [apply valid_rune|]|].
  by apply (valid_rune (RMulti replacement)).
Qed.

Lemma repair_utf8 s : utf8_Valid (repair (decode_utf8 s)) = true.
Proof.
  destruct (decode_spec s) as [Hl _]. induction Hl as [|r l Hr _ IH]; [done|]. by apply valid_repaired.
Qed.

(** ** Escapes *)
Lemma code_byte_of n : (n < 256)%N → code (byte_of n) = n.
Proof. intros Hn. unfold byte_of. by apply Ascii.N_ascii_embedding. Qed.

Lemma within_byte lo hi n : (lo ≤ n)%N → (n ≤ hi)%N → (hi < 256)%N → within lo hi (byte_of n) = true.
Proof.
  intros H1 H2 H3. unfold within. rewrite code_byte_of by lia. apply andb_true_iff. rewrite !N.leb_le. lia.
Qed.

Lemma cont_byte n : cont (byte_of (128 + n `mod` 64)) = true.
Proof. pose proof (N.mod_lt n 64 ltac:(done)) as Hx. revert Hx. generalize (n `mod` 64)%N. intros x Hx. unfold cont. apply within_byte; lia. Qed.

Lemma div_bounds u d lo hi : (0 < d)%N → (lo * d ≤ u)%N → (u < (hi + 1) * d)%N → (lo ≤ u / d ≤ hi)%N.
Proof. intros Hd H1 H2. split; [apply N.div_le_lower_bound; lia|]. apply N.lt_succ_r. apply N.div_lt_upper_bound; lia. Qed.

Lemma encode_rune_good u :
  (u < 1114112)%N → is_high u = false → is_low u = false → ∃ r, good_rune r ∧ encode_rune u = rune_bytes r.
Proof.
  intros Hu Hh Hl. unfold encode_rune.
  assert (u < 55296 ∨ 57344 ≤ u)%N as Hs.
  { unfold is_high, is_low in *. destruct (N.leb_spec 55296 u), (N.ltb_spec u 56320), (N.leb_spec 56320 u), (N.ltb_spec u 57344); try done; lia. }
  destruct (N.ltb_spec u 128); [|destruct (N.ltb_spec u 2048); [|destruct (N.ltb_spec u 65536)]].
  - exists (RAscii (byte_of u)). split; [|done]. unfold good_rune, is_ascii. apply within_byte; lia.
  - eexists (RMulti _). split; [|reflexivity]. cbn -[N.div N.modulo N.add byte_of]. unfold two. rewrite cont_byte, andb_true_r.
    pose proof (div_bounds u 64 2 31 ltac:(lia) ltac:(lia) ltac:(lia)) as Hq. revert Hq. generalize (u / 64)%N. intros q Hq.
    apply within_byte; lia.
  - eexists (RMulti _). split; [|reflexivity]. cbn -[N.div N.modulo N.add byte_of]. unfold three. rewrite !cont_byte, !andb_true_r.
    rewrite !orb_true_iff, !andb_true_iff.
    pose proof (N.div_div u 64 64 ltac:(done) ltac:(done)) as Hq. change (64 * 64)%N with 4096%N in Hq.
    pose proof (N.div_mod (u / 64) 64 ltac:(done)) as Hdm. rewrite Hq in Hdm. pose proof (N.mod_lt (u / 64) 64 ltac:(done)) as Hml.
    assert (32 ≤ u / 64 ≤ 1023 ∧ (u / 64 ≤ 863 ∨ 896 ≤ u / 64))%N as [Hp Hp'].
    { split; [apply div_bounds; lia|]. destruct Hs as [Hs|Hs]; [left; apply (div_bounds u 64 0 863); lia|right; apply (div_bounds u 64 896 1023); lia]. }
    generalize dependent (u / 64)%N. intros p. generalize (u / 4096)%N, (p `mod` 64)%N. intros q x Hq Hdm Hml Hp Hp'.
    assert (q = 0 ∨ 1 ≤ q ≤ 12 ∨ q = 13 ∨ 14 ≤ q ≤ 15)%N as [->|[Hr|[->|Hr]]] by lia.
    + left; left; left. split; apply within_byte; lia.
    + left; left; right. apply within_byte; lia.
    + left; right. split; apply within_byte; lia.
    + right. apply within_byte; lia.
  - eexists (RMulti _). split; [|reflexivity]. cbn -[N.div N.modulo N.add byte_of]. unfold four. rewrite !cont_byte, !andb_true_r.
    rewrite !orb_true_iff, !andb_true_iff.
    pose proof (N.div_div u 4096 64 ltac:(done) ltac:(done)) as Hq. change (4096 * 64)%N with 262144%N in Hq.
    pose proof (N.div_mod (u / 4096) 64 ltac:(done)) as Hdm. rewrite Hq in Hdm. pose proof (N.mod_lt (u / 4096) 64 ltac:(done)) as Hml.
    pose proof (div_bounds u 4096 16 271 ltac:(lia) ltac:(lia) ltac:(lia)) as Hp.
    generalize dependent (u / 4096)%N. intros p. generalize (u / 262144)%N, (p `mod` 64)%N. intros q x Hq Hdm Hml Hp.
    assert (q = 0 ∨ 1 ≤ q ≤ 3 ∨ q = 4)%N as [->|[Hr| ->]] by lia.
    + left; left. split; apply within_byte; lia.
    + left; right. apply within_byte; lia.
    + right. split; apply within_byte; lia.
Qed.

(** ** Strings *)
Definition item_ok (i : item) : Prop :=
  match i with IRune r => read_rune r | IByte c => is_ascii c = true | IUnit u => (u < 65536)%N end.

Lemma hex_val_bound c v : hex_val c = Some v → (v < 16)%N.
Proof. destruct c as [[] [] [] [] [] [] [] []]; vm_compute; intros H; try discriminate; by injection H as <-. Qed.

Lemma hex4_bound a b c d u : hex4 a b c d = Some u → (u < 65536)%N.
Proof.
  unfold hex4. destruct (hex_val a) eqn:Ea; [|done]. destruct (hex_val b) eqn:Eb; [|done]. cbn.
  destruct (hex_val c) eqn:Ec; [|done]. destruct (hex_val d) eqn:Ed; [|done]. cbn. intros [= <-].
  apply hex_val_bound in Ea, Eb, Ec, Ed. lia.
Qed.

Lemma unescape_ascii e b : unescape e = Some b → is_ascii b = true.
Proof.
  assert (forallb (λ n, match unescape (Ascii.ascii_of_nat n) with Some b => is_ascii b | None => true end) (seq 0 256) = true) as H
    by (vm_compute; reflexivity).
  apply forallb_Forall_iff in H. rewrite list.Forall_forall in H. intros He.
  specialize (H (Ascii.nat_of_ascii e)). cbv beta in H. rewrite Ascii.ascii_nat_embedding, He in H. apply H.
  apply elem_of_seq. pose proof (Ascii.nat_ascii_bounded e). lia.
Qed.

Lemma scan_string_ok l items r : Forall read_rune l → scan_string l = Some (items, r) → Forall item_ok items.
Proof.
  revert items. induction l as [l IH] using (induction_ltof1 _ length). intros items Hl.
  destruct l as [|x l1]; [done|].
  assert (∀ it l2 items', length l2 < S (length l1) → Forall read_rune l2 → item_ok it →
    ('(its, r) ← scan_string l2; Some (it :: its, r)) = Some (items', r) → Forall item_ok items') as Hrec.
  { intros it l2 items' Hlen Hl2 Hit (its & r' & H & [= <- <-])%bind_pair_Some. constructor; [done|]. by eapply (IH l2). }
  pose proof Hl as [Hx Hl1]%list.Forall_cons.
  cbn [scan_string]. destruct x as [c|bs|c]; [|by apply Hrec; [cbn; lia|..]..].
  destruct (is_quote c); [by intros [= <- <-]|]. destruct (is_backslash c).
  - destruct l1 as [|[e| |] l2]; try done. apply list.Forall_cons in Hl1 as [_ Hl2]. destruct (Ascii.eqb e "u"%char).
    + destruct l2 as [|[h1| |] [|[h2| |] [|[h3| |] [|[h4| |] l3]]]]; try done.
      destruct (hex4 h1 h2 h3 h4) as [u|] eqn:Eu; [|done]. cbn [mbind option_bind]. apply hex4_bound in Eu.
      apply Hrec; [cbn; lia|by rewrite !list.Forall_cons in Hl2; destruct_and!|done].
    + destruct (unescape e) as [b|] eqn:Eb; [|done]. cbn [mbind option_bind]. apply unescape_ascii in Eb.
      apply Hrec; [cbn; lia|done|done].
  - destruct (code c <? 32)%N; [done|]. apply Hrec; [cbn; lia|done..].
Qed.

Lemma valid_encoded u s :
  (u < 1114112)%N → is_high u = false → is_low u = false → utf8_Valid s = true → utf8_Valid (encode_rune u +:+ s) = true.
Proof. intros Hu Hh Hl Hs. destruct (encode_rune_good u Hu Hh Hl) as (r & Hr & ->). by apply valid_rune. Qed.

Lemma high_range u : is_high u = true → (55296 ≤ u < 56320)%N.
Proof. unfold is_high. rewrite andb_true_iff, N.leb_le, N.ltb_lt. done. Qed.
Lemma low_range u : is_low u = true → (56320 ≤ u < 57344)%N.
Proof. unfold is_low. rewrite andb_true_iff, N.leb_le, N.ltb_lt. done. Qed.
Lemma no_surrogate u : (57344 ≤ u)%N → is_high u = false ∧ is_low u = false.
Proof.
  intros Hu. unfold is_high, is_low. destruct (N.ltb_spec u 56320), (N.ltb_spec u 57344); lia.
Qed.

Lemma items_value_utf8 items : Forall item_ok items → utf8_Valid (items_value items) = true.
Proof.
  assert (∀ s, utf8_Valid s = true → utf8_Valid (replacement +:+ s) = true) as Hrep.
  { intros s. by apply (valid_rune (RMulti replacement)). }
  induction items as [items IH] using (induction_ltof1 _ length). intros Hi. destruct Hi as [|i items Hi Hitems]; [done|].
  assert (utf8_Valid (items_value items) = true) as Hv by (apply IH; [unfold ltof; cbn; lia|done]).
  destruct i as [r|c|u]; cbn [items_value].
  - by apply valid_repaired.
  - by apply (valid_rune (RAscii c)).
  - destruct (is_high u) eqn:Eh.
    + destruct Hitems as [|j items' Hj Hitems]; [by apply Hrep|]. destruct j as [r|c|v]; try by apply Hrep.
      destruct (is_low v) eqn:El; [|by apply Hrep]. apply high_range in Eh. apply low_range in El.
      destruct (no_surrogate (65536 + (u - 55296) * 1024 + (v - 56320))); [lia|].
      apply valid_encoded; [lia|done|done|]. apply IH; [unfold ltof; cbn; lia|done].
    + destruct (is_low u) eqn:El; [by apply Hrep|]. apply valid_encoded; try done. cbn in Hi. lia.
Qed.

(** ** Documents *)
Fixpoint doc_utf8 (d : doc) : bool :=
  match d with
  | DString _ s => utf8_Valid s
  | DArray _ l => forallb doc_utf8 l
  | DObject _ m => forallb (λ kd, utf8_Valid kd.1 && doc_utf8 kd.2) m
  | _ => true
  end.

(** All reads with at most [f] fuel. *)
Definition value_text (f : nat) : Prop := ∀ n l d r,
  Forall read_rune l → parse_value f n l = Some (d, r) → doc_utf8 d = true.
Definition list_text {A} (ok : A → bool) (p : nat → nat → list rune → option (list A * list rune)) (f : nat) : Prop :=
  ∀ n l a r, Forall read_rune l → p f n l = Some (a, r) → forallb ok a = true.
Definition member_utf8 (kd : string * doc) : bool := utf8_Valid kd.1 && doc_utf8 kd.2.

Lemma suffix_text (l r : list rune) : Forall read_rune l → r `suffix_of` l → Forall read_rune r.
Proof. intros Hl [p ->]. by apply Forall_app in Hl as [_ ?]. Qed.

Lemma bracketed_text {A} (ok : A → bool) p f c n l a r :
  list_text ok p f → Forall read_rune l → bracketed c (p f n) l = Some (a, r) → forallb ok a = true.
Proof. intros Hp Hl. unfold bracketed. destruct (token c l); [by intros [= <- <-]|]. by apply Hp. Qed.

Lemma and_more_text {A} (ok : A → bool) p f c n x l a r :
  list_text ok p f → Forall read_rune l → ok x = true → and_more c (p f n) x l = Some (a, r) → forallb ok a = true.
Proof.
  intros Hp Hl Hx. unfold and_more. destruct (token "," l) as [r'|] eqn:E.
  - intros (a' & r'' & H & [= <- <-])%bind_pair_Some. cbn. rewrite Hx. eapply Hp; [|done].
    eapply suffix_text; [done|by eapply token_suffix].
  - destruct (token c l); [|done]. intros [= <- <-]. cbn. by rewrite Hx.
Qed.

Lemma value_text_step f :
  list_text doc_utf8 parse_elems f → list_text member_utf8 parse_members f → value_text (S f).
Proof.
  intros He Hm n l d r Hl H. destruct l as [|[c| |] l1]; try done. apply list.Forall_cons in Hl as [_ Hl].
  cbn [parse_value] in H. destruct (kind_of c) as [| | |w d'|] eqn:Ek.
  - apply bind_pair_Some in H as (items & r' & E & [= <- <-]). by eapply items_value_utf8, scan_string_ok.
  - destruct n as [|n]; [done|]. apply bind_pair_Some in H as (ds & r' & E & [= <- <-]). by eapply bracketed_text.
  - destruct n as [|n]; [done|]. apply bind_pair_Some in H as (ms & r' & E & [= <- <-]). by eapply (bracketed_text member_utf8).
  - destruct (expect w (RAscii c :: l1)) as [r'|]; [|done]. injection H as <- <-.
    unfold kind_of in Ek. by repeat (case_match; [by simplify_eq|]); simplify_eq.
  - by apply bind_pair_Some in H as (lit & r' & E & [= <- <-]).
Qed.

Lemma parse_value_suffix f n l d r : parse_value f n l = Some (d, r) → r `suffix_of` l.
Proof. intros H. by destruct (proj1 (reads_local f) _ _ _ _ H). Qed.

Lemma elems_text_step f : value_text f → list_text doc_utf8 parse_elems f → list_text doc_utf8 parse_elems (S f).
Proof.
  intros Hv He n l ds r Hl H. cbn [parse_elems] in H. apply bind_pair_Some in H as (d & r1 & E & H).
  assert (Forall read_rune (skip_ws l)) as Hs by (eapply suffix_text; [done|apply skip_ws_suffix]).
  eapply (and_more_text doc_utf8); [done| |by eapply Hv|done]. eapply suffix_text; [exact Hs|by eapply parse_value_suffix].
Qed.

Lemma members_text_step f : value_text f → list_text member_utf8 parse_members f → list_text member_utf8 parse_members (S f).
Proof.
  intros Hv Hm n l ms r Hl H. cbn [parse_members] in H.
  destruct (token dquote_char l) as [r1|] eqn:E1; [|done]. cbn [mbind option_bind] in H.
  apply bind_pair_Some in H as (items & r2 & E2 & H). destruct (token ":" r2) as [r3|] eqn:E3; [|done].
  cbn [mbind option_bind] in H. apply bind_pair_Some in H as (d & r4 & E4 & H).
  assert (Forall read_rune r1) as H1 by (eapply suffix_text; [done|by eapply token_suffix]).
  assert (Forall read_rune r2) as H2 by (eapply suffix_text; [exact H1|by eapply scan_string_suffix]).
  assert (Forall read_rune r3) as H3 by (eapply suffix_text; [exact H2|by eapply token_suffix]).
  assert (Forall read_rune (skip_ws r3)) as H4 by (eapply suffix_text; [exact H3|apply skip_ws_suffix]).
  eapply (and_more_text member_utf8); [done| | |done].
  - eapply suffix_text; [exact H4|by eapply parse_value_suffix].
  - apply andb_true_iff. split; [|by eapply Hv]. eapply items_value_utf8, scan_string_ok; [exact H1|done].
Qed.

Lemma reads_text f : value_text f ∧ list_text doc_utf8 parse_elems f ∧ list_text member_utf8 parse_members f.
Proof.
  induction f as [|f (Hv & He & Hm)]; [by repeat split|].
  auto using value_text_step, elems_text_step, members_text_step.
Qed.

(** Everything a text is read as is UTF-8. *)
Theorem parse_utf8 (s : string) (d : doc) : parse s = Some d → doc_utf8 d = true.
Proof.
  unfold parse, parse_runes. intros (d' & r & E & H)%bind_pair_Some. destruct (skip_ws r); [|done]. injection H as <-.
  destruct (decode_spec s) as [Hs _]. eapply (proj1 (reads_text _)); [|exact E].
  eapply suffix_text; [exact Hs|apply skip_ws_suffix].
Qed.
