(* ===== verification/Codec.v ===== *)
(** * Decoding into Go types and encoding them (encoding/json)

    A [codec] says how json.Marshal writes values of a Go type and how
    json.Unmarshal reads a document into an existing value: null leaves most
    values alone, members of an object are matched to the fields of a struct by
    name, then without regard to case, unknown members are skipped, and a
    repeated member is read over what the first left.  [None] is an error; what
    the decoder stored before it noticed is not kept, since no caller uses it.

    Structs are lists of fields ([field]); the fields of an embedded struct are
    lifted ([embed]).  The laws at the end say when a value survives being
    written and read back; a struct does if its fields do. *)

From S2P Require Import Prelude GoStd Json JsonFacts JsonParse.

(** ** Codecs *)
Record codec (A : Type) := mkCodec {
  c_zero : A;                          (* the zero value *)
  c_empty : A → bool;                  (* left out by omitempty *)
  c_enc : A → option json;
  c_dec : doc → A → option A;
}.
Arguments mkCodec {A}.
Arguments c_zero {A}.
Arguments c_empty {A}.
Arguments c_enc {A}.
Arguments c_dec {A}.

Definition c_string : codec string := {|
  c_zero := "";
  c_empty s := bool_decide (s = "");
  c_enc s := Some (JsonStr s);
  c_dec d s0 := match d with DString _ s => Some s | DNull => Some s0 | _ => None end;
|}.

Definition c_bool : codec bool := {|
  c_zero := false;
  c_empty b := negb b;
  c_enc b := Some (JsonBool b);
  c_dec d b0 := match d with DBool b => Some b | DNull => Some b0 | _ => None end;
|}.

(** int: strconv.ParseInt, so neither fractions nor exponents. *)
Definition c_int : codec Z := {|
  c_zero := 0%Z;
  c_empty z := (z =? 0)%Z;
  c_enc z := Some (JsonNum (strconv_Itoa z));
  c_dec d z0 := match d with DNumber lit => strconv_Atoi lit | DNull => Some z0 | _ => None end;
|}.

(** strconv.ParseUint(s, 10, 64). *)
Definition ParseUint (s : string) : option Z :=
  n ← parse_digits s; if (n <? 2 ^ 64)%N then Some (Z.of_N n) else None.

Definition c_uint64 : codec Z := {|
  c_zero := 0%Z;
  c_empty z := (z =? 0)%Z;
  c_enc z := Some (JsonNum (strconv_Itoa z));
  c_dec d z0 := match d with DNumber lit => ParseUint lit | DNull => Some z0 | _ => None end;
|}.

(** Pointers: null sets nil; a pointer that is not nil is read through. *)
Definition c_ptr {A} (c : codec A) : codec (option A) := {|
  c_zero := None;
  c_empty p := bool_decide (¬ is_Some p);
  c_enc p := match p with Some a => c_enc c a | None => Some JsonNull end;
  c_dec d p0 := match d with DNull => Some None | _ => Some <$> c_dec c d (default (c_zero c) p0) end;
|}.

(** The elements of a slice are read over the elements it had. *)
Fixpoint dec_elems {A} (c : codec A) (ds : list doc) (old : list A) : option (list A) :=
  match ds with
  | [] => Some []
  | d :: ds => a ← c_dec c d (hd (c_zero c) old); l ← dec_elems c ds (tl old); Some (a :: l)
  end.

(** Slices that are nil exactly when they are empty. *)
Definition c_list {A} (c : codec A) : codec (list A) := {|
  c_zero := [];
  c_empty l := bool_decide (length l = 0);
  c_enc l := JsonArr <$> mapM (c_enc c) l;
  c_dec d l0 := match d with DArray _ ds => dec_elems c ds l0 | DNull => Some [] | _ => None end;
|}.

(** Slices of which nil and the empty one are told apart. *)
Definition c_slice {A} (c : codec A) : codec (option (list A)) := {|
  c_zero := None;
  c_empty s := bool_decide (length (default [] s) = 0);
  c_enc s := match s with Some l => c_enc (c_list c) l | None => Some JsonNull end;
  c_dec d s0 := match d with DArray _ ds => Some <$> dec_elems c ds (default [] s0) | DNull => Some None | _ => None end;
|}.

(** json.RawMessage: the text itself; nil is the empty text. *)
Definition c_raw : codec string := {|
  c_zero := "";
  c_empty s := bool_decide (s = "");
  c_enc s := if decide (s = "") then Some JsonNull else if parse s then Some (JsonRaw (compact s)) else None;
  c_dec d _ := Some (raw_text d);
|}.

(** ** Structs *)

(** A field of the struct [R]: its name, what it writes ([Some None] when it is
    omitted), and how it is read.  The last two describe the field to the laws:
    copying it from one struct to another, and having its zero value. *)
Record field (R : Type) := mkField {
  f_name : string;
  f_enc : R → option (option json);
  f_dec : doc → R → option R;
  f_copy : R → R → R;
  f_fresh : R → Prop;
}.
Arguments mkField {R}.
Arguments f_name {R}.
Arguments f_enc {R}.
Arguments f_dec {R}.
Arguments f_copy {R}.
Arguments f_fresh {R}.

Section Fields.
Context {R A : Type} (c : codec A) (proj : R → A) `{!Setter proj}.

Definition field_of (name : string) (omitempty : bool) : field R := {|
  f_name := name;
  f_enc r := if omitempty && c_empty c (proj r) then Some None else Some <$> c_enc c (proj r);
  f_dec d r := a ← c_dec c d (proj r); Some (set_field proj a r);
  f_copy r src := set_field proj (proj src) r;
  f_fresh r := proj r = c_zero c ∧ set_field proj (proj r) r = r;
|}.
End Fields.

(** `json:"name"` and `json:"name,omitempty"`. *)
Abbreviation req name c proj := (field_of c proj name false) (only parsing).
Abbreviation opt name c proj := (field_of c proj name true) (only parsing).

(** The fields of an embedded struct. *)
Definition embed1 {R S} (proj : R → S) `{!Setter proj} (f : field S) : field R := {|
  f_name := f_name f;
  f_enc r := f_enc f (proj r);
  f_dec d r := s ← f_dec f d (proj r); Some (set_field proj s r);
  f_copy r src := set_field proj (f_copy f (proj r) (proj src)) r;
  f_fresh r := f_fresh f (proj r) ∧ set_field proj (proj r) r = r;
|}.

Definition embed {R S} (proj : R → S) `{!Setter proj} (fs : list (field S)) : list (field R) := embed1 proj <$> fs.

(** foldName, for comparison with ASCII names: besides the ASCII letters only the
    long s (U+017F) and the Kelvin sign (U+212A) fold to one. *)
Definition upper_byte (c : ascii) : ascii := if within 97 122 c then byte_of (code c - 32) else c.
Definition fold_rune (r : rune) : string :=
  match r with
  | RAscii c => String (upper_byte c) ""
  | RMulti bs =>
      if String.eqb bs (bytes_string [197; 191]) then "S"
      else if String.eqb bs (bytes_string [226; 132; 170]) then "K" else bs
  | RBad c => String c ""
  end.
Definition foldName (s : string) : string := foldr (λ r t, fold_rune r +:+ t) "" (decode_utf8 s).

Fixpoint find_field {R} (ok : string → bool) (fs : list (field R)) : option (field R) :=
  match fs with
  | [] => None
  | f :: fs => if ok (f_name f) then Some f else find_field ok fs
  end.

(** The field for a member: by its exact name, or else by its folded name. *)
Definition field_for {R} (fs : list (field R)) (k : string) : option (field R) :=
  match find_field (String.eqb k) fs with
  | Some f => Some f
  | None => find_field (λ name, String.eqb (foldName k) (foldName name)) fs
  end.

Definition dec_member {R} (fs : list (field R)) (kv : string * doc) (r : R) : option R :=
  match field_for fs kv.1 with Some f => f_dec f kv.2 r | None => Some r end.

Fixpoint dec_members {R} (fs : list (field R)) (m : list (string * doc)) (r : R) : option R :=
  match m with
  | [] => Some r
  | kv :: m => r ← dec_member fs kv r; dec_members fs m r
  end.

Fixpoint enc_members {R} (fs : list (field R)) (r : R) : option (list (string * json)) :=
  match fs with
  | [] => Some []
  | f :: fs =>
      v ← f_enc f r; m ← enc_members fs r;
      Some (match v with Some v => (f_name f, v) :: m | None => m end)
  end.

Definition c_struct {R} (zero : R) (fs : list (field R)) : codec R := {|
  c_zero := zero;
  c_empty _ := false;
  c_enc r := JsonObj <$> enc_members fs r;
  c_dec d r := match d with DObject _ m => dec_members fs m r | DNull => Some r | _ => None end;
|}.

(** ** The calls *)
Definition json_Unmarshal {A} (c : codec A) (text : string) (a : A) : option A := d ← parse text; c_dec c d a.
Definition json_Marshal {A} (c : codec A) (a : A) : option string := print <$> c_enc c a.

(** ** Laws

    [lawful c wf]: the values of [wf] can be written, are read back as they were,
    and are the zero value if they are left out. *)
Record lawful {A} (c : codec A) (wf : A → Prop) : Prop := {
  enc_total a : wf a → is_Some (c_enc c a);
  enc_ok a v : wf a → c_enc c a = Some v → json_ok v = true;
  dec_enc a v : wf a → c_enc c a = Some v → doc_depth (doc_of v) ≤ maxNestingDepth →
    c_dec c (doc_of v) (c_zero c) = Some a;
  empty_zero a : wf a → c_empty c a = true → a = c_zero c;
}.

(** Nothing is written as null, so that a pointer can be told from nil. *)
Definition nonnull {A} (c : codec A) (wf : A → Prop) : Prop :=
  ∀ a v, wf a → c_enc c a = Some v → doc_of v ≠ DNull.

Definition utf8 (s : string) : Prop := utf8_Valid s = true.

Lemma c_string_lawful : lawful c_string utf8.
Proof.
  split; cbn.
  - eauto.
  - by intros s v _ [= <-].
  - intros s v Hs [= <-] _. cbn. by rewrite repair_valid.
  - intros s _. by case_bool_decide.
Qed.

Lemma c_bool_lawful : lawful c_bool (λ _, True).
Proof. split; cbn; [eauto|by intros ?? _ [= <-]|by intros ?? _ [= <-]|by intros []]. Qed.

(** Numbers. *)
Lemma digits_span (d : Decimal.uint) :
  span_digits (ascii_runes (DecimalString.NilEmpty.string_of_uint d)) = (DecimalString.NilEmpty.string_of_uint d, []).
Proof.
  induction d as [|d IH|d IH|d IH|d IH|d IH|d IH|d IH|d IH|d IH|d IH]; [done|..];
    cbn [DecimalString.NilEmpty.string_of_uint]; change (ascii_runes (String ?c ?s)) with (RAscii c :: ascii_runes s);
    cbn [span_digits]; by rewrite IH.
Qed.

(** Only the number 0 begins with the digit 0. *)
Lemma nzhead_no_zero u d : Decimal.nzhead u ≠ Decimal.D0 d.
Proof. by induction u. Qed.

Lemma to_uint_zero n d : N.to_uint n = Decimal.D0 d → d = Decimal.Nil.
Proof.
  intros H. pose proof (DecimalN.Unsigned.to_of (N.to_uint n)) as Hn. rewrite DecimalN.Unsigned.of_to, H in Hn.
  unfold Decimal.unorm in Hn. destruct (Decimal.nzhead (Decimal.D0 d)) eqn:E; try done.
  - by injection Hn.
  - by apply nzhead_no_zero in E.
Qed.

Lemma scan_int_digits c s :
  span_digits (ascii_runes (String c s)) = (String c s, []) → Ascii.eqb c "0" = false →
  scan_int (ascii_runes (String c s)) = Some (String c s, []).
Proof.
  intros Hs H0. unfold scan_int, digits1. rewrite Hs. cbn -[span_digits]. by rewrite H0.
Qed.

Lemma scan_int_format n : scan_int (ascii_runes (format_N n)) = Some (format_N n, []).
Proof.
  unfold format_N. pose proof (digits_span (N.to_uint n)) as Hs.
  destruct (N.to_uint n) eqn:E; [done|apply to_uint_zero in E as ->; done|..]; by apply scan_int_digits.
Qed.

Lemma scan_format_N n : scan_number (ascii_runes (format_N n)) = Some (format_N n, []).
Proof.
  pose proof (scan_int_format n) as Hi. destruct (format_N_head n) as (c & s & Hf & Hm & _). rewrite Hf in *.
  unfold scan_number, scan_sign. cbn [ascii_runes String.list_ascii_of_string fmap list_fmap one_of existsb] in *.
  rewrite Hm. cbn [orb]. change (list_fmap ?A ?B ?f (String.list_ascii_of_string s)) with (ascii_runes s).
  unfold ascii_runes in *. rewrite Hi. cbn. by rewrite ?string_app_nil, string_app_empty.
Qed.

Lemma scan_Itoa z : scan_number (ascii_runes (strconv_Itoa z)) = Some (strconv_Itoa z, []).
Proof.
  unfold strconv_Itoa. destruct (z <? 0)%Z; [|apply scan_format_N].
  change (ascii_runes (String "-" ?s)) with (RAscii "-"%char :: ascii_runes s).
  unfold scan_number, scan_sign. cbn [one_of existsb Ascii.eqb Bool.eqb orb]. rewrite scan_int_format. cbn.
  by rewrite ?string_app_nil.
Qed.

Lemma Itoa_ok z : json_ok (JsonNum (strconv_Itoa z)) = true.
Proof. cbn. apply bool_decide_eq_true, scan_Itoa. Qed.

Definition int_range (z : Z) : Prop := in_int64 z = true.
Definition uint64_range (z : Z) : Prop := (0 ≤ z < 2 ^ 64)%Z.

Lemma c_int_lawful : lawful c_int int_range.
Proof.
  split; cbn -[json_ok].
  - eauto.
  - intros z v _ [= <-]. apply Itoa_ok.
  - intros z v Hz [= <-] _. by apply Atoi_Itoa.
  - by intros z _ ->%Z.eqb_eq.
Qed.

Lemma uint64_Itoa z : uint64_range z → ParseUint (strconv_Itoa z) = Some z.
Proof.
  intros Hz. unfold ParseUint, strconv_Itoa. destruct (Z.ltb_spec z 0); [unfold uint64_range in Hz; lia|].
  rewrite parse_digits_format. cbn -[N.ltb]. unfold uint64_range in Hz.
  destruct (N.ltb_spec (Z.to_N z) (2 ^ 64)); [f_equal; lia|lia].
Qed.

Lemma c_uint64_lawful : lawful c_uint64 uint64_range.
Proof.
  split; cbn -[json_ok].
  - eauto.
  - intros z v _ [= <-]. apply Itoa_ok.
  - intros z v Hz [= <-] _. by apply uint64_Itoa.
  - by intros z _ ->%Z.eqb_eq.
Qed.

Lemma c_string_nonnull wf : nonnull c_string wf.
Proof. by intros s v _ [= <-]. Qed.
Lemma c_int_nonnull wf : nonnull c_int wf.
Proof. by intros s v _ [= <-]. Qed.
Lemma c_uint64_nonnull wf : nonnull c_uint64 wf.
Proof. by intros s v _ [= <-]. Qed.
Lemma c_struct_nonnull {R} (z : R) fs wf : nonnull (c_struct z fs) wf.
Proof. intros r v _. cbn. destruct (enc_members fs r); [|done]. by intros [= <-]. Qed.

(** Pointers. *)
Definition ptr_wf {A} (wf : A → Prop) (p : option A) : Prop := match p with Some a => wf a | None => True end.

Lemma c_ptr_lawful {A} (c : codec A) wf : lawful c wf → nonnull c wf → lawful (c_ptr c) (ptr_wf wf).
Proof.
  intros Hc Hn. split; cbn.
  - intros [a|] Ha; [by eapply enc_total|eauto].
  - intros [a|] v Ha; [by apply enc_ok with wf|by intros [= <-]].
  - intros [a|] v Ha; [|by intros [= <-]]. intros Hv Hd. pose proof (Hn a v Ha Hv).
    pose proof (dec_enc c wf Hc a v Ha Hv Hd) as H'. destruct (doc_of v); [done|by rewrite H'..].
  - intros [a|] _ H%bool_decide_eq_true; [destruct H; eauto|done].
Qed.

(** Slices. *)
Lemma max_list_elem (x : nat) l : x ∈ l → x ≤ max_list l.
Proof. apply max_list_elem_of_le. Qed.

Lemma dec_elems_enc {A} (c : codec A) wf l vs :
  lawful c wf → Forall wf l → mapM (c_enc c) l = Some vs →
  max_list (doc_depth ∘ doc_of <$> vs) ≤ maxNestingDepth → dec_elems c (doc_of <$> vs) [] = Some l.
Proof.
  intros Hc Hl. revert vs. induction Hl as [|a l Ha _ IH]; cbn; intros vs Hvs Hd; [by injection Hvs as <-|].
  destruct (c_enc c a) as [v|] eqn:E; [|done]. cbn in Hvs. destruct (mapM (c_enc c) l) as [vs'|] eqn:E'; [|done].
  cbn in Hvs. injection Hvs as <-. cbn in Hd |- *. rewrite (dec_enc c wf Hc a v) by (done || lia). cbn. rewrite IH by (done || lia). done.
Qed.

Lemma mapM_total {A B} (f : A → option B) l : Forall (λ x, is_Some (f x)) l → is_Some (mapM f l).
Proof. intros H. by apply mapM_is_Some. Qed.

Lemma mapM_forallb {A B} (f : A → option B) (p : B → bool) (l : list A) vs :
  Forall (λ x, ∀ v, f x = Some v → p v = true) l → mapM f l = Some vs → forallb p vs = true.
Proof.
  intros Hl Hvs. apply mapM_Some in Hvs. apply forallb_Forall_iff.
  induction Hvs as [|x v l' vs' Hx Hvs IH]; [done|]. inversion Hl; subst. constructor; eauto.
Qed.

Lemma list_enc_total {A} (c : codec A) wf l : lawful c wf → Forall wf l → is_Some (mapM (c_enc c) l).
Proof. intros Hc Hl. apply mapM_total. revert Hl. apply Forall_impl. intros a. by apply (enc_total c wf). Qed.

Lemma list_enc_ok {A} (c : codec A) wf l vs :
  lawful c wf → Forall wf l → mapM (c_enc c) l = Some vs → forallb json_ok vs = true.
Proof.
  intros Hc Hl. apply mapM_forallb. revert Hl. apply Forall_impl. intros a Ha v. by apply (enc_ok c wf).
Qed.

Lemma arr_depth vs : doc_depth (doc_of (JsonArr vs)) = S (max_list (doc_depth ∘ doc_of <$> vs)).
Proof. cbn. by rewrite <- list_fmap_compose. Qed.

Lemma c_list_lawful {A} (c : codec A) wf : lawful c wf → lawful (c_list c) (Forall wf).
Proof.
  intros Hc. split; cbn -[json_ok doc_of doc_depth].
  - intros l Hl. destruct (list_enc_total c wf l Hc Hl) as [vs ->]. cbn. eauto.
  - intros l v Hl. destruct (mapM (c_enc c) l) as [vs|] eqn:E; [|done]. intros [= <-]. by eapply list_enc_ok.
  - intros l v Hl. destruct (mapM (c_enc c) l) as [vs|] eqn:E; [|done]. intros [= <-]. rewrite arr_depth.
    intros Hd. cbn [doc_of]. apply (dec_elems_enc c wf); (done || lia).
  - intros l _ Hl%bool_decide_eq_true. by destruct l.
Qed.

Definition slice_wf {A} (wf : A → Prop) (s : option (list A)) : Prop := ptr_wf (Forall wf) s.

Lemma c_slice_lawful {A} (c : codec A) wf :
  lawful c wf → lawful (c_slice c) (λ s, slice_wf wf s ∧ s ≠ Some []).
Proof.
  intros Hc. pose proof (c_list_lawful c wf Hc) as Hl. split; cbn -[json_ok doc_of doc_depth c_list].
  - intros [l|] [Hs _]; [by eapply (enc_total (c_list c))|eauto].
  - intros [l|] v [Hs _]; [by apply (enc_ok (c_list c) (Forall wf))|by intros [= <-]].
  - intros [l|] v [Hs _] Hv Hd; [|by injection Hv as <-].
    pose proof (dec_enc _ _ Hl l v Hs Hv Hd) as H. cbn [c_list c_enc] in Hv.
    destruct (mapM (c_enc c) l) as [vs|]; [|done]. injection Hv as <-. cbn -[dec_elems] in *. by rewrite H.
  - intros [[|a l]|] [_ Hne] H%bool_decide_eq_true; [done|cbn in H; lia|done].
Qed.

(** ** Laws of fields and structs *)
Record field_lawful {R} (f : field R) (wf : R → Prop) : Prop := {
  field_total r : wf r → is_Some (f_enc f r);
  field_ok r v : wf r → f_enc f r = Some (Some v) → json_ok v = true;
  field_dec r acc v : wf r → f_enc f r = Some (Some v) → doc_depth (doc_of v) ≤ maxNestingDepth → f_fresh f acc →
    f_dec f (doc_of v) acc = Some (f_copy f acc r);
  field_omit r acc : wf r → f_enc f r = Some None → f_fresh f acc → f_copy f acc r = acc;
}.

Lemma field_of_lawful {R A} (c : codec A) (proj : R → A) `{!Setter proj} name omit (wfA : A → Prop) (wf : R → Prop) :
  lawful c wfA → (∀ r, wf r → wfA (proj r)) → field_lawful (field_of c proj name omit) wf.
Proof.
  intros Hc Hwf. split; cbn -[set_field].
  - intros r Hr. destruct (omit && c_empty c (proj r)); [eauto|].
    destruct (enc_total c wfA Hc (proj r)) as [v ->]; [auto|]. cbn. eauto.
  - intros r v Hr. destruct (omit && _); [done|]. destruct (c_enc c (proj r)) as [v'|] eqn:E; [|done].
    intros [= <-]. eapply (enc_ok c wfA); eauto.
  - intros r acc v Hr Hv Hd [Hz _]. destruct (omit && _); [done|].
    destruct (c_enc c (proj r)) as [v'|] eqn:E; [|done]. injection Hv as ->.
    rewrite Hz, (dec_enc c wfA Hc (proj r) v) by auto. done.
  - intros r acc Hr Ho [Hz Hs]. destruct (omit && c_empty c (proj r)) eqn:E; [|by destruct (c_enc c (proj r))].
    apply andb_true_iff in E as [_ E]. apply (empty_zero c wfA Hc) in E; [|auto]. by rewrite E, <- Hz.
Qed.

Lemma embed1_lawful {R S} (proj : R → S) `{!Setter proj} (f : field S) (wfS : S → Prop) (wf : R → Prop) :
  field_lawful f wfS → (∀ r, wf r → wfS (proj r)) → field_lawful (embed1 proj f) wf.
Proof.
  intros Hf Hwf. split; cbn -[set_field].
  - intros r Hr. eapply (field_total f wfS); auto.
  - intros r v Hr. eapply (field_ok f wfS); auto.
  - intros r acc v Hr Hv Hd [Hfr _]. by rewrite (field_dec f wfS Hf (proj r) (proj acc) v) by auto.
  - intros r acc Hr Ho [Hfr Hs]. by rewrite (field_omit f wfS Hf (proj r) (proj acc)) by auto.
Qed.

Lemma embed_lawful {R S} (proj : R → S) `{!Setter proj} (fs : list (field S)) (wfS : S → Prop) (wf : R → Prop) :
  Forall (λ f, field_lawful f wfS) fs → (∀ r, wf r → wfS (proj r)) → Forall (λ f, field_lawful f wf) (embed proj fs).
Proof. intros H Hwf. apply Forall_fmap. revert H. apply Forall_impl. intros f Hf. by eapply embed1_lawful. Qed.

(** Copying the fields of [fs] one after the other from [r] to [acc] gives [r],
    and each has its zero value until then. *)
Fixpoint chain {R} (fs : list (field R)) (acc r : R) : Prop :=
  match fs with
  | [] => acc = r
  | f :: fs => f_fresh f acc ∧ chain fs (f_copy f acc r) r
  end.

(** Field names are distinct and in UTF-8. *)
Definition names_ok {R} (fs : list (field R)) : bool :=
  bool_decide (NoDup (f_name <$> fs)) && forallb (utf8_Valid ∘ f_name) fs.

Lemma find_field_name {R} (fs : list (field R)) f :
  NoDup (f_name <$> fs) → f ∈ fs → find_field (String.eqb (f_name f)) fs = Some f.
Proof.
  induction fs as [|g fs IH]; [by intros _ ?%elem_of_nil|]. cbn. intros [Hg Hnd]%list.NoDup_cons [->|Hf]%elem_of_cons.
  - by rewrite String.eqb_refl.
  - destruct (String.eqb_spec (f_name f) (f_name g)) as [E|]; [|by apply IH].
    destruct Hg. rewrite <- E. by apply list_elem_of_fmap_2.
Qed.

Lemma enc_members_cons {R} (f : field R) fs r m :
  enc_members (f :: fs) r = Some m → ∃ v m', f_enc f r = Some v ∧ enc_members fs r = Some m' ∧
    m = match v with Some v => (f_name f, v) :: m' | None => m' end.
Proof.
  cbn. destruct (f_enc f r) as [v|]; [|done]. cbn. destruct (enc_members fs r) as [m'|]; [|done].
  intros [= <-]. eauto 10.
Qed.

Definition doc_members (m : list (string * json)) : list (string * doc) :=
  (λ '(k, v), (repair (decode_utf8 k), doc_of v)) <$> m.

Lemma obj_depth m : doc_depth (doc_of (JsonObj m)) = S (max_list (doc_depth ∘ doc_of ∘ snd <$> m)).
Proof. cbn. by rewrite doc_depth_members. Qed.

Lemma dec_members_enc {R} (all fs : list (field R)) wf r : ∀ acc m,
  wf r → names_ok all = true → fs ⊆ all → Forall (λ f, field_lawful f wf) fs → chain fs acc r →
  enc_members fs r = Some m → max_list (doc_depth ∘ doc_of ∘ snd <$> m) ≤ maxNestingDepth →
  dec_members all (doc_members m) acc = Some r.
Proof.
  intros acc m Hr Hn. pose proof Hn as [Hnd%bool_decide_eq_true Hu]%andb_true_iff.
  apply forallb_Forall_iff in Hu. rewrite list.Forall_forall in Hu.
  revert acc m. induction fs as [|f fs IH]; intros acc m Hsub Hf Hch Henc Hd.
  { injection Henc as <-. cbn in *. by rewrite Hch. }
  apply enc_members_cons in Henc as (v & m' & Hv & Hm' & ->). inversion_clear Hf as [|?? Hf1 Hf2].
  destruct Hch as [Hfr Hch]. assert (f ∈ all) as Hin by set_solver.
  destruct v as [v|].
  - cbn in Hd. cbn [doc_members fmap list_fmap dec_members]. unfold dec_member, field_for. cbn [fst snd].
    rewrite repair_valid by by apply Hu. rewrite find_field_name by done.
    rewrite (field_dec f wf Hf1 r acc v) by (done || lia). cbn [mbind option_bind].
    apply IH; try done; [set_solver|lia].
  - rewrite (field_omit f wf Hf1 r acc) in Hch by done. apply IH; try done. set_solver.
Qed.

(** Lawful fields are written, as a value that can be printed. *)
Lemma enc_members_total {R} (fs : list (field R)) wf r :
  Forall (λ f, field_lawful f wf) fs → wf r → is_Some (enc_members fs r).
Proof.
  intros Hf Hr. induction Hf as [|f fs Hf _ [m IH]]; cbn; [eauto|].
  destruct (field_total f wf Hf r Hr) as [v ->]. cbn. rewrite IH. cbn. eauto.
Qed.

Lemma enc_members_ok {R} (fs : list (field R)) wf r m :
  Forall (λ f, field_lawful f wf) fs → wf r → enc_members fs r = Some m → json_ok (JsonObj m) = true.
Proof.
  intros Hf Hr. revert m. induction Hf as [|f fs Hf _ IH]; intros m E; [by injection E as <-|].
  apply enc_members_cons in E as (v & m' & Hv & Hm' & ->). destruct v as [v|]; [|by apply IH]. cbn.
  apply andb_true_iff. split; [by eapply (field_ok f wf)|by apply IH].
Qed.

Lemma c_struct_lawful {R} (zero : R) (fs : list (field R)) wf :
  names_ok fs = true → (∀ r, wf r → chain fs zero r) → Forall (λ f, field_lawful f wf) fs →
  lawful (c_struct zero fs) wf.
Proof.
  intros Hn Hch Hf. split; cbn -[json_ok doc_of doc_depth].
  - intros r Hr. destruct (enc_members_total fs wf r Hf Hr) as [m ->]. cbn. eauto.
  - intros r v Hr. destruct (enc_members fs r) as [m|] eqn:E; [|done]. intros [= <-]. by eapply enc_members_ok.
  - intros r v Hr. destruct (enc_members fs r) as [m|] eqn:E; [|done]. intros [= <-]. rewrite obj_depth. intros Hd.
    cbn [doc_of]. eapply (dec_members_enc fs fs wf r); eauto. lia.
  - done.
Qed.

(** Solving the laws of a concrete struct: the names by computation, the chain by
    the fields of the record. *)
Ltac struct_chain := intros [] ?; repeat split.
Ltac struct_fields := repeat first [apply Forall_nil_2 | apply Forall_cons_2].

(** ** Round trip of the calls *)
Lemma Unmarshal_Marshal {A} (c : codec A) wf a text :
  lawful c wf → wf a → json_Marshal c a = Some text →
  (∀ v, c_enc c a = Some v → doc_depth (doc_of v) ≤ maxNestingDepth) →
  json_Unmarshal c text (c_zero c) = Some a.
Proof.
  intros Hc Ha Hm Hd. unfold json_Marshal in Hm. destruct (c_enc c a) as [v|] eqn:E; [|done]. injection Hm as <-.
  unfold json_Unmarshal. rewrite parse_print; [|by eapply enc_ok|auto]. cbn. by eapply dec_enc; auto.
Qed.
