(* ===== verification/Floats.v ===== *)
(** * Floating-point numbers in JSON texts

    Reading: the double nearest to a decimal literal ([decimal_to_float], ties to
    even), as strconv.ParseFloat finds it; a literal too large for a double is an
    error.  Writing: the fewest digits that read back as the same double, and of
    these the closest ([shortest]), laid out without an exponent between 1e-6 and
    1e21.  Infinities and NaN have no JSON text.

    Integers below 2^53 are exact ([parse_float_Itoa]). *)

From Stdlib Require Import SpecFloat.
From S2P Require Import Prelude GoStd Types Writer Json JsonFacts JsonParse Codec.

#[export] Instance float64_eq_dec : EqDecision spec_float.
Proof. solve_decision. Defined.

(** ** Reading *)
Definition prec : Z := 53.
Definition emax : Z := 1024.

(** The double nearest to (-1)^neg * m * 10^e. *)
Definition decimal_to_float (neg : bool) (m : N) (e : Z) : float64 :=
  match m with
  | N0 => S754_zero neg
  | Npos m =>
      if (0 <=? e)%Z then
        match (Zpos m * 10 ^ e)%Z with Zpos p => binary_round prec emax neg p 0 | _ => S754_zero neg end
      else
        let '(q, e', l) := SFdiv_core_binary prec emax (Zpos m) 0 (10 ^ (- e)) 0 in
        binary_round_aux prec emax neg q e' l
  end.

(** The digits of a literal: sign, digits before and behind the point, exponent. *)
Definition literal_parts (lit : string) : option (bool * string * string * Z) :=
  let l := ascii_runes lit in
  let '(sign, l) := scan_sign l in
  '(int, l) ← scan_int l;
  '(frac, l) ← scan_frac l;
  '(exp, l) ← scan_exp l;
  match l with
  | [] =>
      e ← match exp with
          | "" => Some 0%Z
          | String _ (String c ds) =>
              if Ascii.eqb c "-"%char then Z.opp ∘ Z.of_N <$> parse_digits ds
              else if Ascii.eqb c "+"%char then Z.of_N <$> parse_digits ds
              else Z.of_N <$> parse_digits (String c ds)
          | String _ "" => None
          end;
      Some (bool_decide (sign ≠ ""), int, match frac with String _ ds => ds | "" => "" end, e)
  | _ => None
  end.

(** strconv.ParseFloat on a JSON number: [None] when it is out of range.  Far
    beyond the doubles the power of ten is not computed. *)
Definition ParseFloat (lit : string) : option float64 :=
  '(neg, int, frac, e) ← literal_parts lit;
  m ← parse_digits (int +:+ frac);
  let e := (e - Z.of_nat (String.length frac))%Z in
  let size := (Z.of_nat (String.length (int +:+ frac)) + e)%Z in
  if (m =? 0)%N then Some (S754_zero neg)
  else if (size <? -330)%Z then Some (S754_zero neg)
  else if (330 + Z.of_nat (String.length (int +:+ frac)) <? size)%Z then None
  else match decimal_to_float neg m e with S754_infinity _ | S754_nan => None | f => Some f end.

(** ** Writing *)

(** A positive double as a fraction. *)
Definition fraction (m : positive) (e : Z) : Z * Z :=
  if (0 <=? e)%Z then (Zpos m * 2 ^ e, 1)%Z else (Zpos m, 2 ^ (- e))%Z.

(** 10^k <= num/den. *)
Definition pow10_le (k num den : Z) : bool :=
  if (0 <=? k)%Z then (10 ^ k * den <=? num)%Z else (den <=? num * 10 ^ (- k))%Z.

(** The decimal exponent, from the binary one: the estimate is off by at most one. *)
Definition exponent10 (num den : Z) : Z :=
  let k := ((Z.log2 num - Z.log2 den) * 30103 / 100000)%Z in
  if pow10_le (k + 1) num den then (k + 1)%Z else if pow10_le k num den then k else (k - 1)%Z.

(** The two [n]-digit decimals around num/den, the closer first: digits and
    exponent. *)
Definition candidates (num den k : Z) (n : nat) : list (N * Z) :=
  let s := (Z.of_nat n - 1 - k)%Z in
  let '(a, b) := if (0 <=? s)%Z then (num * 10 ^ s, den)%Z else (num, den * 10 ^ (- s))%Z in
  let q := (a / b)%Z in
  let lo := (Z.to_N q, (- s)%Z) in
  let hi := (Z.to_N (q + 1), (- s)%Z) in
  if (2 * (a - q * b) <=? b)%Z then [lo; hi] else [hi; lo].

Definition reads_as (f : float64) (c : N * Z) : bool := bool_decide (decimal_to_float false c.1 c.2 = f).

Fixpoint first_reading (f : float64) (cs : list (N * Z)) : option (N * Z) :=
  match cs with
  | [] => None
  | c :: cs => if reads_as f c then Some c else first_reading f cs
  end.

(** The shortest decimal of a positive double; 17 digits are always enough. *)
Definition shortest (m : positive) (e : Z) : option (N * Z) :=
  let '(num, den) := fraction m e in
  first_reading (S754_finite false m e) (mbind (candidates num den (exponent10 num den)) (seq 1 17)).

(** Digits without the zeros at their end. *)
Fixpoint strip_zeros (fuel : nat) (d : N) (e : Z) : N * Z :=
  match fuel with
  | 0 => (d, e)
  | S fuel => if (d `mod` 10 =? 0)%N then strip_zeros fuel (d / 10)%N (e + 1)%Z else (d, e)
  end.

Fixpoint zeros (n : nat) : string := match n with 0 => "" | S n => String "0" (zeros n) end.

(** The layout of digits with the decimal point behind the first [dp]. *)
Definition layout (ds : string) (dp : Z) : string :=
  let n := Z.of_nat (String.length ds) in
  if (dp <=? -6)%Z || (21 <? dp)%Z then
    match ds with
    | String c "" => String c "e" +:+ (if (0 <=? dp - 1)%Z then "+" else "") +:+ strconv_Itoa (dp - 1)
    | String c rest => String c "." +:+ rest +:+ "e" +:+ (if (0 <=? dp - 1)%Z then "+" else "") +:+ strconv_Itoa (dp - 1)
    | "" => ""
    end
  else if (dp <=? 0)%Z then "0." +:+ zeros (Z.to_nat (- dp)) +:+ ds
  else if (n <=? dp)%Z then ds +:+ zeros (Z.to_nat (dp - n))
  else String.substring 0 (Z.to_nat dp) ds +:+ "." +:+ String.substring (Z.to_nat dp) (Z.to_nat (n - dp)) ds.

(** The text json.Marshal writes for a double; infinities and NaN are an error. *)
Definition FormatFloat (f : float64) : option string :=
  match f with
  | S754_zero neg => Some (if neg then "-0" else "0")
  | S754_finite neg m e =>
      '(d, e) ← shortest m e;
      let '(d, e) := strip_zeros 20 d e in
      let ds := format_N d in
      let text := layout ds (Z.of_nat (String.length ds) + e) in
      Some (if neg then String "-" text else text)
  | _ => None
  end.

Definition c_float64 : codec float64 := {|
  c_zero := S754_zero false;
  c_empty f := match f with S754_zero _ => true | _ => false end;
  c_enc f := JsonNum <$> FormatFloat f;
  c_dec d f0 := match d with DNumber lit => ParseFloat lit | DNull => Some f0 | _ => None end;
|}.

(** A double whose text reads back: decided by computation for any given one. *)
Definition float_ok (f : float64) : bool :=
  match FormatFloat f with
  | Some lit => bool_decide (ParseFloat lit = Some f) && json_ok (JsonNum lit)
  | None => false
  end.

(** ** Small integers are exact *)
Lemma digits2_size p : digits2_pos p = Pos.size p.
Proof. induction p as [p IH|p IH|]; cbn; by rewrite ?IH. Qed.

Lemma iter_xO n p : Zpos (Pos.iter xO p n) = (Zpos p * 2 ^ Zpos n)%Z ∧ digits2_pos (Pos.iter xO p n) = (digits2_pos p + n)%positive.
Proof.
  induction n as [|n [IH1 IH2]] using Pos.peano_ind.
  - change (Pos.iter xO p 1) with (xO p). cbn [digits2_pos]. rewrite Z.pow_1_r, Pos2Z.inj_xO. split; lia.
  - rewrite Pos.iter_succ. cbn [digits2_pos]. rewrite IH2, Pos2Z.inj_xO, IH1, Pos2Z.inj_succ, Z.pow_succ_r by lia.
    split; lia.
Qed.

Lemma size_bound p k : (Zpos p < 2 ^ k)%Z → (Zpos (digits2_pos p) ≤ k)%Z.
Proof.
  intros H. rewrite digits2_size. pose proof (Pos.size_le p) as Hs. apply Pos2Z.pos_le_pos in Hs.
  rewrite Pos2Z.inj_pow in Hs. rewrite (Pos2Z.inj_xO p) in Hs.
  destruct (Z.le_gt_cases (Zpos (Pos.size p)) k) as [|Hk]; [done|]. exfalso.
  destruct (Z.lt_ge_cases k 0); [rewrite Z.pow_neg_r in H by done; lia|].
  assert (2 ^ Z.succ k ≤ 2 ^ Zpos (Pos.size p))%Z as Hle by (apply Z.pow_le_mono_r; lia).
  rewrite Z.pow_succ_r in Hle by lia. lia.
Qed.

(** Rounding leaves alone what has the right number of digits. *)
Lemma round_exact neg m e :
  fexp prec emax (Zpos (digits2_pos m) + e) = e → (e ≤ emax - prec)%Z →
  binary_round_aux prec emax neg (Zpos m) e loc_Exact = S754_finite neg m e.
Proof.
  intros Hf He. unfold binary_round_aux, shr_fexp. cbn [Zdigits2]. rewrite Hf, Z.sub_diag. cbn [shr shr_record_of_loc].
  cbn [shr_m loc_of_shr_record round_nearest_even]. cbn [Zdigits2]. rewrite Hf, Z.sub_diag. cbn [shr shr_m].
  destruct (Z.leb_spec e (emax - prec)); [done|lia].
Qed.

(** An integer below 2^53 is represented exactly. *)
Lemma small_exact neg p :
  (Zpos p < 2 ^ 53)%Z →
  ∃ m e, binary_round prec emax neg p 0 = S754_finite neg m e ∧ (e ≤ 0)%Z ∧ (Zpos m = Zpos p * 2 ^ (- e))%Z.
Proof.
  intros Hp. pose proof (size_bound p 53 Hp) as Hd. unfold binary_round, shl_align.
  assert (fexp prec emax (Zpos (digits2_pos p) + 0) = Zpos (digits2_pos p) - 53)%Z as Hf.
  { unfold fexp, emin, prec, emax. lia. }
  rewrite Hf, Z.sub_0_r. destruct (Zpos (digits2_pos p) - 53)%Z as [|d|d] eqn:E; [|lia|].
  - exists p, 0%Z. rewrite round_exact; [repeat split; lia| |done]. rewrite Hf. lia.
  - destruct (iter_xO d p) as [H1 H2]. exists (Pos.iter xO p d), (Zneg d). rewrite round_exact.
    + repeat split; [lia|]. rewrite H1. done.
    + rewrite H2. unfold fexp, emin, prec, emax. lia.
    + unfold emax, prec. lia.
Qed.

Lemma literal_parts_Itoa z :
  literal_parts (strconv_Itoa z) = Some ((z <? 0)%Z, format_N (Z.to_N (Z.abs z)), "", 0%Z).
Proof.
  unfold literal_parts, strconv_Itoa. destruct (Z.ltb_spec z 0).
  - change (ascii_runes (String "-" ?s)) with (RAscii "-"%char :: ascii_runes s). cbn [scan_sign one_of existsb Ascii.eqb Bool.eqb orb].
    rewrite scan_int_format. cbn. by replace (- z)%Z with (Z.abs z) by lia.
  - replace (Z.abs z) with z by lia. pose proof (scan_int_format (Z.to_N z)) as Hi.
    destruct (format_N_head (Z.to_N z)) as (c & s & Hs & Hm & _). rewrite Hs in *.
    assert (scan_sign (ascii_runes (String c s)) = ("", ascii_runes (String c s))) as ->.
    { unfold scan_sign. cbn. by rewrite Hm. }
    rewrite Hi. done.
Qed.

Lemma decimal_to_float_int neg m : decimal_to_float neg (Npos m) 0 = binary_round prec emax neg m 0.
Proof. unfold decimal_to_float. cbn [Z.leb Z.compare]. by rewrite Z.pow_0_r, Z.mul_1_r. Qed.

(** The double a small integer is read as. *)
Theorem parse_float_Itoa (z : Z) : (Z.abs z < 2 ^ 53)%Z → ParseFloat (strconv_Itoa z) = Some (float_of_Z z).
Proof.
  intros Hz. unfold ParseFloat. rewrite literal_parts_Itoa. cbn [mbind option_bind String.length].
  rewrite string_app_nil, parse_digits_format. cbn [mbind option_bind]. change (0 - Z.of_nat 0)%Z with 0%Z. rewrite Z.add_0_r.
  set (n := Z.of_nat _). destruct (Z.ltb_spec n (-330)); [lia|]. destruct (Z.ltb_spec (330 + n) n); [lia|].
  destruct z as [|p|p]; [done|..]; change (Z.to_N (Z.abs _)) with (Npos p); change (N.pos p =? 0)%N with false;
    cbn [Z.ltb Z.compare]; rewrite decimal_to_float_int.
  - destruct (small_exact false p Hz) as (m & e & H1 & _).
    change (float_of_Z (Z.pos p)) with (binary_round prec emax false p 0). by rewrite H1.
  - destruct (small_exact true p Hz) as (m & e & H1 & _).
    change (float_of_Z (Z.neg p)) with (binary_round prec emax true p 0). by rewrite H1.
Qed.

Lemma c_float64_lawful : lawful c_float64 (λ f, float_ok f = true ∧ f ≠ S754_zero true).
Proof.
  split; unfold float_ok; cbn -[json_ok].
  - intros f [Hf _]. destruct (FormatFloat f); [|done]. cbn. eauto.
  - intros f v [Hf _] Hv. destruct (FormatFloat f); [|done]. injection Hv as <-. by apply andb_true_iff in Hf as [_ ?].
  - intros f v [Hf _] Hv _. destruct (FormatFloat f); [|done]. injection Hv as <-. cbn.
    apply andb_true_iff in Hf as [Hf _]. by apply bool_decide_eq_true in Hf.
  - intros [[]| | |] [_ Hne]; done.
Qed.
