(* ===== verification/Rfc3339.v ===== *)
(** * Times in JSON texts (time.Time.MarshalJSON and UnmarshalJSON)

    Times are written in RFC 3339 with as many digits of the second as needed.
    Reading accepts what time.Parse accepts for that layout, which is a little
    more: hours of one digit, a comma before the fraction, offsets up to 24:60.

    A location is "UTC", an offset such as "+02:00" (what a time that was read
    gets), or a name that is looked up in the time-zone database, which is a
    parameter. *)

From S2P Require Import Prelude GoStd Types Json JsonFacts JsonParse Codec.

(** The offset, in seconds east of UTC, of a named location at a time. *)
Class TimeZones := tz_lookup : string → Z → Z.

(** ** The calendar *)
Definition is_leap (y : Z) : bool :=
  (y `mod` 4 =? 0)%Z && (negb (y `mod` 100 =? 0)%Z || (y `mod` 400 =? 0)%Z).

Definition daysIn (m y : Z) : Z :=
  if (m =? 2)%Z then (if is_leap y then 29 else 28)
  else if existsb (Z.eqb m) [4; 6; 9; 11]%Z then 30 else 31.

(** Days since 1970-01-01: years are counted from March, in eras of 400. *)
Definition days_from_civil (y m d : Z) : Z :=
  let y := (if (m <=? 2)%Z then y - 1 else y)%Z in
  let era := (y / 400)%Z in
  let yoe := (y `mod` 400)%Z in
  let doy := ((153 * (if (2 <? m)%Z then m - 3 else m + 9) + 2) / 5 + d - 1)%Z in
  (era * 146097 + (yoe * 365 + yoe / 4 - yoe / 100 + doy) - 719468)%Z.

(** The year and the day of the year of a day within an era: centuries, groups of
    four years, years. *)
Definition year_of_doe (doe : Z) : Z * Z :=
  let n100 := Z.min (doe / 36524) 3 in
  let r := (doe - 36524 * n100)%Z in
  let n4 := (r / 1461)%Z in
  let r := (r `mod` 1461)%Z in
  let n1 := Z.min (r / 365) 3 in
  ((100 * n100 + 4 * n4 + n1)%Z, (r - 365 * n1)%Z).

(** Month and day of a day of the year. *)
Definition month_of_doy (doy : Z) : Z * Z :=
  let mp := ((5 * doy + 2) / 153)%Z in
  ((if (mp <? 10)%Z then mp + 3 else mp - 9)%Z, (doy - (153 * mp + 2) / 5 + 1)%Z).

Definition civil_of_doe (doe : Z) : Z * Z * Z :=
  let '(yoe, doy) := year_of_doe doe in
  let '(m, d) := month_of_doy doy in
  ((if (m <=? 2)%Z then yoe + 1 else yoe)%Z, m, d).

Definition civil_from_days (z : Z) : Z * Z * Z :=
  let z := (z + 719468)%Z in
  let '(y, m, d) := civil_of_doe (z `mod` 146097) in
  ((y + z / 146097 * 400)%Z, m, d).

(** ** Writing *)
Definition digit (n : Z) : ascii := byte_of (48 + Z.to_N n).
Definition two_digits (n : Z) : string := String (digit (n / 10)) (String (digit (n `mod` 10)) "").
Definition four_digits (n : Z) : string := two_digits (n / 100) +:+ two_digits (n `mod` 100).

(** The digits of n / 10^k behind the point, without zeros at their end. *)
Fixpoint frac_digits (k : nat) (n : Z) : string :=
  match k with
  | 0 => ""
  | S k =>
      if (n =? 0)%Z then ""
      else String (digit (n / 10 ^ Z.of_nat k)) (frac_digits k (n `mod` 10 ^ Z.of_nat k))
  end.

Definition frac_text (nsec : Z) : string := if (nsec =? 0)%Z then "" else String "." (frac_digits 9 nsec).

(** An offset in the form of RFC 3339, in whole minutes. *)
Definition zone_text (off : Z) : string :=
  let zone := Z.quot off 60 in
  let a := Z.abs zone in
  (if (zone <? 0)%Z then "-" else "+") +:+ two_digits (a / 60) +:+ ":" +:+ two_digits (a `mod` 60).

(** ** Reading *)
Definition digit_value (c : ascii) : option Z := Z.of_N <$> digit_val c.

(** A number of exactly [k] digits. *)
Fixpoint num (k : nat) (acc : Z) (s : string) : option (Z * string) :=
  match k with
  | 0 => Some (acc, s)
  | S k => match s with String c s => d ← digit_value c; num k (10 * acc + d)%Z s | "" => None end
  end.

Definition char (cs : list ascii) (s : string) : option string :=
  match s with String c s => if existsb (Ascii.eqb c) cs then Some s else None | "" => None end.

(** getnum(s, false): one digit or two. *)
Definition num12 (s : string) : option (Z * string) :=
  match num 2 0 s with Some r => Some r | None => num 1 0 s end.

(** The digits behind the point; the tenth and later ones are dropped. *)
Fixpoint parse_frac (k : nat) (s : string) : Z * string :=
  match s with
  | String c s' =>
      match digit_value c with
      | Some d =>
          match k with
          | 0 => (0%Z, (parse_frac 0 s').2)
          | S k => let '(v, r) := parse_frac k s' in ((d * 10 ^ Z.of_nat k + v)%Z, r)
          end
      | None => (0%Z, s)
      end
  | "" => (0%Z, s)
  end.

(** A point or a comma only counts in front of a digit. *)
Definition fraction (s : string) : Z * string :=
  match s with
  | String p (String c s') =>
      if existsb (Ascii.eqb p) ["."; ","]%char && bool_decide (is_Some (digit_value c))
      then parse_frac 9 (String c s') else (0%Z, s)
  | _ => (0%Z, s)
  end.

(** An offset "+hh:mm", in seconds. *)
Definition parse_offset (s : string) : option Z :=
  match s with
  | String sign s =>
      '(hh, s) ← num 2 0 s; s ← char [":"%char] s; '(mm, s) ← num 2 0 s;
      if bool_decide (s = "") && (hh <=? 24)%Z && (mm <=? 60)%Z then
        if Ascii.eqb sign "+"%char then Some ((hh * 60 + mm) * 60)%Z
        else if Ascii.eqb sign "-"%char then Some (- ((hh * 60 + mm) * 60))%Z else None
      else None
  | "" => None
  end.

(** The location and the offset at the end of a time. *)
Definition parse_zone (s : string) : option (string * Z) :=
  if decide (s = "Z") then Some ("UTC", 0%Z) else off ← parse_offset s; Some (s, off).

Definition parse_rfc3339 (s : string) : option Time :=
  '(y, s) ← num 4 0 s; s ← char ["-"%char] s;
  '(mo, s) ← num 2 0 s; s ← char ["-"%char] s;
  '(d, s) ← num 2 0 s; s ← char ["T"%char] s;
  '(h, s) ← num12 s; s ← char [":"%char] s;
  '(mi, s) ← num 2 0 s; s ← char [":"%char] s;
  '(sec, s) ← num 2 0 s;
  let '(nsec, s) := fraction s in
  '(loc, off) ← parse_zone s;
  if (1 <=? mo)%Z && (mo <=? 12)%Z && (1 <=? d)%Z && (d <=? daysIn mo y)%Z &&
     (h <? 24)%Z && (mi <? 60)%Z && (sec <? 60)%Z
  then Some (mkTime ((days_from_civil y mo d * 86400 + h * 3600 + mi * 60 + sec - off) * 10 ^ 9 + nsec) loc)
  else None.

Section Format.
Context `{!TimeZones}.

Definition zone_offset (loc : string) (sec : Z) : Z :=
  if decide (loc = "UTC") then 0
  else match parse_offset loc with Some off => off | None => tz_lookup loc sec end.

Definition Time_offset (t : Time) : Z := zone_offset (location t) (unixNano t / 10 ^ 9).

(** The text of a time; years before 0 or after 9999, and offsets of 24 hours and
    more, are an error. *)
Definition format_rfc3339 (t : Time) : option string :=
  let off := Time_offset t in
  let local := (unixNano t / 10 ^ 9 + off)%Z in
  let nsec := (unixNano t `mod` 10 ^ 9)%Z in
  let '(y, mo, d) := civil_from_days (local / 86400) in
  let s := (local `mod` 86400)%Z in
  if (y <? 0)%Z || (9999 <? y)%Z then None
  else if negb (off =? 0)%Z && (24 <=? Z.abs (Z.quot off 60) / 60)%Z then None
  else Some (four_digits y +:+ "-" +:+ two_digits mo +:+ "-" +:+ two_digits d +:+ "T" +:+
             two_digits (s / 3600) +:+ ":" +:+ two_digits ((s / 60) `mod` 60) +:+ ":" +:+ two_digits (s `mod` 60) +:+
             frac_text nsec +:+
             (if (off =? 0)%Z then "Z" else zone_text off)).

(** The zero value is the first of January of the year 1. *)
Definition zeroTime : Time := mkTime (-62135596800 * 10 ^ 9) "UTC".

(** The text between the quotes, as it stands. *)
Definition between_quotes (raw : string) : string := String.substring 1 (String.length raw - 2) raw.

Definition c_time : codec Time := {|
  c_zero := zeroTime;
  c_empty _ := false;
  c_enc t := JsonStr <$> format_rfc3339 t;
  c_dec d t0 :=
    match d with DString raw _ => parse_rfc3339 (between_quotes raw) | DNull => Some t0 | _ => None end;
|}.

(** A time that can be written, in a location of the kind that is read. *)
Definition time_ok (t : Time) : Prop :=
  is_Some (format_rfc3339 t) ∧
  location t = if (Time_offset t =? 0)%Z then "UTC" else zone_text (Time_offset t).
End Format.

(** ** The calendar has an inverse *)

(** [p] holds of all numbers below [n], checked one after the other. *)
Definition all_below (n : N) (p : Z → bool) : bool := (N.iter n (λ '(z, b), ((z + 1)%Z, b && p z)) (0%Z, true)).2.

Lemma all_below_spec n p : all_below n p = true → ∀ z, (0 ≤ z < Z.of_N n)%Z → p z = true.
Proof.
  unfold all_below. set (step := λ '(z, b), _).
  assert ((N.iter n step (0%Z, true)).1 = Z.of_N n ∧
    ((N.iter n step (0%Z, true)).2 = true → ∀ z, (0 ≤ z < Z.of_N n)%Z → p z = true)) as [_ H]; [|done].
  induction n as [|n IH] using N.peano_ind; [cbn; split; [done|lia]|]. rewrite N.iter_succ.
  destruct (N.iter n step (0%Z, true)) as [z b]. cbn in *. destruct IH as [-> IH]. split; [lia|].
  intros [Hb Hp]%andb_true_iff z Hz. destruct (decide (z = Z.of_N n)) as [->|]; [done|]. apply IH; [done|lia].
Qed.

(** [lia] with quotients and remainders. *)
Ltac dlia := Z.to_euclidean_division_equations; lia.

Lemma year_of_doe_spec doe yoe doy :
  (0 ≤ doe < 146097)%Z → year_of_doe doe = (yoe, doy) →
  (0 ≤ yoe < 400)%Z ∧ (yoe * 365 + yoe / 4 - yoe / 100 + doy = doe)%Z ∧ (0 ≤ doy ≤ 365)%Z ∧
  (doy = 365%Z → is_leap (yoe + 1) = true).
Proof.
  intros Hd. unfold year_of_doe. remember (Z.min (doe / 36524) 3) as a eqn:Ea.
  remember ((doe - 36524 * a) / 1461)%Z as b eqn:Eb. remember ((doe - 36524 * a) `mod` 1461)%Z as r eqn:Er.
  remember (Z.min (r / 365) 3) as n eqn:En. intros [= <- <-].
  assert (0 ≤ a ≤ 3 ∧ 0 ≤ doe - 36524 * a ≤ 36524 ∧ (a < 3 → doe - 36524 * a < 36524))%Z as (Ha & Hr & Hr') by dlia.
  assert (doe - 36524 * a = 1461 * b + r ∧ 0 ≤ r < 1461 ∧ 0 ≤ b ≤ 24)%Z as (Hb & Hrb & Hb') by dlia.
  assert (0 ≤ n ≤ 3 ∧ 0 ≤ r - 365 * n ≤ 365 ∧ (r - 365 * n = 365 → n = 3 ∧ r = 1460))%Z as (Hn & Hn' & Hl) by dlia.
  clear Ea Eb Er En.
  assert ((100 * a + 4 * b + n) / 4 = 25 * a + b)%Z as Hq4 by dlia.
  assert ((100 * a + 4 * b + n) / 100 = a)%Z as Hq100 by dlia.
  split; [lia|]. split; [rewrite Hq4, Hq100; lia|]. split; [lia|]. intros [-> Hr3]%Hl. unfold is_leap.
  apply andb_true_iff. split; [apply Z.eqb_eq; dlia|]. apply orb_true_iff.
  destruct (decide (b = 24%Z)); [right; apply Z.eqb_eq; dlia|left]. apply negb_true_iff, Z.eqb_neq. dlia.
Qed.

Definition month_ok (doy : Z) : bool :=
  let '(m, d) := month_of_doy doy in
  ((153 * (if (2 <? m)%Z then m - 3 else m + 9) + 2) / 5 + d - 1 =? doy)%Z &&
  (1 <=? m)%Z && (m <=? 12)%Z && (1 <=? d)%Z && (d <=? daysIn m (if (doy =? 365)%Z then 4 else 1))%Z.

Lemma month_all : all_below 366 month_ok = true.
Proof. vm_compute. reflexivity. Qed.

Lemma daysIn_leap m y y' : (is_leap y = true → is_leap y' = true) → (daysIn m y ≤ daysIn m y')%Z.
Proof. intros H. unfold daysIn. destruct (m =? 2)%Z; [|done]. destruct (is_leap y); [by rewrite H|by destruct (is_leap y')]. Qed.

Lemma daysIn_31 m y : (daysIn m y ≤ 31)%Z.
Proof. unfold daysIn. repeat case_match; lia. Qed.

(** In March to December the length of the month does not depend on the year. *)
Lemma daysIn_other m y y' : (2 < m)%Z → daysIn m y = daysIn m y'.
Proof. intros H. unfold daysIn. by destruct (Z.eqb_spec m 2); [lia|]. Qed.

Lemma civil_of_doe_spec doe y m d :
  (0 ≤ doe < 146097)%Z → civil_of_doe doe = (y, m, d) →
  (days_from_civil y m d + 719468 = doe)%Z ∧ (1 ≤ m ≤ 12)%Z ∧ (1 ≤ d ≤ daysIn m y)%Z.
Proof.
  intros Hdoe. unfold civil_of_doe. destruct (year_of_doe doe) as [yoe doy] eqn:Ey.
  destruct (year_of_doe_spec _ _ _ Hdoe Ey) as (Hy & Hsum & Hdoy & Hleap).
  pose proof (all_below_spec _ _ month_all doy ltac:(lia)) as Hm. unfold month_ok in Hm.
  destruct (month_of_doy doy) as [m0 d0]. intros [= <- -> ->].
  rewrite !andb_true_iff, !Z.leb_le, Z.eqb_eq in Hm. destruct Hm as ((((Hdoy' & Hm1) & Hm2) & Hd1) & Hd2).
  split; [|split; [lia|split; [lia|]]].
  - unfold days_from_civil. destruct (Z.leb_spec m 2).
    + replace (yoe + 1 - 1)%Z with yoe by lia. rewrite Z.div_small, Z.mod_small by lia. rewrite Hdoy'. lia.
    + rewrite Z.div_small, Z.mod_small by lia. rewrite Hdoy'. lia.
  - etrans; [exact Hd2|]. destruct (Z.leb_spec m 2); [|by apply Z.eq_le_incl, daysIn_other].
    apply daysIn_leap. destruct (Z.eqb_spec doy 365); [intros _; by apply Hleap|by vm_compute].
Qed.

Lemma days_from_civil_era y m d k : days_from_civil (y + k * 400) m d = (days_from_civil y m d + k * 146097)%Z.
Proof.
  unfold days_from_civil. destruct (m <=? 2)%Z.
  - replace (y + k * 400 - 1)%Z with (y - 1 + k * 400)%Z by lia. rewrite Z.div_add, Z.mod_add by lia. lia.
  - rewrite Z.div_add, Z.mod_add by lia. lia.
Qed.

Lemma daysIn_era m y k : daysIn m (y + k * 400) = daysIn m y.
Proof.
  unfold daysIn, is_leap. replace (y + k * 400)%Z with (y + k * 100 * 4)%Z at 1 by lia. rewrite Z.mod_add by lia.
  replace (y + k * 400)%Z with (y + k * 4 * 100)%Z at 1 by lia. rewrite Z.mod_add by lia. by rewrite Z.mod_add by lia.
Qed.

Lemma civil_from_days_spec z y m d :
  civil_from_days z = (y, m, d) →
  days_from_civil y m d = z ∧ (1 ≤ m ≤ 12)%Z ∧ (1 ≤ d ≤ 31)%Z ∧ (d ≤ daysIn m y)%Z.
Proof.
  unfold civil_from_days. set (w := (z + 719468)%Z). destruct (civil_of_doe (w `mod` 146097)) as [[y0 m0] d0] eqn:E.
  intros [= <- <- <-]. rewrite days_from_civil_era, daysIn_era.
  pose proof (civil_of_doe_spec _ _ _ _ (Z.mod_pos_bound w 146097 ltac:(lia)) E). pose proof (daysIn_31 m0 y0).
  pose proof (Z.div_mod w 146097 ltac:(lia)). lia.
Qed.

(** ** What is written is read back *)
Lemma digit_value_digit n : (0 ≤ n < 10)%Z → digit_value (digit n) = Some n.
Proof.
  intros Hn. unfold digit_value, digit_val, digit, byte_of. rewrite Ascii.N_ascii_embedding by lia.
  destruct (N.leb_spec 48 (48 + Z.to_N n)); [|lia]. destruct (N.leb_spec (48 + Z.to_N n) 57); [|lia].
  cbn [andb fmap option_fmap option_map]. f_equal. lia.
Qed.

Lemma num_two n s : (0 ≤ n < 100)%Z → num 2 0 (two_digits n +:+ s) = Some (n, s).
Proof.
  intros Hn. unfold two_digits. rewrite !string_app_cons. cbn [num]. rewrite digit_value_digit by dlia.
  cbn [mbind option_bind]. rewrite digit_value_digit by dlia. cbn [mbind option_bind num]. do 2 f_equal. dlia.
Qed.

Lemma num12_two n s : (0 ≤ n < 100)%Z → num12 (two_digits n +:+ s) = Some (n, s).
Proof. intros Hn. unfold num12. by rewrite num_two. Qed.

Lemma num_four n s : (0 ≤ n < 10000)%Z → num 4 0 (four_digits n +:+ s) = Some (n, s).
Proof.
  intros Hn. unfold four_digits, two_digits. rewrite !string_app_cons, !string_app_empty, !string_app_cons. cbn [num].
  do 4 (rewrite digit_value_digit by dlia; cbn [mbind option_bind num]). do 2 f_equal. dlia.
Qed.

Lemma char_one c s : char [c] (String c "" +:+ s) = Some s.
Proof. rewrite string_app_cons, string_app_empty. cbn [char existsb]. by rewrite Ascii.eqb_refl. Qed.

(** Text that does not go on with a digit. *)
Definition no_digit (s : string) : Prop := match s with String c _ => digit_value c = None | "" => True end.

Lemma parse_frac_digits k n s :
  (0 ≤ n < 10 ^ Z.of_nat k)%Z → no_digit s → parse_frac k (frac_digits k n +:+ s) = (n, s).
Proof.
  revert n. induction k as [|k IH]; intros n Hn Hs.
  - cbn [frac_digits]. rewrite string_app_empty. cbn in Hn. assert (n = 0%Z) as -> by lia.
    destruct s as [|c s]; [done|]. cbn in *. by rewrite Hs.
  - cbn [frac_digits]. destruct (Z.eqb_spec n 0) as [->|Hne].
    { rewrite string_app_empty. destruct s as [|c s]; [done|]. cbn in *. by rewrite Hs. }
    rewrite Nat2Z.inj_succ, Z.pow_succ_r in Hn by lia. assert (0 < 10 ^ Z.of_nat k)%Z as Hp by (apply Z.pow_pos_nonneg; lia).
    rewrite string_app_cons. cbn [parse_frac]. rewrite digit_value_digit.
    2:{ split; [apply Z.div_pos; lia|apply Z.div_lt_upper_bound; lia]. }
    rewrite IH by (done || apply Z.mod_pos_bound; done). f_equal.
    pose proof (Z.div_mod n (10 ^ Z.of_nat k) ltac:(lia)). lia.
Qed.

Lemma fraction_digits n s :
  (0 ≤ n < 10 ^ 9)%Z → no_digit s → (∀ p t, s = String p t → existsb (Ascii.eqb p) ["."; ","]%char = false) →
  fraction (frac_text n +:+ s) = (n, s).
Proof.
  intros Hn Hs Hp. unfold frac_text. destruct (Z.eqb_spec n 0) as [->|Hne].
  - rewrite string_app_empty. destruct s as [|p [|c s]]; [done..|]. cbn [fraction]. by rewrite (Hp _ _ eq_refl).
  - pose proof (parse_frac_digits 9 n s Hn Hs) as H. cbn [frac_digits] in *.
    destruct (Z.eqb_spec n 0); [done|]. rewrite !string_app_cons in *. cbn [fraction].
    rewrite digit_value_digit, bool_decide_true; [exact H|eauto|].
    change (10 ^ Z.of_nat 8)%Z with 100000000%Z. change (10 ^ 9)%Z with 1000000000%Z in Hn. dlia.
Qed.

Lemma parse_offset_text off :
  (Z.abs (Z.quot off 60) / 60 < 24)%Z → parse_offset (zone_text off) = Some (Z.quot off 60 * 60)%Z.
Proof.
  intros Hh. unfold zone_text. set (zone := Z.quot off 60) in *.
  assert (0 ≤ Z.abs zone / 60)%Z by dlia. assert (0 ≤ Z.abs zone `mod` 60 < 60)%Z by dlia.
  assert (∀ sign, parse_offset (String sign "" +:+ two_digits (Z.abs zone / 60) +:+ ":" +:+ two_digits (Z.abs zone `mod` 60)) =
    if Ascii.eqb sign "+"%char then Some (Z.abs zone * 60)%Z
    else if Ascii.eqb sign "-"%char then Some (- (Z.abs zone * 60))%Z else None) as Hs.
  { intros sign. rewrite string_app_cons, string_app_empty. cbn [parse_offset]. rewrite num_two by lia.
    cbn [mbind option_bind]. rewrite char_one. cbn [mbind option_bind].
    rewrite <- (string_app_nil (two_digits _)), num_two by lia. cbn [mbind option_bind].
    rewrite bool_decide_true by done. destruct (Z.leb_spec (Z.abs zone / 60) 24); [|lia].
    destruct (Z.leb_spec (Z.abs zone `mod` 60) 60); [|lia]. cbn [andb].
    replace (Z.abs zone / 60 * 60 + Z.abs zone `mod` 60)%Z with (Z.abs zone) by dlia. done. }
  destruct (Z.ltb_spec zone 0); rewrite Hs; cbn; f_equal; lia.
Qed.

Lemma zone_text_head off : ∃ c t, zone_text off = String c t ∧ c ∈ ["-"; "+"]%char.
Proof.
  unfold zone_text. destruct (Z.quot off 60 <? 0)%Z; rewrite string_app_cons; eexists _, _; (split; [done|]); set_solver.
Qed.

Section Roundtrip.
Context `{!TimeZones}.

(** The end of a time: its location and offset. *)
Lemma parse_zone_end t :
  (Time_offset t =? 0)%Z || (Z.abs (Z.quot (Time_offset t) 60) / 60 <? 24)%Z = true →
  location t = (if (Time_offset t =? 0)%Z then "UTC" else zone_text (Time_offset t)) →
  parse_zone (if (Time_offset t =? 0)%Z then "Z" else zone_text (Time_offset t)) = Some (location t, Time_offset t).
Proof.
  intros Hok Hloc. destruct (Z.eqb_spec (Time_offset t) 0) as [E|E].
  - unfold parse_zone. rewrite decide_True by done. by rewrite E, Hloc.
  - cbn in Hok. apply Z.ltb_lt in Hok. destruct (zone_text_head (Time_offset t)) as (c & s & Hz & Hc).
    assert (zone_text (Time_offset t) ≠ "Z" ∧ zone_text (Time_offset t) ≠ "UTC") as [H1 H2].
    { rewrite Hz. set_unfold in Hc. by destruct Hc as [->|[->|[]]]. }
    unfold parse_zone. rewrite decide_False by done. rewrite parse_offset_text by done. cbn. rewrite Hloc. do 2 f_equal.
    unfold Time_offset at 2, zone_offset. rewrite Hloc, decide_False by done. by rewrite parse_offset_text.
Qed.

Lemma zone_end_quiet (off : Z) :
  let s := if (off =? 0)%Z then "Z" else zone_text off in
  no_digit s ∧ (∀ p t, s = String p t → existsb (Ascii.eqb p) ["."; ","]%char = false).
Proof.
  destruct (off =? 0)%Z; cbn zeta; [split; [done|by intros p t [= <- <-]]|].
  destruct (zone_text_head off) as (c & s & -> & Hc). set_unfold in Hc.
  split; [by destruct Hc as [->|[->|[]]]|]. intros p t [= <- <-]. by destruct Hc as [->|[->|[]]].
Qed.

Lemma parse_format t text : time_ok t → format_rfc3339 t = Some text → parse_rfc3339 text = Some t.
Proof.
  intros [_ Hloc] Hf. unfold format_rfc3339 in Hf. remember (unixNano t / 10 ^ 9)%Z as sec eqn:Esec.
  remember (unixNano t `mod` 10 ^ 9)%Z as nsec eqn:Ensec. remember (Time_offset t) as off eqn:Eoff.
  remember ((sec + off) `mod` 86400)%Z as s eqn:Es. remember ((sec + off) / 86400)%Z as day eqn:Eday.
  destruct (civil_from_days day) as [[y mo] d] eqn:Ec.
  destruct (civil_from_days_spec _ _ _ _ Ec) as (Hday & Hmo & Hd & Hdi).
  destruct ((y <? 0)%Z || (9999 <? y)%Z) eqn:Ey; [done|]. apply orb_false_iff in Ey as [Hy1%Z.ltb_ge Hy2%Z.ltb_ge].
  destruct (negb (off =? 0)%Z && _) eqn:Eo; [done|]. injection Hf as <-.
  assert (0 ≤ s < 86400)%Z as Hs by (subst s; apply Z.mod_pos_bound; lia).
  assert (0 ≤ nsec < 10 ^ 9)%Z as Hn by (subst nsec; apply Z.mod_pos_bound; lia).
  destruct (zone_end_quiet off) as [Hq1 Hq2]. unfold parse_rfc3339.
  rewrite num_four by lia. cbn [mbind option_bind]. rewrite char_one. cbn [mbind option_bind].
  rewrite num_two by lia. cbn [mbind option_bind]. rewrite char_one. cbn [mbind option_bind].
  rewrite num_two by lia. cbn [mbind option_bind]. rewrite char_one. cbn [mbind option_bind].
  rewrite num12_two by dlia. cbn [mbind option_bind]. rewrite char_one. cbn [mbind option_bind].
  rewrite num_two by dlia. cbn [mbind option_bind]. rewrite char_one. cbn [mbind option_bind].
  rewrite num_two by dlia. cbn [mbind option_bind]. rewrite fraction_digits by done.
  assert (parse_zone (if (off =? 0)%Z then "Z" else zone_text off) = Some (location t, off)) as ->.
  { subst off. apply parse_zone_end; [|done]. apply orb_true_iff. apply andb_false_iff in Eo as [E|E].
    - left. by apply negb_false_iff in E.
    - right. apply Z.ltb_lt. apply Z.leb_gt in E. done. }
  cbn [mbind option_bind].
  rewrite (proj2 (Z.leb_le 1 mo)), (proj2 (Z.leb_le mo 12)), (proj2 (Z.leb_le 1 d)), (proj2 (Z.leb_le d (daysIn mo y))) by lia.
  rewrite (proj2 (Z.ltb_lt (s / 3600) 24)), (proj2 (Z.ltb_lt ((s / 60) `mod` 60) 60)), (proj2 (Z.ltb_lt (s `mod` 60) 60)) by dlia.
  cbn [andb]. rewrite Hday. destruct t as [nano loc]. cbn [unixNano location] in *. do 2 f_equal.
  assert (day * 86400 + s / 3600 * 3600 + (s / 60) `mod` 60 * 60 + s `mod` 60 = sec + off)%Z as -> by (subst s day; dlia).
  subst sec nsec. change (10 ^ 9)%Z with 1000000000%Z. dlia.
Qed.
End Roundtrip.

(** ** Inside quotes *)

(** A byte that needs no escape. *)
Definition plain (c : ascii) : bool := is_ascii c && bool_decide (escape_byte c = [RAscii c]).
Fixpoint plain_text (s : string) : bool :=
  match s with "" => true | String c s => plain c && plain_text s end.

Lemma plain_app s t : plain_text (s +:+ t) = plain_text s && plain_text t.
Proof.
  induction s as [|c s IH]; [done|]. rewrite string_app_cons. cbn. by rewrite IH, andb_assoc.
Qed.

Lemma plain_quoted s : plain_text s = true → quote_string s = dquote :: ascii_runes s ++ [dquote].
Proof.
  intros H. unfold quote_string. do 2 f_equal. induction s as [|c s IH]; [done|]. cbn in H |- *.
  apply andb_true_iff in H as [Hc Hs]. unfold plain in Hc. apply andb_true_iff in Hc as [Ha He%bool_decide_eq_true].
  rewrite Ha. cbn. by rewrite He, IH.
Qed.

Lemma substring_all s : String.substring 0 (String.length s) s = s.
Proof. induction s as [|c s IH]; [done|]. cbn. by rewrite IH. Qed.

Lemma between_quotes_print s : plain_text s = true → between_quotes (print (JsonStr s)) = s.
Proof.
  intros H. unfold print. cbn [print_runes]. rewrite plain_quoted by done.
  change (dquote :: ascii_runes s ++ [dquote]) with ([dquote] ++ ascii_runes s ++ [dquote]).
  rewrite !encode_app, encode_ascii. change (encode_utf8 [dquote]) with (String dquote_char "").
  unfold between_quotes. rewrite string_app_cons, string_app_empty. cbn [String.length]. rewrite string_length_app. cbn.
  replace (String.length s + 1 - 1)%nat with (String.length s) by lia. apply substring_prefix.
Qed.

Lemma digit_plain n : (0 ≤ n < 10)%Z → plain (digit n) = true.
Proof.
  intros Hn. assert (n ∈ [0; 1; 2; 3; 4; 5; 6; 7; 8; 9]%Z) as H by (set_unfold; lia).
  set_unfold in H. by destruct_or? H; subst.
Qed.

Lemma two_digits_plain n : (0 ≤ n < 100)%Z → plain_text (two_digits n) = true.
Proof. intros Hn. cbn -[digit]. by rewrite !digit_plain by dlia. Qed.

Lemma four_digits_plain n : (0 ≤ n < 10000)%Z → plain_text (four_digits n) = true.
Proof. intros Hn. unfold four_digits. by rewrite plain_app, !two_digits_plain by dlia. Qed.

Lemma frac_digits_plain k n : (0 ≤ n < 10 ^ Z.of_nat k)%Z → plain_text (frac_digits k n) = true.
Proof.
  revert n. induction k as [|k IH]; intros n Hn; [done|]. cbn [frac_digits]. destruct (n =? 0)%Z; [done|].
  rewrite Nat2Z.inj_succ, Z.pow_succ_r in Hn by lia. assert (0 < 10 ^ Z.of_nat k)%Z as Hp by (apply Z.pow_pos_nonneg; lia).
  cbn [plain_text]. rewrite IH by (apply Z.mod_pos_bound; done). rewrite digit_plain; [done|].
  split; [apply Z.div_pos; lia|apply Z.div_lt_upper_bound; lia].
Qed.

Lemma zone_text_plain off : (Z.abs (Z.quot off 60) / 60 < 24)%Z → plain_text (zone_text off) = true.
Proof.
  intros Hh. unfold zone_text. rewrite !plain_app, !two_digits_plain by dlia. by destruct (Z.quot off 60 <? 0)%Z.
Qed.

Section Laws.
Context `{!TimeZones}.

Lemma format_plain t text : format_rfc3339 t = Some text → plain_text text = true.
Proof.
  unfold format_rfc3339. remember (Time_offset t) as off eqn:Eoff. remember (unixNano t `mod` 10 ^ 9)%Z as nsec eqn:Ens.
  remember ((unixNano t / 10 ^ 9 + off) `mod` 86400)%Z as s eqn:Es.
  destruct (civil_from_days _) as [[y mo] d] eqn:Ec. destruct (civil_from_days_spec _ _ _ _ Ec) as (_ & Hmo & Hd & _).
  destruct ((y <? 0)%Z || (9999 <? y)%Z) eqn:Ey; [done|]. apply orb_false_iff in Ey as [Hy1%Z.ltb_ge Hy2%Z.ltb_ge].
  destruct (negb (off =? 0)%Z && _) eqn:Eo; [done|]. intros [= <-].
  assert (0 ≤ s < 86400)%Z as Hs by (subst s; apply Z.mod_pos_bound; lia).
  assert (plain_text (frac_text nsec) = true) as Hfrac.
  { unfold frac_text. destruct (nsec =? 0)%Z; [done|]. cbn [plain_text]. subst nsec. apply frac_digits_plain, Z.mod_pos_bound. done. }
  rewrite !plain_app, four_digits_plain, !two_digits_plain, Hfrac by dlia.
  destruct (Z.eqb_spec off 0); [done|]. cbn [negb andb] in Eo. apply Z.leb_gt in Eo. rewrite zone_text_plain by done. done.
Qed.

Lemma c_time_lawful : lawful c_time time_ok.
Proof.
  split; cbn [c_enc c_dec c_empty c_zero c_time].
  - intros t [[text Ht] _]. rewrite Ht. cbn. eauto.
  - intros t v _. destruct (format_rfc3339 t); [|done]. by intros [= <-].
  - intros t v Ht. destruct (format_rfc3339 t) as [text|] eqn:E; [|done]. intros [= <-] _. cbn [doc_of].
    rewrite between_quotes_print by by eapply format_plain. by apply parse_format.
  - done.
Qed.

Lemma c_time_nonnull : nonnull c_time time_ok.
Proof. intros t v _. cbn [c_enc c_time]. destruct (format_rfc3339 t); [|done]. by intros [= <-]. Qed.
End Laws.

(** A database without zones, for examples. *)
Definition no_zones : TimeZones := λ _ _, 0%Z.
