(* ===== verification/AnyJson.v ===== *)
(** * interface{} and map[string]interface{} in JSON

    The decoder stores nil, booleans, float64, strings, slices and maps in an
    empty interface; the encoder writes maps in the order of their keys.  A
    number is kept as the shortest text of its float64, so reading 1.50 gives
    1.5. *)

From S2P Require Import Prelude GoStd Types Json JsonFacts JsonParse Codec Floats.

(** ** Maps in the order of their keys *)

(** [m[k] = a]. *)
Fixpoint insert_member {A} (k : string) (a : A) (m : list (string * A)) : list (string * A) :=
  match m with
  | [] => [(k, a)]
  | (k', a') :: m' =>
      match String.compare k k' with
      | Lt => (k, a) :: m
      | Eq => (k, a) :: m'
      | Gt => (k', a') :: insert_member k a m'
      end
  end.

(** The map with these entries; of several for a key the last counts. *)
Definition canon {A} (m : list (string * A)) : list (string * A) :=
  foldl (λ acc kv, insert_member kv.1 kv.2 acc) [] m.

(** ** Writing and reading *)
Fixpoint enc_any (a : any) : option json :=
  match a with
  | AnyNil => Some JsonNull
  | AnyBool b => Some (JsonBool b)
  | AnyNumber lit => Some (JsonNum lit)
  | AnyString s => Some (JsonStr s)
  | AnySlice l => JsonArr <$> mapM enc_any l
  | AnyMap m => m ← mapM (λ '(k, a), pair k <$> enc_any a) m; Some (JsonObj (canon m))
  | AnyHostMount h => Some (JsonObj [("path", JsonStr (HostMount_Path h))])
  | AnyRawMessage raw => c_enc c_raw raw
  | AnyOther _ repr => if decide (repr = "") then None else c_enc c_raw repr
  end.

Fixpoint dec_any (d : doc) : option any :=
  match d with
  | DNull => Some AnyNil
  | DBool b => Some (AnyBool b)
  | DNumber lit => f ← ParseFloat lit; AnyNumber <$> FormatFloat f
  | DString _ s => Some (AnyString s)
  | DArray _ l => AnySlice <$> mapM dec_any l
  | DObject _ m => m ← mapM (λ '(k, d), pair k <$> dec_any d) m; Some (AnyMap (canon m))
  end.

Definition c_any : codec any := {|
  c_zero := AnyNil;
  c_empty a := match a with AnyNil => true | _ => false end;
  c_enc := enc_any;
  c_dec d _ := dec_any d;
|}.

(** map[string]interface{}, where nil and empty are not told apart: both are left
    out by omitempty. *)
Fixpoint dec_entries (l : list (string * doc)) (m : gmap string any) : option (gmap string any) :=
  match l with
  | [] => Some m
  | (k, d) :: l => a ← dec_any d; dec_entries l (<[k := a]> m)
  end.

Definition c_anymap : codec (gmap string any) := {|
  c_zero := ∅;
  c_empty m := bool_decide (size m = 0);
  c_enc m := l ← mapM (λ '(k, a), pair k <$> enc_any a) (map_to_list m); Some (JsonObj (canon l));
  c_dec d m := match d with DObject _ l => dec_entries l m | DNull => Some ∅ | _ => None end;
|}.

(** ** Values that come back as they were *)
Definition number_ok (lit : string) : bool :=
  bool_decide (scan_number (ascii_runes lit) = Some (lit, [])) && bool_decide ((ParseFloat lit ≫= FormatFloat) = Some lit).

(** Keys in strictly ascending order. *)
Fixpoint ascending (ks : list string) : bool :=
  match ks with
  | [] => true
  | k :: ks => forallb (λ k', match String.compare k k' with Lt => true | _ => false end) ks && ascending ks
  end.

(** What the decoder makes: shortest numbers, UTF-8, maps in order. *)
Fixpoint any_ok (a : any) : bool :=
  match a with
  | AnyNil | AnyBool _ => true
  | AnyNumber lit => number_ok lit
  | AnyString s => utf8_Valid s
  | AnySlice l => forallb any_ok l
  | AnyMap m => ascending m.*1 && forallb (λ '(k, a), utf8_Valid k && any_ok a) m
  | _ => false
  end.

Section any_ind.
Variable P : any → Prop.
Hypothesis Hnil : P AnyNil.
Hypothesis Hbool : ∀ b, P (AnyBool b).
Hypothesis Hnum : ∀ lit, P (AnyNumber lit).
Hypothesis Hstr : ∀ s, P (AnyString s).
Hypothesis Hslice : ∀ l, Forall P l → P (AnySlice l).
Hypothesis Hmap : ∀ m, Forall (P ∘ snd) m → P (AnyMap m).
Hypothesis Hhost : ∀ h, P (AnyHostMount h).
Hypothesis Hraw : ∀ raw, P (AnyRawMessage raw).
Hypothesis Hother : ∀ t r, P (AnyOther t r).

Fixpoint any_nested_ind (a : any) : P a :=
  match a with
  | AnyNil => Hnil
  | AnyBool b => Hbool b
  | AnyNumber lit => Hnum lit
  | AnyString s => Hstr s
  | AnySlice l =>
      Hslice l ((fix go l := match l return Forall P l with
                             | [] => Forall_nil_2 _
                             | a :: l => Forall_cons_2 _ _ _ (any_nested_ind a) (go l)
                             end) l)
  | AnyMap m =>
      Hmap m ((fix go m := match m return Forall (P ∘ snd) m with
                           | [] => Forall_nil_2 _
                           | ka :: m => Forall_cons_2 _ _ _ (any_nested_ind ka.2) (go m)
                           end) m)
  | AnyHostMount h => Hhost h
  | AnyRawMessage raw => Hraw raw
  | AnyOther t r => Hother t r
  end.
End any_ind.

(** ** Maps: laws *)
Lemma insert_member_perm {A} k (a : A) m : k ∉ m.*1 → insert_member k a m ≡ₚ (k, a) :: m.
Proof.
  induction m as [|[k' a'] m IH]; intros Hk; [done|]. cbn in *. destruct (String.compare k k') eqn:E.
  - apply String.compare_eq_iff in E as ->. set_solver.
  - done.
  - rewrite IH by set_solver. apply perm_swap.
Qed.

Lemma canon_perm {A} (m : list (string * A)) : NoDup m.*1 → canon m ≡ₚ m.
Proof.
  intros Hnd. unfold canon. rewrite <- (app_nil_r m) at 2.
  assert (NoDup (m ++ []).*1) as Hnd' by by rewrite app_nil_r. clear Hnd. revert Hnd'. generalize (@nil (string * A)).
  induction m as [|[k a] m IH]; intros acc Hnd; [done|]. cbn in *. apply list.NoDup_cons in Hnd as [Hk Hnd].
  rewrite fmap_app in Hk, Hnd. assert (insert_member k a acc ≡ₚ (k, a) :: acc) as Hp.
  { apply insert_member_perm. set_solver. }
  rewrite IH; [rewrite Hp; by rewrite Permutation_middle|].
  rewrite fmap_app, Hp. cbn. rewrite <- Permutation_middle. by apply list.NoDup_cons.
Qed.

Lemma insert_member_last {A} k (a : A) m :
  Forall (λ k', String.compare k' k = Lt) m.*1 → insert_member k a m = m ++ [(k, a)].
Proof.
  induction m as [|[k' a'] m IH]; intros H; [done|]. inversion_clear H as [|?? H1 H2]. cbn in H1 |- *.
  rewrite String.compare_antisym, H1. cbn. by rewrite IH.
Qed.

Lemma canon_ascending {A} (m : list (string * A)) : ascending m.*1 = true → canon m = m.
Proof.
  intros H. unfold canon. assert (∀ acc, Forall (λ k', Forall (λ k, String.compare k' k = Lt) m.*1) acc.*1 →
    foldl (λ acc kv, insert_member kv.1 kv.2 acc) acc m = acc ++ m) as Hgen; [|by apply Hgen].
  induction m as [|[k a] m IH]; intros acc Hacc; cbn in *; [by rewrite app_nil_r|].
  apply andb_true_iff in H as [Hk H]. rewrite insert_member_last.
  2:{ revert Hacc. apply Forall_impl. intros k' Hk'. by inversion Hk'. }
  rewrite IH, <- app_assoc; [done|done|]. rewrite fmap_app. apply Forall_app. split.
  - revert Hacc. apply Forall_impl. intros k' Hk'. by inversion Hk'.
  - constructor; [|done]. apply forallb_Forall_iff in Hk. revert Hk. apply Forall_impl. intros k'.
    cbn. by destruct (String.compare k k').
Qed.

(** ** Laws *)
Definition any_back (a : any) : Prop :=
  any_ok a = true → ∃ v, enc_any a = Some v ∧ json_ok v = true ∧ dec_any (doc_of v) = Some a.

(** Entries that come back one by one come back together. *)
Lemma entries_back (m : list (string * any)) :
  Forall (any_back ∘ snd) m → forallb (λ '(k, a), utf8_Valid k && any_ok a) m = true →
  ∃ vs, mapM (λ '(k, a), pair k <$> enc_any a) m = Some vs ∧ vs.*1 = m.*1 ∧
    Forall2 (λ (kv : string * json) (ka : string * any), utf8_Valid kv.1 = true ∧ kv.1 = ka.1 ∧
      json_ok kv.2 = true ∧ enc_any ka.2 = Some kv.2 ∧ dec_any (doc_of kv.2) = Some ka.2) vs m.
Proof.
  induction 1 as [|[k a] m Ha _ IH]; cbn [forallb]; intros Hok; [by exists []|].
  apply andb_true_iff in Hok as [[Hk Hka]%andb_true_iff Hok]. destruct (Ha Hka) as (v & Hv & Hj & Hd).
  destruct (IH Hok) as (vs & Hvs & Hks & Hf). exists ((k, v) :: vs). cbn in *. rewrite Hv. cbn. rewrite Hvs. cbn.
  split; [done|]. split; [by f_equal|]. by constructor.
Qed.

Lemma members_decode (vs : list (string * json)) (m : list (string * any)) :
  Forall2 (λ (kv : string * json) (ka : string * any), utf8_Valid kv.1 = true ∧ kv.1 = ka.1 ∧
    json_ok kv.2 = true ∧ enc_any ka.2 = Some kv.2 ∧ dec_any (doc_of kv.2) = Some ka.2) vs m →
  mapM (λ '(k, d), pair k <$> dec_any d) (doc_members vs) = Some m.
Proof.
  induction 1 as [|[k v] [k' a] vs m (Hk & Hkk & _ & _ & Hd) _ IH]; [done|]. cbn in *. subst k'.
  rewrite repair_valid by done. rewrite Hd. cbn. unfold doc_members in IH. by rewrite IH.
Qed.

Lemma any_comes_back a : any_back a.
Proof.
  induction a as [|b|lit|s|l IH|m IH|h|raw|t r] using any_nested_ind; intros Hok; try done.
  - eauto.
  - eexists. split; [done|]. by repeat split.
  - exists (JsonNum lit). apply andb_true_iff in Hok as [H1 H2]. split; [done|]. split; [done|].
    apply bool_decide_eq_true in H2. cbn. destruct (ParseFloat lit) as [f|]; [|done]. cbn in *. by rewrite H2.
  - exists (JsonStr s). repeat split. cbn. by rewrite repair_valid.
  - apply (Forall_forallb_impl any_ok) in IH; [|done]. clear Hok.
    assert (∃ vs, mapM enc_any l = Some vs ∧ forallb json_ok vs = true ∧ mapM dec_any (doc_of <$> vs) = Some l) as (vs & Hvs & Hj & Hd).
    { induction IH as [|a l (v & Hv & Hj & Hd) _ (vs & Hvs & Hjs & Hds)]; [by exists []|].
      exists (v :: vs). cbn. rewrite Hv, Hvs, Hj, Hjs, Hd. cbn. by rewrite Hds. }
    exists (JsonArr vs). cbn. rewrite Hvs, Hd. done.
  - cbn [any_ok] in Hok. apply andb_true_iff in Hok as [Hasc Hok].
    destruct (entries_back m IH Hok) as (vs & Hvs & Hks & Hf). exists (JsonObj vs). cbn [enc_any]. rewrite Hvs. cbn [mbind option_bind].
    rewrite canon_ascending by by rewrite Hks. split; [done|]. split.
    + cbn. apply forallb_Forall_iff. clear -Hf. induction Hf as [|?? vs m (_ & _ & Hj & _)]; constructor; done.
    + cbn [doc_of dec_any]. pose proof (members_decode _ _ Hf) as Hd. unfold doc_members in Hd. rewrite Hd. cbn.
      by rewrite canon_ascending.
Qed.

Lemma c_any_lawful : lawful c_any (λ a, any_ok a = true).
Proof.
  split; cbn.
  - intros a Ha. destruct (any_comes_back a Ha) as (v & -> & _). eauto.
  - intros a v Ha Hv. destruct (any_comes_back a Ha) as (v' & Hv' & Hj & _). congruence.
  - intros a v Ha Hv _. destruct (any_comes_back a Ha) as (v' & Hv' & _ & Hd). congruence.
  - intros a _. by destruct a.
Qed.

(** *** Maps *)
Definition anymap_ok (m : gmap string any) : Prop := map_Forall (λ k a, utf8_Valid k = true ∧ any_ok a = true) m.

Lemma dec_entries_insert l (m0 : gmap string any) kas :
  mapM (λ '(k, d), pair k <$> dec_any d) l = Some kas → NoDup kas.*1 →
  dec_entries l m0 = Some (list_to_map kas ∪ m0).
Proof.
  revert m0 kas. induction l as [|[k d] l IH]; intros m0 kas Hl Hnd; cbn in *.
  - injection Hl as <-. cbn. by rewrite map_empty_union.
  - destruct (dec_any d) as [a|]; [|done]. cbn in *. destruct (mapM _ l) as [kas'|] eqn:E; [|done].
    injection Hl as <-. cbn in *. apply list.NoDup_cons in Hnd as [Hk Hnd]. rewrite (IH _ kas') by done. f_equal.
    rewrite <- insert_union_r; [by rewrite insert_union_l|]. by apply not_elem_of_list_to_map_1.
Qed.

Lemma anymap_entries m : anymap_ok m → ∃ vs, mapM (λ '(k, a), pair k <$> enc_any a) (map_to_list m) = Some vs ∧
  forallb (json_ok ∘ snd) (canon vs) = true ∧
  ∃ kas, mapM (λ '(k, d), pair k <$> dec_any d) (doc_members (canon vs)) = Some kas ∧ kas ≡ₚ map_to_list m.
Proof.
  intros Hm. destruct (entries_back (map_to_list m)) as (vs & Hvs & Hks & Hf).
  - apply list.Forall_true. intros ka. apply any_comes_back.
  - apply forallb_Forall_iff, list.Forall_forall. intros [k a] [H1 H2]%elem_of_map_to_list%Hm. by rewrite H1, H2.
  - exists vs. split; [done|].
    assert (canon vs ≡ₚ vs) as Hp by (apply canon_perm; rewrite Hks; apply NoDup_fst_map_to_list).
    split.
    + apply forallb_Forall_iff. rewrite Hp. clear -Hf. induction Hf as [|?? vs l (_ & _ & Hj & _)]; constructor; done.
    + destruct (Permutation_Forall2 (symmetry Hp) Hf) as (kas & Hkas & Hf'). exists kas.
      split; [by apply members_decode|done].
Qed.

Lemma c_anymap_lawful : lawful c_anymap anymap_ok.
Proof.
  split; cbn [c_zero c_empty c_enc c_dec c_anymap].
  - intros m Hm. destruct (anymap_entries m Hm) as (vs & -> & _). eauto.
  - intros m v Hm Hv. destruct (anymap_entries m Hm) as (vs & Hvs & Hj & _). rewrite Hvs in Hv. by injection Hv as <-.
  - intros m v Hm Hv _. destruct (anymap_entries m Hm) as (vs & Hvs & _ & kas & Hd & Hp). rewrite Hvs in Hv.
    injection Hv as <-. cbn [doc_of]. unfold doc_members in Hd.
    rewrite (dec_entries_insert _ _ kas Hd); [|rewrite Hp; apply NoDup_fst_map_to_list]. f_equal.
    rewrite map_union_empty. rewrite (list_to_map_proper kas (map_to_list m)); [apply list_to_map_to_list| |done].
    rewrite Hp. apply NoDup_fst_map_to_list.
  - intros m _ H%bool_decide_eq_true. by apply map_size_empty_inv.
Qed.
