(* ===== verification/ApiJson.v ===== *)
(** * The API types in JSON (src/api/types.go)

    The struct tags of the API types as lists of fields, the codecs they give,
    MountSource.UnmarshalJSON, and the laws: values of these types come back from
    JSON as they went in, if their strings are UTF-8, their integers fit, and
    their times and dynamic values are of the kind that is read. *)

From S2P Require Import Prelude GoStd Types Json JsonFacts JsonParse Codec Floats Rfc3339 AnyJson.

(** ** IP addresses (net/netip)

    Node.IP is kept in its text form: reading checks the text. *)
Definition ipv4_field (s : string) : bool :=
  match parse_digits s with
  | Some n => (n <=? 255)%N && match s with String "0" (String _ _) => false | _ => true end
  | None => false
  end.

Definition parse_ipv4 (s : string) : bool :=
  let fields := strings_Split s "."%char in bool_decide (length fields = 4) && forallb ipv4_field fields.

(** The hexadecimal digits at the head. *)
Fixpoint span_hex (s : string) : nat * string :=
  match s with
  | String c s' => if bool_decide (is_Some (hex_val c)) then let '(n, r) := span_hex s' in (S n, r) else (0, s)
  | "" => (0, s)
  end.

(** The groups of an IPv6 address from the [8 - left]th on; an IPv4 address may
    take the place of the last two, an ellipsis that of one or more. *)
Fixpoint ipv6_groups (left : nat) (ellipsis : bool) (s : string) : bool :=
  match left with
  | 0 => bool_decide (s = "") && negb ellipsis
  | S left' =>
      let '(n, r) := span_hex s in
      if bool_decide (n = 0) || (4 <? n) then false
      else
        match r with
        | "" => bool_decide (left' = 0) && negb ellipsis || bool_decide (left' ≠ 0) && ellipsis
        | String c r' =>
            if Ascii.eqb c "."%char then
              if negb ellipsis && bool_decide (left ≠ 2) || (left <? 2) then false
              else parse_ipv4 s && (if ellipsis then bool_decide (left ≠ 2) else true)
            else if negb (Ascii.eqb c ":"%char) then false
            else
              match r' with
              | "" => false
              | String d r'' =>
                  if Ascii.eqb d ":"%char then
                    if ellipsis then false
                    else match r'' with "" => bool_decide (left' ≠ 0) | _ => ipv6_groups left' true r'' end
                  else ipv6_groups left' ellipsis r'
              end
        end
  end.

(** netip.ParseAddr, without the address. *)
Definition parse_ipv6 (s : string) : bool :=
  let '(addr, zone_ok) :=
    match strings_SplitN2 s "%"%char with
    | [addr; zone] => (addr, bool_decide (zone ≠ ""))
    | _ => (s, true)
    end in
  zone_ok &&
  match strip_prefix "::" addr with
  | Some "" => true
  | Some rest => ipv6_groups 8 true rest
  | None => ipv6_groups 8 false addr
  end.

Fixpoint first_of (cs : list ascii) (s : string) : option ascii :=
  match s with
  | "" => None
  | String c s => if existsb (Ascii.eqb c) cs then Some c else first_of cs s
  end.

Definition ParseAddr_ok (s : string) : bool :=
  match first_of ["."; ":"; "%"]%char s with
  | Some c => if Ascii.eqb c "."%char then parse_ipv4 s else if Ascii.eqb c ":"%char then parse_ipv6 s else false
  | None => false
  end.

Definition c_addr : codec string := {|
  c_zero := "";
  c_empty _ := false;
  c_enc s := Some (JsonStr s);
  c_dec d s0 :=
    match d with
    | DString _ s => if bool_decide (s = "") || ParseAddr_ok s then Some s else None
    | DNull => Some s0
    | _ => None
    end;
|}.

(** ** The structs *)
#[export] Instance set_Container_Image : Setter Container_Image := ltac:(solve_setter).
#[export] Instance set_Container_RunAsUser : Setter Container_RunAsUser := ltac:(solve_setter).
#[export] Instance set_Container_RunAsGroup : Setter Container_RunAsGroup := ltac:(solve_setter).
#[export] Instance set_Container_SupplementalGroups : Setter Container_SupplementalGroups := ltac:(solve_setter).

Definition Container_fields : list (field Container) := [
  req "image" c_string Container_Image;
  opt "runAsUserId" (c_ptr c_int) Container_RunAsUser;
  opt "runAsGroupId" (c_ptr c_int) Container_RunAsGroup;
  opt "supplementalGroupIds" (c_list c_int) Container_SupplementalGroups ].
Definition c_Container : codec Container := c_struct (mkContainer "" None None []) Container_fields.

#[export] Instance set_Env_Name : Setter Env_Name := ltac:(solve_setter).
#[export] Instance set_Env_Value : Setter Env_Value := ltac:(solve_setter).

Definition Env_fields : list (field Env) := [req "name" c_string Env_Name; req "value" c_string Env_Value].
Definition c_Env : codec Env := c_struct (mkEnv "" "") Env_fields.

(** *** Mounts *)
#[export] Instance set_HostMount_Path : Setter HostMount_Path := ltac:(solve_setter).
Definition HostMount_fields : list (field HostMount) := [req "path" c_string HostMount_Path].
Definition c_HostMount : codec HostMount := c_struct (mkHostMount "") HostMount_fields.

Record rawMountSource := mkRawMountSource { raw_Type : string; raw_Source : string }.
#[export] Instance set_raw_Type : Setter raw_Type := ltac:(solve_setter).
#[export] Instance set_raw_Source : Setter raw_Source := ltac:(solve_setter).
Definition c_rawMountSource : codec rawMountSource :=
  c_struct (mkRawMountSource "" "") [req "type" c_string raw_Type; req "source" c_raw raw_Source].

#[export] Instance set_MountSource_Type : Setter MountSource_Type := ltac:(solve_setter).
#[export] Instance set_MountSource_Source : Setter MountSource_Source := ltac:(solve_setter).

(** [MountSource.UnmarshalJSON]; on an error the receiver is left alone. *)
Definition MountSource_UnmarshalJSON (data : string) (ms : MountSource) : option MountSource :=
  raw ← json_Unmarshal c_rawMountSource data (mkRawMountSource "" "");
  if decide (raw_Type raw = MountTypeHost) then
    source ← json_Unmarshal c_HostMount (raw_Source raw) (mkHostMount "");
    Some (ms <| MountSource_Source := AnyHostMount source |> <| MountSource_Type := raw_Type raw |>)
  else Some (ms <| MountSource_Source := AnyRawMessage (raw_Source raw) |> <| MountSource_Type := raw_Type raw |>).

Definition MountSource_fields : list (field MountSource) := [
  req "type" c_string MountSource_Type; req "source" c_any MountSource_Source ].

Definition c_MountSource : codec MountSource := {|
  c_zero := mkMountSource "" AnyNil;
  c_empty _ := false;
  c_enc := c_enc (c_struct (mkMountSource "" AnyNil) MountSource_fields);
  c_dec d ms := MountSource_UnmarshalJSON (raw_text d) ms;
|}.

#[export] Instance set_Mount_Path : Setter Mount_Path := ltac:(solve_setter).
#[export] Instance set_Mount_Name : Setter Mount_Name := ltac:(solve_setter).
#[export] Instance set_Mount_ReadOnly : Setter Mount_ReadOnly := ltac:(solve_setter).
#[export] Instance set_Mount_Source : Setter Mount_Source := ltac:(solve_setter).

Definition Mount_fields : list (field Mount) := [
  req "mountPath" c_string Mount_Path;
  opt "name" c_string Mount_Name;
  opt "readOnly" c_bool Mount_ReadOnly;
  req "mountSource" c_MountSource Mount_Source ].
Definition c_Mount : codec Mount := c_struct (mkMount "" "" false (mkMountSource "" AnyNil)) Mount_fields.

#[export] Instance set_InitContainer_Name : Setter InitContainer_Name := ltac:(solve_setter).
#[export] Instance set_InitContainer_Image : Setter InitContainer_Image := ltac:(solve_setter).
#[export] Instance set_InitContainer_Command : Setter InitContainer_Command := ltac:(solve_setter).
#[export] Instance set_InitContainer_Exe : Setter InitContainer_Exe := ltac:(solve_setter).
#[export] Instance set_InitContainer_Args : Setter InitContainer_Args := ltac:(solve_setter).
#[export] Instance set_InitContainer_Mounts : Setter InitContainer_Mounts := ltac:(solve_setter).
#[export] Instance set_InitContainer_Env : Setter InitContainer_Env := ltac:(solve_setter).

Definition InitContainer_fields : list (field InitContainer) := [
  req "name" c_string InitContainer_Name;
  req "image" c_string InitContainer_Image;
  opt "command" c_string InitContainer_Command;
  opt "exe" c_string InitContainer_Exe;
  opt "args" (c_list c_string) InitContainer_Args;
  opt "mounts" (c_list c_Mount) InitContainer_Mounts;
  opt "environment" (c_list c_Env) InitContainer_Env ].
Definition c_InitContainer : codec InitContainer := c_struct (mkInitContainer "" "" "" "" [] [] []) InitContainer_fields.

#[export] Instance set_JobConfig_Name : Setter JobConfig_Name := ltac:(solve_setter).
#[export] Instance set_JobConfig_Type : Setter JobConfig_Type := ltac:(solve_setter).
#[export] Instance set_JobConfig_Value : Setter JobConfig_Value := ltac:(solve_setter).

Definition JobConfig_fields : list (field JobConfig) := [
  req "name" c_string JobConfig_Name;
  opt "valueType" c_string JobConfig_Type;
  opt "value" c_string JobConfig_Value ].
Definition c_JobConfig : codec JobConfig := c_struct (mkJobConfig "" "" "") JobConfig_fields.

#[export] Instance set_PlacementConstraint_Name : Setter PlacementConstraint_Name := ltac:(solve_setter).
#[export] Instance set_PlacementConstraint_Value : Setter PlacementConstraint_Value := ltac:(solve_setter).
#[export] Instance set_PlacementConstraint_Default : Setter PlacementConstraint_Default := ltac:(solve_setter).

Definition PlacementConstraint_fields : list (field PlacementConstraint) := [
  req "name" c_string PlacementConstraint_Name;
  opt "value" c_string PlacementConstraint_Value;
  opt "defaultValue" c_string PlacementConstraint_Default ].
Definition c_PlacementConstraint : codec PlacementConstraint :=
  c_struct (mkPlacementConstraint "" "" "") PlacementConstraint_fields.

#[export] Instance set_Port_TargetPort : Setter Port_TargetPort := ltac:(solve_setter).
#[export] Instance set_Port_PublishedPort : Setter Port_PublishedPort := ltac:(solve_setter).
#[export] Instance set_Port_Protocol : Setter Port_Protocol := ltac:(solve_setter).

Definition Port_fields : list (field Port) := [
  req "targetPort" c_int Port_TargetPort;
  opt "publishedPort" (c_ptr c_int) Port_PublishedPort;
  req "protocol" c_string Port_Protocol ].
Definition c_Port : codec Port := c_struct (mkPort 0 None "") Port_fields.

#[export] Instance set_ResourceLimit_Type : Setter ResourceLimit_Type := ltac:(solve_setter).
#[export] Instance set_ResourceLimit_Value : Setter ResourceLimit_Value := ltac:(solve_setter).
#[export] Instance set_ResourceLimit_Default : Setter ResourceLimit_Default := ltac:(solve_setter).
#[export] Instance set_ResourceLimit_Max : Setter ResourceLimit_Max := ltac:(solve_setter).

Definition ResourceLimit_fields : list (field ResourceLimit) := [
  req "type" c_string ResourceLimit_Type;
  opt "value" c_string ResourceLimit_Value;
  opt "defaultValue" c_string ResourceLimit_Default;
  opt "maxValue" c_string ResourceLimit_Max ].
Definition c_ResourceLimit : codec ResourceLimit := c_struct (mkResourceLimit "" "" "" "") ResourceLimit_fields.

#[export] Instance set_ResourceProfile_Name : Setter ResourceProfile_Name := ltac:(solve_setter).
#[export] Instance set_ResourceProfile_DisplayName : Setter ResourceProfile_DisplayName := ltac:(solve_setter).
#[export] Instance set_ResourceProfile_Limits : Setter ResourceProfile_Limits := ltac:(solve_setter).
#[export] Instance set_ResourceProfile_Queue : Setter ResourceProfile_Queue := ltac:(solve_setter).
#[export] Instance set_ResourceProfile_Constraints : Setter ResourceProfile_Constraints := ltac:(solve_setter).

Definition ResourceProfile_fields : list (field ResourceProfile) := [
  req "name" c_string ResourceProfile_Name;
  opt "displayName" c_string ResourceProfile_DisplayName;
  opt "limits" (c_list c_ResourceLimit) ResourceProfile_Limits;
  opt "queue" c_string ResourceProfile_Queue;
  opt "placementConstraints" (c_list c_PlacementConstraint) ResourceProfile_Constraints ].
Definition c_ResourceProfile : codec ResourceProfile :=
  c_struct (mkResourceProfile "" "" [] "" []) ResourceProfile_fields.

#[export] Instance set_Version_Major : Setter Version_Major := ltac:(solve_setter).
#[export] Instance set_Version_Minor : Setter Version_Minor := ltac:(solve_setter).
#[export] Instance set_Version_Patch : Setter Version_Patch := ltac:(solve_setter).
#[export] Instance set_Version_Build : Setter Version_Build := ltac:(solve_setter).
#[export] Instance set_Version_Revision : Setter Version_Revision := ltac:(solve_setter).

Definition Version_fields : list (field Version) := [
  req "major" c_int Version_Major;
  req "minor" c_int Version_Minor;
  req "patch" c_int Version_Patch;
  opt "build" c_int Version_Build;
  opt "revision" c_string Version_Revision ].
Definition c_Version : codec Version := c_struct (mkVersion 0 0 0 0 "") Version_fields.

#[export] Instance set_Node_Host : Setter Node_Host := ltac:(solve_setter).
#[export] Instance set_Node_IP : Setter Node_IP := ltac:(solve_setter).
#[export] Instance set_Node_Port : Setter Node_Port := ltac:(solve_setter).
#[export] Instance set_Node_LastSeen : Setter Node_LastSeen := ltac:(solve_setter).
#[export] Instance set_Node_Status : Setter Node_Status := ltac:(solve_setter).

#[export] Instance set_JobFilter_Tags : Setter JobFilter_Tags := ltac:(solve_setter).
#[export] Instance set_JobFilter_StartTime : Setter JobFilter_StartTime := ltac:(solve_setter).
#[export] Instance set_JobFilter_EndTime : Setter JobFilter_EndTime := ltac:(solve_setter).
#[export] Instance set_JobFilter_Statuses : Setter JobFilter_Statuses := ltac:(solve_setter).
#[export] Instance set_JobFilter_Fields : Setter JobFilter_Fields := ltac:(solve_setter).

Section Timed.
Context `{!TimeZones}.

Definition Node_fields : list (field Node) := [
  req "host" c_string Node_Host;
  req "ipv4" c_addr Node_IP;
  req "port" c_string Node_Port;
  req "lastSeen" c_time Node_LastSeen;
  req "status" c_string Node_Status ].
Definition c_Node : codec Node := c_struct (mkNode "" "" "" zeroTime "") Node_fields.

Definition JobFilter_fields : list (field JobFilter) := [
  opt "tags" (c_list c_string) JobFilter_Tags;
  opt "startTime" (c_ptr c_time) JobFilter_StartTime;
  opt "endTime" (c_ptr c_time) JobFilter_EndTime;
  opt "statuses" (c_list c_string) JobFilter_Statuses;
  opt "fields" (c_list c_string) JobFilter_Fields ].

(** The fields of Job; Misc is not one (`json:"-"`). *)
Definition Job_fields : list (field Job) := [
  req "id" c_string Job_ID;
  opt "cluster" c_string Job_Cluster;
  opt "name" c_string Job_Name;
  opt "user" c_string Job_User;
  opt "group" c_string Job_Group;
  opt "queues" (c_list c_string) Job_Queues;
  opt "workingDirectory" c_string Job_WorkDir;
  opt "container" (c_ptr c_Container) Job_Container;
  opt "initContainers" (c_list c_InitContainer) Job_InitContainers;
  opt "host" c_string Job_Host;
  opt "status" c_string Job_Status;
  opt "statusMessage" c_string Job_StatusMsg;
  opt "statusCode" c_string Job_StatusCode;
  opt "pid" (c_ptr c_int) Job_Pid;
  opt "exitCode" (c_ptr c_int) Job_ExitCode;
  opt "command" c_string Job_Command;
  opt "exe" c_string Job_Exe;
  opt "stdoutFile" c_string Job_Stdout;
  opt "stderrFile" c_string Job_Stderr;
  opt "stdin" c_string Job_Stdin;
  opt "args" (c_list c_string) Job_Args;
  opt "environment" (c_list c_Env) Job_Env;
  opt "placementConstraints" (c_list c_PlacementConstraint) Job_Constraints;
  opt "lastUpdateTime" (c_ptr c_time) Job_LastUpdated;
  opt "submissionTime" (c_ptr c_time) Job_Submitted;
  opt "exposedPorts" (c_list c_Port) Job_Ports;
  opt "mounts" (c_list c_Mount) Job_Mounts;
  opt "config" (c_list c_JobConfig) Job_Config;
  opt "resourceLimits" (c_list c_ResourceLimit) Job_Limits;
  opt "tags" (c_list c_string) Job_Tags;
  opt "metadata" c_anymap Job_Metadata;
  opt "resourceProfile" c_string Job_Profile;
  opt "systemJob" c_bool Job_SystemJob;
  opt "instanceId" c_string Job_InstanceID ].
Definition c_Job : codec Job := c_struct zeroJob Job_fields.
End Timed.
