(* ===== verification/ApiJsonFacts.v ===== *)
(** * The API types survive JSON

    For each type, when a value of it comes back from JSON as it went in, and the
    proof that it does.  The conditions are those of the parts: strings in UTF-8,
    integers that fit into 64 bits, times of RFC 3339, dynamic values of the kind
    the decoder makes. *)

From S2P Require Import Prelude GoStd Types Json JsonFacts JsonParse Codec Floats Rfc3339 AnyJson ApiJson.

Create HintDb codec.
#[export] Hint Resolve c_string_lawful c_bool_lawful c_int_lawful c_uint64_lawful c_float64_lawful c_time_lawful
  c_anymap_lawful c_list_lawful c_ptr_lawful : codec.
#[export] Hint Resolve c_string_nonnull c_int_nonnull c_uint64_nonnull c_struct_nonnull c_time_nonnull : codec.

(** The laws of a struct: names by computation, the fields from the data base, the
    conditions from the definition of [ok]. *)
Ltac field_law ok := eapply field_of_lawful; [eauto with codec|let r := fresh in intros r; unfold ok; cbv beta; tauto].
Ltac struct_law ok := apply c_struct_lawful; [reflexivity|struct_chain|struct_fields; field_law ok].

Definition Container_ok (c : Container) : Prop :=
  utf8 (Container_Image c) ∧ ptr_wf int_range (Container_RunAsUser c) ∧ ptr_wf int_range (Container_RunAsGroup c) ∧
  Forall int_range (Container_SupplementalGroups c).
Lemma c_Container_lawful : lawful c_Container Container_ok.
Proof. struct_law Container_ok. Qed.

Definition Env_ok (e : Env) : Prop := utf8 (Env_Name e) ∧ utf8 (Env_Value e).
Lemma c_Env_lawful : lawful c_Env Env_ok.
Proof. struct_law Env_ok. Qed.

Definition HostMount_ok (h : HostMount) : Prop := utf8 (HostMount_Path h).
Lemma c_HostMount_lawful : lawful c_HostMount HostMount_ok.
Proof. struct_law HostMount_ok. Qed.

Definition JobConfig_ok (c : JobConfig) : Prop :=
  utf8 (JobConfig_Name c) ∧ utf8 (JobConfig_Type c) ∧ utf8 (JobConfig_Value c).
Lemma c_JobConfig_lawful : lawful c_JobConfig JobConfig_ok.
Proof. struct_law JobConfig_ok. Qed.

Definition PlacementConstraint_ok (c : PlacementConstraint) : Prop :=
  utf8 (PlacementConstraint_Name c) ∧ utf8 (PlacementConstraint_Value c) ∧ utf8 (PlacementConstraint_Default c).
Lemma c_PlacementConstraint_lawful : lawful c_PlacementConstraint PlacementConstraint_ok.
Proof. struct_law PlacementConstraint_ok. Qed.

Definition Port_ok (p : Port) : Prop :=
  int_range (Port_TargetPort p) ∧ ptr_wf int_range (Port_PublishedPort p) ∧ utf8 (Port_Protocol p).
Lemma c_Port_lawful : lawful c_Port Port_ok.
Proof. struct_law Port_ok. Qed.

Definition ResourceLimit_ok (l : ResourceLimit) : Prop :=
  utf8 (ResourceLimit_Type l) ∧ utf8 (ResourceLimit_Value l) ∧ utf8 (ResourceLimit_Default l) ∧ utf8 (ResourceLimit_Max l).
Lemma c_ResourceLimit_lawful : lawful c_ResourceLimit ResourceLimit_ok.
Proof. struct_law ResourceLimit_ok. Qed.

Definition Version_ok (v : Version) : Prop :=
  int_range (Version_Major v) ∧ int_range (Version_Minor v) ∧ int_range (Version_Patch v) ∧
  int_range (Version_Build v) ∧ utf8 (Version_Revision v).
Lemma c_Version_lawful : lawful c_Version Version_ok.
Proof. struct_law Version_ok. Qed.

#[export] Hint Resolve c_Container_lawful c_Env_lawful c_HostMount_lawful c_JobConfig_lawful c_PlacementConstraint_lawful
  c_Port_lawful c_ResourceLimit_lawful c_Version_lawful : codec.

(** ** Mount sources *)

(** Raw text as the encoder would write it. *)
Definition raw_ok (raw : string) : Prop := raw ≠ "" ∧ json_ok (JsonRaw raw) = true ∧ compact raw = raw ∧ is_Some (parse raw).

Definition MountSource_ok (ms : MountSource) : Prop :=
  (MountSource_Type ms = MountTypeHost ∧ ∃ h, MountSource_Source ms = AnyHostMount h ∧ HostMount_ok h) ∨
  (MountSource_Type ms ≠ MountTypeHost ∧ utf8 (MountSource_Type ms) ∧
   ∃ raw, MountSource_Source ms = AnyRawMessage raw ∧ raw_ok raw).

Lemma enc_raw raw : raw_ok raw → enc_any (AnyRawMessage raw) = Some (JsonRaw raw).
Proof.
  intros (Hne & _ & Hc & [d Hp]). cbn [enc_any c_enc c_raw]. rewrite decide_False by done. rewrite Hp. by rewrite Hc.
Qed.

(** The two members, read as UnmarshalJSON reads them first. *)
Lemma raw_members t v :
  utf8 t → json_ok v = true →
  doc_depth (doc_of (JsonObj [("type", JsonStr t); ("source", v)])) ≤ maxNestingDepth →
  json_Unmarshal c_rawMountSource (print (JsonObj [("type", JsonStr t); ("source", v)])) (mkRawMountSource "" "") =
    Some (mkRawMountSource t (print v)).
Proof.
  intros Ht Hv Hd. unfold json_Unmarshal. rewrite parse_print by (done || by cbn; rewrite Hv).
  cbn [mbind option_bind doc_of fmap list_fmap]. change (repair (decode_utf8 "type")) with "type".
  change (repair (decode_utf8 "source")) with "source". cbn -[doc_of print repair decode_utf8 raw_text].
  rewrite raw_text_doc_of by done. cbn [doc_of]. cbn -[print repair decode_utf8]. by rewrite repair_valid.
Qed.

Lemma MountSource_enc ms v : c_enc c_MountSource ms = Some v →
  ∃ sv, enc_any (MountSource_Source ms) = Some sv ∧ v = JsonObj [("type", JsonStr (MountSource_Type ms)); ("source", sv)].
Proof.
  cbn -[enc_any]. destruct (enc_any (MountSource_Source ms)) as [sv|]; [|done]. intros [= <-]. eauto.
Qed.

Lemma c_MountSource_lawful : lawful c_MountSource MountSource_ok.
Proof.
  assert (∀ ms, MountSource_ok ms → ∃ sv, enc_any (MountSource_Source ms) = Some sv ∧ json_ok sv = true) as Henc.
  { intros ms [(_ & h & -> & _)|(_ & _ & raw & -> & Hraw)]; [by eexists|].
    exists (JsonRaw raw). split; [by apply enc_raw|apply Hraw]. }
  split.
  - intros ms (sv & Hsv & _)%Henc. cbn -[enc_any]. rewrite Hsv. cbn. eauto.
  - intros ms v Hms Hv. destruct (Henc ms Hms) as (sv & Hsv & Hj).
    apply MountSource_enc in Hv as (sv' & Hsv' & ->). assert (sv' = sv) as -> by congruence. cbn. by rewrite Hj.
  - intros ms v Hms Hv Hd. destruct (Henc ms Hms) as (sv & Hsv & Hj).
    apply MountSource_enc in Hv as (sv' & Hsv' & ->). assert (sv' = sv) as -> by congruence.
    assert (utf8 (MountSource_Type ms)) as Ht by (destruct Hms as [(-> & _)|(_ & ? & _)]; done).
    cbn [c_dec c_MountSource]. rewrite raw_text_doc_of by (cbn; by rewrite Hj).
    unfold MountSource_UnmarshalJSON. rewrite raw_members by done. cbn [mbind option_bind raw_Type raw_Source].
    destruct ms as [t src]. unfold MountSource_ok in Hms. cbn [MountSource_Type MountSource_Source] in *.
    destruct Hms as [(-> & h & -> & Hh)|(Hne & _ & raw & -> & Hraw)].
    + rewrite decide_True by done.
      assert (json_Unmarshal c_HostMount (print sv) (mkHostMount "") = Some h) as ->; [|done].
      assert (c_enc c_HostMount h = Some sv) as He by (cbn in Hsv |- *; congruence).
      apply (Unmarshal_Marshal c_HostMount HostMount_ok h); [apply c_HostMount_lawful|done|by unfold json_Marshal; rewrite He|].
      intros v Hv. rewrite He in Hv. injection Hv as <-. rewrite obj_depth in Hd. cbn [fmap list_fmap] in Hd.
      cbn -[doc_of doc_depth maxNestingDepth] in Hd. lia.
    + rewrite decide_False by done. rewrite enc_raw in Hsv by done. injection Hsv as <-.
      unfold print. cbn [print_runes]. by rewrite encode_decode.
  - done.
Qed.

Lemma c_MountSource_nonnull wf : nonnull c_MountSource wf.
Proof. by intros ms v _ (sv & _ & ->)%MountSource_enc. Qed.
#[export] Hint Resolve c_MountSource_lawful c_MountSource_nonnull : codec.

Definition Mount_ok (m : Mount) : Prop :=
  utf8 (Mount_Path m) ∧ utf8 (Mount_Name m) ∧ MountSource_ok (Mount_Source m).
Lemma c_Mount_lawful : lawful c_Mount Mount_ok.
Proof. struct_law Mount_ok. Qed.
#[export] Hint Resolve c_Mount_lawful : codec.

Definition InitContainer_ok (c : InitContainer) : Prop :=
  utf8 (InitContainer_Name c) ∧ utf8 (InitContainer_Image c) ∧ utf8 (InitContainer_Command c) ∧
  utf8 (InitContainer_Exe c) ∧ Forall utf8 (InitContainer_Args c) ∧ Forall Mount_ok (InitContainer_Mounts c) ∧
  Forall Env_ok (InitContainer_Env c).
Lemma c_InitContainer_lawful : lawful c_InitContainer InitContainer_ok.
Proof. struct_law InitContainer_ok. Qed.

Definition ResourceProfile_ok (p : ResourceProfile) : Prop :=
  utf8 (ResourceProfile_Name p) ∧ utf8 (ResourceProfile_DisplayName p) ∧ Forall ResourceLimit_ok (ResourceProfile_Limits p) ∧
  utf8 (ResourceProfile_Queue p) ∧ Forall PlacementConstraint_ok (ResourceProfile_Constraints p).
Lemma c_ResourceProfile_lawful : lawful c_ResourceProfile ResourceProfile_ok.
Proof. struct_law ResourceProfile_ok. Qed.
#[export] Hint Resolve c_InitContainer_lawful c_ResourceProfile_lawful : codec.

Section Timed.
Context `{!TimeZones}.

Definition JobFilter_ok (f : JobFilter) : Prop :=
  Forall utf8 (JobFilter_Tags f) ∧ ptr_wf time_ok (JobFilter_StartTime f) ∧ ptr_wf time_ok (JobFilter_EndTime f) ∧
  Forall utf8 (JobFilter_Statuses f) ∧ Forall utf8 (JobFilter_Fields f).
Lemma JobFilter_fields_lawful : Forall (λ f, field_lawful f JobFilter_ok) JobFilter_fields.
Proof. struct_fields; field_law JobFilter_ok. Qed.

(** A job that comes back: the conditions of its parts, and nothing in the
    plugin-local Misc. *)
Record Job_ok (j : Job) : Prop := {
  ok_strings : Forall utf8 [Job_ID j; Job_Cluster j; Job_Name j; Job_User j; Job_Group j; Job_WorkDir j; Job_Host j;
    Job_Status j; Job_StatusMsg j; Job_StatusCode j; Job_Command j; Job_Exe j; Job_Stdout j; Job_Stderr j; Job_Stdin j;
    Job_Profile j; Job_InstanceID j];
  ok_lists : Forall utf8 (Job_Queues j ++ Job_Args j ++ Job_Tags j);
  ok_Container : ptr_wf Container_ok (Job_Container j);
  ok_InitContainers : Forall InitContainer_ok (Job_InitContainers j);
  ok_ints : ptr_wf int_range (Job_Pid j) ∧ ptr_wf int_range (Job_ExitCode j);
  ok_Env : Forall Env_ok (Job_Env j);
  ok_Constraints : Forall PlacementConstraint_ok (Job_Constraints j);
  ok_times : ptr_wf time_ok (Job_LastUpdated j) ∧ ptr_wf time_ok (Job_Submitted j);
  ok_Ports : Forall Port_ok (Job_Ports j);
  ok_Mounts : Forall Mount_ok (Job_Mounts j);
  ok_Config : Forall JobConfig_ok (Job_Config j);
  ok_Limits : Forall ResourceLimit_ok (Job_Limits j);
  ok_Metadata : anymap_ok (Job_Metadata j);
  ok_Misc : Job_Misc j = ∅;
}.

Ltac job_part := let r := fresh in let H := fresh in
  intros r H; destruct H as [Hs Hl ? ? [? ?] ? ? [? ?] ? ? ? ? ? ?]; rewrite !Forall_app in Hl; destruct_and!;
  repeat match goal with H : Forall _ (_ :: _) |- _ => apply list.Forall_cons in H as [? ?] end; assumption.

Lemma Job_fields_lawful : Forall (λ f, field_lawful f Job_ok) Job_fields.
Proof. struct_fields; (eapply field_of_lawful; [eauto with codec|first [done|job_part]]). Qed.

Lemma Job_names : names_ok Job_fields = true.
Proof. vm_compute. reflexivity. Qed.

Lemma c_Job_lawful : lawful c_Job Job_ok.
Proof.
  apply c_struct_lawful; [apply Job_names| |apply Job_fields_lawful].
  intros r Hr. pose proof (ok_Misc r Hr) as Hm. destruct r. cbn in Hm. subst. repeat split.
Qed.
End Timed.
#[export] Hint Resolve c_Job_lawful : codec.
