(* ===== verification/Rpc.v ===== *)
(** * Requests and responses (src/internal/protocol/rpc.go)

    The message types of the plugin protocol.  A request is one of the Go
    request structs; embedded structs are fields.  Responses are what the
    runtime sends; [responseBase] carries the message type and the request and
    response IDs (64-bit). *)

From S2P Require Import Prelude GoStd Types Writer.

(** ** Request types *)
Abbreviation requestType := Z (only parsing).
Definition requestHeartbeat : requestType := 0%Z.
Definition requestBootstrap : requestType := 1%Z.
Definition requestSubmitJob : requestType := 2%Z.
Definition requestJob : requestType := 3%Z.
Definition requestJobStatus : requestType := 4%Z.
Definition requestControlJob : requestType := 5%Z.
Definition requestJobOutput : requestType := 6%Z.
Definition requestJobResourceUtil : requestType := 7%Z.
Definition requestJobNetwork : requestType := 8%Z.
Definition requestClusterInfo : requestType := 9%Z.
Definition requestSetLoadBalancerNodes : requestType := 201%Z.
Definition requestConfigReload : requestType := 202%Z.

Definition ErrUnknownRequestType : error := ErrSentinel "unknown request type".

Record BaseRequest := mkBaseRequest {
  BaseRequest_MessageType : option requestType;
  BaseRequest_RequestID : option Z;
}.

Definition BaseRequest_Type (r : BaseRequest) : outcome Z := deref (BaseRequest_MessageType r).
Definition BaseRequest_ID (r : BaseRequest) : outcome Z := deref (BaseRequest_RequestID r).
Definition BaseRequest_Valid (r : BaseRequest) : bool :=
  bool_decide (is_Some (BaseRequest_MessageType r)) && bool_decide (is_Some (BaseRequest_RequestID r)).

Record BootstrapRequest := mkBootstrapRequest {
  BootstrapRequest_Base : BaseRequest;
  BootstrapRequest_Version : Version;
}.

Record BaseUserRequest := mkBaseUserRequest {
  BaseUserRequest_Base : BaseRequest;
  BaseUserRequest_Username : string;
  BaseUserRequest_ReqUsername : string;
}.

Record SubmitJobRequest := mkSubmitJobRequest {
  SubmitJobRequest_Base : BaseUserRequest;
  SubmitJobRequest_Job : option Job;
}.

Record BaseJobRequest := mkBaseJobRequest {
  BaseJobRequest_Base : BaseUserRequest;
  BaseJobRequest_JobID : JobID;
  BaseJobRequest_EncodedJobID : string;
}.

Record JobStateRequest := mkJobStateRequest {
  JobStateRequest_Base : BaseJobRequest;
  JobStateRequest_Filter : JobFilter;
}.

Record BaseJobStreamRequest := mkBaseJobStreamRequest {
  BaseJobStreamRequest_Base : BaseJobRequest;
  BaseJobStreamRequest_Cancel : bool;
}.

Record ControlJobRequest := mkControlJobRequest {
  ControlJobRequest_Base : BaseJobRequest;
  ControlJobRequest_Operation : JobOperation;
  ControlJobRequest_StatusMessage : string;
  ControlJobRequest_StatusCode : string;
}.

Record JobOutputRequest := mkJobOutputRequest {
  JobOutputRequest_Base : BaseJobStreamRequest;
  JobOutputRequest_Output : JobOutput;
}.

Record SetLoadBalancerNodesRequest := mkSetLoadBalancerNodesRequest {
  SetLoadBalancerNodesRequest_Base : BaseUserRequest;
  SetLoadBalancerNodesRequest_Nodes : list Node;
}.

Inductive Request :=
| HeartbeatRequest (r : BaseRequest)
| ReqBootstrap (r : BootstrapRequest)
| ReqSubmitJob (r : SubmitJobRequest)
| ReqJobState (r : JobStateRequest)
| JobStatusStreamRequest (r : BaseJobStreamRequest)
| ReqControlJob (r : ControlJobRequest)
| ReqJobOutput (r : JobOutputRequest)
| JobResourceUtilRequest (r : BaseJobStreamRequest)
| JobNetworkRequest (r : BaseJobRequest)
| ClusterInfoRequest (r : BaseUserRequest)
| ReqSetLoadBalancerNodes (r : SetLoadBalancerNodesRequest)
| ConfigReloadRequest (r : BaseUserRequest).

Definition Request_Base (req : Request) : BaseRequest :=
  let user := BaseUserRequest_Base in
  let job r := user (BaseJobRequest_Base r) in
  let stream r := job (BaseJobStreamRequest_Base r) in
  match req with
  | HeartbeatRequest r => r
  | ReqBootstrap r => BootstrapRequest_Base r
  | ReqSubmitJob r => user (SubmitJobRequest_Base r)
  | ReqJobState r => job (JobStateRequest_Base r)
  | JobStatusStreamRequest r | JobResourceUtilRequest r => stream r
  | ReqControlJob r => job (ControlJobRequest_Base r)
  | ReqJobOutput r => stream (JobOutputRequest_Base r)
  | JobNetworkRequest r => job r
  | ClusterInfoRequest r | ConfigReloadRequest r => user r
  | ReqSetLoadBalancerNodes r => user (SetLoadBalancerNodesRequest_Base r)
  end.

(** The methods of the [Request] interface, promoted from [BaseRequest]. *)
Definition Request_ID (req : Request) : outcome Z := BaseRequest_ID (Request_Base req).
Definition Request_Type (req : Request) : outcome Z := BaseRequest_Type (Request_Base req).

(** The empty struct to unmarshal a message into. *)
Definition zeroBase : BaseRequest := mkBaseRequest None None.
Definition zeroUser : BaseUserRequest := mkBaseUserRequest zeroBase "" "".
Definition zeroJobRequest : BaseJobRequest := mkBaseJobRequest zeroUser "" "".
Definition zeroStream : BaseJobStreamRequest := mkBaseJobStreamRequest zeroJobRequest false.

Definition requestForType (rt : requestType) : Request + error :=
  if (rt =? requestHeartbeat)%Z
  then inr (ErrDetail ErrUnknownRequestType "unexpected heartbeat in requestForType")
  else if (rt =? requestBootstrap)%Z then inl (ReqBootstrap (mkBootstrapRequest zeroBase (mkVersion 0 0 0 0 "")))
  else if (rt =? requestSubmitJob)%Z then inl (ReqSubmitJob (mkSubmitJobRequest zeroUser None))
  else if (rt =? requestJob)%Z
  then inl (ReqJobState (mkJobStateRequest zeroJobRequest (mkJobFilter [] None None [] [])))
  else if (rt =? requestJobStatus)%Z then inl (JobStatusStreamRequest zeroStream)
  else if (rt =? requestControlJob)%Z then inl (ReqControlJob (mkControlJobRequest zeroJobRequest 0 "" ""))
  else if (rt =? requestJobOutput)%Z then inl (ReqJobOutput (mkJobOutputRequest zeroStream 0))
  else if (rt =? requestJobResourceUtil)%Z then inl (JobResourceUtilRequest zeroStream)
  else if (rt =? requestJobNetwork)%Z then inl (JobNetworkRequest zeroJobRequest)
  else if (rt =? requestClusterInfo)%Z then inl (ClusterInfoRequest zeroUser)
  else if (rt =? requestSetLoadBalancerNodes)%Z
  then inl (ReqSetLoadBalancerNodes (mkSetLoadBalancerNodesRequest zeroUser []))
  else if (rt =? requestConfigReload)%Z then inl (ConfigReloadRequest zeroUser)
  else inr (ErrDetail ErrUnknownRequestType (strconv_Itoa rt)).

(** ** Response types *)
Abbreviation responseType := Z (only parsing).
Definition responseError : responseType := (-1)%Z.
Definition responseHeartbeat : responseType := 0%Z.
Definition responseBootstrap : responseType := 1%Z.
Definition responseJobState : responseType := 2%Z.
Definition responseJobStatus : responseType := 3%Z.
Definition responseControlJob : responseType := 4%Z.
Definition responseJobOutput : responseType := 5%Z.
Definition responseJobResourceUtil : responseType := 6%Z.
Definition responseJobNetwork : responseType := 7%Z.
Definition responseClusterInfo : responseType := 8%Z.
Definition responseSetLoadBalancerNodes : responseType := 201%Z.
Definition responseConfigReload : responseType := 202%Z.
Definition responseMetrics : responseType := 203%Z.

Record responseBase := mkResponseBase {
  responseBase_MessageType : responseType;
  responseBase_RequestID : Z;
  responseBase_ResponseID : Z;
}.

Record StreamSequence := mkStreamSequence {
  StreamSequence_RequestID : Z;
  StreamSequence_SequenceID : Z;
}.

Record ErrorResponse := mkErrorResponse {
  ErrorResponse_Base : responseBase;
  ErrorResponse_Code : ErrCode;
  ErrorResponse_Msg : string;
}.

Record BootstrapResponse := mkBootstrapResponse {
  BootstrapResponse_Base : responseBase;
  BootstrapResponse_Version : Version;
}.

Record JobStateResponse := mkJobStateResponse {
  JobStateResponse_Base : responseBase;
  JobStateResponse_Jobs : slice Job;
}.

Record JobStatusStreamResponse := mkJobStatusStreamResponse {
  JobStatusStreamResponse_Base : responseBase;
  JobStatusStreamResponse_Sequences : slice StreamSequence;
  JobStatusStreamResponse_ID : JobID;
  JobStatusStreamResponse_Name : string;
  JobStatusStreamResponse_Status : string;
  JobStatusStreamResponse_Code : string;
  JobStatusStreamResponse_Msg : string;
}.

Record JobOutputResponse := mkJobOutputResponse {
  JobOutputResponse_Base : responseBase;
  JobOutputResponse_SequenceID : Z;
  JobOutputResponse_Output : string;
  JobOutputResponse_OutputType : string;
  JobOutputResponse_Complete : bool;
}.

Record JobResourceResponse := mkJobResourceResponse {
  JobResourceResponse_Base : responseBase;
  JobResourceResponse_Sequences : slice StreamSequence;
  JobResourceResponse_CPUPercent : float64;
  JobResourceResponse_CPUTime : float64;
  JobResourceResponse_VirtualMem : float64;
  JobResourceResponse_ResidentMem : float64;
  JobResourceResponse_Complete : bool;
}.

Record ControlJobResponse := mkControlJobResponse {
  ControlJobResponse_Base : responseBase;
  ControlJobResponse_Msg : string;
  ControlJobResponse_Complete : bool;
}.

Record JobNetworkResponse := mkJobNetworkResponse {
  JobNetworkResponse_Base : responseBase;
  JobNetworkResponse_Host : string;
  JobNetworkResponse_Addr : slice string;
  JobNetworkResponse_Endpoints : slice string;
}.

Record ClusterInfo := mkClusterInfo {
  ClusterInfo_Containers : bool;
  ClusterInfo_InitContainers : bool;
  ClusterInfo_Configs : slice JobConfig;
  ClusterInfo_Constraints : slice PlacementConstraint;
  ClusterInfo_Queues : slice string;
  ClusterInfo_DefaultQueue : string;
  ClusterInfo_Limits : slice ResourceLimit;
  ClusterInfo_Images : slice string;
  ClusterInfo_DefaultImage : string;
  ClusterInfo_AllowUnknown : bool;
  ClusterInfo_Profiles : slice ResourceProfile;
  ClusterInfo_HostNetwork : bool;
}.

Record ClusterInfoResponse := mkClusterInfoResponse {
  ClusterInfoResponse_Base : responseBase;
  ClusterInfoResponse_Info : ClusterInfo;
}.

Record ConfigReloadResponse := mkConfigReloadResponse {
  ConfigReloadResponse_Base : responseBase;
  ConfigReloadResponse_ErrorType : ConfigReloadErrorType;
  ConfigReloadResponse_ErrorMessage : string;
}.

Record HistogramSample := mkHistogramSample {
  HistogramSample_Buckets : list float64;
  HistogramSample_Sum : float64;
}.

Record MetricsResponse := mkMetricsResponse {
  MetricsResponse_Base : responseBase;
  MetricsResponse_UptimeSeconds : Z;
  MetricsResponse_MemoryUsageBytes : Z;
  MetricsResponse_ClusterInteractionLatencySample : option HistogramSample;
}.

(** What goes over the response channel.  [RespBase] stands for the two
    aliases of [responseBase]: heartbeat and load-balancer responses. *)
Inductive Response :=
| RespBase (r : responseBase)
| RespError (r : ErrorResponse)
| RespBootstrap (r : BootstrapResponse)
| RespJobState (r : JobStateResponse)
| RespJobStatus (r : JobStatusStreamResponse)
| RespJobOutput (r : JobOutputResponse)
| RespJobResource (r : JobResourceResponse)
| RespControlJob (r : ControlJobResponse)
| RespJobNetwork (r : JobNetworkResponse)
| RespClusterInfo (r : ClusterInfoResponse)
| RespConfigReload (r : ConfigReloadResponse)
| RespMetrics (r : MetricsResponse).

Definition Response_Base (r : Response) : responseBase :=
  match r with
  | RespBase r => r
  | RespError r => ErrorResponse_Base r
  | RespBootstrap r => BootstrapResponse_Base r
  | RespJobState r => JobStateResponse_Base r
  | RespJobStatus r => JobStatusStreamResponse_Base r
  | RespJobOutput r => JobOutputResponse_Base r
  | RespJobResource r => JobResourceResponse_Base r
  | RespControlJob r => ControlJobResponse_Base r
  | RespJobNetwork r => JobNetworkResponse_Base r
  | RespClusterInfo r => ClusterInfoResponse_Base r
  | RespConfigReload r => ConfigReloadResponse_Base r
  | RespMetrics r => MetricsResponse_Base r
  end.

(** ** Constructors *)

(** [if s == nil { s = []T{} }]. *)
Definition non_null {A} (s : slice A) : slice A := Some (default [] s).

Definition NewHeartbeatResponse : responseBase := mkResponseBase responseHeartbeat 0 0.

Definition NewErrorResponse (requestID : Z) (code : ErrCode) (msg : string) : ErrorResponse :=
  mkErrorResponse (mkResponseBase responseError requestID 0) code msg.

Definition NewBootstrapResponse (requestID responseID : Z) : BootstrapResponse :=
  mkBootstrapResponse (mkResponseBase responseBootstrap requestID responseID) APIVersion.

Definition NewJobStateResponse (requestID responseID : Z) (jobs : slice Job) : JobStateResponse :=
  mkJobStateResponse (mkResponseBase responseJobState requestID responseID) (non_null jobs).

Definition NewJobStatusStreamResponse (responseID : Z) (id name status statusCode msg : string)
    : JobStatusStreamResponse :=
  mkJobStatusStreamResponse (mkResponseBase responseJobStatus 0 responseID) (Some []) id name status
    statusCode msg.

Definition NewJobOutputStreamResponse (requestID responseID : Z) : JobOutputResponse :=
  mkJobOutputResponse (mkResponseBase responseJobOutput requestID responseID) 0 "" "" false.

Definition zero_float : float64 := SpecFloat.S754_zero false.

Definition NewJobResourceResponse (responseID : Z) (complete : bool) : JobResourceResponse :=
  mkJobResourceResponse (mkResponseBase responseJobResourceUtil 0 responseID) (Some [])
    zero_float zero_float zero_float zero_float complete.

Definition NewControlJobResponse (requestID responseID : Z) (complete : bool) (msg : string)
    : ControlJobResponse :=
  mkControlJobResponse (mkResponseBase responseControlJob requestID responseID) msg complete.

Definition NewJobNetworkResponse (requestID responseID : Z) (host : string) (addr : slice string)
    : JobNetworkResponse :=
  mkJobNetworkResponse (mkResponseBase responseJobNetwork requestID responseID) host (non_null addr) None.

Definition NewClusterInfoResponse (requestID responseID : Z) (cluster : ClusterInfo)
    : ClusterInfoResponse :=
  mkClusterInfoResponse (mkResponseBase responseClusterInfo requestID responseID)
    (mkClusterInfo (ClusterInfo_Containers cluster) (ClusterInfo_InitContainers cluster)
       (non_null (ClusterInfo_Configs cluster)) (non_null (ClusterInfo_Constraints cluster))
       (ClusterInfo_Queues cluster) (ClusterInfo_DefaultQueue cluster)
       (non_null (ClusterInfo_Limits cluster)) (ClusterInfo_Images cluster)
       (ClusterInfo_DefaultImage cluster) (ClusterInfo_AllowUnknown cluster)
       (non_null (ClusterInfo_Profiles cluster)) (ClusterInfo_HostNetwork cluster)).

Definition NewSetLoadBalancerNodesResponse (requestID responseID : Z) : responseBase :=
  mkResponseBase responseSetLoadBalancerNodes requestID responseID.

Definition NewConfigReloadResponse (requestID responseID : Z) (errorType : ConfigReloadErrorType)
    (errorMessage : string) : ConfigReloadResponse :=
  mkConfigReloadResponse (mkResponseBase responseConfigReload requestID responseID) errorType errorMessage.

Definition NewMetricsResponse (uptimeSeconds memoryBytes : Z) (latency : option HistogramSample)
    : MetricsResponse :=
  mkMetricsResponse (mkResponseBase responseMetrics 0 0) uptimeSeconds memoryBytes latency.
