(* ===== verification/Communicator.v ===== *)
(** * The communicator (src/internal/protocol/communicator.go)

    [RequestFromJSON] and [Decoder.Request] over an interface for
    [json.Unmarshal], and [Communicator.Serve]: the goroutine that calls it, the
    reader, the writer, one goroutine per request, and the goroutines that
    handlers leave behind.  [serve_step] executes one atomic action of one of
    them, [serve_reachable] closes over all interleavings.

    A handler may send any responses, one after the other, before it returns:
    nothing else is assumed of it. *)

From Stdlib Require Import Strings.Byte.
From S2P Require Import Prelude GoStd Types Writer Stream Rpc.

(** ** Decoding requests *)

(** [json.Unmarshal] on the structs of rpc.go, with the text of its error.  The
    law is about embedding: the fields of [BaseRequest] are found at whatever
    depth the struct embeds it, and a pointer keeps its type.  [json_requests] is
    the instance that reads JSON texts. *)
Class Unmarshal := {
  unmarshal_base : bytes → BaseRequest + string;
  unmarshal_request : Request → bytes → Request + string;
}.

(** The dynamic type of a request, as the message type that selects it. *)
Definition Request_kind (req : Request) : requestType :=
  match req with
  | HeartbeatRequest _ => requestHeartbeat
  | ReqBootstrap _ => requestBootstrap
  | ReqSubmitJob _ => requestSubmitJob
  | ReqJobState _ => requestJob
  | JobStatusStreamRequest _ => requestJobStatus
  | ReqControlJob _ => requestControlJob
  | ReqJobOutput _ => requestJobOutput
  | JobResourceUtilRequest _ => requestJobResourceUtil
  | JobNetworkRequest _ => requestJobNetwork
  | ClusterInfoRequest _ => requestClusterInfo
  | ReqSetLoadBalancerNodes _ => requestSetLoadBalancerNodes
  | ConfigReloadRequest _ => requestConfigReload
  end.

Class UnmarshalLaws `{Unmarshal} := {
  unmarshal_embeds rt req0 req base buf :
    requestForType rt = inl req0 → unmarshal_request req0 buf = inl req →
    unmarshal_base buf = inl base → Request_Base req = base;
  unmarshal_kind req0 req buf :
    unmarshal_request req0 buf = inl req → Request_kind req = Request_kind req0;
}.

Section Decoding.
Context `{!Unmarshal}.

Definition RequestFromJSON (buf : bytes) : outcome (Request + error) :=
  match unmarshal_base buf with
  | inr err => Ret (inr (ErrDetail ErrMsgInvalid err))
  | inl base =>
      if negb (BaseRequest_Valid base)
      then Ret (inr (ErrDetail ErrMsgInvalid (String.string_of_list_byte buf)))
      else
        rt ← deref (BaseRequest_MessageType base);
        if (rt =? requestHeartbeat)%Z then Ret (inl (HeartbeatRequest base))
        else
          match requestForType rt with
          | inr err => Ret (inr err)
          | inl req =>
              match unmarshal_request req buf with
              | inr err => Ret (inr (ErrDetail ErrMsgInvalid err))
              | inl r => Ret (inl r)
              end
          end
  end.

Definition Decoder_Request (d : Decoder) : outcome (Decoder * option Request) :=
  match Decoder_err d with
  | Some _ => Ret (d, None)
  | None =>
      r ← RequestFromJSON (Decoder_current d);
      match r with
      | inl req => Ret (d, Some req)
      | inr err => Ret (d <| Decoder_err := Some err |>, None)
      end
  end.
End Decoding.

(** ** Channels *)
Record gochan (A : Type) := mkGochan { gochan_buf : list A; gochan_cap : nat; gochan_closed : bool }.
Arguments mkGochan {A}.
Arguments gochan_buf {A}.
Arguments gochan_cap {A}.
Arguments gochan_closed {A}.

(** [c <- x]: [None] while it blocks. *)
Definition gochan_send {A} (c : gochan A) (x : A) : option (outcome (gochan A)) :=
  if gochan_closed c then Some (Panic send_on_closed)
  else if (length (gochan_buf c) <? gochan_cap c)%nat
  then Some (Ret (mkGochan (gochan_buf c ++ [x]) (gochan_cap c) false))
  else None.

(** [x, ok := <-c]: [None] while it blocks. *)
Definition gochan_recv {A} (c : gochan A) : option (gochan A * option A) :=
  match gochan_buf c with
  | x :: rest => Some (mkGochan rest (gochan_cap c) (gochan_closed c), Some x)
  | [] => if gochan_closed c then Some (c, None) else None
  end.

Definition gochan_close {A} (c : gochan A) : outcome (gochan A) :=
  if gochan_closed c then Panic close_of_closed
  else Ret (mkGochan (gochan_buf c) (gochan_cap c) true).

Definition negative_counter : string := "sync: negative WaitGroup counter".

(** ** The state of [Serve] *)
Record Communicator (W : Type) := mkCommunicator { comm_enc : Encoder W; comm_dec : Decoder }.
Arguments mkCommunicator {W}.
Arguments comm_enc {W}.
Arguments comm_dec {W}.

Definition NewCommunicator {W} (r : Reader) (w : W) (maxSize : nat) : Communicator W :=
  mkCommunicator (NewEncoder w (Z.of_nat maxSize)) (NewDecoder r maxSize).

(** The reader: at [c.dec.More()], at [reqCh <- req], at the log call that
    follows, at [errCh <- err], at [close(reqCh)], gone. *)
Inductive readerPc := RdMore | RdSend (req : Request) | RdLog (req : Request) | RdErr (err : error) | RdClose | RdExited.

(** The writer: at [range respCh], at [c.enc.Encode(resp)], at [errCh <- err],
    at [done <- struct{}{}], gone; the last two remember the error of the
    encoder, if it had one. *)
Inductive writerPc :=
| WrRange | WrEncode (resp : Response) | WrErr (err : error)
| WrDone (failed : option error) | WrExited (failed : option error).

(** The caller: in the select, at [wg.Wait()], at [close(respCh)], at [<-done],
    at the final check, returned. *)
Inductive mainPc := MnSelect | MnWait | MnClose | MnDone | MnCheck | MnReturned (err : option error).

(** A handler: running, at a send on [respCh], returned. *)
Inductive handlerPc := HdRunning | HdSend (resp : Response) | HdReturned.

(** [sv_background] counts the goroutines handlers started that send on
    [respCh] on their own (the metrics loop).  The last three fields are
    records: the requests handed to handlers, the responses sent on [respCh],
    and those encoded. *)
Record Serve (W : Type) := mkServe {
  sv_enc : Encoder W;
  sv_dec : Decoder;
  sv_reader : readerPc;
  sv_writer : writerPc;
  sv_main : mainPc;
  sv_err : option error;
  sv_reqCh : gochan Request;
  sv_respCh : gochan Response;
  sv_errCh : gochan error;
  sv_wg : Z;
  sv_handlers : list handlerPc;
  sv_background : nat;
  sv_cancelled : bool;
  sv_dispatched : list Request;
  sv_sent : list Response;
  sv_written : list Response;
}.
Arguments mkServe {W}.
Arguments sv_enc {W}.
Arguments sv_dec {W}.
Arguments sv_reader {W}.
Arguments sv_writer {W}.
Arguments sv_main {W}.
Arguments sv_err {W}.
Arguments sv_reqCh {W}.
Arguments sv_respCh {W}.
Arguments sv_errCh {W}.
Arguments sv_wg {W}.
Arguments sv_handlers {W}.
Arguments sv_background {W}.
Arguments sv_cancelled {W}.
Arguments sv_dispatched {W}.
Arguments sv_sent {W}.
Arguments sv_written {W}.

#[export] Instance eta_Serve {W} : Eta (Serve W) := λ s,
  mkServe (sv_enc s) (sv_dec s) (sv_reader s) (sv_writer s) (sv_main s) (sv_err s) (sv_reqCh s)
    (sv_respCh s) (sv_errCh s) (sv_wg s) (sv_handlers s) (sv_background s) (sv_cancelled s)
    (sv_dispatched s) (sv_sent s) (sv_written s).
#[export] Instance set_sv_enc {W} : Setter (@sv_enc W) := ltac:(solve_setter).
#[export] Instance set_sv_dec {W} : Setter (@sv_dec W) := ltac:(solve_setter).
#[export] Instance set_sv_reader {W} : Setter (@sv_reader W) := ltac:(solve_setter).
#[export] Instance set_sv_writer {W} : Setter (@sv_writer W) := ltac:(solve_setter).
#[export] Instance set_sv_main {W} : Setter (@sv_main W) := ltac:(solve_setter).
#[export] Instance set_sv_err {W} : Setter (@sv_err W) := ltac:(solve_setter).
#[export] Instance set_sv_reqCh {W} : Setter (@sv_reqCh W) := ltac:(solve_setter).
#[export] Instance set_sv_respCh {W} : Setter (@sv_respCh W) := ltac:(solve_setter).
#[export] Instance set_sv_errCh {W} : Setter (@sv_errCh W) := ltac:(solve_setter).
#[export] Instance set_sv_wg {W} : Setter (@sv_wg W) := ltac:(solve_setter).
#[export] Instance set_sv_handlers {W} : Setter (@sv_handlers W) := ltac:(solve_setter).
#[export] Instance set_sv_background {W} : Setter (@sv_background W) := ltac:(solve_setter).
#[export] Instance set_sv_cancelled {W} : Setter (@sv_cancelled W) := ltac:(solve_setter).
#[export] Instance set_sv_dispatched {W} : Setter (@sv_dispatched W) := ltac:(solve_setter).
#[export] Instance set_sv_sent {W} : Setter (@sv_sent W) := ltac:(solve_setter).
#[export] Instance set_sv_written {W} : Setter (@sv_written W) := ltac:(solve_setter).

(** The state when the goroutines have been started. *)
Definition Serve_start {W} (c : Communicator W) : Serve W :=
  mkServe (comm_enc c) (comm_dec c) RdMore WrRange MnSelect None
    (mkGochan [] 100 false) (mkGochan [] 100 false) (mkGochan [] 1 false) 0 [] 0 false [] [] [].

Section Step.
Context {W : Type} `{!Writer W} `{!Unmarshal}.
Variable json_Marshal : Response → option bytes.

(** *** The reader goroutine *)

(** What follows the loop: [if err := c.dec.Err(); err != nil]. *)
Definition reader_after (d : Decoder) : readerPc :=
  match Decoder_Err d with Some err => RdErr err | None => RdClose end.

Definition reader_step (s : Serve W) : option (outcome (Serve W)) :=
  match sv_reader s with
  | RdMore =>
      let '(d, more) := Decoder_More (sv_dec s) in
      if negb more then Some (Ret (s <| sv_dec := d |> <| sv_reader := reader_after d |>))
      else
        Some (r ← Decoder_Request d;
              match r with
              | (d, None) => Ret (s <| sv_dec := d |> <| sv_reader := reader_after d |>)
              | (d, Some req) => Ret (s <| sv_dec := d |> <| sv_reader := RdSend req |>)
              end)
  | RdSend req =>
      res ← gochan_send (sv_reqCh s) req;
      Some (c ← res; Ret (s <| sv_reqCh := c |> <| sv_reader := RdLog req |>))
  | RdLog req =>
      Some (_ ← Request_ID req; _ ← Request_Type req; Ret (s <| sv_reader := RdMore |>))
  | RdErr err =>
      res ← gochan_send (sv_errCh s) err;
      Some (c ← res; Ret (s <| sv_errCh := c |> <| sv_reader := RdClose |>))
  | RdClose =>
      Some (c ← gochan_close (sv_reqCh s); Ret (s <| sv_reqCh := c |> <| sv_reader := RdExited |>))
  | RdExited => None
  end.

(** *** The writer goroutine *)
Definition writer_step (s : Serve W) : option (outcome (Serve W)) :=
  match sv_writer s with
  | WrRange =>
      '(c, got) ← gochan_recv (sv_respCh s);
      match got with
      | Some resp => Some (Ret (s <| sv_respCh := c |> <| sv_writer := WrEncode resp |>))
      | None => Some (Ret (s <| sv_writer := WrDone None |>))
      end
  | WrEncode resp =>
      match Encoder_Encode (sv_enc s) (json_Marshal resp) with
      | (e, None) =>
          Some (Ret (s <| sv_enc := e |> <| sv_writer := WrRange |>
                       <| sv_written := sv_written s ++ [resp] |>))
      | (e, Some err) => Some (Ret (s <| sv_enc := e |> <| sv_writer := WrErr err |>))
      end
  | WrErr err =>
      res ← gochan_send (sv_errCh s) err;
      Some (c ← res; Ret (s <| sv_errCh := c |> <| sv_writer := WrDone (Some err) |>))
  | WrDone failed =>
      (* [done] has no buffer: the send meets the receive. *)
      match sv_main s with
      | MnDone => Some (Ret (s <| sv_writer := WrExited failed |> <| sv_main := MnCheck |>))
      | _ => None
      end
  | WrExited _ => None
  end.

(** *** The caller *)

(** The cases of the select. *)
Inductive case := CaseCtx | CaseErr | CaseReq.

Definition select_step (s : Serve W) (c : case) : option (outcome (Serve W)) :=
  match c with
  | CaseCtx => if sv_cancelled s then Some (Ret (s <| sv_main := MnWait |>)) else None
  | CaseErr =>
      '(ch, err) ← gochan_recv (sv_errCh s);
      Some (Ret (s <| sv_errCh := ch |> <| sv_err := err |> <| sv_main := MnWait |>))
  | CaseReq =>
      '(ch, got) ← gochan_recv (sv_reqCh s);
      match got with
      | None => Some (Ret (s <| sv_main := MnWait |>))
      | Some req =>
          Some (Ret (s <| sv_reqCh := ch |> <| sv_wg := (sv_wg s + 1)%Z |>
                       <| sv_handlers := sv_handlers s ++ [HdRunning] |>
                       <| sv_dispatched := sv_dispatched s ++ [req] |>))
      end
  end.

Definition main_step (s : Serve W) (c : case) : option (outcome (Serve W)) :=
  match sv_main s with
  | MnSelect => select_step s c
  | MnWait => if (sv_wg s =? 0)%Z then Some (Ret (s <| sv_main := MnClose |>)) else None
  | MnClose =>
      Some (c ← gochan_close (sv_respCh s); Ret (s <| sv_respCh := c |> <| sv_main := MnDone |>))
  | MnDone => None
  | MnCheck =>
      Some (Ret (match sv_err s with
                 | Some err => s <| sv_main := MnReturned (Some err) |>
                 | None =>
                     match gochan_buf (sv_errCh s) with
                     | err :: rest =>
                         s <| sv_errCh := mkGochan rest 1 (gochan_closed (sv_errCh s)) |>
                           <| sv_main := MnReturned (Some err) |>
                     | [] => s <| sv_main := MnReturned None |>
                     end
                 end))
  | MnReturned _ => None
  end.

(** *** Handlers *)

(** What a handler does next: a send, the start of a metrics loop, its return. *)
Inductive action := ActSend (resp : Response) | ActBackground | ActReturn.

Definition handler_step (s : Serve W) (i : nat) (a : action) : option (outcome (Serve W)) :=
  h ← sv_handlers s !! i;
  match h with
  | HdRunning =>
      Some (match a with
            | ActSend resp => Ret (s <| sv_handlers := <[i := HdSend resp]> (sv_handlers s) |>)
            | ActBackground => Ret (s <| sv_background := S (sv_background s) |>)
            | ActReturn =>
                if (sv_wg s <=? 0)%Z then Panic negative_counter
                else Ret (s <| sv_handlers := <[i := HdReturned]> (sv_handlers s) |>
                            <| sv_wg := (sv_wg s - 1)%Z |>)
            end)
  | HdSend resp =>
      res ← gochan_send (sv_respCh s) resp;
      Some (c ← res;
            Ret (s <| sv_respCh := c |> <| sv_handlers := <[i := HdRunning]> (sv_handlers s) |>
                   <| sv_sent := sv_sent s ++ [resp] |>))
  | HdReturned => None
  end.

(** A turn of the metrics loop: [select { case ch <- resp: default: }]. *)
Definition background_step (s : Serve W) (resp : MetricsResponse) : option (outcome (Serve W)) :=
  match sv_background s with
  | O => None
  | S _ =>
      Some (match gochan_send (sv_respCh s) (RespMetrics resp) with
            | Some res => c ← res; Ret (s <| sv_respCh := c |>
                                          <| sv_sent := sv_sent s ++ [RespMetrics resp] |>)
            | None => Ret s
            end)
  end.

(** The metrics loop ends when the context does. *)
Definition background_stop (s : Serve W) : option (outcome (Serve W)) :=
  match sv_background s with
  | S n => if sv_cancelled s then Some (Ret (s <| sv_background := n |>)) else None
  | O => None
  end.

Inductive serveEvent :=
| EvReader
| EvWriter
| EvMain (c : case)
| EvHandler (i : nat) (a : action)
| EvMetrics (resp : MetricsResponse)
| EvMetricsStop
| EvCancel.

Definition serve_step (s : Serve W) (e : serveEvent) : option (outcome (Serve W)) :=
  match e with
  | EvReader => reader_step s
  | EvWriter => writer_step s
  | EvMain c => main_step s c
  | EvHandler i a => handler_step s i a
  | EvMetrics resp => background_step s resp
  | EvMetricsStop => background_stop s
  | EvCancel => Some (Ret (s <| sv_cancelled := true |>))
  end.

Fixpoint serve_run (s : Serve W) (es : list serveEvent) : option (outcome (Serve W)) :=
  match es with
  | [] => Some (Ret s)
  | e :: es' =>
      match serve_step s e with
      | Some (Ret s') => serve_run s' es'
      | other => other
      end
  end.

(** The states some interleaving leads to from the start of [Serve] on [c]. *)
Inductive serve_reachable (c : Communicator W) : Serve W → Prop :=
| serve_reachable_start : serve_reachable c (Serve_start c)
| serve_reachable_step s e s' :
    serve_reachable c s → serve_step s e = Some (Ret s') → serve_reachable c s'.
End Step.
