(* ===== verification/CommunicatorFacts.v ===== *)
(** * Invariant of the communicator

    What holds in every state [Serve] can reach, for every handler and every
    interleaving: who may still send, what is on its way, and where an error is
    recorded. *)

From Stdlib Require Import Strings.Byte.
From S2P Require Import Prelude GoStd Types Writer Stream Rpc Communicator.

(** ** Decoded requests are usable *)

Lemma Valid_ID_Type (base : BaseRequest) :
  BaseRequest_Valid base = true →
  ∃ id rt, BaseRequest_ID base = Ret id ∧ BaseRequest_Type base = Ret rt.
Proof.
  destruct base as [[rt|] [id|]]; unfold BaseRequest_Valid; cbn; try done. eauto.
Qed.

Lemma requestForType_kind rt req : requestForType rt = inl req → Request_kind req = rt.
Proof.
  unfold requestForType. intros H.
  repeat match type of H with
         | (if Z.eqb rt ?k then _ else _) = _ => destruct (Z.eqb_spec rt k) as [->|]; [by simplify_eq|]
         end. done.
Qed.

Lemma RequestFromJSON_returns `{!Unmarshal} buf : ∃ r, RequestFromJSON buf = Ret r.
Proof.
  unfold RequestFromJSON. destruct (unmarshal_base buf) as [[[rt|] [id|]]|]; cbn; eauto.
  repeat case_match; eauto.
Qed.

(** What [RequestFromJSON] accepts has an ID and a type, and is of the type its
    message type announces. *)
Lemma RequestFromJSON_accepts `{!Unmarshal, !UnmarshalLaws} buf req :
  RequestFromJSON buf = Ret (inl req) →
  BaseRequest_Valid (Request_Base req) = true ∧ Request_Type req = Ret (Request_kind req).
Proof.
  unfold RequestFromJSON, Request_Type, BaseRequest_Type.
  destruct (unmarshal_base buf) as [base|] eqn:Hbase; [|done].
  destruct (BaseRequest_Valid base) eqn:Hv; cbn; [|done].
  destruct (BaseRequest_MessageType base) as [rt|] eqn:Hrt; cbn; [|done].
  destruct (Z.eqb_spec rt requestHeartbeat) as [->|].
  - intros [= <-]. cbn. by rewrite Hrt.
  - destruct (requestForType rt) as [req0|] eqn:Hr0; [|done].
    destruct (unmarshal_request req0 buf) as [r|] eqn:Hr; [|done].
    intros [= <-]. rewrite (unmarshal_embeds _ _ _ _ _ Hr0 Hr Hbase), Hrt. cbn.
    by rewrite (unmarshal_kind _ _ _ Hr), (requestForType_kind _ _ Hr0).
Qed.

(** ** Channels *)
Lemma gochan_send_Some {A} (c : gochan A) x res :
  gochan_send c x = Some res →
  (gochan_closed c = true ∧ res = Panic send_on_closed) ∨
  (gochan_closed c = false ∧ res = Ret (mkGochan (gochan_buf c ++ [x]) (gochan_cap c) false)).
Proof. unfold gochan_send. repeat case_match; naive_solver. Qed.

Lemma gochan_recv_Some {A} (c : gochan A) c' got :
  gochan_recv c = Some (c', got) →
  match got with
  | Some x => ∃ rest, gochan_buf c = x :: rest ∧ c' = mkGochan rest (gochan_cap c) (gochan_closed c)
  | None => c' = c ∧ gochan_buf c = [] ∧ gochan_closed c = true
  end.
Proof. unfold gochan_recv. repeat case_match; naive_solver. Qed.

(** ** Counting handlers *)
Definition active (h : handlerPc) : bool := match h with HdReturned => false | _ => true end.

Definition active_count (l : list handlerPc) : Z :=
  Z.of_nat (length (base.filter (λ h, active h = true) l)).

Lemma active_count_app l h : active_count (l ++ [h]) = (active_count l + if active h then 1 else 0)%Z.
Proof.
  unfold active_count. rewrite list.filter_app, length_app, filter_cons, filter_nil.
  destruct (active h); case_decide; (congruence || (cbn; lia)).
Qed.

Lemma active_count_insert l i h h' :
  l !! i = Some h →
  active_count (<[i := h']> l) =
  (active_count l - (if active h then 1 else 0) + (if active h' then 1 else 0))%Z.
Proof.
  unfold active_count. revert i. induction l as [|x l IH]; intros [|i] Hi; simplify_eq/=.
  - rewrite !filter_cons. destruct (active h), (active h'); repeat case_decide; (congruence || (cbn; lia)).
  - specialize (IH i Hi). rewrite !filter_cons. case_decide; cbn; lia.
Qed.

Lemma active_count_pos l i h : l !! i = Some h → active h = true → (0 < active_count l)%Z.
Proof.
  intros Hi Ha. unfold active_count.
  assert (h ∈ base.filter (λ h, active h = true) l) as Hin.
  { apply list_elem_of_filter. split; [done|]. by eapply list_elem_of_lookup_2. }
  destruct (base.filter _ l); [by apply not_elem_of_nil in Hin|]. cbn. lia.
Qed.

(** Invert a step that was executed. *)
Ltac inv_step :=
  repeat first
    [ done
    | progress simplify_eq/=
    | match goal with
      | H : mbind (M:=option) _ _ = Some _ |- _ => apply bind_Some in H as (? & ? & ?)
      | H : mbind (M:=outcome) _ _ = Ret _ |- _ => apply bind_Ret_inv in H as (? & ? & ?)
      | H : Some _ = Some _ |- _ => injection H as H
      end
    | case_match ].

(** ** The invariant *)
Section Invariant.
Context {W : Type} `{!Writer W} `{!Unmarshal}.
Variable json_Marshal : Response → option bytes.

(** Encoding several responses, stopping at the first error. *)
Fixpoint encode_responses (e : Encoder W) (resps : list Response) : Encoder W * option error :=
  match resps with
  | [] => (e, None)
  | resp :: resps =>
      match Encoder_Encode e (json_Marshal resp) with
      | (e, Some err) => (e, Some err)
      | (e, None) => encode_responses e resps
      end
  end.

Lemma encode_responses_snoc e resps resp e1 :
  encode_responses e resps = (e1, None) →
  encode_responses e (resps ++ [resp]) = Encoder_Encode e1 (json_Marshal resp).
Proof.
  revert e. induction resps as [|r resps IH]; intros e; cbn.
  - intros [= <-]. by destruct (Encoder_Encode e _) as [? [?|]].
  - destruct (Encoder_Encode e (json_Marshal r)) as [e' [err|]]; [done|]. apply IH.
Qed.

(** The caller has closed [respCh]; it has waited for the handlers. *)
Definition main_closed (m : mainPc) : bool :=
  match m with MnDone | MnCheck | MnReturned _ => true | _ => false end.
Definition main_joined (m : mainPc) : bool :=
  match m with MnClose => true | _ => main_closed m end.
(** It has received from [done]. *)
Definition main_met (m : mainPc) : bool :=
  match m with MnCheck | MnReturned _ => true | _ => false end.

Definition main_error (m : mainPc) : bool := match m with MnReturned (Some _) => true | _ => false end.

Definition reader_exited (r : readerPc) : bool := match r with RdExited => true | _ => false end.
(** The reader has nothing more to report. *)
Definition reader_reported (r : readerPc) : bool :=
  match r with RdClose | RdExited => true | _ => false end.
Definition reader_request (r : readerPc) : option Request :=
  match r with RdSend req | RdLog req => Some req | _ => None end.

Definition writer_exited (w : writerPc) : bool := match w with WrExited _ => true | _ => false end.
Definition writer_failed (w : writerPc) : bool :=
  match w with WrErr _ | WrDone (Some _) | WrExited (Some _) => true | _ => false end.
(** The error was sent on [errCh]. *)
Definition writer_reported (w : writerPc) : bool :=
  match w with WrDone (Some _) | WrExited (Some _) => true | _ => false end.
Definition writer_finished (w : writerPc) : bool :=
  match w with WrDone None | WrExited None => true | _ => false end.
Definition writer_holds (w : writerPc) : list Response :=
  match w with WrEncode resp => [resp] | _ => [] end.

(** An error that [Serve] returns or will return. *)
Definition registered (s : Serve W) : Prop :=
  sv_err s ≠ None ∨ gochan_buf (sv_errCh s) ≠ [] ∨ main_error (sv_main s) = true.

Record serve_inv (e0 : Encoder W) (s : Serve W) : Prop := {
  si_resp : gochan_closed (sv_respCh s) = main_closed (sv_main s);
  si_req : gochan_closed (sv_reqCh s) = reader_exited (sv_reader s);
  si_errch : gochan_closed (sv_errCh s) = false;
  si_wg : sv_wg s = active_count (sv_handlers s);
  si_joined : main_joined (sv_main s) = true → sv_wg s = 0%Z;
  si_met : writer_exited (sv_writer s) = main_met (sv_main s);
  si_pipe : writer_failed (sv_writer s) = false →
    sv_written s ++ writer_holds (sv_writer s) ++ gochan_buf (sv_respCh s) = sv_sent s;
  si_finished : writer_finished (sv_writer s) = true →
    gochan_buf (sv_respCh s) = [] ∧ gochan_closed (sv_respCh s) = true;
  si_enc : writer_failed (sv_writer s) = false →
    encode_responses e0 (sv_written s) = (sv_enc s, None);
  si_writer : writer_reported (sv_writer s) = true → registered s;
  si_reader : reader_reported (sv_reader s) = true → Decoder_Err (sv_dec s) ≠ None → registered s;
  si_left : sv_main s ≠ MnSelect → sv_err s = None →
    sv_cancelled s = true ∨ (sv_reader s = RdExited ∧ gochan_buf (sv_reqCh s) = []);
  si_select : sv_main s = MnSelect → sv_err s = None;
  si_ok : sv_main s = MnReturned None →
    sv_err s = None ∧ writer_failed (sv_writer s) = false ∧
    (sv_cancelled s = true ∨ Decoder_Err (sv_dec s) = None);
}.

Lemma serve_inv_start (c : Communicator W) : serve_inv (comm_enc c) (Serve_start c).
Proof. by split. Qed.

(** Every action preserves it; only a send of a background goroutine on the
    closed channel can fail. *)
Definition kept (e0 : Encoder W) (r : outcome (Serve W)) : Prop :=
  ∃ s', r = Ret s' ∧ serve_inv e0 s'.

Ltac open_inv s H :=
  destruct s as [enc dec rd wr mn er [reqs rcap rcl] [resps pcap pcl] [errs ecap ecl] wg hs bg cn dp st wt];
  destruct H as [Hresp Hreq Herrch Hwg Hjoined Hmet Hpipe Hfin Henc Hwriter Hreader Hleft Hselect Hok];
  unfold registered in *; cbn in *.

Ltac close_inv :=
  eexists; (split; [reflexivity|]); split; unfold registered; cbn;
  try solve [done | tauto | intuition congruence | intuition eauto | intros; simplify_eq/=; done].

Lemma errs_grow (errs : list error) err : errs ++ [err] ≠ [].
Proof. by destruct errs. Qed.

Lemma serve_reader_inv e0 s r : serve_inv e0 s → reader_step s = Some r →
  (∀ req, reader_request (sv_reader s) = Some req → BaseRequest_Valid (Request_Base req) = true) →
  kept e0 r.
Proof.
  intros Hinv. open_inv s Hinv. unfold reader_step, kept. cbn. destruct rd; cbn in *.
  - destruct (Decoder_More dec) as [d more]. intros Hr _.
    assert (∀ d, ∃ s', Ret (mkServe enc d (reader_after d) wr mn er (mkGochan reqs rcap rcl)
      (mkGochan resps pcap pcl) (mkGochan errs ecap ecl) wg hs bg cn dp st wt) = Ret s' ∧
      serve_inv e0 s') as Hafter.
    { intros d'. unfold reader_after. destruct (Decoder_Err d') eqn:Hd; close_inv. }
    destruct more; cbn in Hr; simplify_eq; [|by apply Hafter].
    unfold Decoder_Request. destruct (Decoder_err d); [by apply Hafter|].
    destruct (RequestFromJSON_returns (Decoder_current d)) as [[req|err] ->]; cbn; [|by apply Hafter].
    close_inv.
  - unfold gochan_send. cbn. subst rcl. case_match; [|done]. intros [= <-] _. cbn. close_inv.
  - intros [= <-] Hv. destruct (Valid_ID_Type _ (Hv _ eq_refl)) as (id & rt & Hid & Hrt).
    unfold Request_ID, Request_Type. rewrite Hid, Hrt. cbn. close_inv.
  - unfold gochan_send. cbn. subst ecl. case_match; [|done]. intros [= <-] _. cbn.
    pose proof (errs_grow errs err). close_inv.
  - intros [= <-] _. unfold gochan_close. cbn. subst rcl. cbn. close_inv.
  - done.
Qed.

Lemma serve_writer_inv e0 s r : serve_inv e0 s → writer_step json_Marshal s = Some r → kept e0 r.
Proof.
  intros Hinv. open_inv s Hinv. unfold writer_step, kept. cbn. destruct wr; cbn in *.
  - destruct (gochan_recv _) as [[c got]|] eqn:Hr; [|done]. apply gochan_recv_Some in Hr. cbn in Hr.
    destruct got as [resp|]; intros [= <-].
    + destruct Hr as (rest & -> & ->). close_inv.
    + destruct Hr as (-> & -> & ->). close_inv.
  - specialize (Hpipe eq_refl). specialize (Henc eq_refl).
    pose proof (encode_responses_snoc _ _ resp _ Henc) as Hsnoc.
    destruct (Encoder_Encode enc (json_Marshal resp)) as [e [err|]]; intros [= <-]; [close_inv|].
    close_inv. intros _. by rewrite <- app_assoc.
  - unfold gochan_send. cbn. subst ecl. case_match; [|done]. intros [= <-]. cbn.
    pose proof (errs_grow errs err). close_inv.
  - destruct mn; try done. intros [= <-]. destruct failed; close_inv.
  - done.
Qed.

Lemma serve_main_inv e0 s c r : serve_inv e0 s → main_step s c = Some r → kept e0 r.
Proof.
  intros Hinv. open_inv s Hinv. unfold main_step, kept. cbn. destruct mn; cbn in *.
  - destruct c; cbn.
    + destruct cn; [|done]. intros [= <-]. close_inv.
    + destruct (gochan_recv _) as [[c got]|] eqn:Hr; [|done]. apply gochan_recv_Some in Hr. cbn in Hr.
      intros [= <-]. destruct got as [err|]; [|naive_solver].
      destruct Hr as (rest & -> & ->). close_inv.
    + destruct (gochan_recv _) as [[c got]|] eqn:Hr; [|done]. apply gochan_recv_Some in Hr. cbn in Hr.
      destruct got as [req|]; intros [= <-].
      * destruct Hr as (rest & -> & ->). close_inv. rewrite active_count_app. cbn. lia.
      * destruct Hr as (-> & -> & ->). destruct rd; try done. close_inv.
  - destruct (Z.eqb_spec wg 0); [|done]. intros [= <-]. close_inv.
  - intros [= <-]. unfold gochan_close. cbn. subst pcl. cbn. close_inv.
  - done.
  - intros [= <-]. destruct er as [err|]; [close_inv|]. destruct errs as [|err errs]; close_inv.
    intros _. split; [done|]. split.
    + destruct wr as [| | | |[err|]]; try done. by destruct (Hwriter eq_refl) as [?|[?|?]].
    + destruct Hleft as [?|[-> _]]; [done|done|by left|]. right.
      destruct (Decoder_Err dec) as [err|]; [|done].
      destruct (Hreader eq_refl ltac:(done)) as [?|[?|?]]; done.
  - done.
Qed.

Lemma serve_handler_inv e0 s i a r : serve_inv e0 s → handler_step s i a = Some r → kept e0 r.
Proof.
  intros Hinv. open_inv s Hinv. unfold handler_step, kept. cbn.
  destruct (hs !! i) as [h|] eqn:Hi; cbn; [|done]. destruct h; cbn in *.
  - assert (0 < wg)%Z by (rewrite Hwg; by eapply active_count_pos).
    intros [= <-]. destruct a as [resp| |]; cbn.
    + close_inv. rewrite (active_count_insert _ _ _ _ Hi). cbn. lia.
    + close_inv.
    + destruct (Z.leb_spec wg 0); [lia|]. close_inv; [rewrite (active_count_insert _ _ _ _ Hi); cbn; lia|].
      intros Hj. specialize (Hjoined Hj). lia.
  - assert (0 < wg)%Z as Hpos by (rewrite Hwg; by eapply active_count_pos).
    assert (main_closed mn = false) as Hopen.
    { destruct mn; cbn in *; try done; by rewrite Hjoined in Hpos. }
    unfold gochan_send. cbn. rewrite Hresp, Hopen. case_match; [|done]. intros [= <-]. cbn. close_inv.
    + rewrite (active_count_insert _ _ _ _ Hi). cbn. lia.
    + intros Hf. by rewrite <- Hpipe, <- !app_assoc.
  - done.
Qed.

Lemma serve_background_inv e0 s resp s' :
  serve_inv e0 s → background_step s resp = Some (Ret s') → serve_inv e0 s'.
Proof.
  intros Hinv. open_inv s Hinv. unfold background_step. cbn. destruct bg; [done|].
  destruct (gochan_send _ _) as [res|] eqn:Hs; [|intros [= <-]; by split].
  apply gochan_send_Some in Hs as [[Hc ->]|[Hc ->]]; cbn in *; [done|]. intros [= <-].
  split; unfold registered; cbn; try done.
  - congruence.
  - intros Hf. by rewrite <- Hpipe, <- !app_assoc.
  - intros Hf. apply Hfin in Hf as [_ Hf]. congruence.
Qed.

(** *** Every reachable state *)
Section Reachable.
Context `{!UnmarshalLaws}.
Variable c : Communicator W.

(** The reader only holds requests that [RequestFromJSON] accepted. *)
Definition reader_valid (s : Serve W) : Prop :=
  ∀ req, reader_request (sv_reader s) = Some req → BaseRequest_Valid (Request_Base req) = true.

(** Steps of the other goroutines leave the reader alone. *)
Lemma step_reader s e s' :
  serve_step json_Marshal s e = Some (Ret s') → e ≠ EvReader →
  sv_reader s' = sv_reader s ∧ sv_dec s' = sv_dec s.
Proof.
  destruct s. intros Hs He. destruct e; cbn in Hs; try done;
    unfold writer_step, main_step, select_step, handler_step, background_step, background_stop in Hs; cbn in Hs;
    inv_step.
Qed.

Lemma step_valid s e s' :
  reader_valid s → serve_step json_Marshal s e = Some (Ret s') → reader_valid s'.
Proof.
  intros Hv Hs. assert (e = EvReader ∨ e ≠ EvReader) as [->|He] by (destruct e; auto).
  2:{ unfold reader_valid. by rewrite (proj1 (step_reader _ _ _ Hs He)). }
  destruct s. unfold reader_valid in *. cbn in *. unfold reader_step in Hs. cbn in Hs.
  unfold reader_after, Decoder_Request in Hs.
  inv_step; intros ? ?; simplify_eq/=; try (by eapply Hv).
  by eapply RequestFromJSON_accepts.
Qed.

Lemma serve_step_inv e0 s e r :
  serve_inv e0 s → reader_valid s → serve_step json_Marshal s e = Some r →
  kept e0 r ∨ (0 < sv_background s ∧ gochan_closed (sv_respCh s) = true ∧ r = Panic send_on_closed).
Proof.
  intros Hinv Hv Hs. destruct e; cbn in Hs.
  - left. by eapply serve_reader_inv.
  - left. by eapply serve_writer_inv.
  - left. by eapply serve_main_inv.
  - left. by eapply serve_handler_inv.
  - unfold kept. destruct r as [s'|why]; [left; eexists; split; [done|]; by eapply serve_background_inv|right].
    unfold background_step in Hs. destruct (sv_background s) eqn:Hb; [done|].
    destruct (gochan_send _ _) as [res|] eqn:Hsend; [|done].
    apply gochan_send_Some in Hsend as [[Hc ->]|[Hc ->]]; simplify_eq/=. split_and!; [lia|done|done].
  - left. destruct Hinv, s. unfold background_stop in Hs. inv_step; eexists; (split; [done|]).
    split; unfold registered in *; cbn in *; naive_solver.
  - left. destruct Hinv, s. inv_step; eexists; (split; [done|]). split; unfold registered in *; cbn in *; naive_solver.
Qed.

Lemma serve_reachable_inv s :
  serve_reachable json_Marshal c s → serve_inv (comm_enc c) s ∧ reader_valid s.
Proof.
  induction 1 as [|s e s' _ [Hinv Hv] Hs]; [split; [apply serve_inv_start|done]|].
  split; [|by eapply step_valid].
  destruct (serve_step_inv _ _ _ _ Hinv Hv Hs) as [(s'' & [= <-] & H2)|(_ & _ & ?)]; done.
Qed.
End Reachable.

(** ** Requests: from the input to the handlers

    The input is a sequence of messages that [RequestFromJSON] accepts. *)
Section Input.
Context (msgs : list bytes) (reqs : list Request) (maxSize : nat) (w : W).
Context (Hreqs : Forall2 (λ msg req, RequestFromJSON msg = Ret (inl req)) msgs reqs).
Context (Hfits : Forall (fits maxSize) msgs).

Definition input_comm : Communicator W :=
  NewCommunicator (mkReader (mjoin (frame <$> msgs)) io_EOF) w maxSize.

Definition decoder_at (d : Decoder) (rest : list bytes) : Prop :=
  Decoder_wf d ∧ Decoder_err d = None ∧ Decoder_r d = mkReader (mjoin (frame <$> rest)) io_EOF ∧
  length (Decoder_buf d) = maxSize.

(** A request the reader has decoded and not queued yet. *)
Definition reader_pending (r : readerPc) : list Request :=
  match r with RdSend req => [req] | _ => [] end.

(** Handed over, queued, held by the reader, and still in the input: together
    these are all requests, in order. *)
Definition input_inv (s : Serve W) : Prop :=
  ∃ restm restr,
    sv_dispatched s ++ gochan_buf (sv_reqCh s) ++ reader_pending (sv_reader s) ++ restr = reqs ∧
    Forall2 (λ msg req, RequestFromJSON msg = Ret (inl req)) restm restr ∧
    Forall (fits maxSize) restm ∧
    match sv_reader s with
    | RdErr _ => False
    | RdClose | RdExited => restr = [] ∧ Decoder_err (sv_dec s) = Some io_EOF
    | _ => decoder_at (sv_dec s) restm
    end.

Lemma input_inv_start : input_inv (Serve_start input_comm).
Proof.
  exists msgs, reqs. cbn. unfold decoder_at. split_and!; try done. apply length_replicate.
Qed.

(** The requests on their way move only with the reader and the select. *)
Lemma step_input s e s' :
  serve_step json_Marshal s e = Some (Ret s') → e ≠ EvReader →
  sv_dispatched s' ++ gochan_buf (sv_reqCh s') = sv_dispatched s ++ gochan_buf (sv_reqCh s).
Proof.
  destruct s. intros Hs He. destruct e; cbn in Hs; try done;
    unfold writer_step, main_step, select_step, handler_step, background_step, background_stop in Hs; cbn in Hs;
    inv_step.
  match goal with H : gochan_recv _ = Some _ |- _ => apply gochan_recv_Some in H as (? & -> & ->) end.
  by rewrite <- app_assoc.
Qed.

Lemma input_inv_reader s s' : input_inv s → reader_step s = Some (Ret s') → input_inv s'.
Proof.
  intros (restm & restr & Hall & Hparse & Hfit & Hr) Hs. destruct s as [enc dec rd].
  unfold input_inv, reader_step in *. cbn in *. destruct rd as [|req|req|err| |]; cbn in *; try done.
  - destruct Hr as (Hwf & Herr & Hdata & Hlen). destruct Hparse as [|msg req restm restr Hreq Hparse].
    + destruct (More_end dec Herr Hdata) as (d' & Hm & He). rewrite Hm in Hs. cbn in Hs. simplify_eq/=.
      unfold reader_after, Decoder_Err. rewrite He. cbn. by exists [], [].
    + apply list.Forall_cons in Hfit as [Hmsg Hfit].
      destruct (More_frame dec msg (mjoin (frame <$> restm))) as (d' & Hm & Hwf' & He & Hc & Hlen' & Hr');
        [done|done|by rewrite Hdata|by rewrite Hlen|].
      rewrite Hm in Hs. cbn in Hs. unfold Decoder_Request in Hs. rewrite He, Hc, Hreq in Hs. simplify_eq/=.
      rewrite Hdata in Hr'. exists restm, restr. unfold decoder_at. split_and!; try done. congruence.
  - inv_step. match goal with H : gochan_send _ _ = Some _ |- _ => apply gochan_send_Some in H end.
    destruct_or!; destruct_and!; simplify_eq/=. exists restm, restr. by rewrite <- !app_assoc.
  - inv_step. by exists restm, restr.
  - inv_step. unfold gochan_close in *. inv_step. by exists restm, restr.
Qed.

Lemma input_inv_reachable s : serve_reachable json_Marshal input_comm s → input_inv s.
Proof.
  induction 1 as [|s e s' _ IH Hs]; [apply input_inv_start|].
  assert (e = EvReader ∨ e ≠ EvReader) as [->|He] by (destruct e; auto); [by eapply input_inv_reader|].
  destruct IH as (restm & restr & Hall & Hrest). destruct (step_reader _ _ _ Hs He) as [Hrd Hd].
  exists restm, restr. rewrite Hrd, Hd. split; [|done].
  rewrite app_assoc in Hall |- *. by rewrite (step_input _ _ _ Hs He).
Qed.

(** What is dispatched is a prefix of the input, and all of it in the end. *)
Lemma dispatched_prefix `{!UnmarshalLaws} s :
  serve_reachable json_Marshal input_comm s →
  sv_dispatched s `prefix_of` reqs ∧
  (sv_main s = MnReturned None → sv_cancelled s = false → sv_dispatched s = reqs).
Proof.
  intros Hs. pose proof (input_inv_reachable _ Hs) as (restm & restr & Hall & _ & _ & Hrd).
  split; [eexists; by rewrite <- Hall|]. intros Hret Hc.
  destruct (serve_reachable_inv _ _ Hs) as [Hinv _].
  destruct (si_ok _ _ Hinv Hret) as (Her & _ & _).
  destruct (si_left _ _ Hinv) as [?|[Hx Hb]]; [by rewrite Hret|done|congruence|].
  rewrite Hx, Hb in *. destruct Hrd as [-> _]. cbn in Hall. by rewrite app_nil_r in Hall.
Qed.
End Input.

(** ** A nil result *)
Lemma nil_delivers `{!UnmarshalLaws} (c : Communicator W) s :
  serve_reachable json_Marshal c s → sv_main s = MnReturned None →
  Forall (λ h, h = HdReturned) (sv_handlers s) ∧
  encode_responses (comm_enc c) (sv_sent s) = (sv_enc s, None) ∧
  (sv_cancelled s = false →
   sv_reader s = RdExited ∧ gochan_buf (sv_reqCh s) = [] ∧ Decoder_Err (sv_dec s) = None).
Proof.
  intros Hs Hret.
  destruct (serve_reachable_inv _ _ Hs) as [Hinv _]. destruct (si_ok _ _ Hinv Hret) as (Her & Hwf & Hdec).
  pose proof (si_met _ _ Hinv) as Hmet. rewrite Hret in Hmet. cbn in Hmet.
  destruct (sv_writer s) as [| | | |[err|]] eqn:Hw; try done. split_and!.
  - apply list.Forall_forall. intros h [i Hi]%list_elem_of_lookup. destruct (active h) eqn:Ha; [|by destruct h].
    pose proof (active_count_pos _ _ _ Hi Ha) as Hpos.
    rewrite <- (si_wg _ _ Hinv), (si_joined _ _ Hinv) in Hpos; [lia|by rewrite Hret].
  - pose proof (si_enc _ _ Hinv) as Henc. pose proof (si_pipe _ _ Hinv) as Hpipe.
    pose proof (si_finished _ _ Hinv) as Hfin. rewrite Hw in *. cbn in *.
    destruct (Hfin eq_refl) as [Hbuf _]. rewrite Hbuf, app_nil_r in Hpipe. rewrite <- Hpipe by done. auto.
  - intros Hc. destruct Hdec as [?|Hd]; [congruence|].
    destruct (si_left _ _ Hinv) as [?|[? ?]]; [by rewrite Hret|done|congruence|done].
Qed.

(** ** Shutting down *)

Lemma serve_run_app s es1 es2 s1 :
  serve_run json_Marshal s es1 = Some (Ret s1) →
  serve_run json_Marshal s (es1 ++ es2) = serve_run json_Marshal s1 es2.
Proof.
  revert s. induction es1 as [|e es IH]; intros s; cbn; [by intros [= <-]|].
  destruct (serve_step _ s e) as [[s'|]|]; [apply IH|done|done].
Qed.

Lemma serve_run_reachable (c : Communicator W) s es s' :
  serve_reachable json_Marshal c s → serve_run json_Marshal s es = Some (Ret s') →
  serve_reachable json_Marshal c s'.
Proof.
  revert s. induction es as [|e es IH]; intros s Hs; cbn; [by intros [= <-]|].
  destruct (serve_step _ s e) as [[s1|]|] eqn:He; [|done|done]. apply IH. by econstructor.
Qed.

Lemma Encode_maxSize (e : Encoder W) m :
  Encoder_maxSize (Encoder_Encode e m).1 = Encoder_maxSize e.
Proof.
  destruct m as [msg|]; [|done]. unfold Encoder_Encode, Encoder_write.
  repeat (case_match; cbn; try done).
Qed.

(** The response can be written, whatever was written before. *)
Definition encodes (maxSize : Z) (resp : Response) : Prop :=
  ∀ w, (Encoder_Encode (mkEncoder w maxSize) (json_Marshal resp)).2 = None.

Lemma encode_step s resp :
  sv_writer s = WrEncode resp → encodes (Encoder_maxSize (sv_enc s)) resp →
  ∃ s', serve_step json_Marshal s EvWriter = Some (Ret s') ∧ sv_writer s' = WrRange ∧
    sv_main s' = sv_main s ∧ sv_respCh s' = sv_respCh s ∧
    Encoder_maxSize (sv_enc s') = Encoder_maxSize (sv_enc s).
Proof.
  intros Hw He. cbn. unfold writer_step. rewrite Hw.
  pose proof (Encode_maxSize (sv_enc s) (json_Marshal resp)) as Hmax.
  specialize (He (Encoder_w (sv_enc s))). destruct (sv_enc s) as [w m]. cbn in *.
  destruct (Encoder_Encode _ _) as [e err]. cbn in *. subst err. by eexists.
Qed.

(** The writer empties a closed channel. *)
Lemma drain_range n s :
  sv_writer s = WrRange → gochan_closed (sv_respCh s) = true → length (gochan_buf (sv_respCh s)) = n →
  Forall (encodes (Encoder_maxSize (sv_enc s))) (gochan_buf (sv_respCh s)) →
  ∃ s', serve_run json_Marshal s (replicate (2 * n + 1) EvWriter) = Some (Ret s') ∧
    sv_writer s' = WrDone None ∧ sv_main s' = sv_main s.
Proof.
  revert s. induction n as [|n IH]; intros s Hw Hc Hn Hall.
  - destruct (sv_respCh s) as [[|] cap cl] eqn:Hch; [|done]. cbn in Hc. subst cl.
    cbn. unfold writer_step. rewrite Hw, Hch. by eexists.
  - destruct (sv_respCh s) as [[|resp rest] cap cl] eqn:Hch; [done|]. cbn in Hc, Hn. subst cl.
    apply list.Forall_cons in Hall as [Hresp Hall].
    set (s1 := s <| sv_respCh := mkGochan rest cap true |> <| sv_writer := WrEncode resp |>).
    destruct (encode_step s1 resp) as (s2 & Hs2 & Hw2 & Hm2 & Hch2 & He2); [done|done|].
    destruct (IH s2) as (s' & Hrun & Hw' & Hm'); [done|by rewrite Hch2|rewrite Hch2; cbn; lia|
      by rewrite Hch2, He2|].
    exists s'. replace (2 * S n + 1) with (S (S (2 * n + 1))) by lia. cbn [replicate serve_run].
    assert (serve_step json_Marshal s EvWriter = Some (Ret s1)) as ->.
    { cbn. unfold writer_step. by rewrite Hw, Hch. }
    rewrite Hs2. split_and!; [done|done|]. by rewrite Hm', Hm2.
Qed.

(** From any point of the writer's loop. *)
Lemma drain s :
  writer_exited (sv_writer s) = false → (∀ err, sv_writer s ≠ WrErr err) →
  gochan_closed (sv_respCh s) = true →
  Forall (encodes (Encoder_maxSize (sv_enc s))) (writer_holds (sv_writer s) ++ gochan_buf (sv_respCh s)) →
  ∃ n s' f, n ≤ 2 * length (gochan_buf (sv_respCh s)) + 2 ∧
    serve_run json_Marshal s (replicate n EvWriter) = Some (Ret s') ∧
    sv_writer s' = WrDone f ∧ sv_main s' = sv_main s.
Proof.
  intros Hx Herr Hc Hall. destruct (sv_writer s) as [|resp|err|f|f] eqn:Hw; [| |by destruct (Herr err)| |done].
  - destruct (drain_range _ s Hw Hc eq_refl Hall) as (s' & ? & ? & ?). eexists _, s', None. split_and!; [|done..]. lia.
  - apply list.Forall_cons in Hall as [Hresp Hall].
    destruct (encode_step s resp Hw Hresp) as (s1 & Hs1 & Hw1 & Hm1 & Hch1 & He1).
    destruct (drain_range (length (gochan_buf (sv_respCh s1))) s1 Hw1) as (s' & Hrun & Hw' & Hm');
      [by rewrite Hch1|done|by rewrite Hch1, He1|].
    eexists (S _), s', None. cbn [replicate serve_run]. rewrite Hs1. split_and!; [|done|done|congruence].
    rewrite Hch1. lia.
  - exists 0, s, f. split_and!; [lia|done..].
Qed.

Lemma check_returns s :
  sv_main s = MnCheck →
  ∃ s' err, serve_step json_Marshal s (EvMain CaseCtx) = Some (Ret s') ∧ sv_main s' = MnReturned err.
Proof.
  intros Hm. cbn. unfold main_step. rewrite Hm. destruct (sv_err s); [by eexists _, _|].
  destruct (gochan_buf (sv_errCh s)); by eexists _, _.
Qed.

(** Actions of the writer and the caller of [Serve]. *)
Definition own_event (e : serveEvent) : Prop := e = EvWriter ∨ e = EvMain CaseCtx.

(** After [close(respCh)]. *)
Lemma done_returns s :
  sv_main s = MnDone → writer_exited (sv_writer s) = false → (∀ err, sv_writer s ≠ WrErr err) →
  gochan_closed (sv_respCh s) = true →
  Forall (encodes (Encoder_maxSize (sv_enc s))) (writer_holds (sv_writer s) ++ gochan_buf (sv_respCh s)) →
  ∃ es s' err, length es ≤ 2 * length (gochan_buf (sv_respCh s)) + 4 ∧ Forall own_event es ∧
    serve_run json_Marshal s es = Some (Ret s') ∧ sv_main s' = MnReturned err.
Proof.
  intros Hm Hx Herr Hc Hall. destruct (drain s Hx Herr Hc Hall) as (n & s1 & f & Hn & Hrun & Hw1 & Hm1).
  set (s2 := s1 <| sv_writer := WrExited f |> <| sv_main := MnCheck |>).
  destruct (check_returns s2 eq_refl) as (s3 & err & Hs3 & Hm3).
  exists (replicate n EvWriter ++ [EvWriter; EvMain CaseCtx]), s3, err. split_and!; [| |rewrite (serve_run_app _ _ _ _ Hrun)|done].
  - rewrite length_app, length_replicate. cbn. lia.
  - apply Forall_app. split; [apply Forall_replicate; by left|constructor; [by left|constructor; [by right|constructor]]].
  - cbn [serve_run]. assert (serve_step json_Marshal s1 EvWriter = Some (Ret s2)) as ->.
    { cbn. unfold writer_step. by rewrite Hw1, Hm1, Hm. }
    by rewrite Hs3.
Qed.

(** Once all handlers have returned, the writer and the caller finish. *)
Lemma serve_finishes e0 s :
  serve_inv e0 s → sv_main s ≠ MnSelect → sv_wg s = 0%Z → (∀ err, sv_writer s ≠ WrErr err) →
  Forall (encodes (Encoder_maxSize (sv_enc s))) (writer_holds (sv_writer s) ++ gochan_buf (sv_respCh s)) →
  ∃ es s' err, length es ≤ 2 * length (gochan_buf (sv_respCh s)) + 6 ∧ Forall own_event es ∧
    serve_run json_Marshal s es = Some (Ret s') ∧ sv_main s' = MnReturned err.
Proof.
  intros Hinv Hleft Hwg Herr Henc.
  pose proof (si_met _ _ Hinv) as Hmet. pose proof (si_resp _ _ Hinv) as Hcl.
  destruct (sv_main s) as [| | | | |err] eqn:Hm; cbn in Hmet, Hcl; [done| | | | |].
  - set (s1 := s <| sv_respCh := mkGochan (gochan_buf (sv_respCh s)) (gochan_cap (sv_respCh s)) true |>
                 <| sv_main := MnDone |>).
    destruct (done_returns s1) as (es & s' & err & Hl & Hown & Hrun & Hret); try done.
    exists (EvMain CaseCtx :: EvMain CaseCtx :: es), s', err. split_and!; [cbn in *; lia|by repeat (constructor; [by right|])| |done].
    cbn. unfold main_step. rewrite Hm, Hwg. cbn. unfold gochan_close. by rewrite Hcl.
  - set (s1 := s <| sv_respCh := mkGochan (gochan_buf (sv_respCh s)) (gochan_cap (sv_respCh s)) true |>
                 <| sv_main := MnDone |>).
    destruct (done_returns s1) as (es & s' & err & Hl & Hown & Hrun & Hret); try done.
    exists (EvMain CaseCtx :: es), s', err. split_and!; [cbn in *; lia|by repeat (constructor; [by right|])| |done].
    cbn. unfold main_step. rewrite Hm. unfold gochan_close. by rewrite Hcl.
  - destruct (done_returns s) as (es & s' & err & Hl & Hown & Hrun & Hret); try done.
    exists es, s', err. split_and!; [lia|done|done|done].
  - destruct (check_returns s Hm) as (s' & err & Hs' & Hret).
    exists [EvMain CaseCtx], s', err. split_and!; [cbn; lia|repeat constructor; by right| |done]. cbn [serve_run]. by rewrite Hs'.
  - exists [], s, err. split_and!; [cbn; lia|constructor|done|done].
Qed.

(** ** A deadlock

    The encoder has failed and the writer is gone, [respCh] is full, and a
    handler wants to send: it never returns, and [wg.Wait] with it. *)
Record deadlocked (i : nat) (s : Serve W) : Prop := {
  dl_writer : ∃ err, sv_writer s = WrDone (Some err);
  dl_full : length (gochan_buf (sv_respCh s)) = gochan_cap (sv_respCh s);
  dl_open : gochan_closed (sv_respCh s) = false;
  dl_handler : ∃ resp, sv_handlers s !! i = Some (HdSend resp);
  dl_main : sv_main s = MnSelect ∨ sv_main s = MnWait;
  dl_wg : sv_wg s = active_count (sv_handlers s);
}.

Lemma full_blocks {A} (c : gochan A) x :
  length (gochan_buf c) = gochan_cap c → gochan_closed c = false → gochan_send c x = None.
Proof. intros Hl Hc. unfold gochan_send. by rewrite Hc, Hl, Nat.ltb_irrefl. Qed.

Lemma deadlocked_handler i j a s s' :
  deadlocked i s → handler_step s j a = Some (Ret s') → deadlocked i s'.
Proof.
  intros [Hw Hf Ho [resp Hh] Hm Hwg] Hs. unfold handler_step in Hs.
  destruct (sv_handlers s !! j) as [h|] eqn:Hj; [|done]. cbn in Hs. destruct h as [|r|]; [|by rewrite full_blocks in Hs|done].
  assert (i ≠ j) as Hij by congruence.
  destruct a; inv_step; split; cbn; eauto; try (exists resp; by rewrite list_lookup_insert_ne by done);
    rewrite (active_count_insert _ _ _ _ Hj); cbn; lia.
Qed.

Lemma deadlocked_step i s e s' :
  deadlocked i s → serve_step json_Marshal s e = Some (Ret s') → deadlocked i s'.
Proof.
  intros Hd Hs. destruct e; cbn in Hs; [| | |by eapply deadlocked_handler| | |].
  all: destruct Hd as [[err Hw] Hf Ho [resp' Hh] Hm Hwg].
  - unfold reader_step in Hs. inv_step; split; cbn; eauto.
  - unfold writer_step in Hs. rewrite Hw in Hs. by destruct Hm as [Hm|Hm]; rewrite Hm in Hs.
  - assert (0 < sv_wg s)%Z as Hpos by (rewrite Hwg; by eapply active_count_pos).
    unfold main_step in Hs. destruct Hm as [Hm|Hm]; rewrite Hm in Hs.
    + unfold select_step in Hs. inv_step; split; cbn; eauto.
      * exists resp'. by apply lookup_app_l_Some.
      * rewrite active_count_app. cbn. lia.
    + destruct (Z.eqb_spec (sv_wg s) 0); [lia|done].
  - unfold background_step in Hs. rewrite full_blocks in Hs by done. inv_step; split; eauto.
  - unfold background_stop in Hs. inv_step; split; cbn; eauto.
  - inv_step; split; cbn; eauto.
Qed.

Lemma deadlocked_forever i s es s' :
  deadlocked i s → serve_run json_Marshal s es = Some (Ret s') → deadlocked i s'.
Proof.
  revert s. induction es as [|e es IH]; intros s Hd; cbn; [by intros [= <-]|].
  destruct (serve_step _ s e) as [[s1|]|] eqn:He; [|done|done]. apply IH. by eapply deadlocked_step.
Qed.
End Invariant.
