(* ===== verification/CommunicatorProps.v ===== *)
(** * Properties of the communicator

    What [Serve] guarantees under every schedule and for every handler, and two
    ways in which it fails: a deadlock after a write error, and a panic of the
    metrics loop. *)

From Stdlib Require Import Strings.Byte.
From S2P Require Import Prelude GoStd Types Writer Stream Rpc Communicator CommunicatorFacts.

(** ** What holds *)
Section Props.
Context {W : Type} `{!Writer W} `{!Unmarshal, !UnmarshalLaws}.
Variable json_Marshal : Response → option bytes.

(** C16: whatever the handlers send and however the goroutines interleave,
    [Serve] does not panic as long as no handler leaves a goroutine behind that
    sends on its own: no send on a closed channel, no second close, no negative
    WaitGroup counter, and no nil request ID in the reader's log call. *)
Theorem serve_never_panics (c : Communicator W) (s : Serve W)
    (Hs : serve_reachable json_Marshal c s) (Hbg : sv_background s = 0) (e : serveEvent) (why : string) :
  serve_step json_Marshal s e ≠ Some (Panic why).
Proof.
  intros He. destruct (serve_reachable_inv _ _ _ Hs) as [Hinv Hv].
  destruct (serve_step_inv _ _ _ _ _ Hinv Hv He) as [(s' & Heq & _)|(Hb & _)]; [done|lia].
Qed.

(** When [Serve] returns nil, every handler has returned, and every response
    sent on the channel has been written, once and in the order of sending,
    without an encoding error; and unless the context was cancelled, the reader
    has stopped at a regular end of the input.  So an encoding error, or a
    reading error without a cancellation, is always returned. *)
Theorem serve_nil_delivers (c : Communicator W) (s : Serve W)
    (Hs : serve_reachable json_Marshal c s) (Hret : sv_main s = MnReturned None) :
  Forall (λ h, h = HdReturned) (sv_handlers s) ∧
  encode_responses json_Marshal (comm_enc c) (sv_sent s) = (sv_enc s, None) ∧
  (sv_cancelled s = false →
   sv_reader s = RdExited ∧ gochan_buf (sv_reqCh s) = [] ∧ Decoder_Err (sv_dec s) = None).
Proof. by eapply nil_delivers. Qed.

(** C17: for an input of well-formed messages, the requests handed to handlers
    are at any time a prefix of those in the input, in their order; and when
    [Serve] returns nil without a cancellation, they are all of them. *)
Theorem serve_dispatches_in_order (msgs : list bytes) (reqs : list Request) (maxSize : nat) (w : W)
    (Hreqs : Forall2 (λ msg req, RequestFromJSON msg = Ret (inl req)) msgs reqs)
    (Hfits : Forall (fits maxSize) msgs) (s : Serve W)
    (Hs : serve_reachable json_Marshal (input_comm msgs maxSize w) s) :
  sv_dispatched s `prefix_of` reqs ∧
  (sv_main s = MnReturned None → sv_cancelled s = false → sv_dispatched s = reqs).
Proof. by eapply dispatched_prefix. Qed.

(** Once [Serve] has left its loop and all handlers have returned, it
    returns after a bounded number of steps of its own and of the writer,
    provided the responses still queued can be encoded and the writer is not
    waiting to report an error. *)
Theorem serve_completes (c : Communicator W) (s : Serve W)
    (Hs : serve_reachable json_Marshal c s) (Hleft : sv_main s ≠ MnSelect) (Hwg : sv_wg s = 0%Z)
    (Herr : ∀ err, sv_writer s ≠ WrErr err)
    (Henc : Forall (encodes json_Marshal (Encoder_maxSize (sv_enc s)))
              (writer_holds (sv_writer s) ++ gochan_buf (sv_respCh s))) :
  ∃ es s' err, length es ≤ 2 * length (gochan_buf (sv_respCh s)) + 6 ∧
    serve_run json_Marshal s es = Some (Ret s') ∧ sv_main s' = MnReturned err.
Proof.
  destruct (serve_reachable_inv _ _ _ Hs) as [Hinv _].
  destruct (serve_finishes _ _ _ Hinv Hleft Hwg Herr Henc) as (es & s' & err & Hl & _ & Hrun & Hret).
  by exists es, s', err.
Qed.

(** The metrics loop outlives the handler that starts it and stops only when
    the context is cancelled: a tick after [Serve] has closed [respCh] sends on
    a closed channel and panics, with nothing to recover it. *)
Theorem metrics_after_close_panics (c : Communicator W) (s : Serve W)
    (Hs : serve_reachable json_Marshal c s) (Hclosed : main_closed (sv_main s) = true)
    (Hbg : 0 < sv_background s) (resp : MetricsResponse) :
  serve_step json_Marshal s (EvMetrics resp) = Some (Panic send_on_closed).
Proof.
  destruct (serve_reachable_inv _ _ _ Hs) as [Hinv _]. rewrite <- (si_resp _ _ _ Hinv) in Hclosed.
  cbn. unfold background_step, gochan_send. rewrite Hclosed. by destruct (sv_background s); [lia|].
Qed.

(** C35: every request [RequestFromJSON] accepts has an ID, and is of the Go type
    its message type stands for; and [RequestFromJSON] itself never panics. *)
Theorem RequestFromJSON_spec (buf : bytes) :
  ∃ r, RequestFromJSON buf = Ret r ∧
    match r with
    | inl req => (∃ id, Request_ID req = Ret id) ∧ Request_Type req = Ret (Request_kind req)
    | inr _ => True
    end.
Proof.
  destruct (RequestFromJSON_returns buf) as [[req|err] Hr]; rewrite Hr; (eexists; split; [done|]); [|done].
  destruct (RequestFromJSON_accepts _ _ Hr) as [Hv Ht].
  destruct (Valid_ID_Type _ Hv) as (id & rt & Hid & _). split; [by exists id|done].
Qed.
End Props.

(** ** A small message format

    Two bytes, the message type and the request ID: enough to run [Serve]. *)
Definition with_base (b : BaseRequest) (req : Request) : Request :=
  let user r := mkBaseUserRequest b (BaseUserRequest_Username r) (BaseUserRequest_ReqUsername r) in
  let job r := mkBaseJobRequest (user (BaseJobRequest_Base r)) (BaseJobRequest_JobID r)
                 (BaseJobRequest_EncodedJobID r) in
  let stream r := mkBaseJobStreamRequest (job (BaseJobStreamRequest_Base r)) (BaseJobStreamRequest_Cancel r) in
  match req with
  | HeartbeatRequest _ => HeartbeatRequest b
  | ReqBootstrap r => ReqBootstrap (mkBootstrapRequest b (BootstrapRequest_Version r))
  | ReqSubmitJob r => ReqSubmitJob (mkSubmitJobRequest (user (SubmitJobRequest_Base r)) (SubmitJobRequest_Job r))
  | ReqJobState r => ReqJobState (mkJobStateRequest (job (JobStateRequest_Base r)) (JobStateRequest_Filter r))
  | JobStatusStreamRequest r => JobStatusStreamRequest (stream r)
  | ReqControlJob r =>
      ReqControlJob (mkControlJobRequest (job (ControlJobRequest_Base r)) (ControlJobRequest_Operation r)
        (ControlJobRequest_StatusMessage r) (ControlJobRequest_StatusCode r))
  | ReqJobOutput r => ReqJobOutput (mkJobOutputRequest (stream (JobOutputRequest_Base r)) (JobOutputRequest_Output r))
  | JobResourceUtilRequest r => JobResourceUtilRequest (stream r)
  | JobNetworkRequest r => JobNetworkRequest (job r)
  | ClusterInfoRequest r => ClusterInfoRequest (user r)
  | ReqSetLoadBalancerNodes r =>
      ReqSetLoadBalancerNodes (mkSetLoadBalancerNodesRequest (user (SetLoadBalancerNodesRequest_Base r))
        (SetLoadBalancerNodesRequest_Nodes r))
  | ConfigReloadRequest r => ConfigReloadRequest (user r)
  end.

Definition two_bytes (buf : bytes) : BaseRequest + string :=
  match buf with
  | [t; i] => inl (mkBaseRequest (Some (Z_of_byte t)) (Some (Z_of_byte i)))
  | _ => inr "unexpected length"
  end.

#[export] Instance sample_Unmarshal : Unmarshal := {
  unmarshal_base := two_bytes;
  unmarshal_request req buf :=
    match two_bytes buf with inl b => inl (with_base b req) | inr err => inr err end;
}.

#[export] Instance sample_UnmarshalLaws : UnmarshalLaws.
Proof.
  split.
  - intros rt req0 req base buf _. cbn. intros H1 H2. rewrite H2 in H1. simplify_eq. by destruct req0.
  - intros req0 req buf. cbn. destruct (two_bytes buf); [|done]. intros [= <-]. by destruct req0.
Qed.

(** Heartbeat responses take two bytes, all others five. *)
Definition sample_Marshal (resp : Response) : option bytes :=
  match resp with RespBase _ => Some [x7b; x7d] | _ => Some (replicate 5 x20) end.

Definition small_response : Response := RespBase NewHeartbeatResponse.
Definition large_response : Response := RespBootstrap (NewBootstrapResponse 7 0).

(** Two requests, then the end of the input; messages of at most four bytes. *)
Definition sample_input : list bytes := [[x01; x07]; [x00; x08]].
Definition sample_comm : Communicator bytes := input_comm sample_input 4 [].

Definition run_or_start (es : list serveEvent) : Serve bytes :=
  match serve_run sample_Marshal (Serve_start sample_comm) es with
  | Some (Ret s) => s
  | _ => Serve_start sample_comm
  end.

Definition read_all : list serveEvent :=
  [EvReader; EvReader; EvReader; EvReader; EvReader; EvReader; EvReader; EvReader].
Definition dispatch_all : list serveEvent := [EvMain CaseReq; EvMain CaseReq; EvMain CaseReq].
Definition answer (i : nat) (resp : Response) : list serveEvent :=
  [EvHandler i (ActSend resp); EvHandler i (ActSend resp)].

(** A whole session: both requests are read and answered in the opposite order,
    the input ends, [Serve] returns. *)
Definition session : list serveEvent :=
  read_all ++ dispatch_all ++ answer 1 small_response ++ answer 0 small_response ++
  [EvHandler 0 ActReturn; EvHandler 1 ActReturn].
Definition shutdown : list serveEvent :=
  [EvMain CaseReq; EvMain CaseReq; EvWriter; EvWriter; EvWriter; EvWriter; EvWriter; EvWriter; EvMain CaseReq].

Lemma run_or_start_reachable es s :
  serve_run sample_Marshal (Serve_start sample_comm) es = Some (Ret s) →
  serve_reachable sample_Marshal sample_comm s.
Proof. intros H. eapply serve_run_reachable; [constructor|done]. Qed.

(** The state after the session, and after the shutdown. *)
Definition session_end : Serve bytes := run_or_start session.
Definition session_closed : Serve bytes := run_or_start (session ++ shutdown).

Lemma session_end_reachable : serve_reachable sample_Marshal sample_comm session_end.
Proof. apply (run_or_start_reachable session). vm_compute. reflexivity. Qed.

Lemma session_closed_reachable : serve_reachable sample_Marshal sample_comm session_closed.
Proof. apply (run_or_start_reachable (session ++ shutdown)). vm_compute. reflexivity. Qed.

Lemma serve_never_panics_witness :
  sv_main session_end = MnWait ∧
  ∀ e why, serve_step sample_Marshal session_end e ≠ Some (Panic why).
Proof.
  split; [by vm_compute|]. intros e why.
  apply (serve_never_panics sample_Marshal sample_comm session_end session_end_reachable).
  by vm_compute.
Defined.

Lemma serve_nil_delivers_witness :
  length (sv_sent session_closed) = 2 ∧
  Encoder_w (sv_enc session_closed) = frame [x7b; x7d] ++ frame [x7b; x7d] ∧
  encode_responses sample_Marshal (comm_enc sample_comm) (sv_sent session_closed) = (sv_enc session_closed, None).
Proof.
  split; [by vm_compute|]. split; [by vm_compute|].
  eapply (serve_nil_delivers sample_Marshal sample_comm session_closed session_closed_reachable).
  by vm_compute.
Defined.

Definition input_requests : list Request :=
  [ReqBootstrap (mkBootstrapRequest (mkBaseRequest (Some 1%Z) (Some 7%Z)) (mkVersion 0 0 0 0 ""));
   HeartbeatRequest (mkBaseRequest (Some 0%Z) (Some 8%Z))].

Lemma serve_dispatches_in_order_witness :
  sv_dispatched session_closed = input_requests.
Proof.
  apply (serve_dispatches_in_order sample_Marshal sample_input input_requests 4 []).
  - repeat constructor.
  - repeat constructor; cbn; lia.
  - exact session_closed_reachable.
  - by vm_compute.
  - by vm_compute.
Defined.

Lemma serve_completes_witness :
  ∃ es s' err, length es ≤ 10 ∧
    serve_run sample_Marshal session_end es = Some (Ret s') ∧ sv_main s' = MnReturned err.
Proof.
  apply (serve_completes sample_Marshal sample_comm session_end session_end_reachable).
  - by vm_compute.
  - by vm_compute.
  - intros err. by vm_compute.
  - vm_compute. repeat constructor.
Defined.

(** The first handler starts the metrics loop; the input ends; [Serve] closes
    the response channel. *)
Definition metrics_run : list serveEvent :=
  read_all ++ dispatch_all ++
  [EvHandler 0 ActBackground; EvHandler 0 ActReturn; EvHandler 1 ActReturn; EvMain CaseReq; EvMain CaseReq].

Lemma metrics_after_close_panics_witness :
  sv_cancelled (run_or_start metrics_run) = false ∧
  serve_step sample_Marshal (run_or_start metrics_run) (EvMetrics (NewMetricsResponse 60 0 None))
    = Some (Panic send_on_closed).
Proof.
  split; [by vm_compute|].
  apply (metrics_after_close_panics sample_Marshal sample_comm).
  - apply (run_or_start_reachable metrics_run). vm_compute. reflexivity.
  - by vm_compute.
  - vm_compute. lia.
Defined.

Lemma RequestFromJSON_spec_witness :
  ∃ r, RequestFromJSON [x01; x07] = Ret r ∧
    match r with
    | inl req => (∃ id, Request_ID req = Ret id) ∧ Request_Type req = Ret (Request_kind req)
    | inr _ => True
    end.
Proof. apply (RequestFromJSON_spec [x01; x07]). Defined.

(** ** A deadlock

    The first response is too large: the encoder fails and the writer stops.
    The handler goes on sending until the channel is full. *)
Definition deadlock_run : list serveEvent :=
  [EvReader; EvReader; EvMain CaseReq] ++ answer 0 large_response ++ [EvWriter; EvWriter; EvWriter; EvMain CaseErr] ++
  mjoin (replicate 100 (answer 0 small_response)) ++ [EvHandler 0 (ActSend small_response)].

(** One response that cannot be encoded can hang [Serve] for ever: the writer
    stops, the handler blocks on the full response channel, and [wg.Wait] blocks
    on the handler.  [Serve] has received the error by then, and returns it under
    no continuation, a cancelled context included. *)
Theorem serve_can_deadlock :
  ∃ s, serve_reachable sample_Marshal sample_comm s ∧ sv_err s = Some ErrMsgTooLarge ∧
    ∀ es s' err, serve_run sample_Marshal s es = Some (Ret s') → sv_main s' ≠ MnReturned err.
Proof.
  exists (run_or_start deadlock_run). split_and!.
  - apply (run_or_start_reachable deadlock_run). vm_compute. reflexivity.
  - by vm_compute.
  - intros es s' err Hrun Hret. apply (deadlocked_forever _ 0) in Hrun.
    + destruct Hrun as [_ _ _ _ [Hm|Hm] _]; congruence.
    + split; vm_compute; eauto.
Qed.
