(* ===== verification/RpcJson.v ===== *)
(** * Requests and responses in JSON (src/internal/protocol/rpc.go)

    The struct tags of the protocol messages, the reading of requests as an
    instance of the interface of the communicator ([json_requests]), and the
    writing of responses ([response_json]). *)

From Stdlib Require Import Strings.Byte.
From S2P Require Import Prelude GoStd Types Writer Stream Rpc Communicator Json Codec Floats Rfc3339 AnyJson ApiJson.

(** ** Requests *)
#[export] Instance set_BaseRequest_MessageType : Setter BaseRequest_MessageType := ltac:(solve_setter).
#[export] Instance set_BaseRequest_RequestID : Setter BaseRequest_RequestID := ltac:(solve_setter).
#[export] Instance set_BootstrapRequest_Base : Setter BootstrapRequest_Base := ltac:(solve_setter).
#[export] Instance set_BootstrapRequest_Version : Setter BootstrapRequest_Version := ltac:(solve_setter).
#[export] Instance set_BaseUserRequest_Base : Setter BaseUserRequest_Base := ltac:(solve_setter).
#[export] Instance set_BaseUserRequest_Username : Setter BaseUserRequest_Username := ltac:(solve_setter).
#[export] Instance set_BaseUserRequest_ReqUsername : Setter BaseUserRequest_ReqUsername := ltac:(solve_setter).
#[export] Instance set_SubmitJobRequest_Base : Setter SubmitJobRequest_Base := ltac:(solve_setter).
#[export] Instance set_SubmitJobRequest_Job : Setter SubmitJobRequest_Job := ltac:(solve_setter).
#[export] Instance set_BaseJobRequest_Base : Setter BaseJobRequest_Base := ltac:(solve_setter).
#[export] Instance set_BaseJobRequest_JobID : Setter BaseJobRequest_JobID := ltac:(solve_setter).
#[export] Instance set_BaseJobRequest_EncodedJobID : Setter BaseJobRequest_EncodedJobID := ltac:(solve_setter).
#[export] Instance set_JobStateRequest_Base : Setter JobStateRequest_Base := ltac:(solve_setter).
#[export] Instance set_JobStateRequest_Filter : Setter JobStateRequest_Filter := ltac:(solve_setter).
#[export] Instance set_BaseJobStreamRequest_Base : Setter BaseJobStreamRequest_Base := ltac:(solve_setter).
#[export] Instance set_BaseJobStreamRequest_Cancel : Setter BaseJobStreamRequest_Cancel := ltac:(solve_setter).
#[export] Instance set_ControlJobRequest_Base : Setter ControlJobRequest_Base := ltac:(solve_setter).
#[export] Instance set_ControlJobRequest_Operation : Setter ControlJobRequest_Operation := ltac:(solve_setter).
#[export] Instance set_ControlJobRequest_StatusMessage : Setter ControlJobRequest_StatusMessage := ltac:(solve_setter).
#[export] Instance set_ControlJobRequest_StatusCode : Setter ControlJobRequest_StatusCode := ltac:(solve_setter).
#[export] Instance set_JobOutputRequest_Base : Setter JobOutputRequest_Base := ltac:(solve_setter).
#[export] Instance set_JobOutputRequest_Output : Setter JobOutputRequest_Output := ltac:(solve_setter).
#[export] Instance set_SetLoadBalancerNodesRequest_Base : Setter SetLoadBalancerNodesRequest_Base := ltac:(solve_setter).
#[export] Instance set_SetLoadBalancerNodesRequest_Nodes : Setter SetLoadBalancerNodesRequest_Nodes := ltac:(solve_setter).

Definition BaseRequest_fields : list (field BaseRequest) := [
  req "messageType" (c_ptr c_int) BaseRequest_MessageType;
  req "requestId" (c_ptr c_uint64) BaseRequest_RequestID ].

Definition BootstrapRequest_fields : list (field BootstrapRequest) :=
  embed BootstrapRequest_Base BaseRequest_fields ++ [req "version" c_Version BootstrapRequest_Version].

Definition BaseUserRequest_fields : list (field BaseUserRequest) :=
  embed BaseUserRequest_Base BaseRequest_fields ++
  [req "username" c_string BaseUserRequest_Username; req "requestUsername" c_string BaseUserRequest_ReqUsername].

Definition BaseJobRequest_fields : list (field BaseJobRequest) :=
  embed BaseJobRequest_Base BaseUserRequest_fields ++
  [req "jobId" c_string BaseJobRequest_JobID; req "encodedJobId" c_string BaseJobRequest_EncodedJobID].

Definition BaseJobStreamRequest_fields : list (field BaseJobStreamRequest) :=
  embed BaseJobStreamRequest_Base BaseJobRequest_fields ++ [req "cancel" c_bool BaseJobStreamRequest_Cancel].

Definition ControlJobRequest_fields : list (field ControlJobRequest) :=
  embed ControlJobRequest_Base BaseJobRequest_fields ++
  [req "operation" c_int ControlJobRequest_Operation;
   opt "statusMessage" c_string ControlJobRequest_StatusMessage;
   opt "statusCode" c_string ControlJobRequest_StatusCode].

Definition JobOutputRequest_fields : list (field JobOutputRequest) :=
  embed JobOutputRequest_Base BaseJobStreamRequest_fields ++ [req "outputType" c_int JobOutputRequest_Output].

Section Requests.
Context `{!TimeZones}.

Definition SubmitJobRequest_fields : list (field SubmitJobRequest) :=
  embed SubmitJobRequest_Base BaseUserRequest_fields ++ [req "job" (c_ptr c_Job) SubmitJobRequest_Job].

Definition JobStateRequest_fields : list (field JobStateRequest) :=
  embed JobStateRequest_Base BaseJobRequest_fields ++ embed JobStateRequest_Filter JobFilter_fields.

Definition SetLoadBalancerNodesRequest_fields : list (field SetLoadBalancerNodesRequest) :=
  embed SetLoadBalancerNodesRequest_Base BaseUserRequest_fields ++
  [req "nodes" (c_list c_Node) SetLoadBalancerNodesRequest_Nodes].

(** json.Unmarshal into a struct with these fields: an object, or null. *)
Definition dec_struct {R} (fs : list (field R)) (d : doc) (r : R) : option R := c_dec (c_struct r fs) d r.

Definition dec_base (d : doc) : option BaseRequest := dec_struct BaseRequest_fields d zeroBase.

(** Into the struct [req] points to. *)
Definition dec_request (d : doc) (req : Request) : option Request :=
  match req with
  | HeartbeatRequest r => HeartbeatRequest <$> dec_struct BaseRequest_fields d r
  | ReqBootstrap r => ReqBootstrap <$> dec_struct BootstrapRequest_fields d r
  | ReqSubmitJob r => ReqSubmitJob <$> dec_struct SubmitJobRequest_fields d r
  | ReqJobState r => ReqJobState <$> dec_struct JobStateRequest_fields d r
  | JobStatusStreamRequest r => JobStatusStreamRequest <$> dec_struct BaseJobStreamRequest_fields d r
  | ReqControlJob r => ReqControlJob <$> dec_struct ControlJobRequest_fields d r
  | ReqJobOutput r => ReqJobOutput <$> dec_struct JobOutputRequest_fields d r
  | JobResourceUtilRequest r => JobResourceUtilRequest <$> dec_struct BaseJobStreamRequest_fields d r
  | JobNetworkRequest r => JobNetworkRequest <$> dec_struct BaseJobRequest_fields d r
  | ClusterInfoRequest r => ClusterInfoRequest <$> dec_struct BaseUserRequest_fields d r
  | ReqSetLoadBalancerNodes r => ReqSetLoadBalancerNodes <$> dec_struct SetLoadBalancerNodesRequest_fields d r
  | ConfigReloadRequest r => ConfigReloadRequest <$> dec_struct BaseUserRequest_fields d r
  end.

Definition text_of (buf : bytes) : string := String.string_of_list_byte buf.
Definition bytes_of (text : string) : bytes := String.list_byte_of_string text.

(** json.Unmarshal on requests.  The texts of its errors are a parameter: they
    only go into the message of the error that is returned. *)
Definition json_requests (error_text : bytes → string) : Unmarshal := {|
  unmarshal_base buf :=
    match parse (text_of buf) ≫= dec_base with Some b => inl b | None => inr (error_text buf) end;
  unmarshal_request req buf :=
    match parse (text_of buf) ≫= (λ d, dec_request d req) with Some r => inl r | None => inr (error_text buf) end;
|}.
End Requests.

(** ** Responses *)
#[export] Instance set_rb_MessageType : Setter responseBase_MessageType := ltac:(solve_setter).
#[export] Instance set_rb_RequestID : Setter responseBase_RequestID := ltac:(solve_setter).
#[export] Instance set_rb_ResponseID : Setter responseBase_ResponseID := ltac:(solve_setter).
Definition responseBase_fields : list (field responseBase) := [
  req "messageType" c_int responseBase_MessageType;
  req "requestId" c_uint64 responseBase_RequestID;
  req "responseId" c_uint64 responseBase_ResponseID ].

#[export] Instance set_StreamSequence_RequestID : Setter StreamSequence_RequestID := ltac:(solve_setter).
#[export] Instance set_StreamSequence_SequenceID : Setter StreamSequence_SequenceID := ltac:(solve_setter).
Definition StreamSequence_fields : list (field StreamSequence) := [
  req "requestId" c_uint64 StreamSequence_RequestID; req "seqId" c_uint64 StreamSequence_SequenceID ].
Definition c_StreamSequence : codec StreamSequence := c_struct (mkStreamSequence 0 0) StreamSequence_fields.

#[export] Instance set_ErrorResponse_Base : Setter ErrorResponse_Base := ltac:(solve_setter).
#[export] Instance set_ErrorResponse_Code : Setter ErrorResponse_Code := ltac:(solve_setter).
#[export] Instance set_ErrorResponse_Msg : Setter ErrorResponse_Msg := ltac:(solve_setter).
Definition ErrorResponse_fields : list (field ErrorResponse) :=
  embed ErrorResponse_Base responseBase_fields ++
  [req "errorCode" c_int ErrorResponse_Code; req "errorMessage" c_string ErrorResponse_Msg].

#[export] Instance set_BootstrapResponse_Base : Setter BootstrapResponse_Base := ltac:(solve_setter).
#[export] Instance set_BootstrapResponse_Version : Setter BootstrapResponse_Version := ltac:(solve_setter).
Definition BootstrapResponse_fields : list (field BootstrapResponse) :=
  embed BootstrapResponse_Base responseBase_fields ++ [req "version" c_Version BootstrapResponse_Version].

#[export] Instance set_JobStatusStreamResponse_Base : Setter JobStatusStreamResponse_Base := ltac:(solve_setter).
#[export] Instance set_JobStatusStreamResponse_Sequences : Setter JobStatusStreamResponse_Sequences := ltac:(solve_setter).
#[export] Instance set_JobStatusStreamResponse_ID : Setter JobStatusStreamResponse_ID := ltac:(solve_setter).
#[export] Instance set_JobStatusStreamResponse_Name : Setter JobStatusStreamResponse_Name := ltac:(solve_setter).
#[export] Instance set_JobStatusStreamResponse_Status : Setter JobStatusStreamResponse_Status := ltac:(solve_setter).
#[export] Instance set_JobStatusStreamResponse_Code : Setter JobStatusStreamResponse_Code := ltac:(solve_setter).
#[export] Instance set_JobStatusStreamResponse_Msg : Setter JobStatusStreamResponse_Msg := ltac:(solve_setter).
Definition JobStatusStreamResponse_fields : list (field JobStatusStreamResponse) :=
  embed JobStatusStreamResponse_Base responseBase_fields ++
  [req "sequences" (c_slice c_StreamSequence) JobStatusStreamResponse_Sequences;
   req "id" c_string JobStatusStreamResponse_ID;
   req "name" c_string JobStatusStreamResponse_Name;
   req "status" c_string JobStatusStreamResponse_Status;
   opt "statusCode" c_string JobStatusStreamResponse_Code;
   opt "statusMessage" c_string JobStatusStreamResponse_Msg].

#[export] Instance set_JobOutputResponse_Base : Setter JobOutputResponse_Base := ltac:(solve_setter).
#[export] Instance set_JobOutputResponse_SequenceID : Setter JobOutputResponse_SequenceID := ltac:(solve_setter).
#[export] Instance set_JobOutputResponse_Output : Setter JobOutputResponse_Output := ltac:(solve_setter).
#[export] Instance set_JobOutputResponse_OutputType : Setter JobOutputResponse_OutputType := ltac:(solve_setter).
#[export] Instance set_JobOutputResponse_Complete : Setter JobOutputResponse_Complete := ltac:(solve_setter).
Definition JobOutputResponse_fields : list (field JobOutputResponse) :=
  embed JobOutputResponse_Base responseBase_fields ++
  [req "seqId" c_uint64 JobOutputResponse_SequenceID;
   req "output" c_string JobOutputResponse_Output;
   req "outputType" c_string JobOutputResponse_OutputType;
   req "complete" c_bool JobOutputResponse_Complete].

#[export] Instance set_JobResourceResponse_Base : Setter JobResourceResponse_Base := ltac:(solve_setter).
#[export] Instance set_JobResourceResponse_Sequences : Setter JobResourceResponse_Sequences := ltac:(solve_setter).
#[export] Instance set_JobResourceResponse_CPUPercent : Setter JobResourceResponse_CPUPercent := ltac:(solve_setter).
#[export] Instance set_JobResourceResponse_CPUTime : Setter JobResourceResponse_CPUTime := ltac:(solve_setter).
#[export] Instance set_JobResourceResponse_VirtualMem : Setter JobResourceResponse_VirtualMem := ltac:(solve_setter).
#[export] Instance set_JobResourceResponse_ResidentMem : Setter JobResourceResponse_ResidentMem := ltac:(solve_setter).
#[export] Instance set_JobResourceResponse_Complete : Setter JobResourceResponse_Complete := ltac:(solve_setter).
Definition JobResourceResponse_fields : list (field JobResourceResponse) :=
  embed JobResourceResponse_Base responseBase_fields ++
  [req "sequences" (c_slice c_StreamSequence) JobResourceResponse_Sequences;
   opt "cpuPercent" c_float64 JobResourceResponse_CPUPercent;
   opt "cpuTime" c_float64 JobResourceResponse_CPUTime;
   opt "virtualMemory" c_float64 JobResourceResponse_VirtualMem;
   opt "residentMemory" c_float64 JobResourceResponse_ResidentMem;
   req "complete" c_bool JobResourceResponse_Complete].

#[export] Instance set_ControlJobResponse_Base : Setter ControlJobResponse_Base := ltac:(solve_setter).
#[export] Instance set_ControlJobResponse_Msg : Setter ControlJobResponse_Msg := ltac:(solve_setter).
#[export] Instance set_ControlJobResponse_Complete : Setter ControlJobResponse_Complete := ltac:(solve_setter).
Definition ControlJobResponse_fields : list (field ControlJobResponse) :=
  embed ControlJobResponse_Base responseBase_fields ++
  [req "statusMessage" c_string ControlJobResponse_Msg; req "operationComplete" c_bool ControlJobResponse_Complete].

#[export] Instance set_JobNetworkResponse_Base : Setter JobNetworkResponse_Base := ltac:(solve_setter).
#[export] Instance set_JobNetworkResponse_Host : Setter JobNetworkResponse_Host := ltac:(solve_setter).
#[export] Instance set_JobNetworkResponse_Addr : Setter JobNetworkResponse_Addr := ltac:(solve_setter).
#[export] Instance set_JobNetworkResponse_Endpoints : Setter JobNetworkResponse_Endpoints := ltac:(solve_setter).
Definition JobNetworkResponse_fields : list (field JobNetworkResponse) :=
  embed JobNetworkResponse_Base responseBase_fields ++
  [req "host" c_string JobNetworkResponse_Host;
   req "ipAddresses" (c_slice c_string) JobNetworkResponse_Addr;
   opt "endpoints" (c_slice c_string) JobNetworkResponse_Endpoints].

#[export] Instance set_ClusterInfo_Containers : Setter ClusterInfo_Containers := ltac:(solve_setter).
#[export] Instance set_ClusterInfo_InitContainers : Setter ClusterInfo_InitContainers := ltac:(solve_setter).
#[export] Instance set_ClusterInfo_Configs : Setter ClusterInfo_Configs := ltac:(solve_setter).
#[export] Instance set_ClusterInfo_Constraints : Setter ClusterInfo_Constraints := ltac:(solve_setter).
#[export] Instance set_ClusterInfo_Queues : Setter ClusterInfo_Queues := ltac:(solve_setter).
#[export] Instance set_ClusterInfo_DefaultQueue : Setter ClusterInfo_DefaultQueue := ltac:(solve_setter).
#[export] Instance set_ClusterInfo_Limits : Setter ClusterInfo_Limits := ltac:(solve_setter).
#[export] Instance set_ClusterInfo_Images : Setter ClusterInfo_Images := ltac:(solve_setter).
#[export] Instance set_ClusterInfo_DefaultImage : Setter ClusterInfo_DefaultImage := ltac:(solve_setter).
#[export] Instance set_ClusterInfo_AllowUnknown : Setter ClusterInfo_AllowUnknown := ltac:(solve_setter).
#[export] Instance set_ClusterInfo_Profiles : Setter ClusterInfo_Profiles := ltac:(solve_setter).
#[export] Instance set_ClusterInfo_HostNetwork : Setter ClusterInfo_HostNetwork := ltac:(solve_setter).
Definition ClusterInfo_fields : list (field ClusterInfo) := [
  req "supportsContainers" c_bool ClusterInfo_Containers;
  req "supportsInitContainers" c_bool ClusterInfo_InitContainers;
  req "config" (c_slice c_JobConfig) ClusterInfo_Configs;
  req "placementConstraints" (c_slice c_PlacementConstraint) ClusterInfo_Constraints;
  opt "queues" (c_slice c_string) ClusterInfo_Queues;
  opt "defaultQueue" c_string ClusterInfo_DefaultQueue;
  req "resourceLimits" (c_slice c_ResourceLimit) ClusterInfo_Limits;
  opt "images" (c_slice c_string) ClusterInfo_Images;
  opt "defaultImage" c_string ClusterInfo_DefaultImage;
  req "allowUnknownImages" c_bool ClusterInfo_AllowUnknown;
  req "resourceProfiles" (c_slice c_ResourceProfile) ClusterInfo_Profiles;
  req "containersUseHostNetwork" c_bool ClusterInfo_HostNetwork ].

#[export] Instance set_ClusterInfoResponse_Base : Setter ClusterInfoResponse_Base := ltac:(solve_setter).
#[export] Instance set_ClusterInfoResponse_Info : Setter ClusterInfoResponse_Info := ltac:(solve_setter).
Definition ClusterInfoResponse_fields : list (field ClusterInfoResponse) :=
  embed ClusterInfoResponse_Base responseBase_fields ++ embed ClusterInfoResponse_Info ClusterInfo_fields.

#[export] Instance set_ConfigReloadResponse_Base : Setter ConfigReloadResponse_Base := ltac:(solve_setter).
#[export] Instance set_ConfigReloadResponse_ErrorType : Setter ConfigReloadResponse_ErrorType := ltac:(solve_setter).
#[export] Instance set_ConfigReloadResponse_ErrorMessage : Setter ConfigReloadResponse_ErrorMessage := ltac:(solve_setter).
Definition ConfigReloadResponse_fields : list (field ConfigReloadResponse) :=
  embed ConfigReloadResponse_Base responseBase_fields ++
  [req "errorType" c_int ConfigReloadResponse_ErrorType; req "errorMessage" c_string ConfigReloadResponse_ErrorMessage].

#[export] Instance set_HistogramSample_Buckets : Setter HistogramSample_Buckets := ltac:(solve_setter).
#[export] Instance set_HistogramSample_Sum : Setter HistogramSample_Sum := ltac:(solve_setter).
Definition HistogramSample_fields : list (field HistogramSample) := [
  req "buckets" (c_list c_float64) HistogramSample_Buckets; req "sum" c_float64 HistogramSample_Sum ].
Definition c_HistogramSample : codec HistogramSample := c_struct (mkHistogramSample [] zero_float) HistogramSample_fields.

#[export] Instance set_MetricsResponse_Base : Setter MetricsResponse_Base := ltac:(solve_setter).
#[export] Instance set_MetricsResponse_UptimeSeconds : Setter MetricsResponse_UptimeSeconds := ltac:(solve_setter).
#[export] Instance set_MetricsResponse_MemoryUsageBytes : Setter MetricsResponse_MemoryUsageBytes := ltac:(solve_setter).
#[export] Instance set_MetricsResponse_Sample : Setter MetricsResponse_ClusterInteractionLatencySample := ltac:(solve_setter).
Definition MetricsResponse_fields : list (field MetricsResponse) :=
  embed MetricsResponse_Base responseBase_fields ++
  [req "uptimeSeconds" c_uint64 MetricsResponse_UptimeSeconds;
   req "memoryUsageBytes" c_uint64 MetricsResponse_MemoryUsageBytes;
   opt "clusterInteractionLatencySample" (c_ptr c_HistogramSample) MetricsResponse_ClusterInteractionLatencySample].

Section Responses.
Context `{!TimeZones}.

#[export] Instance set_JobStateResponse_Base : Setter JobStateResponse_Base := ltac:(solve_setter).
#[export] Instance set_JobStateResponse_Jobs : Setter JobStateResponse_Jobs := ltac:(solve_setter).
Definition JobStateResponse_fields : list (field JobStateResponse) :=
  embed JobStateResponse_Base responseBase_fields ++ [req "jobs" (c_slice c_Job) JobStateResponse_Jobs].

(** The members of a response; [None] if something in it has no JSON form. *)
Definition response_members (resp : Response) : option (list (string * json)) :=
  match resp with
  | RespBase r => enc_members responseBase_fields r
  | RespError r => enc_members ErrorResponse_fields r
  | RespBootstrap r => enc_members BootstrapResponse_fields r
  | RespJobState r => enc_members JobStateResponse_fields r
  | RespJobStatus r => enc_members JobStatusStreamResponse_fields r
  | RespJobOutput r => enc_members JobOutputResponse_fields r
  | RespJobResource r => enc_members JobResourceResponse_fields r
  | RespControlJob r => enc_members ControlJobResponse_fields r
  | RespJobNetwork r => enc_members JobNetworkResponse_fields r
  | RespClusterInfo r => enc_members ClusterInfoResponse_fields r
  | RespConfigReload r => enc_members ConfigReloadResponse_fields r
  | RespMetrics r => enc_members MetricsResponse_fields r
  end.

(** json.Marshal on responses. *)
Definition response_json (resp : Response) : option bytes :=
  m ← response_members resp; Some (bytes_of (print (JsonObj m))).
End Responses.
