(* ===== verification/RpcJsonFacts.v ===== *)
(** * Reading requests

    The fields of an embedded struct are read as if the struct stood alone, as
    long as no two names fold to the same; so the header that selects the type
    of a request is the header of the request that is then read, and
    [json_requests] keeps the laws the communicator relies on. *)

From Stdlib Require Import Strings.Byte.
From S2P Require Import Prelude GoStd Types Writer Stream Rpc Communicator Json JsonFacts JsonParse Codec Floats Rfc3339 AnyJson ApiJson RpcJson.

Lemma text_of_bytes_of s : text_of (bytes_of s) = s.
Proof. apply String.string_of_list_byte_of_string. Qed.

(** ** Embedded structs *)
Definition folds {R} (fs : list (field R)) : list string := foldName ∘ f_name <$> fs.

Lemma find_field_app {R} ok (fs gs : list (field R)) :
  find_field ok (fs ++ gs) = match find_field ok fs with Some f => Some f | None => find_field ok gs end.
Proof. induction fs as [|f fs IH]; cbn; [done|]. by destruct (ok (f_name f)). Qed.

Lemma find_field_embed {R S} (p : R → S) `{!Setter p} ok (fs : list (field S)) :
  find_field ok (embed p fs) = embed1 p <$> find_field ok fs.
Proof. induction fs as [|f fs IH]; cbn; [done|]. by destruct (ok (f_name f)). Qed.

Lemma find_field_Some {R} ok (fs : list (field R)) f : find_field ok fs = Some f → f ∈ fs ∧ ok (f_name f) = true.
Proof.
  induction fs as [|g fs IH]; cbn; [done|]. destruct (ok (f_name g)) eqn:E; [intros [= ->]; split; [left|done]|].
  intros [??]%IH. split; [by right|done].
Qed.

(** The field of a folded name, when it is the only one. *)
Lemma find_folded {R} (fs : list (field R)) f k :
  NoDup (folds fs) → f ∈ fs → foldName k = foldName (f_name f) →
  find_field (λ name, String.eqb (foldName k) (foldName name)) fs = Some f.
Proof.
  intros Hnd Hf Hk. induction fs as [|g fs IH]; [by apply elem_of_nil in Hf|]. cbn in Hnd |- *.
  apply list.NoDup_cons in Hnd as [Hg Hnd]. apply elem_of_cons in Hf as [->|Hf]; [by rewrite Hk, String.eqb_refl|].
  destruct (String.eqb_spec (foldName k) (foldName (f_name g))) as [E|]; [|by apply IH].
  destruct Hg. rewrite <- E, Hk. by apply (list_elem_of_fmap_2 (foldName ∘ f_name)).
Qed.

Lemma field_for_fold {R} (fs : list (field R)) k :
  NoDup (folds fs) → field_for fs k = find_field (λ name, String.eqb (foldName k) (foldName name)) fs.
Proof.
  intros Hnd. unfold field_for. destruct (find_field (String.eqb k) fs) as [f|] eqn:E; [|done].
  apply find_field_Some in E as [Hf ->%String.eqb_eq]. symmetry. by apply find_folded.
Qed.

(** A field that keeps [p] out of its reading. *)
Definition apart {R S} (p : R → S) (f : field R) : Prop := ∀ d r r', f_dec f d r = Some r' → p r' = p r.

Section Embedding.
Context {R S : Type} (p : R → S) `{!Setter p} (p_set : ∀ s r, p (set_field p s r) = s).
Context (inner : list (field S)) (rest : list (field R)).
Context (Hnd : NoDup (folds (embed p inner ++ rest))) (Hrest : Forall (apart p) rest).

Lemma folds_inner : NoDup (folds inner).
Proof.
  unfold folds in *. rewrite fmap_app in Hnd. apply list.NoDup_app in Hnd as [H _]. unfold embed in H.
  by rewrite <- list_fmap_compose in H.
Qed.

Lemma dec_member_embed kv r r' :
  dec_member (embed p inner ++ rest) kv r = Some r' → dec_member inner kv (p r) = Some (p r').
Proof.
  unfold dec_member. rewrite !field_for_fold by (done || apply folds_inner).
  rewrite find_field_app, find_field_embed. destruct (find_field _ inner) as [f|]; cbn.
  - destruct (f_dec f kv.2 (p r)); [|done]. cbn. intros [= <-]. f_equal. symmetry. apply p_set.
  - destruct (find_field _ rest) as [f|] eqn:E; [|congruence]. apply find_field_Some in E as [Hf _].
    rewrite list.Forall_forall in Hrest. intros H. f_equal. symmetry. by eapply Hrest.
Qed.

Lemma dec_struct_embed d r r' : dec_struct (embed p inner ++ rest) d r = Some r' → dec_struct inner d (p r) = Some (p r').
Proof.
  destruct d as [| | | | |raw m]; cbn; try congruence. revert r. induction m as [|kv m IH]; cbn; intros r; [congruence|].
  destruct (dec_member (embed p inner ++ rest) kv r) as [r1|] eqn:E; [|done].
  apply dec_member_embed in E as ->. cbn. apply IH.
Qed.
End Embedding.

Lemma field_of_apart {R A S} (c : codec A) (proj : R → A) `{!Setter proj} name omit (p : R → S) :
  (∀ a r, p (set_field proj a r) = p r) → apart p (field_of c proj name omit).
Proof. intros H d r r'. cbn. destruct (c_dec c d (proj r)); [|done]. intros [= <-]. apply H. Qed.

Lemma embed_apart {R A S} (proj : R → A) `{!Setter proj} (fs : list (field A)) (p : R → S) :
  (∀ a r, p (set_field proj a r) = p r) → Forall (apart p) (embed proj fs).
Proof.
  intros H. apply Forall_fmap, Forall_true. intros f d r r'. cbn. destruct (f_dec f d (proj r)); [|done].
  intros [= <-]. apply H.
Qed.

(** The header of a request with more fields. *)
Ltac embedding :=
  let E := fresh "E" in intros E; eapply dec_struct_embed in E;
    [exact E | by intros ? [] | by refine (bool_decide_eq_true_1 _ _); vm_compute |
     first [apply embed_apart; by intros ? [] | struct_fields; apply field_of_apart; by intros ? []]].

Section Requests.
Context `{!TimeZones}.

Lemma user_embeds d r r' : dec_struct BaseUserRequest_fields d r = Some r' →
  dec_struct BaseRequest_fields d (BaseUserRequest_Base r) = Some (BaseUserRequest_Base r').
Proof. embedding. Qed.
Lemma bootstrap_embeds d r r' : dec_struct BootstrapRequest_fields d r = Some r' →
  dec_struct BaseRequest_fields d (BootstrapRequest_Base r) = Some (BootstrapRequest_Base r').
Proof. embedding. Qed.
Lemma submit_embeds d r r' : dec_struct SubmitJobRequest_fields d r = Some r' →
  dec_struct BaseUserRequest_fields d (SubmitJobRequest_Base r) = Some (SubmitJobRequest_Base r').
Proof. embedding. Qed.
Lemma job_embeds d r r' : dec_struct BaseJobRequest_fields d r = Some r' →
  dec_struct BaseUserRequest_fields d (BaseJobRequest_Base r) = Some (BaseJobRequest_Base r').
Proof. embedding. Qed.
Lemma state_embeds d r r' : dec_struct JobStateRequest_fields d r = Some r' →
  dec_struct BaseJobRequest_fields d (JobStateRequest_Base r) = Some (JobStateRequest_Base r').
Proof. embedding. Qed.
Lemma stream_embeds d r r' : dec_struct BaseJobStreamRequest_fields d r = Some r' →
  dec_struct BaseJobRequest_fields d (BaseJobStreamRequest_Base r) = Some (BaseJobStreamRequest_Base r').
Proof. embedding. Qed.
Lemma control_embeds d r r' : dec_struct ControlJobRequest_fields d r = Some r' →
  dec_struct BaseJobRequest_fields d (ControlJobRequest_Base r) = Some (ControlJobRequest_Base r').
Proof. embedding. Qed.
Lemma output_embeds d r r' : dec_struct JobOutputRequest_fields d r = Some r' →
  dec_struct BaseJobStreamRequest_fields d (JobOutputRequest_Base r) = Some (JobOutputRequest_Base r').
Proof. embedding. Qed.
Lemma nodes_embeds d r r' : dec_struct SetLoadBalancerNodesRequest_fields d r = Some r' →
  dec_struct BaseUserRequest_fields d (SetLoadBalancerNodesRequest_Base r) = Some (SetLoadBalancerNodesRequest_Base r').
Proof. embedding. Qed.

(** The header of a request, read with the rest of it. *)
Lemma dec_request_base d req0 req : dec_request d req0 = Some req →
  dec_struct BaseRequest_fields d (Request_Base req0) = Some (Request_Base req).
Proof.
  destruct req0; cbn [dec_request]; intros E; apply fmap_Some in E as (r1 & E & ->); cbn [Request_Base];
    eauto using user_embeds, bootstrap_embeds, submit_embeds, job_embeds, state_embeds, stream_embeds, control_embeds,
      output_embeds, nodes_embeds.
Qed.

Lemma dec_request_kind d req0 req : dec_request d req0 = Some req → Request_kind req = Request_kind req0.
Proof. destruct req0; cbn; intros E; apply fmap_Some in E as (r1 & _ & ->); done. Qed.

Lemma requestForType_zero rt req : requestForType rt = inl req → Request_Base req = zeroBase.
Proof. unfold requestForType. repeat case_match; try done; by intros [= <-]. Qed.

#[export] Instance json_requests_laws error_text : @UnmarshalLaws (json_requests error_text).
Proof.
  split; cbn -[parse dec_base dec_request].
  - intros rt req0 req base buf Hrt%requestForType_zero. destruct (parse (text_of buf)) as [d|]; [|done]. cbn -[parse dec_base dec_request].
    destruct (dec_request d req0) as [r|] eqn:E; [|done]. intros [= <-]. apply dec_request_base in E.
    rewrite Hrt in E. change (dec_base d = Some (Request_Base r)) in E. rewrite E. by intros [= <-].
  - intros req0 req buf. destruct (parse (text_of buf)) as [d|]; [|done]. cbn -[parse dec_base dec_request].
    destruct (dec_request d req0) as [r|] eqn:E; [|done]. intros [= <-]. by apply dec_request_kind in E.
Qed.
End Requests.
