(* ===== verification/RpcResponses.v ===== *)
(** * Writing responses

    Which responses have a JSON form: all, but for jobs whose parts have none and
    numbers that are not finite. *)

From S2P Require Import Prelude GoStd Types Writer Stream Rpc Json JsonFacts JsonParse Codec Floats Rfc3339 AnyJson ApiJson ApiJsonFacts RpcJson.

(** ** Values with a JSON form *)
Definition encodes {A} (c : codec A) (wf : A → Prop) : Prop :=
  ∀ a, wf a → ∃ v, c_enc c a = Some v ∧ json_ok v = true.

Definition field_encodes {R} (f : field R) (wf : R → Prop) : Prop :=
  ∀ r, wf r → ∃ v, f_enc f r = Some v ∧ ∀ j, v = Some j → json_ok j = true.

Abbreviation always := (λ _, True) (only parsing).

Lemma lawful_encodes {A} (c : codec A) wf : lawful c wf → encodes c wf.
Proof. intros Hc a Ha. destruct (enc_total c wf Hc a Ha) as [v Hv]. exists v. split; [done|by eapply enc_ok]. Qed.

Lemma c_string_encodes : encodes c_string always.
Proof. intros s _. by eexists. Qed.
Lemma c_bool_encodes : encodes c_bool always.
Proof. intros b _. by eexists. Qed.
Lemma c_int_encodes : encodes c_int always.
Proof. intros z _. eexists. split; [done|apply Itoa_ok]. Qed.
Lemma c_uint64_encodes : encodes c_uint64 always.
Proof. intros z _. eexists. split; [done|apply Itoa_ok]. Qed.

Lemma c_float64_encodes : encodes c_float64 (λ f, float_ok f = true).
Proof.
  intros f. unfold float_ok. cbn -[json_ok]. destruct (FormatFloat f) as [lit|]; [|done]. intros [_ H]%andb_true_iff.
  by eexists.
Qed.

Lemma c_list_encodes {A} (c : codec A) wf : encodes c wf → encodes (c_list c) (Forall wf).
Proof.
  intros Hc l Hl. assert (∃ vs, mapM (c_enc c) l = Some vs ∧ forallb json_ok vs = true) as (vs & Hvs & Hok).
  { induction Hl as [|a l Ha _ (vs & IH & Hok)]; [by exists []|]. destruct (Hc a Ha) as (v & Hv & Hvok).
    exists (v :: vs). cbn. by rewrite Hv, IH, Hvok. }
  exists (JsonArr vs). cbn. by rewrite Hvs.
Qed.

Lemma c_slice_encodes {A} (c : codec A) wf : encodes c wf → encodes (c_slice c) (slice_wf wf).
Proof. intros Hc [l|] Hl; [by apply (c_list_encodes c wf Hc)|by exists JsonNull]. Qed.

Lemma c_ptr_encodes {A} (c : codec A) wf : encodes c wf → encodes (c_ptr c) (ptr_wf wf).
Proof. intros Hc [a|] Ha; [by apply Hc|by exists JsonNull]. Qed.

Lemma field_of_encodes {R A} (c : codec A) (proj : R → A) `{!Setter proj} name omit (wfA : A → Prop) (wf : R → Prop) :
  encodes c wfA → (∀ r, wf r → wfA (proj r)) → field_encodes (field_of c proj name omit) wf.
Proof.
  intros Hc Hwf r Hr. cbn. destruct (omit && c_empty c (proj r)); [by eexists|].
  destruct (Hc (proj r)) as (v & -> & Hv); [auto|]. eexists. split; [done|]. by intros ? [= <-].
Qed.

Lemma embed_encodes {R S} (proj : R → S) `{!Setter proj} (fs : list (field S)) (wfS : S → Prop) (wf : R → Prop) :
  Forall (λ f, field_encodes f wfS) fs → (∀ r, wf r → wfS (proj r)) → Forall (λ f, field_encodes f wf) (embed proj fs).
Proof. intros Hf Hwf. apply Forall_fmap. revert Hf. apply Forall_impl. intros f Hf r Hr. by apply Hf, Hwf. Qed.

Lemma enc_members_encodes {R} (fs : list (field R)) wf r :
  Forall (λ f, field_encodes f wf) fs → wf r → ∃ m, enc_members fs r = Some m ∧ json_ok (JsonObj m) = true.
Proof.
  intros Hf Hr. induction Hf as [|f fs Hf _ (m & IH & Hok)]; [by exists []|].
  destruct (Hf r Hr) as (v & Hv & Hvok). cbn. rewrite Hv, IH. eexists. split; [done|].
  destruct v as [v|]; [|done]. cbn. by rewrite (Hvok v).
Qed.

Lemma c_struct_encodes {R} (zero : R) (fs : list (field R)) wf :
  Forall (λ f, field_encodes f wf) fs → encodes (c_struct zero fs) wf.
Proof.
  intros Hf r Hr. destruct (enc_members_encodes fs wf r Hf Hr) as (m & Hm & Hok). exists (JsonObj m). cbn. by rewrite Hm.
Qed.

(** Slices and pointers of values that always have a form. *)
Lemma slice_always {A} (s : option (list A)) : slice_wf always s.
Proof. destruct s as [l|]; [|done]. by apply Forall_true. Qed.
Lemma list_always {A} (l : list A) : Forall always l.
Proof. by apply Forall_true. Qed.

Create HintDb encodes.
#[export] Hint Resolve c_string_encodes c_bool_encodes c_int_encodes c_uint64_encodes c_float64_encodes
  c_list_encodes c_slice_encodes c_ptr_encodes slice_always list_always : encodes.

(** Field by field; what is left are the conditions. *)
Ltac field_forms := struct_fields; (eapply field_of_encodes; [eauto with encodes|try (intros ? _; first [done | apply slice_always | apply list_always])]).
Ltac struct_forms := apply c_struct_encodes; field_forms.

(** ** The API types in responses *)
Lemma c_Version_encodes : encodes c_Version always.
Proof. struct_forms. Qed.
Lemma c_JobConfig_encodes : encodes c_JobConfig always.
Proof. struct_forms. Qed.
Lemma c_PlacementConstraint_encodes : encodes c_PlacementConstraint always.
Proof. struct_forms. Qed.
Lemma c_ResourceLimit_encodes : encodes c_ResourceLimit always.
Proof. struct_forms. Qed.
Lemma c_StreamSequence_encodes : encodes c_StreamSequence always.
Proof. struct_forms. Qed.
#[export] Hint Resolve c_Version_encodes c_JobConfig_encodes c_PlacementConstraint_encodes c_ResourceLimit_encodes
  c_StreamSequence_encodes : encodes.
Lemma c_ResourceProfile_encodes : encodes c_ResourceProfile always.
Proof. struct_forms. Qed.
#[export] Hint Resolve c_ResourceProfile_encodes : encodes.

(** ** Responses *)
Definition floats_ok (r : JobResourceResponse) : Prop :=
  float_ok (JobResourceResponse_CPUPercent r) = true ∧ float_ok (JobResourceResponse_CPUTime r) = true ∧
  float_ok (JobResourceResponse_VirtualMem r) = true ∧ float_ok (JobResourceResponse_ResidentMem r) = true.

Definition sample_ok (s : HistogramSample) : Prop :=
  Forall (λ f, float_ok f = true) (HistogramSample_Buckets s) ∧ float_ok (HistogramSample_Sum s) = true.

Lemma c_HistogramSample_encodes : encodes c_HistogramSample sample_ok.
Proof. struct_forms; by intros ? []. Qed.
#[export] Hint Resolve c_HistogramSample_encodes : encodes.

Lemma base_encodes : Forall (λ f, field_encodes f always) responseBase_fields.
Proof. field_forms. Qed.

Section Responses.
Context `{!TimeZones}.

Lemma c_Job_encodes : encodes c_Job Job_ok.
Proof. apply lawful_encodes, c_Job_lawful. Qed.
#[local] Hint Resolve c_Job_encodes : encodes.

Definition Response_ok (resp : Response) : Prop :=
  match resp with
  | RespJobState r => slice_wf Job_ok (JobStateResponse_Jobs r)
  | RespJobResource r => floats_ok r
  | RespMetrics r => ptr_wf sample_ok (MetricsResponse_ClusterInteractionLatencySample r)
  | _ => True
  end.

Ltac response_forms := apply Forall_app_2; [eapply embed_encodes; [apply base_encodes|done]|].
Ltac plain := apply (enc_members_encodes _ always); [|done]; response_forms; field_forms.

Lemma ClusterInfo_encodes : Forall (λ f, field_encodes f always) ClusterInfo_fields.
Proof. field_forms. Qed.

Lemma response_members_ok resp : Response_ok resp → ∃ m, response_members resp = Some m ∧ json_ok (JsonObj m) = true.
Proof.
  destruct resp as [r|r|r|r|r|r|r|r|r|r|r|r]; cbn [Response_ok response_members]; intros Hr; try solve [plain].
  - apply (enc_members_encodes _ always); [apply base_encodes|done].
  - apply (enc_members_encodes _ (λ r, slice_wf Job_ok (JobStateResponse_Jobs r))); [|done].
    response_forms. by field_forms.
  - apply (enc_members_encodes _ floats_ok); [|done]. response_forms. field_forms; by intros ? (? & ? & ? & ?).
  - apply (enc_members_encodes _ always); [|done]. response_forms. eapply embed_encodes; [apply ClusterInfo_encodes|done].
  - apply (enc_members_encodes _ (λ r, ptr_wf sample_ok (MetricsResponse_ClusterInteractionLatencySample r))); [|done].
    response_forms. by field_forms.
Qed.
End Responses.
