(* ===== verification/WireProps.v ===== *)
(** * What goes over the wire

    The properties of the JSON of the API types: jobs survive it, projections show
    exactly the requested members, mount sources are told apart by their type, and
    output keeps its text exactly if it is UTF-8. *)

From Stdlib Require Import SpecFloat.
From Stdlib Require Import Strings.Byte.
From S2P Require Import Prelude GoStd Types TypesFacts Writer Stream Rpc Communicator CommunicatorFacts Json JsonFacts JsonParse JsonText Codec Floats Rfc3339 AnyJson ApiJson ApiJsonFacts RpcJson RpcJsonFacts RpcResponses.

(** ** Projections *)
Section Projection.
Context `{!TimeZones}.

Definition kept (fs : list string) (name : string) : Prop := name = "id" ∨ name ∈ fs.
#[export] Instance kept_dec fs name : Decision (kept fs name).
Proof. unfold kept. apply _. Defined.

(** A field that is a view of the job is the job's or has its zero value. *)
Lemma projected_field {A} (c : codec A) (proj : Job → A) `{!Setter proj} name view job fs :
  fs ≠ [] → (name, view) ∈ jobFieldViews → (∀ j1 j2, view j1 = view j2 → proj j1 = proj j2) →
  c_empty c (proj zeroJob) = true →
  f_enc (field_of c proj name true) (Job_WithFields job fs) =
    if decide (kept fs name) then f_enc (field_of c proj name true) job else Some None.
Proof.
  intros Hfs Hin Hinj Hz. destruct (WithFields_spec job fs Hfs) as (_ & _ & Hv). specialize (Hv name view Hin).
  cbn [f_enc field_of andb]. unfold kept. destruct (decide (name ∈ fs)) as [Hn|Hn].
  - rewrite (Hinj _ _ Hv), decide_True; [done|by right].
  - rewrite (Hinj _ _ Hv), Hz. rewrite decide_False; [done|]. intros [->|]; [|done].
    apply (list_elem_of_fmap_2 fst) in Hin. revert Hin. apply (bool_decide_eq_false_1 (_ ∈ _)). reflexivity.
Qed.

Lemma projected_fields job fs : fs ≠ [] →
  Forall (λ f, f_enc f (Job_WithFields job fs) = if decide (kept fs (f_name f)) then f_enc f job else Some None) Job_fields.
Proof.
  intros Hfs. apply Forall_cons_2.
  - destruct (WithFields_spec job fs Hfs) as (Hid & _). cbn [f_enc field_of andb f_name]. rewrite Hid, decide_True; [done|by left].
  - struct_fields; (eapply projected_field;
      [done|unfold jobFieldViews; repeat first [left | right]|by intros ?? [=]|reflexivity]).
Qed.

(** Members of fields that are kept or left out. *)
Lemma enc_members_kept {R} (keep : string → Prop) `{!∀ k, Decision (keep k)} (fs : list (field R)) r r' m :
  Forall (λ f, f_enc f r' = if decide (keep (f_name f)) then f_enc f r else Some None) fs →
  enc_members fs r = Some m → enc_members fs r' = Some (filter (λ kv, keep kv.1) m).
Proof.
  intros Hf. revert m. induction Hf as [|f fs Hf _ IH]; intros m; [by intros [= <-]|].
  intros (v & m' & Hv & Hm & ->)%enc_members_cons. cbn. rewrite Hf, (IH m' Hm). case_decide as Hk.
  - rewrite Hv. cbn. destruct v as [v|]; [|done]. by rewrite filter_cons_True.
  - cbn. destruct v as [v|]; [|done]. by rewrite filter_cons_False.
Qed.

(** C26: what a client sees of a job it asked for with a field list: exactly the
    members of the job's JSON that it named, and the ID, in the same order and
    with the same values. *)
Theorem WithFields_wire (job : Job) (fs : list string) (m : list (string * json))
    (Hfs : fs ≠ []) (Hm : enc_members Job_fields job = Some m) :
  enc_members Job_fields (Job_WithFields job fs) = Some (filter (λ kv, kept fs kv.1) m).
Proof. apply (enc_members_kept (kept fs) _ job); [by apply projected_fields|done]. Qed.
End Projection.

(** ** Round trip *)
Section RoundTrip.
Context `{!TimeZones}.

(** C25: a job comes back from JSON as it was, with all of its fields: those of
    [Job_ok], which asks for UTF-8, integers of 64 bits, times of RFC 3339, mount
    sources of the known shapes and metadata of the kind the decoder makes. *)
Theorem job_json_roundtrip (job : Job) (Hok : Job_ok job)
    (Hdepth : ∀ v, c_enc c_Job job = Some v → doc_depth (doc_of v) ≤ maxNestingDepth) :
  ∃ text, json_Marshal c_Job job = Some text ∧ json_Unmarshal c_Job text zeroJob = Some job.
Proof.
  destruct (enc_total _ _ c_Job_lawful job Hok) as [v Hv]. exists (print v). unfold json_Marshal at 1. rewrite Hv.
  split; [done|]. apply (Unmarshal_Marshal c_Job Job_ok job (print v) c_Job_lawful Hok); [|exact Hdepth].
  unfold json_Marshal. by rewrite Hv.
Qed.

(** ** Output *)

(** C40: output is delivered as text: what the other side reads of an output
    response is UTF-8, and it is what the plugin wrote exactly if that was UTF-8
    already; other bytes are replaced. *)
Theorem output_kept_iff_utf8 (r : JobOutputResponse) :
  ∃ text raw m d o, response_json (RespJobOutput r) = Some text ∧ parse (text_of text) = Some (DObject raw m) ∧
    assoc_lookup "output" m = Some d ∧ c_dec c_string d "" = Some o ∧
    utf8 o ∧ (o = JobOutputResponse_Output r ↔ utf8 (JobOutputResponse_Output r)).
Proof.
  destruct (response_members_ok (RespJobOutput r) I) as (m & Hm & Hok).
  assert (doc_depth (doc_of (JsonObj m)) ≤ maxNestingDepth) as Hd.
  { injection Hm as <-. apply Nat.leb_le. vm_compute. reflexivity. }
  exists (bytes_of (print (JsonObj m))), (print (JsonObj m)), (doc_members m),
    (doc_of (JsonStr (JobOutputResponse_Output r))), (repair (decode_utf8 (JobOutputResponse_Output r))).
  unfold response_json. rewrite Hm, text_of_bytes_of, parse_print by done. split_and!; [done|done| |done|apply repair_utf8|].
  - injection Hm as <-. reflexivity.
  - split; [intros E; unfold utf8; rewrite <- E; apply repair_utf8|]. intros Hu. by apply repair_valid.
Qed.
End RoundTrip.

(** ** Usage that is not a number *)
Definition not_finite (f : float64) : bool := match f with S754_infinity _ | S754_nan => true | _ => false end.

Lemma enc_members_none {R} (fs : list (field R)) r f : f ∈ fs → f_enc f r = None → enc_members fs r = None.
Proof.
  induction fs as [|g fs IH]; [by intros ?%elem_of_nil|]. cbn. intros [->|Hin]%elem_of_cons Hf; [by rewrite Hf|].
  destruct (f_enc g r); [|done]. cbn. by rewrite IH.
Qed.

Lemma float_not_finite {R} (proj : R → float64) `{!Setter proj} name r :
  not_finite (proj r) = true → f_enc (field_of c_float64 proj name true) r = None.
Proof. cbn. by destruct (proj r). Qed.

Definition usage (r : JobResourceResponse) : list float64 :=
  [JobResourceResponse_CPUPercent r; JobResourceResponse_CPUTime r; JobResourceResponse_VirtualMem r; JobResourceResponse_ResidentMem r].

(** Usage with an infinity or a NaN has no JSON form. *)
Lemma usage_not_finite `{!TimeZones} (r : JobResourceResponse) :
  existsb not_finite (usage r) = true → response_json (RespJobResource r) = None.
Proof.
  intros Hf. unfold response_json. cbn [response_members].
  cut (enc_members JobResourceResponse_fields r = None); [by intros ->|].
  unfold usage in Hf. cbn [existsb] in Hf. rewrite !orb_true_iff in Hf.
  destruct Hf as [Hf|[Hf|[Hf|[Hf|]]]]; [..|done];
    [apply (float_not_finite _ "cpuPercent") in Hf|apply (float_not_finite _ "cpuTime") in Hf|
     apply (float_not_finite _ "virtualMemory") in Hf|apply (float_not_finite _ "residentMemory") in Hf];
    (eapply enc_members_none; [|exact Hf]); unfold JobResourceResponse_fields; apply elem_of_app; right;
    repeat first [left | right].
Qed.

Definition usage_request : bytes := bytes_of
  (print (JsonObj [("messageType", JsonNum "7"); ("requestId", JsonNum "5"); ("username", JsonStr "ada"); ("jobId", JsonStr "j1")])).
Definition nan_usage : Response :=
  RespJobResource (mkJobResourceResponse (mkResponseBase responseJobResourceUtil 0 1) (Some [mkStreamSequence 5 1])
    S754_nan zero_float zero_float zero_float false).
Definition good_usage : Response := RespJobResource (NewJobResourceResponse 2 false).

Definition sends (resp : Response) : list serveEvent := [EvHandler 0 (ActSend resp); EvHandler 0 (ActSend resp)].
Definition hanging_run : list serveEvent :=
  [EvReader; EvReader; EvMain CaseReq] ++ sends nan_usage ++ [EvWriter; EvWriter; EvWriter; EvMain CaseErr] ++
  mjoin (replicate 100 (sends good_usage)) ++ [EvHandler 0 (ActSend good_usage)].

(** [deadlocked], by computation. *)
Definition hangs (s : Serve bytes) : bool :=
  match sv_writer s with WrDone (Some _) => true | _ => false end &&
  (length (gochan_buf (sv_respCh s)) =? gochan_cap (sv_respCh s))%nat && negb (gochan_closed (sv_respCh s)) &&
  match sv_handlers s !! 0 with Some (HdSend _) => true | _ => false end &&
  match sv_main s with MnSelect | MnWait => true | _ => false end && (sv_wg s =? active_count (sv_handlers s))%Z.

Lemma hangs_deadlocked s : hangs s = true → deadlocked 0 s.
Proof.
  unfold hangs. rewrite !andb_true_iff, Nat.eqb_eq, Z.eqb_eq, negb_true_iff. intros (((((Hw & Hl) & Hc) & Hh) & Hm) & Hwg).
  split; try done.
  - destruct (sv_writer s) as [| | |[err|]|]; try done. by exists err.
  - destruct (sv_handlers s !! 0) as [[|resp|]|]; try done. by exists resp.
  - destruct (sv_main s); try done; [by left|by right].
Qed.

(** C39: a plugin that reports a usage of NaN can hang [Serve] for ever.  After a
    well-formed request for the usage of a job, the response cannot be encoded;
    the writer stops, the handler blocks on the full response channel and
    [wg.Wait] on the handler: [Serve] holds the error, and returns under no
    continuation, a cancelled context included. *)
Theorem nan_usage_hangs_serve `{!TimeZones} (error_text : bytes → string) :
  let comm := input_comm [usage_request] 4096 ([] : bytes) in
  let run := @serve_run bytes _ (json_requests error_text) response_json in
  ∃ s, run (Serve_start comm) hanging_run = Some (Ret s) ∧ sv_err s = Some ErrMsgInvalid ∧
    ∀ es s' err, run s es = Some (Ret s') → sv_main s' ≠ MnReturned err.
Proof.
  intros comm run.
  assert (match run (Serve_start comm) hanging_run with
    | Some (Ret s) => hangs s && bool_decide (sv_err s = Some ErrMsgInvalid) | _ => false end = true) as Hrun
    by (vm_compute; reflexivity).
  destruct (run (Serve_start comm) hanging_run) as [[s|]|] eqn:E; [|done|done].
  apply andb_true_iff in Hrun as [Hh He%bool_decide_eq_true]. exists s. split_and!; [done|done|]. intros es s' err Hs Hret. eapply deadlocked_forever in Hs; [|by apply hangs_deadlocked].
  destruct Hs as [_ _ _ _ [Hm|Hm] _]; congruence.
Qed.

(** ** A job

    With a mount of each kind, a time, and metadata. *)
Definition passthrough : string := text_of [x7b; x22; x61; x22; x3a; x31; x7d].

Definition rich_job : Job :=
  zeroJob <| Job_ID := "j1" |> <| Job_User := "ada" |> <| Job_Name := "caf√" |> <| Job_Status := StatusRunning |>
    <| Job_Pid := Some 42%Z |> <| Job_Env := [mkEnv "A" "<1>"] |>
    <| Job_Submitted := Some (mkTime 1700000000000000000 "UTC") |>
    <| Job_Mounts := [mkMount "/data" "" true (mkMountSource MountTypeHost (AnyHostMount (mkHostMount "/srv")));
                      mkMount "/vol" "v" false (mkMountSource "azureFile" (AnyRawMessage passthrough))] |>
    <| Job_Metadata := {["k" := AnySlice [AnyNumber "1.5"; AnyBool true]]} |>.

Lemma passthrough_ok : raw_ok passthrough.
Proof. split_and!; [done|vm_compute; reflexivity|vm_compute; reflexivity|]. eexists. vm_compute. reflexivity. Qed.

Lemma rich_job_ok : @Job_ok no_zones rich_job.
Proof.
  split; [by repeat constructor..|split; [done|]|done| |done|done| |done].
  - split; [eexists; vm_compute; reflexivity|reflexivity].
  - repeat apply Forall_cons_2; [..|apply Forall_nil_2]; (split_and!; [reflexivity|reflexivity|]).
    + left. split; [done|]. by eexists.
    + right. split; [done|]. split; [reflexivity|]. eexists. split; [done|apply passthrough_ok].
  - apply map_Forall_singleton. split; vm_compute; reflexivity.
Qed.

Lemma job_json_roundtrip_witness :
  ∃ text, @json_Marshal _ (@c_Job no_zones) rich_job = Some text ∧
    @json_Unmarshal _ (@c_Job no_zones) text zeroJob = Some rich_job.
Proof.
  apply (@job_json_roundtrip no_zones rich_job rich_job_ok).
  intros v Hv. vm_compute in Hv. injection Hv as <-. apply Nat.leb_le. vm_compute. reflexivity.
Defined.

Lemma WithFields_wire_witness :
  enc_members (@Job_fields no_zones) (Job_WithFields rich_job ["status"; "pid"; "no such field"]) =
    Some [("id", JsonStr "j1"); ("status", JsonStr "Running"); ("pid", JsonNum "42")].
Proof.
  destruct (enc_members (@Job_fields no_zones) rich_job) as [m|] eqn:E; [|vm_compute in E; discriminate].
  rewrite (@WithFields_wire no_zones rich_job ["status"; "pid"; "no such field"] m ltac:(discriminate) E).
  vm_compute in E. injection E as <-. vm_compute. reflexivity.
Defined.
