(* ===== verification/Runtime.v ===== *)
(** * The runtime (src/launcher/launcher.go)

    The response writer handed to plugins, the store of running streams, and
    the handler that dispatches a request to the plugin.  [rtState] is the
    state the handlers share: the global response counter, the stream store,
    the response channel (the messages sent so far, in order) and the contexts
    cancelled so far.

    Here the handler is one action per request; Handlers.v takes it apart into the
    actions of its goroutine, and Process.v lets them interleave. *)

From S2P Require Import Prelude GoStd Types Writer SubManager Rpc.

(** ** Error texts *)
Definition ConfigReloadError_Error (t : ConfigReloadErrorType) (msg : string) : string :=
  if decide (msg ≠ "") then msg else "config reload failed: " ++ ConfigReloadErrorType_String t.

(** [err.Error()]. *)
Fixpoint error_Error (err : error) : string :=
  match err with
  | ErrAPI e => Error_Error e
  | ErrReload t msg => ConfigReloadError_Error t msg
  | ErrSentinel name => name
  | ErrWrap prefix inner => prefix ++ ": " ++ error_Error inner
  | ErrDetail inner arg => error_Error inner ++ ": " ++ arg
  end.

(** ** Options *)
Definition ClusterOptions_toProtocol (o : ClusterOptions) : ClusterInfo :=
  let img := ClusterOptions_ImageOpt o in
  {| ClusterInfo_Containers := negb (slice_len (ImageOptions_Images img) =? 0)%nat;
     ClusterInfo_InitContainers := ImageOptions_InitContainers img;
     ClusterInfo_Constraints := ClusterOptions_Constraints o;
     ClusterInfo_Queues := ClusterOptions_Queues o;
     ClusterInfo_DefaultQueue := ClusterOptions_DefaultQueue o;
     ClusterInfo_Limits := ClusterOptions_Limits o;
     ClusterInfo_Images := ImageOptions_Images img;
     ClusterInfo_DefaultImage := ImageOptions_Default img;
     ClusterInfo_AllowUnknown := ImageOptions_AllowUnknown img;
     ClusterInfo_Configs := ClusterOptions_Configs o;
     ClusterInfo_Profiles := ClusterOptions_Profiles o;
     ClusterInfo_HostNetwork := ImageOptions_HostNetwork img |}.

(** ** Streams *)
Record streamRecord := mkStreamRecord {
  streamRecord_Context : context;
  streamRecord_SeqID : Z;
}.

Record streamStore := mkStreamStore {
  streamStore_ctx : context;
  streamStore_streams : gmap Z streamRecord;
}.

Definition newStreamStore (ctx : context) : streamStore := mkStreamStore ctx ∅.

(** ** Shared state *)
Record rtState := mkRtState {
  rt_responseCounter : Z;
  rt_store : streamStore;
  rt_cancelled : gset context;
  rt_next_ctx : nat;
  rt_metricsOnce : bool;
  rt_metricsLoops : nat;
  rt_ch : list Response;
}.

#[export] Instance eta_rtState : Eta rtState := λ s,
  mkRtState (rt_responseCounter s) (rt_store s) (rt_cancelled s) (rt_next_ctx s)
    (rt_metricsOnce s) (rt_metricsLoops s) (rt_ch s).
#[export] Instance set_rt_responseCounter : Setter rt_responseCounter := ltac:(solve_setter).
#[export] Instance set_rt_store : Setter rt_store := ltac:(solve_setter).
#[export] Instance set_rt_cancelled : Setter rt_cancelled := ltac:(solve_setter).
#[export] Instance set_rt_next_ctx : Setter rt_next_ctx := ltac:(solve_setter).
#[export] Instance set_rt_metricsOnce : Setter rt_metricsOnce := ltac:(solve_setter).
#[export] Instance set_rt_metricsLoops : Setter rt_metricsLoops := ltac:(solve_setter).
#[export] Instance set_rt_ch : Setter rt_ch := ltac:(solve_setter).

(** [Start(requestID)]: an existing stream keeps its context. *)
Definition streamStore_Start (s : rtState) (requestID : Z) : rtState * context :=
  let st := rt_store s in
  match streamStore_streams st !! requestID with
  | Some rec => (s, streamRecord_Context rec)
  | None =>
      let ctx := context_WithCancel (streamStore_ctx st) (rt_next_ctx s) in
      (s <| rt_store := mkStreamStore (streamStore_ctx st)
                          (<[requestID := mkStreamRecord ctx 0]> (streamStore_streams st)) |>
         <| rt_next_ctx := S (rt_next_ctx s) |>, ctx)
  end.

Definition streamStore_Cancel (s : rtState) (requestID : Z) : rtState :=
  let st := rt_store s in
  match streamStore_streams st !! requestID with
  | Some rec =>
      s <| rt_cancelled := {[streamRecord_Context rec]} ∪ rt_cancelled s |>
        <| rt_store := mkStreamStore (streamStore_ctx st) (delete requestID (streamStore_streams st)) |>
  | None => s
  end.

Definition streamStore_SequenceID (s : rtState) (requestID : Z) : rtState * Z :=
  let st := rt_store s in
  match streamStore_streams st !! requestID with
  | Some rec =>
      let seq := wrap64 (streamRecord_SeqID rec + 1) in
      (s <| rt_store := mkStreamStore (streamStore_ctx st)
              (<[requestID := mkStreamRecord (streamRecord_Context rec) seq]> (streamStore_streams st)) |>, seq)
  | None => (s, 0%Z)
  end.

(** [atomic.AddUint64(&responseCounter, 1) - 1]. *)
Definition nextResponseID (s : rtState) : rtState * Z :=
  let c := wrap64 (rt_responseCounter s + 1) in
  (s <| rt_responseCounter := c |>, wrap64 (c - 1)).

(** ** The response writer *)

(** The request's ID is read when the writer is made: requests come out of
    [RequestFromJSON], which rejects those without an ID. *)
Record defaultResponseWriter := mkWriter {
  writer_state : rtState;
  writer_req : Request;
  writer_id : Z;
  writer_store : bool;
}.

Definition newResponseWriter (s : rtState) (req : Request) : outcome defaultResponseWriter :=
  id ← Request_ID req; Ret (mkWriter s req id false).

Definition newStreamWriter (s : rtState) (req : Request) : outcome defaultResponseWriter :=
  id ← Request_ID req; Ret (mkWriter s req id true).

Definition with_state (w : defaultResponseWriter) (s : rtState) : defaultResponseWriter :=
  mkWriter s (writer_req w) (writer_id w) (writer_store w).

Definition sendResponse (w : defaultResponseWriter) (s : rtState) (resp : Response)
    : defaultResponseWriter * option error :=
  (with_state w (s <| rt_ch := rt_ch s ++ [resp] |>), None).

Definition errNotStreamWriter : error := ErrSentinel "method called on non-stream response writer".

Definition writer_WriteErrorf (w : defaultResponseWriter) (code : ErrCode) (msg : string) :=
  sendResponse w (writer_state w) (RespError (NewErrorResponse (writer_id w) code msg)).

Definition writer_WriteError (w : defaultResponseWriter) (err : error) :=
  let code := match errors_As_API err with Some werr => Error_Code werr | None => CodeUnknown end in
  sendResponse w (writer_state w) (RespError (NewErrorResponse (writer_id w) code (error_Error err))).

Definition writer_WriteJobs (w : defaultResponseWriter) (jobs : slice Job) :=
  let '(s, rid) := nextResponseID (writer_state w) in
  sendResponse w s (RespJobState (NewJobStateResponse (writer_id w) rid jobs)).

Definition writer_WriteControlJob (w : defaultResponseWriter) (complete : bool) (msg : string) :=
  let '(s, rid) := nextResponseID (writer_state w) in
  sendResponse w s (RespControlJob (NewControlJobResponse (writer_id w) rid complete msg)).

Definition writer_WriteJobNetwork (w : defaultResponseWriter) (host : string) (addr : slice string) :=
  let '(s, rid) := nextResponseID (writer_state w) in
  sendResponse w s (RespJobNetwork (NewJobNetworkResponse (writer_id w) rid host addr)).

Definition writer_WriteClusterInfo (w : defaultResponseWriter) (o : ClusterOptions) :=
  let '(s, rid) := nextResponseID (writer_state w) in
  sendResponse w s (RespClusterInfo
    (NewClusterInfoResponse (writer_id w) rid (ClusterOptions_toProtocol o))).

Definition writer_WriteJobStatus (w : defaultResponseWriter) (id : JobID)
    (name status statusCode msg : string) : defaultResponseWriter * option error :=
  if negb (writer_store w) then (w, Some errNotStreamWriter)
  else
    let rid := writer_id w in
    let '(s, respID) := nextResponseID (writer_state w) in
    let resp := NewJobStatusStreamResponse respID id name status statusCode msg in
    let '(s, seq) := streamStore_SequenceID s rid in
    sendResponse w s (RespJobStatus
      (mkJobStatusStreamResponse (JobStatusStreamResponse_Base resp) (Some [mkStreamSequence rid seq])
         (JobStatusStreamResponse_ID resp) (JobStatusStreamResponse_Name resp)
         (JobStatusStreamResponse_Status resp) (JobStatusStreamResponse_Code resp)
         (JobStatusStreamResponse_Msg resp))).

Definition writer_WriteJobOutput (w : defaultResponseWriter) (output : string) (outputType : JobOutput)
    : defaultResponseWriter * option error :=
  if negb (writer_store w) then (w, Some errNotStreamWriter)
  else
    let rid := writer_id w in
    let '(s, respID) := nextResponseID (writer_state w) in
    let resp := NewJobOutputStreamResponse rid respID in
    let '(s, seq) := streamStore_SequenceID s rid in
    sendResponse w s (RespJobOutput
      (mkJobOutputResponse (JobOutputResponse_Base resp) seq output (JobOutput_String outputType) false)).

Definition writer_WriteJobResourceUtil (w : defaultResponseWriter)
    (cpuPercent cpuTime residentMem virtualMem : float64) : defaultResponseWriter * option error :=
  if negb (writer_store w) then (w, Some errNotStreamWriter)
  else
    let rid := writer_id w in
    let '(s, respID) := nextResponseID (writer_state w) in
    let resp := NewJobResourceResponse respID false in
    let '(s, seq) := streamStore_SequenceID s rid in
    sendResponse w s (RespJobResource
      (mkJobResourceResponse (JobResourceResponse_Base resp) (Some [mkStreamSequence rid seq])
         cpuPercent cpuTime virtualMem residentMem (JobResourceResponse_Complete resp))).

(** [Close]: only output and resource streams have a completion message. *)
Definition writer_Close (w : defaultResponseWriter) : defaultResponseWriter * option error :=
  if negb (writer_store w) then (w, None)
  else
    let rid := writer_id w in
    match writer_req w with
    | ReqJobOutput _ =>
        let '(s, respID) := nextResponseID (writer_state w) in
        let resp := NewJobOutputStreamResponse rid respID in
        let '(s, seq) := streamStore_SequenceID s rid in
        sendResponse w s (RespJobOutput
          (mkJobOutputResponse (JobOutputResponse_Base resp) seq (JobOutputResponse_Output resp)
             (JobOutputResponse_OutputType resp) true))
    | JobResourceUtilRequest _ =>
        let '(s, respID) := nextResponseID (writer_state w) in
        let resp := NewJobResourceResponse respID true in
        let '(s, seq) := streamStore_SequenceID s rid in
        sendResponse w s (RespJobResource
          (mkJobResourceResponse (JobResourceResponse_Base resp) (Some [mkStreamSequence rid seq])
             (JobResourceResponse_CPUPercent resp) (JobResourceResponse_CPUTime resp)
             (JobResourceResponse_VirtualMem resp) (JobResourceResponse_ResidentMem resp)
             (JobResourceResponse_Complete resp)))
    | _ => (w, None)
    end.

#[export] Instance writer_ResponseWriter : ResponseWriter defaultResponseWriter := {
  WriteErrorf := writer_WriteErrorf;
  WriteError := writer_WriteError;
  WriteJobs := writer_WriteJobs;
  WriteControlJob := writer_WriteControlJob;
  WriteJobNetwork := writer_WriteJobNetwork;
  WriteClusterInfo := writer_WriteClusterInfo;
}.

#[export] Instance writer_StreamResponseWriter : StreamResponseWriter defaultResponseWriter := {
  WriteJobStatus := writer_WriteJobStatus;
  WriteJobOutput := writer_WriteJobOutput;
  WriteJobResourceUtil := writer_WriteJobResourceUtil;
  WriterClose := writer_Close;
}.

(** The responses the runtime itself writes. *)
Definition writer_WriteHeartbeat (w : defaultResponseWriter) :=
  sendResponse w (writer_state w) (RespBase NewHeartbeatResponse).

Definition writer_WriteBootstrap (w : defaultResponseWriter) :=
  let '(s, rid) := nextResponseID (writer_state w) in
  sendResponse w s (RespBootstrap (NewBootstrapResponse (writer_id w) rid)).

Definition writer_WriteSetLoadBalancerNodes (w : defaultResponseWriter) :=
  let '(s, rid) := nextResponseID (writer_state w) in
  sendResponse w s (RespBase (NewSetLoadBalancerNodesResponse (writer_id w) rid)).

Definition writer_WriteConfigReload (w : defaultResponseWriter) (t : ConfigReloadErrorType) (msg : string) :=
  let '(s, rid) := nextResponseID (writer_state w) in
  sendResponse w s (RespConfigReload (NewConfigReloadResponse (writer_id w) rid t msg)).

(** ** Plugins

    The methods of a plugin with state [P].  The writer's answers are fixed (a
    send always succeeds, a stream method on a plain writer always fails), so a
    method is given by the calls it makes; the runtime performs them on the
    writer it hands out.  The optional interfaces are optional fields. *)
Record Plugin (P : Type) := mkPlugin {
  Plugin_SubmitJob : P → context → string → Job → outcome (P * list WriterCall);
  Plugin_GetJob : P → context → string → JobID → list string → outcome (P * list WriterCall);
  Plugin_GetJobs : P → context → string → JobFilter → list string → outcome (P * list WriterCall);
  Plugin_ControlJob : P → context → string → JobID → JobOperation → ControlJobOptions →
    outcome (P * list WriterCall);
  Plugin_GetJobStatus : P → context → string → JobID → outcome (P * list WriterCall);
  Plugin_GetJobStatuses : P → context → string → outcome (P * list WriterCall);
  Plugin_GetJobOutput : P → context → string → JobID → JobOutput → outcome (P * list WriterCall);
  Plugin_GetJobResourceUtil : P → context → string → JobID → outcome (P * list WriterCall);
  Plugin_GetJobNetwork : P → context → string → JobID → outcome (P * list WriterCall);
  Plugin_ClusterInfo : P → context → string → outcome (P * list WriterCall);
  Plugin_Bootstrap : option (P → context → outcome (P * list WriterCall));
  Plugin_SyncNodes : option (P → list Node → outcome P);
  Plugin_ReloadConfig : option (P → context → outcome (P * option error));
}.
Arguments Plugin_SubmitJob {P}.
Arguments Plugin_GetJob {P}.
Arguments Plugin_GetJobs {P}.
Arguments Plugin_ControlJob {P}.
Arguments Plugin_GetJobStatus {P}.
Arguments Plugin_GetJobStatuses {P}.
Arguments Plugin_GetJobOutput {P}.
Arguments Plugin_GetJobResourceUtil {P}.
Arguments Plugin_GetJobNetwork {P}.
Arguments Plugin_ClusterInfo {P}.
Arguments Plugin_Bootstrap {P}.
Arguments Plugin_SyncNodes {P}.
Arguments Plugin_ReloadConfig {P}.

(** ** The request handler *)
Section Handler.
Context {P : Type} (p : Plugin P) (ctx : context) (metricsInterval : Z).

(** A plugin method's calls, performed on the writer. *)
Definition run_plugin (w : defaultResponseWriter) (m : outcome (P * list WriterCall))
    : outcome (rtState * P) :=
  r ← m; Ret (writer_state (replay w (snd r)), fst r).

Definition handle_bootstrap (s : rtState) (ps : P) (req : Request) (v : Version) : outcome (rtState * P) :=
  w ← newResponseWriter s req;
  if negb (Version_Major v =? Version_Major APIVersion)%Z then
    let msg := ("The plugin supports API version " ++ strconv_Itoa (Version_Major APIVersion)
      ++ ".X.XXXX. The Launcher's API version is " ++ strconv_Itoa (Version_Major v) ++ "."
      ++ strconv_Itoa (Version_Minor v) ++ "." ++ strconv_Itoa (Version_Patch v))%string in
    Ret (writer_state (WriteErrorf w CodeUnsupportedVersion msg).1, ps)
  else
    r ← match Plugin_Bootstrap p with
        | Some bootstrap => r ← bootstrap ps ctx; Ret (replay w (snd r), fst r)
        | None => Ret (w, ps)
        end;
    let '(w, ps) := r in
    let s := writer_state (writer_WriteBootstrap w).1 in
    if (0 <? metricsInterval)%Z && negb (rt_metricsOnce s)
    then Ret (s <| rt_metricsOnce := true |> <| rt_metricsLoops := S (rt_metricsLoops s) |>, ps)
    else Ret (s, ps).

Definition handle_submit (s : rtState) (ps : P) (req : Request) (r : SubmitJobRequest)
    : outcome (rtState * P) :=
  let username := BaseUserRequest_Username (SubmitJobRequest_Base r) in
  w ← newResponseWriter s req;
  job ← deref (SubmitJobRequest_Job r);
  let job := if decide (username ≠ "*" ∧ Job_User job = "") then job <| Job_User := username |> else job in
  if decide (Job_User job = "")
  then Ret (writer_state (WriteErrorf w CodeInvalidRequest "User must not be empty").1, ps)
  else
    let job := if decide (Job_Profile job = "") then job <| Job_Profile := "custom" |> else job in
    run_plugin w (Plugin_SubmitJob p ps ctx username job).

(** A stream request: cancel, or start and call the plugin with the stream's
    context. *)
Definition handle_stream (s : rtState) (ps : P) (req : Request) (r : BaseJobStreamRequest)
    (call : context → outcome (P * list WriterCall)) : outcome (rtState * P) :=
  id ← Request_ID req;
  if BaseJobStreamRequest_Cancel r then Ret (streamStore_Cancel s id, ps)
  else
    let '(s, sctx) := streamStore_Start s id in
    w ← newStreamWriter s req;
    run_plugin w (call sctx).

Definition valid_operation (op : JobOperation) : bool :=
  bool_decide (op ∈ [OperationSuspend; OperationResume; OperationStop; OperationKill; OperationCancel]).

Definition handle_control (s : rtState) (ps : P) (req : Request) (r : ControlJobRequest)
    : outcome (rtState * P) :=
  let base := ControlJobRequest_Base r in
  let id := BaseJobRequest_JobID base in
  w ← newResponseWriter s req;
  if JobID_IsWildcard id then
    Ret (writer_state (WriteErrorf w CodeInvalidRequest
      "Cannot control all jobs simultaneously. Please specify a single Job ID.").1, ps)
  else if negb (valid_operation (ControlJobRequest_Operation r)) then
    Ret (writer_state (WriteErrorf w CodeInvalidRequest
      ("Unknown control job operation (" ++ strconv_Itoa (ControlJobRequest_Operation r)
        ++ ") for job " ++ id)).1, ps)
  else
    run_plugin w (Plugin_ControlJob p ps ctx (BaseUserRequest_Username (BaseJobRequest_Base base)) id
      (ControlJobRequest_Operation r)
      (mkControlJobOptions (ControlJobRequest_StatusMessage r) (ControlJobRequest_StatusCode r))).

Definition handle_reload (s : rtState) (ps : P) (req : Request) : outcome (rtState * P) :=
  w ← newResponseWriter s req;
  match Plugin_ReloadConfig p with
  | None => Ret (writer_state (writer_WriteConfigReload w ReloadErrorNone "").1, ps)
  | Some reload =>
      r ← reload ps ctx;
      match snd r with
      | None => Ret (writer_state (writer_WriteConfigReload w ReloadErrorNone "").1, fst r)
      | Some err =>
          match errors_As_Reload err with
          | Some (t, msg) => Ret (writer_state (writer_WriteConfigReload w t msg).1, fst r)
          | None => Ret (writer_state (writer_WriteConfigReload w ReloadErrorUnknown (error_Error err)).1, fst r)
          end
      end
  end.

Definition job_user (r : BaseJobRequest) : string := BaseUserRequest_Username (BaseJobRequest_Base r).

(** The function [createHandler] returns. *)
Definition createHandler (st : rtState * P) (req : Request) : outcome (rtState * P) :=
  let '(s, ps) := st in
  match req with
  | HeartbeatRequest _ =>
      w ← newResponseWriter s req; Ret (writer_state (writer_WriteHeartbeat w).1, ps)
  | ReqBootstrap r => handle_bootstrap s ps req (BootstrapRequest_Version r)
  | ReqSubmitJob r => handle_submit s ps req r
  | ReqJobState r =>
      let base := JobStateRequest_Base r in
      let filter := JobStateRequest_Filter r in
      w ← newResponseWriter s req;
      if negb (JobID_IsWildcard (BaseJobRequest_JobID base))
      then run_plugin w (Plugin_GetJob p ps ctx (job_user base) (BaseJobRequest_JobID base)
                           (JobFilter_Fields filter))
      else run_plugin w (Plugin_GetJobs p ps ctx (job_user base) filter (JobFilter_Fields filter))
  | JobStatusStreamRequest r =>
      let base := BaseJobStreamRequest_Base r in
      handle_stream s ps req r (λ sctx,
        if negb (JobID_IsWildcard (BaseJobRequest_JobID base))
        then Plugin_GetJobStatus p ps sctx (job_user base) (BaseJobRequest_JobID base)
        else Plugin_GetJobStatuses p ps sctx (job_user base))
  | ReqControlJob r => handle_control s ps req r
  | ReqJobOutput r =>
      let base := BaseJobStreamRequest_Base (JobOutputRequest_Base r) in
      handle_stream s ps req (JobOutputRequest_Base r) (λ sctx,
        Plugin_GetJobOutput p ps sctx (job_user base) (BaseJobRequest_JobID base) (JobOutputRequest_Output r))
  | JobResourceUtilRequest r =>
      let base := BaseJobStreamRequest_Base r in
      handle_stream s ps req r (λ sctx,
        Plugin_GetJobResourceUtil p ps sctx (job_user base) (BaseJobRequest_JobID base))
  | JobNetworkRequest r =>
      w ← newResponseWriter s req;
      run_plugin w (Plugin_GetJobNetwork p ps ctx (job_user r) (BaseJobRequest_JobID r))
  | ClusterInfoRequest r =>
      w ← newResponseWriter s req;
      run_plugin w (Plugin_ClusterInfo p ps ctx (BaseUserRequest_Username r))
  | ReqSetLoadBalancerNodes r =>
      w ← newResponseWriter s req;
      ps ← match Plugin_SyncNodes p with
           | Some sync => sync ps (SetLoadBalancerNodesRequest_Nodes r)
           | None => Ret ps
           end;
      Ret (writer_state (writer_WriteSetLoadBalancerNodes w).1, ps)
  | ConfigReloadRequest r => handle_reload s ps req
  end.
End Handler.

Definition initial_rt (ctx : context) : rtState :=
  mkRtState 0 (newStreamStore ctx) ∅ 0 false 0 [].
