(* ===== verification/RuntimeFacts.v ===== *)
(** * Correctness of the runtime

    What reaches the response channel: every response answers the request it
    was written for, response IDs are handed out consecutively, sequence IDs
    count the messages of a stream, refused requests never reach the plugin,
    cancelling a stream ends its context and no other. *)

From S2P Require Import Prelude GoStd Types Writer SubManager Rpc Runtime.

(** ** Counting modulo 2^64 *)
Definition next64 (z : Z) : Z := wrap64 (z + 1).

Fixpoint count_from (c : Z) (n : nat) : list Z :=
  match n with O => [] | S n => c :: count_from (next64 c) n end.

Lemma wrap64_idemp_add a b : wrap64 (wrap64 a + b) = wrap64 (a + b).
Proof. unfold wrap64. by rewrite Zplus_mod_idemp_l. Qed.

Lemma wrap64_idemp a : wrap64 (wrap64 a) = wrap64 a.
Proof. unfold wrap64. by rewrite Zmod_mod. Qed.

Lemma wrap64_pred z : wrap64 (next64 z - 1) = wrap64 z.
Proof. unfold next64, Z.sub. rewrite wrap64_idemp_add. f_equal. lia. Qed.

Lemma count_from_app c n m :
  count_from c (n + m) = count_from c n ++ count_from (Nat.iter n next64 c) m.
Proof.
  revert c. induction n as [|n IH]; intros c; [done|].
  cbn [count_from plus]. by rewrite IH, Nat.iter_succ_r.
Qed.

Lemma iter_wrap n z : Nat.iter n next64 (wrap64 z) = wrap64 (Nat.iter n next64 z).
Proof.
  induction n as [|n IH]; [done|]. rewrite !Nat.iter_succ, IH. unfold next64 at 1 3.
  by rewrite wrap64_idemp_add, wrap64_idemp.
Qed.

Lemma iter_plus n m z : Nat.iter (n + m) next64 z = Nat.iter m next64 (Nat.iter n next64 z).
Proof. rewrite Nat.add_comm. apply Nat.iter_add. Qed.

Lemma iter_next64 n z : wrap64 (Nat.iter n next64 z) = wrap64 (z + Z.of_nat n).
Proof.
  induction n as [|n IH]; [cbn; f_equal; lia|]. rewrite Nat.iter_succ. unfold next64 at 1.
  rewrite wrap64_idemp, <- wrap64_idemp_add, IH, wrap64_idemp_add. f_equal. lia.
Qed.

Lemma count_from_seq n c :
  wrap64 c = c → count_from c n = (λ i, wrap64 (c + Z.of_nat i)) <$> seq 0 n.
Proof.
  revert c. induction n as [|n IH]; intros c Hc; [done|]. cbn [count_from seq]. rewrite fmap_cons.
  f_equal; [by rewrite Z.add_0_r|]. rewrite IH.
  - rewrite <- fmap_S_seq, <- list_fmap_compose. apply list_fmap_ext. intros i x _. cbn.
    unfold next64. rewrite wrap64_idemp_add. f_equal. lia.
  - apply wrap64_idemp.
Qed.

(** ** Reading responses *)

(** The response is for the request with the given ID. *)
Definition answers (id : Z) (r : Response) : Prop :=
  match r with
  | RespJobStatus r => ∃ seq, JobStatusStreamResponse_Sequences r = Some [mkStreamSequence id seq]
  | RespJobResource r => ∃ seq, JobResourceResponse_Sequences r = Some [mkStreamSequence id seq]
  | _ => responseBase_RequestID (Response_Base r) = id
  end.

(** Errors, heartbeats and metrics carry no response ID of their own. *)
Definition numbered (r : Response) : bool :=
  bool_decide (responseBase_MessageType (Response_Base r) ∉
    [responseError; responseHeartbeat; responseMetrics]).

Definition response_id (r : Response) : option Z :=
  if numbered r then Some (responseBase_ResponseID (Response_Base r)) else None.

Definition response_ids (l : list Response) : list Z := omap response_id l.

(** The position of the response in its stream. *)
Definition sequence_id (r : Response) : option Z :=
  match r with
  | RespJobStatus r => StreamSequence_SequenceID <$> (JobStatusStreamResponse_Sequences r ≫= head)
  | RespJobOutput r => Some (JobOutputResponse_SequenceID r)
  | RespJobResource r => StreamSequence_SequenceID <$> (JobResourceResponse_Sequences r ≫= head)
  | _ => None
  end.

Definition sequence_ids (l : list Response) : list Z := omap sequence_id l.

Definition is_bootstrap (r : Response) : bool :=
  match r with RespBootstrap _ => true | _ => false end.

(** ** One call on the writer

    [emits w w' l]: by some calls, writer [w] became [w'] and sent [l]. *)
Definition stream_of (w : defaultResponseWriter) : option streamRecord :=
  streamStore_streams (rt_store (writer_state w)) !! writer_id w.

Definition advance (n : nat) (rec : streamRecord) : streamRecord :=
  mkStreamRecord (streamRecord_Context rec) (Nat.iter n next64 (streamRecord_SeqID rec)).

Record emits (w w' : defaultResponseWriter) (l : list Response) : Prop := {
  em_writer : writer_req w' = writer_req w ∧ writer_id w' = writer_id w ∧ writer_store w' = writer_store w;
  em_ch : rt_ch (writer_state w') = rt_ch (writer_state w) ++ l;
  em_answers : Forall (answers (writer_id w)) l;
  em_ids : response_ids l =
    count_from (wrap64 (rt_responseCounter (writer_state w))) (length (response_ids l));
  em_counter : rt_responseCounter (writer_state w') =
    Nat.iter (length (response_ids l)) next64 (rt_responseCounter (writer_state w));
  em_seqs : match stream_of w with
    | Some rec => sequence_ids l = count_from (next64 (streamRecord_SeqID rec)) (length (sequence_ids l))
    | None => Forall (.= 0%Z) (sequence_ids l)
    end;
  em_streams : streamStore_streams (rt_store (writer_state w')) =
    match stream_of w with
    | Some rec => <[writer_id w := advance (length (sequence_ids l)) rec]>
                    (streamStore_streams (rt_store (writer_state w)))
    | None => streamStore_streams (rt_store (writer_state w))
    end;
  em_rest : streamStore_ctx (rt_store (writer_state w')) = streamStore_ctx (rt_store (writer_state w)) ∧
    rt_cancelled (writer_state w') = rt_cancelled (writer_state w) ∧
    rt_next_ctx (writer_state w') = rt_next_ctx (writer_state w) ∧
    rt_metricsOnce (writer_state w') = rt_metricsOnce (writer_state w) ∧
    rt_metricsLoops (writer_state w') = rt_metricsLoops (writer_state w);
}.

Lemma advance_0 rec : advance 0 rec = rec.
Proof. by destruct rec. Qed.

Lemma emits_nil w : emits w w [].
Proof.
  split; try done.
  - by rewrite app_nil_r.
  - destruct (stream_of w); [done|constructor].
  - destruct (stream_of w) eqn:E; [|done]. cbn. rewrite advance_0. by rewrite insert_id.
Qed.

(** The stream record after sending [l]. *)
Lemma emits_stream w w' l :
  emits w w' l → stream_of w' = advance (length (sequence_ids l)) <$> stream_of w.
Proof.
  intros H. pose proof (em_streams _ _ _ H) as Hs. destruct (em_writer _ _ _ H) as (_ & Hid & _).
  unfold stream_of at 1. rewrite Hid, Hs. destruct (stream_of w) eqn:E; cbn.
  - by rewrite lookup_insert_eq.
  - exact E.
Qed.

Lemma emits_app w w1 w2 l1 l2 : emits w w1 l1 → emits w1 w2 l2 → emits w w2 (l1 ++ l2).
Proof.
  intros H1 H2. pose proof (emits_stream _ _ _ H1) as Hst.
  destruct (em_writer _ _ _ H1) as (Hr & Hid & Hs), (em_writer _ _ _ H2) as (Hr' & Hid' & Hs').
  assert (length (response_ids (l1 ++ l2)) = length (response_ids l1) + length (response_ids l2))%nat as HL.
  { unfold response_ids. by rewrite omap_app, length_app. }
  assert (length (sequence_ids (l1 ++ l2)) = length (sequence_ids l1) + length (sequence_ids l2))%nat as HS.
  { unfold sequence_ids. by rewrite omap_app, length_app. }
  split.
  - by rewrite Hr', Hid', Hs'.
  - by rewrite (em_ch _ _ _ H2), (em_ch _ _ _ H1), app_assoc.
  - apply Forall_app. split; [apply H1|]. rewrite <- Hid. apply H2.
  - rewrite HL, count_from_app. unfold response_ids at 1. rewrite omap_app. f_equal; [apply H1|].
    fold (response_ids l2). rewrite (em_ids _ _ _ H2) at 1. by rewrite (em_counter _ _ _ H1), iter_wrap.
  - by rewrite HL, (em_counter _ _ _ H2), (em_counter _ _ _ H1), iter_plus.
  - pose proof (em_seqs _ _ _ H1) as E1. pose proof (em_seqs _ _ _ H2) as E2. rewrite Hst in E2.
    assert (sequence_ids (l1 ++ l2) = sequence_ids l1 ++ sequence_ids l2) as HA
      by (unfold sequence_ids; by rewrite omap_app).
    destruct (stream_of w) as [rec|]; cbn in E2; rewrite HA; [|by apply Forall_app].
    rewrite length_app, count_from_app. f_equal; [exact E1|]. rewrite E2 at 1. f_equal.
    by rewrite <- Nat.iter_succ, Nat.iter_succ_r.
  - rewrite (em_streams _ _ _ H2), Hst, (em_streams _ _ _ H1), Hid.
    destruct (stream_of w) as [rec|]; [|done]. cbn. rewrite insert_insert_eq. f_equal.
    unfold advance. cbn. by rewrite HS, iter_plus.
  - destruct (em_rest _ _ _ H1) as (A1 & A2 & A3 & A4 & A5), (em_rest _ _ _ H2) as (B1 & B2 & B3 & B4 & B5).
    repeat split; congruence.
Qed.

(** A response without numbers of its own. *)
Lemma emits_plain w resp :
  answers (writer_id w) resp → response_id resp = None → sequence_id resp = None →
  emits w (sendResponse w (writer_state w) resp).1 [resp].
Proof.
  intros Ha Hr Hs. unfold sendResponse, with_state.
  assert (response_ids [resp] = []) as HR by (unfold response_ids; cbn; by rewrite Hr).
  assert (sequence_ids [resp] = []) as HS by (unfold sequence_ids; cbn; by rewrite Hs).
  split; rewrite ?HR, ?HS; try done; cbn.
  - by constructor.
  - destruct (stream_of w); [done|constructor].
  - destruct (stream_of w) eqn:E; [|done]. rewrite advance_0. by rewrite insert_id.
Qed.

(** A response with a fresh response ID. *)
Lemma emits_numbered w (mk : Z → Response) :
  (∀ rid, answers (writer_id w) (mk rid)) → (∀ rid, response_id (mk rid) = Some rid) →
  (∀ rid, sequence_id (mk rid) = None) →
  emits w (let '(s, rid) := nextResponseID (writer_state w) in sendResponse w s (mk rid)).1
    [mk (wrap64 (rt_responseCounter (writer_state w)))].
Proof.
  intros Ha Hr Hs. unfold nextResponseID, sendResponse, with_state.
  fold (next64 (rt_responseCounter (writer_state w))). rewrite wrap64_pred.
  set (resp := mk _).
  assert (response_ids [resp] = [wrap64 (rt_responseCounter (writer_state w))]) as HR
    by (unfold response_ids, resp; cbn; by rewrite Hr).
  assert (sequence_ids [resp] = []) as HS by (unfold sequence_ids, resp; cbn; by rewrite Hs).
  split; rewrite ?HR, ?HS; try done; cbn.
  - constructor; [apply Ha|constructor].
  - destruct (stream_of w); [done|constructor].
  - destruct (stream_of w) eqn:E; [|done]. rewrite advance_0. by rewrite insert_id.
Qed.

(** A response of a stream: a fresh response ID and the next sequence ID. *)
Lemma emits_stream_response w (mk : Z → Z → Response) :
  (∀ rid seq, answers (writer_id w) (mk rid seq)) → (∀ rid seq, response_id (mk rid seq) = Some rid) →
  (∀ rid seq, sequence_id (mk rid seq) = Some seq) →
  ∃ seq, emits w
    (let '(s, rid) := nextResponseID (writer_state w) in
     let '(s, seq) := streamStore_SequenceID s (writer_id w) in sendResponse w s (mk rid seq)).1
    [mk (wrap64 (rt_responseCounter (writer_state w))) seq].
Proof.
  intros Ha Hr Hs. unfold nextResponseID, streamStore_SequenceID, sendResponse, with_state. cbn.
  fold (next64 (rt_responseCounter (writer_state w))). rewrite wrap64_pred.
  fold (stream_of w). destruct (stream_of w) as [rec|] eqn:E.
  - fold (next64 (streamRecord_SeqID rec)). exists (next64 (streamRecord_SeqID rec)).
    set (resp := mk _ _).
    assert (response_ids [resp] = [wrap64 (rt_responseCounter (writer_state w))]) as HR
      by (unfold response_ids, resp; cbn; by rewrite Hr).
    assert (sequence_ids [resp] = [next64 (streamRecord_SeqID rec)]) as HS
      by (unfold sequence_ids, resp; cbn; by rewrite Hs).
    split; rewrite ?HR, ?HS, ?E; try done; cbn. constructor; [apply Ha|constructor].
  - exists 0%Z. set (resp := mk _ _).
    assert (response_ids [resp] = [wrap64 (rt_responseCounter (writer_state w))]) as HR
      by (unfold response_ids, resp; cbn; by rewrite Hr).
    assert (sequence_ids [resp] = [0%Z]) as HS by (unfold sequence_ids, resp; cbn; by rewrite Hs).
    split; rewrite ?HR, ?HS, ?E; try done; cbn; constructor; try constructor; done || apply Ha.
Qed.

(** Every call of the interface sends at most one response, and none of them a
    bootstrap response. *)
Lemma perform_emits w c :
  ∃ l, emits w (perform w c) l ∧ length l ≤ 1 ∧ existsb is_bootstrap l = false.
Proof.
  assert (∀ mk : Z → Z → Response,
    (∀ rid seq, answers (writer_id w) (mk rid seq)) → (∀ rid seq, response_id (mk rid seq) = Some rid) →
    (∀ rid seq, sequence_id (mk rid seq) = Some seq) → (∀ rid seq, is_bootstrap (mk rid seq) = false) →
    ∃ l, emits w
      (let '(s, rid) := nextResponseID (writer_state w) in
       let '(s, seq) := streamStore_SequenceID s (writer_id w) in sendResponse w s (mk rid seq)).1 l ∧
      length l ≤ 1 ∧ existsb is_bootstrap l = false) as Hstream.
  { intros mk H1 H2 H3 H4. destruct (emits_stream_response w mk H1 H2 H3) as [seq He].
    eexists. split; [exact He|]. cbn. by rewrite H4. }
  assert (∃ l, emits w w l ∧ length l ≤ 1 ∧ existsb is_bootstrap l = false) as Hnone.
  { exists []. split; [apply emits_nil|]. split; [cbn; lia|done]. }
  destruct c; cbn [perform WriteErrorf WriteError WriteJobs WriteControlJob WriteJobNetwork
    WriteClusterInfo WriteJobStatus WriteJobOutput WriteJobResourceUtil WriterClose
    writer_ResponseWriter writer_StreamResponseWriter stream_base].
  - eexists. split; [by apply emits_plain|]. done.
  - eexists. split; [by apply emits_plain|]. done.
  - eexists. split; [by apply (emits_numbered w (λ rid, RespJobState (NewJobStateResponse (writer_id w) rid jobs)))|]. done.
  - eexists. split; [by apply (emits_numbered w (λ rid, RespControlJob (NewControlJobResponse (writer_id w) rid complete msg)))|]. done.
  - eexists. split; [by apply (emits_numbered w (λ rid, RespJobNetwork (NewJobNetworkResponse (writer_id w) rid host addr)))|]. done.
  - eexists. split; [by apply (emits_numbered w (λ rid, RespClusterInfo
      (NewClusterInfoResponse (writer_id w) rid (ClusterOptions_toProtocol o))))|]. done.
  - unfold writer_WriteJobStatus. destruct (writer_store w); [|exact Hnone].
    apply (Hstream (λ rid seq, RespJobStatus (mkJobStatusStreamResponse
      (mkResponseBase responseJobStatus 0 rid) (Some [mkStreamSequence (writer_id w) seq])
      id name status statusCode msg))); try done. intros rid seq. by exists seq.
  - unfold writer_WriteJobOutput. destruct (writer_store w); [|exact Hnone].
    by apply (Hstream (λ rid seq, RespJobOutput (mkJobOutputResponse
      (mkResponseBase responseJobOutput (writer_id w) rid) seq output (JobOutput_String outputType) false))).
  - unfold writer_WriteJobResourceUtil. destruct (writer_store w); [|exact Hnone].
    apply (Hstream (λ rid seq, RespJobResource (mkJobResourceResponse
      (mkResponseBase responseJobResourceUtil 0 rid) (Some [mkStreamSequence (writer_id w) seq])
      cpuPercent cpuTime virtualMem residentMem false))); try done. intros rid seq. by exists seq.
  - unfold writer_Close. destruct (writer_store w); [|exact Hnone].
    destruct (writer_req w); try exact Hnone.
    + by apply (Hstream (λ rid seq, RespJobOutput (mkJobOutputResponse
        (mkResponseBase responseJobOutput (writer_id w) rid) seq "" "" true))).
    + apply (Hstream (λ rid seq, RespJobResource (mkJobResourceResponse
        (mkResponseBase responseJobResourceUtil 0 rid) (Some [mkStreamSequence (writer_id w) seq])
        zero_float zero_float zero_float zero_float true))); try done. intros rid seq. by exists seq.
Qed.

Lemma replay_emits w cs : ∃ l, emits w (replay w cs) l ∧ existsb is_bootstrap l = false.
Proof.
  revert w. induction cs as [|c cs IH]; intros w.
  - exists []. split; [apply emits_nil|done].
  - destruct (perform_emits w c) as (l1 & H1 & _ & B1). destruct (IH (perform w c)) as (l2 & H2 & B2).
    exists (l1 ++ l2). split; [by eapply emits_app|]. by rewrite existsb_app, B1, B2.
Qed.

(** ** Stream contexts

    Every stream has its own context below the server's; the contexts cancelled
    are those of streams that are gone. *)
Definition streams (s : rtState) : gmap Z streamRecord := streamStore_streams (rt_store s).
Definition root (s : rtState) : context := streamStore_ctx (rt_store s).

Record rt_wf (s : rtState) : Prop := {
  rw_context : ∀ id rec, streams s !! id = Some rec →
    ∃ n, streamRecord_Context rec = n :: root s ∧ n < rt_next_ctx s;
  rw_distinct : ∀ id1 id2 rec1 rec2, streams s !! id1 = Some rec1 → streams s !! id2 = Some rec2 →
    streamRecord_Context rec1 = streamRecord_Context rec2 → id1 = id2;
  rw_cancelled : ∀ c, c ∈ rt_cancelled s → (∃ n, c = n :: root s ∧ n < rt_next_ctx s) ∧
    ∀ id rec, streams s !! id = Some rec → streamRecord_Context rec ≠ c;
}.

Lemma initial_rt_wf ctx : rt_wf (initial_rt ctx).
Proof.
  split.
  - intros id rec H. cbn in H. by rewrite lookup_empty in H.
  - intros id1 id2 rec1 rec2 H. cbn in H. by rewrite lookup_empty in H.
  - intros c H. cbn in H. by apply not_elem_of_empty in H.
Qed.

(** Only the sequence numbers of the streams may change. *)
Definition same_contexts (s s' : rtState) : Prop :=
  root s' = root s ∧ rt_cancelled s' = rt_cancelled s ∧ rt_next_ctx s' = rt_next_ctx s ∧
  ∀ id, streamRecord_Context <$> streams s' !! id = streamRecord_Context <$> streams s !! id.

Lemma rt_wf_same s s' : same_contexts s s' → rt_wf s → rt_wf s'.
Proof.
  intros (Hr & Hc & Hn & Hs) [W1 W2 W3].
  assert (∀ id rec, streams s' !! id = Some rec → ∃ rec0, streams s !! id = Some rec0 ∧
    streamRecord_Context rec = streamRecord_Context rec0) as Hback.
  { intros id rec H. specialize (Hs id). rewrite H in Hs.
    destruct (streams s !! id) as [rec0|]; simplify_eq/=. by exists rec0. }
  split.
  - intros id rec (rec0 & H0 & ->)%Hback. rewrite Hr, Hn. eauto.
  - intros id1 id2 rec1 rec2 (? & H1 & ->)%Hback (? & H2 & ->)%Hback. eauto.
  - intros c. rewrite Hc, Hr, Hn. intros Hin. destruct (W3 c Hin) as [Hx Hy]. split; [done|].
    intros id rec (? & H1 & ->)%Hback. eauto.
Qed.

Lemma emits_same_contexts w w' l : emits w w' l → same_contexts (writer_state w) (writer_state w').
Proof.
  intros H. destruct (em_rest _ _ _ H) as (H1 & H2 & H3 & _ & _). repeat split; try done.
  intros id. unfold streams. rewrite (em_streams _ _ _ H).
  destruct (stream_of w) as [rec|] eqn:E; [|done]. destruct (decide (id = writer_id w)) as [->|Hne].
  - rewrite lookup_insert_eq. unfold stream_of in E. by rewrite E.
  - by rewrite lookup_insert_ne.
Qed.

Lemma Start_wf s id : rt_wf s → rt_wf (streamStore_Start s id).1.
Proof.
  intros [W1 W2 W3]. unfold streamStore_Start. fold (streams s).
  destruct (streams s !! id) as [rec|] eqn:Hid; [done|]. cbn. split; unfold streams, root; cbn.
  - intros id1 rec1 [[<- <-]|[_ H1]]%lookup_insert_Some.
    + exists (rt_next_ctx s). split; [done|lia].
    + destruct (W1 _ _ H1) as (n & -> & Hn). exists n. split; [done|lia].
  - intros id1 id2 rec1 rec2 [[<- <-]|[_ H1]]%lookup_insert_Some [[<- <-]|[_ H2]]%lookup_insert_Some He; [done| | |eauto];
      exfalso; [destruct (W1 _ _ H2) as (n & Hc & Hn)|destruct (W1 _ _ H1) as (n & Hc & Hn)];
      cbn in He; rewrite Hc in He; injection He; lia.
  - intros c Hc. destruct (W3 c Hc) as [(n & -> & Hn) Hl]. split; [exists n; split; [done|lia]|].
    intros id1 rec1 [[<- <-]|[_ H1]]%lookup_insert_Some; [cbn; intros [=]; lia|eauto].
Qed.

Lemma Cancel_wf s id : rt_wf s → rt_wf (streamStore_Cancel s id).
Proof.
  intros [W1 W2 W3]. unfold streamStore_Cancel. fold (streams s).
  destruct (streams s !! id) as [rec|] eqn:Hid; [|done]. split; unfold streams, root; cbn.
  - intros id1 rec1 [_ H1]%lookup_delete_Some. eauto.
  - intros id1 id2 rec1 rec2 [_ H1]%lookup_delete_Some [_ H2]%lookup_delete_Some. eauto.
  - intros c [->%elem_of_singleton|Hc]%elem_of_union.
    + split; [by eapply W1|]. intros id1 rec1 [Hne H1]%lookup_delete_Some He. apply Hne.
      symmetry. by eapply W2.
    + destruct (W3 c Hc) as [Hx Hy]. split; [done|].
      intros id1 rec1 [_ H1]%lookup_delete_Some. eauto.
Qed.

(** Only contexts of streams are cancelled. *)
Lemma short_not_cancelled s ctx :
  rt_wf s → length ctx ≤ length (root s) → context_Err (rt_cancelled s) ctx = false.
Proof.
  intros [W1 W2 W3] Hl.
  assert (∀ ctx, length ctx ≤ length (root s) → ctx ∉ rt_cancelled s) as Hno.
  { intros ctx' Hl' Hc. destruct (W3 _ Hc) as [(m & -> & _) _]. cbn in Hl'. lia. }
  induction ctx as [|m ctx IH]; cbn; rewrite bool_decide_false by auto; [done|].
  apply IH. cbn in Hl. lia.
Qed.

Lemma stream_context_Err s n :
  rt_wf s → context_Err (rt_cancelled s) (n :: root s) = bool_decide (n :: root s ∈ rt_cancelled s).
Proof. intros Hwf. cbn. by rewrite short_not_cancelled, orb_false_r by done. Qed.

(** No running stream is cancelled. *)
Lemma live_not_cancelled s id rec :
  rt_wf s → streams s !! id = Some rec →
  context_Err (rt_cancelled s) (streamRecord_Context rec) = false.
Proof.
  intros Hwf Hid. destruct (rw_context _ Hwf _ _ Hid) as (n & Hn & _).
  rewrite Hn, stream_context_Err by done. apply bool_decide_eq_false.
  intros Hc. rewrite <- Hn in Hc. by eapply (proj2 (rw_cancelled _ Hwf _ Hc)).
Qed.

(** ** One request *)

(** The stream part of a request, if it is a stream request. *)
Definition stream_part (req : Request) : option BaseJobStreamRequest :=
  match req with
  | JobStatusStreamRequest r | JobResourceUtilRequest r => Some r
  | ReqJobOutput r => Some (JobOutputRequest_Base r)
  | _ => None
  end.

(** The ID a response to the request carries: heartbeats are answered with 0. *)
Definition answer_id (req : Request) (id : Z) : Z :=
  match req with HeartbeatRequest _ => 0%Z | _ => id end.

(** What handling a request does to the shared state: it sends [l]. *)
Record effect (metricsInterval : Z) (s s' : rtState) (id : Z) (l : list Response) : Prop := {
  ef_ch : rt_ch s' = rt_ch s ++ l;
  ef_answers : Forall (answers id) l;
  ef_ids : response_ids l = count_from (wrap64 (rt_responseCounter s)) (length (response_ids l));
  ef_counter : rt_responseCounter s' = Nat.iter (length (response_ids l)) next64 (rt_responseCounter s);
  ef_once : rt_metricsOnce s' = rt_metricsOnce s || (0 <? metricsInterval)%Z && existsb is_bootstrap l;
  ef_loops : rt_metricsLoops s' =
    rt_metricsLoops s + (if rt_metricsOnce s' && negb (rt_metricsOnce s) then 1 else 0);
  ef_wf : rt_wf s → rt_wf s';
}.

Lemma emits_effect mi w w' l :
  emits w w' l → existsb is_bootstrap l = false →
  effect mi (writer_state w) (writer_state w') (writer_id w) l.
Proof.
  intros He Hb. pose proof (rt_wf_same _ _ (emits_same_contexts _ _ _ He)) as Hwf.
  destruct He as [H1 H2 H3 H4 H5 _ _ (_ & _ & _ & H6 & H7)]. split; try done.
  - by rewrite H6, Hb, andb_false_r, orb_false_r.
  - rewrite H6, H7. destruct (rt_metricsOnce (writer_state w)); cbn; lia.
Qed.

Section Handle.
Context {P : Type} (p : Plugin P) (ctx : context) (mi : Z).

Lemma run_plugin_effect w m s' (ps' : P) :
  run_plugin w m = Ret (s', ps') → ∃ l, effect mi (writer_state w) s' (writer_id w) l.
Proof.
  unfold run_plugin. intros ([ps cs] & _ & [= <- <-])%bind_Ret_inv. cbn.
  destruct (replay_emits w cs) as (l & He & Hb). exists l. by apply emits_effect.
Qed.

Lemma writer_inv s req w :
  newResponseWriter s req = Ret w →
  writer_state w = s ∧ Request_ID req = Ret (writer_id w).
Proof. unfold newResponseWriter. intros (id & Hid & [= <-])%bind_Ret_inv. done. Qed.

Lemma error_effect w code msg :
  ∃ l, effect mi (writer_state w) (writer_state (WriteErrorf w code msg).1) (writer_id w) l.
Proof. eexists. apply emits_effect; [by apply emits_plain|done]. Qed.

Lemma numbered_effect w (mk : Z → Response) :
  (∀ rid, answers (writer_id w) (mk rid)) → (∀ rid, response_id (mk rid) = Some rid) →
  (∀ rid, sequence_id (mk rid) = None) → (∀ rid, is_bootstrap (mk rid) = false) →
  ∃ l, effect mi (writer_state w)
    (writer_state (let '(s, rid) := nextResponseID (writer_state w) in sendResponse w s (mk rid)).1)
    (writer_id w) l.
Proof.
  intros H1 H2 H3 H4. eexists. apply emits_effect; [by apply emits_numbered|]. cbn. by rewrite H4.
Qed.

(** The shape of most branches: a writer is made and the rest runs on it. *)
Lemma with_writer_effect s req (ps' : P) s' id k :
  Request_ID req = Ret id →
  (w ← newResponseWriter s req; k w) = Ret (s', ps') →
  (∀ w, writer_state w = s → writer_id w = id → k w = Ret (s', ps') →
     ∃ l, effect mi (writer_state w) s' (writer_id w) l) →
  ∃ l, effect mi s s' id l.
Proof.
  intros Hid (w & Hw & Hk)%bind_Ret_inv Hall. apply writer_inv in Hw as [<- Hw].
  assert (writer_id w = id) as Hwid by congruence.
  destruct (Hall w eq_refl Hwid Hk) as (l & He). exists l. by rewrite Hwid in He.
Qed.

Lemma bootstrap_effect s ps req v s' ps' id :
  Request_ID req = Ret id → handle_bootstrap p ctx mi s ps req v = Ret (s', ps') →
  ∃ l, effect mi s s' id l.
Proof.
  intros Hid Hh. unfold handle_bootstrap in Hh. eapply with_writer_effect; [exact Hid|exact Hh|].
  clear Hh. intros w Hs Hwid. case_match; [intros [= <- <-]; apply error_effect|].
  intros ([w1 ps1] & Hb & Hk)%bind_Ret_inv.
  assert (∃ l1, emits w w1 l1 ∧ existsb is_bootstrap l1 = false) as (l1 & He1 & Hb1).
  { destruct (Plugin_Bootstrap p) as [bs|].
    - apply bind_Ret_inv in Hb as ([ps2 cs] & _ & [= <- _]). apply replay_emits.
    - injection Hb as <- _. exists []. split; [apply emits_nil|done]. }
  set (w2 := (writer_WriteBootstrap w1).1) in *.
  assert (emits w1 w2 [RespBootstrap (NewBootstrapResponse (writer_id w1)
    (wrap64 (rt_responseCounter (writer_state w1))))]) as He2
    by (by apply (emits_numbered w1 (λ rid, RespBootstrap (NewBootstrapResponse (writer_id w1) rid)))).
  clearbody w2.
  pose proof (emits_app _ _ _ _ _ He1 He2) as He. set (l := l1 ++ _) in *.
  assert (existsb is_bootstrap l = true) as Hbl by (subst l; by rewrite existsb_app, orb_true_r).
  exists l. pose proof (rt_wf_same _ _ (emits_same_contexts _ _ _ He)) as Hwf.
  destruct He as [H1 H2 H3 H4 H5 _ _ (_ & _ & _ & H6 & H7)].
  rewrite H6 in Hk. destruct ((0 <? mi)%Z && negb (rt_metricsOnce (writer_state w))) eqn:Hm;
    injection Hk as <- <-; split; cbn; try done.
  - apply andb_true_iff in Hm as [-> _]. by rewrite Hbl, orb_true_r.
  - apply andb_true_iff in Hm as [_ ->]. cbn. rewrite H7. lia.
  - intros W. apply Hwf in W as [W1 W2 W3]. by split.
  - rewrite H6, Hbl. destruct (0 <? mi)%Z, (rt_metricsOnce (writer_state w)); done.
  - rewrite H6, H7. destruct (rt_metricsOnce (writer_state w)); cbn; lia.
Qed.

Lemma stream_effect s ps req r call s' (ps' : P) id :
  Request_ID req = Ret id → handle_stream s ps req r call = Ret (s', ps') →
  ∃ l, effect mi s s' id l.
Proof.
  intros Hid Hh. unfold handle_stream in Hh. rewrite Hid in Hh. cbn in Hh.
  destruct (BaseJobStreamRequest_Cancel r).
  - injection Hh as <- <-. exists []. pose proof (Cancel_wf s id) as Hwf. unfold streamStore_Cancel in *.
    destruct (streamStore_streams (rt_store s) !! id); split; cbn; try done;
      rewrite ?app_nil_r, ?andb_false_r, ?orb_false_r; try done;
      destruct (rt_metricsOnce s); cbn; lia.
  - destruct (streamStore_Start s id) as [s1 sctx] eqn:Hst. unfold newStreamWriter in Hh.
    rewrite Hid in Hh. cbn in Hh. apply run_plugin_effect in Hh as [l He]. cbn in He. exists l.
    pose proof (Start_wf s id) as Hwf. rewrite Hst in Hwf. cbn in Hwf.
    unfold streamStore_Start in Hst. destruct (streamStore_streams (rt_store s) !! id); simplify_eq; [done|].
    destruct He as [H1 H2 H3 H4 H5 H6 H7]. split; try done. auto.
Qed.

(** Every request is handled by sending responses that answer it. *)
Lemma createHandler_effect s ps req s' ps' id :
  Request_ID req = Ret id → createHandler p ctx mi (s, ps) req = Ret (s', ps') →
  ∃ l, effect mi s s' (answer_id req id) l.
Proof.
  intros Hid. destruct req; cbn [createHandler answer_id]; intros Hh;
    try (by eapply stream_effect); try (by eapply bootstrap_effect);
    unfold handle_submit, handle_control, handle_reload in Hh.
  - apply bind_Ret_inv in Hh as (w & Hw & [= <- <-]). apply writer_inv in Hw as [<- _].
    unfold writer_WriteHeartbeat. eexists [_].
    pose proof (emits_plain (mkWriter (writer_state w) (HeartbeatRequest r) 0 false)
      (RespBase NewHeartbeatResponse) eq_refl eq_refl eq_refl) as He.
    exact (emits_effect mi _ _ _ He eq_refl).
  - eapply with_writer_effect; [exact Hid|exact Hh|]. clear Hh. intros w Hs Hw.
    intros (job & _ & Hk)%bind_Ret_inv. cbv zeta in Hk.
    destruct (decide (Job_User _ = "")); [injection Hk as <- <-; apply error_effect|by eapply run_plugin_effect].
  - eapply with_writer_effect; [exact Hid|exact Hh|]. clear Hh. intros w Hs Hw.
    case_match; apply run_plugin_effect.
  - eapply with_writer_effect; [exact Hid|exact Hh|]. clear Hh. intros w Hs Hw.
    case_match; [intros [= <- <-]; apply error_effect|].
    case_match; [intros [= <- <-]; apply error_effect|]. apply run_plugin_effect.
  - eapply with_writer_effect; [exact Hid|exact Hh|]. intros w _ _. apply run_plugin_effect.
  - eapply with_writer_effect; [exact Hid|exact Hh|]. intros w _ _. apply run_plugin_effect.
  - eapply with_writer_effect; [exact Hid|exact Hh|]. clear Hh. intros w Hs Hw.
    intros (ps1 & _ & [= <- <-])%bind_Ret_inv.
    exact (numbered_effect w (λ rid, RespBase (NewSetLoadBalancerNodesResponse (writer_id w) rid))
      ltac:(done) ltac:(done) ltac:(done) ltac:(done)).
  - eapply with_writer_effect; [exact Hid|exact Hh|]. clear Hh. intros w Hs Hw.
    assert (∀ t msg, ∃ l, effect mi (writer_state w) (writer_state (writer_WriteConfigReload w t msg).1) (writer_id w) l) as Hr.
    { intros t msg. by apply (numbered_effect w (λ rid, RespConfigReload (NewConfigReloadResponse (writer_id w) rid t msg))). }
    destruct (Plugin_ReloadConfig p) as [reload|]; [|intros [= <- <-]; apply Hr].
    intros ([ps1 [err|]] & _ & Hk)%bind_Ret_inv; cbn in Hk; [|injection Hk as <- <-; apply Hr].
    destruct (errors_As_Reload err) as [[t msg]|]; injection Hk as <- <-; apply Hr.
Qed.
End Handle.
