(* ===== verification/RuntimeProps.v ===== *)
(** * Properties of the runtime

    The theorems hold for every plugin; the concrete runs use a small one. *)

From S2P Require Import Prelude GoStd Types Writer SubManager Rpc Runtime RuntimeFacts.

(** Requests served one after the other. *)
Fixpoint serve {P} (p : Plugin P) (ctx : context) (mi : Z) (st : rtState * P) (reqs : list Request)
    : outcome (rtState * P) :=
  match reqs with
  | [] => Ret st
  | req :: reqs => st' ← createHandler p ctx mi st req; serve p ctx mi st' reqs
  end.

(** Requests that went through [RequestFromJSON] have an ID. *)
Definition has_id (req : Request) : Prop := is_Some (BaseRequest_RequestID (Request_Base req)).

Lemma has_id_ID req : has_id req → ∃ id, Request_ID req = Ret id.
Proof. intros [id H]. exists id. unfold Request_ID, BaseRequest_ID. by rewrite H. Qed.

(** What a sequence of requests does to the shared state. *)
Lemma serve_effect {P} (p : Plugin P) ctx mi s ps reqs s' ps' :
  Forall has_id reqs → serve p ctx mi (s, ps) reqs = Ret (s', ps') →
  ∃ l, rt_ch s' = rt_ch s ++ l ∧
    response_ids l = count_from (wrap64 (rt_responseCounter s)) (length (response_ids l)) ∧
    rt_responseCounter s' = Nat.iter (length (response_ids l)) next64 (rt_responseCounter s) ∧
    rt_metricsOnce s' = rt_metricsOnce s || (0 <? mi)%Z && existsb is_bootstrap l ∧
    rt_metricsLoops s' = rt_metricsLoops s + (if rt_metricsOnce s' && negb (rt_metricsOnce s) then 1 else 0) ∧
    (rt_wf s → rt_wf s').
Proof.
  intros Hids. revert s ps. induction Hids as [|req reqs Hid _ IH]; intros s ps; cbn.
  - intros [= <- <-]. exists []. rewrite app_nil_r. cbn. rewrite andb_false_r, orb_false_r.
    do 4 (split; [done|]). split; [destruct (rt_metricsOnce s); cbn; lia|done].
  - intros ([s1 ps1] & H1 & H2)%bind_Ret_inv. destruct (has_id_ID req Hid) as [id Hid'].
    destruct (createHandler_effect p ctx mi s ps req s1 ps1 id Hid' H1) as (l1 & [E1 _ E3 E4 E5 E6 E7]).
    destruct (IH s1 ps1 H2) as (l2 & F1 & F3 & F4 & F5 & F6 & F7).
    exists (l1 ++ l2). unfold response_ids. rewrite !omap_app, !length_app.
    fold (response_ids l1) (response_ids l2). split; [by rewrite F1, E1, app_assoc|].
    split; [rewrite count_from_app, iter_wrap, <- E4; congruence|].
    split; [by rewrite F4, E4, iter_plus|]. rewrite existsb_app.
    split; [rewrite F5, E5; destruct (rt_metricsOnce s), (0 <? mi)%Z, (existsb _ l1), (existsb _ l2); done|].
    split; [|auto]. rewrite F6, E6. rewrite F5, E5.
    destruct (rt_metricsOnce s), (0 <? mi)%Z, (existsb _ l1), (existsb _ l2); cbn; lia.
Qed.

(** A plugin that answers status streams with two statuses and everything else
    with an empty list of jobs; its state counts the calls. *)
Definition sample_plugin : Plugin nat :=
  let jobs ps := Ret (S ps, [CallJobs None]) in
  let status ps := Ret (S ps, [CallJobStatus "job-1" "demo" StatusRunning "" "";
                               CallJobStatus "job-1" "demo" StatusFinished "" ""; CallClose]) in
  {| Plugin_SubmitJob := λ ps _ _ _, jobs ps;
     Plugin_GetJob := λ ps _ _ _ _, jobs ps;
     Plugin_GetJobs := λ ps _ _ _ _, jobs ps;
     Plugin_ControlJob := λ ps _ _ _ _ _, Ret (S ps, [CallControlJob true "done"]);
     Plugin_GetJobStatus := λ ps _ _ _, status ps;
     Plugin_GetJobStatuses := λ ps _ _, status ps;
     Plugin_GetJobOutput := λ ps _ _ _ _, Ret (S ps, [CallJobOutput "hello" OutputStdout; CallClose]);
     Plugin_GetJobResourceUtil := λ ps _ _ _, Ret (S ps, [CallClose]);
     Plugin_GetJobNetwork := λ ps _ _ _, Ret (S ps, [CallJobNetwork "host" None]);
     Plugin_ClusterInfo := λ ps _ _, Ret (S ps, [CallErrorf CodeUnknown "no cluster"]);
     Plugin_Bootstrap := None; Plugin_SyncNodes := None; Plugin_ReloadConfig := None |}.

Definition base_request (t id : Z) : BaseRequest := mkBaseRequest (Some t) (Some id).
Definition job_request (t id : Z) (job : JobID) : BaseJobRequest :=
  mkBaseJobRequest (mkBaseUserRequest (base_request t id) "alice" "") job "".
Definition stream_request (id : Z) (cancel : bool) : Request :=
  JobStatusStreamRequest (mkBaseJobStreamRequest (job_request requestJobStatus id "job-1") cancel).
Definition output_request (id : Z) : Request :=
  ReqJobOutput (mkJobOutputRequest
    (mkBaseJobStreamRequest (job_request requestJobOutput id "job-1") false) OutputStdout).
Definition bootstrap_request (major : Z) : Request :=
  ReqBootstrap (mkBootstrapRequest (base_request requestBootstrap 1) (mkVersion major 0 0 0 "")).

Definition sample_requests : list Request :=
  [bootstrap_request 3; stream_request 7 false; output_request 8; bootstrap_request 3].

(** Every response a handler sends answers the request it handles: it
    carries the request's ID, as its request ID or, for status and resource
    streams, as the one entry of its sequence list; the one exception is the
    heartbeat response, which carries 0. *)
Theorem responses_answer_request {P} (p : Plugin P) (ctx : context) (mi : Z)
    (s s' : rtState) (ps ps' : P) (req : Request) (id : Z)
    (Hid : Request_ID req = Ret id) (Hrun : createHandler p ctx mi (s, ps) req = Ret (s', ps')) :
  ∃ l, rt_ch s' = rt_ch s ++ l ∧ Forall (answers (answer_id req id)) l.
Proof.
  destruct (createHandler_effect p ctx mi s ps req s' ps' id Hid Hrun) as (l & He).
  exists l. split; apply He.
Qed.

Lemma responses_answer_request_witness :
  ∃ s' l, createHandler sample_plugin [0] 60 (initial_rt [0], 0%nat) (stream_request 7 false) = Ret (s', 1%nat) ∧
    rt_ch s' = [] ++ l ∧ length l = 2 ∧ Forall (answers 7) l.
Proof.
  destruct (createHandler sample_plugin [0] 60 (initial_rt [0], 0%nat) (stream_request 7 false))
    as [[s' ps']|] eqn:E; [|vm_compute in E; discriminate].
  destruct (responses_answer_request sample_plugin [0] 60 (initial_rt [0]) s' 0%nat ps'
    (stream_request 7 false) 7 eq_refl E) as (l & Hl & Ha).
  vm_compute in E. injection E as <- <-. exists (mkRtState 2 (mkStreamStore [0] {[7%Z := mkStreamRecord [0; 0] 2]}) ∅ 1 false 0 l), l.
  vm_compute in Hl. subst l. repeat split. exact Ha.
Defined.

(** Response IDs are handed out without gaps or repetitions: whatever
    requests a freshly started plugin serves, the responses that carry a
    response ID are numbered 0, 1, 2, ... (modulo 2^64) in the order in which
    they are sent. *)
Theorem response_ids_consecutive {P} (p : Plugin P) (ctx : context) (mi : Z) (ps : P)
    (reqs : list Request) (s' : rtState) (ps' : P)
    (Hids : Forall has_id reqs) (Hrun : serve p ctx mi (initial_rt ctx, ps) reqs = Ret (s', ps')) :
  response_ids (rt_ch s') =
    (λ i, wrap64 (Z.of_nat i)) <$> seq 0 (length (response_ids (rt_ch s'))).
Proof.
  destruct (serve_effect p ctx mi _ ps reqs s' ps' Hids Hrun) as (l & Hl & Hc & _).
  cbn in Hl. rewrite Hl. rewrite Hc at 1. by rewrite count_from_seq.
Qed.

Lemma response_ids_consecutive_witness :
  ∃ s' ps', serve sample_plugin [0] 60 (initial_rt [0], 0%nat) sample_requests = Ret (s', ps') ∧
    length (response_ids (rt_ch s')) = 6 ∧
    response_ids (rt_ch s') = (λ i, wrap64 (Z.of_nat i)) <$> seq 0 (length (response_ids (rt_ch s'))).
Proof.
  destruct (serve sample_plugin [0] 60 (initial_rt [0], 0%nat) sample_requests) as [[s' ps']|] eqn:E;
    [|vm_compute in E; discriminate].
  exists s', ps'. split; [reflexivity|]. split; [vm_compute in E; injection E as <- <-; reflexivity|].
  apply (response_ids_consecutive sample_plugin [0] 60 0%nat sample_requests s' ps'); [|exact E].
  repeat constructor; by eexists.
Defined.

(** The metrics loop is started at most once, and exactly when metrics are
    enabled and a bootstrap has succeeded, however often the Launcher
    bootstraps. *)
Theorem metrics_loop_started_once {P} (p : Plugin P) (ctx : context) (mi : Z) (ps : P)
    (reqs : list Request) (s' : rtState) (ps' : P)
    (Hids : Forall has_id reqs) (Hrun : serve p ctx mi (initial_rt ctx, ps) reqs = Ret (s', ps')) :
  rt_metricsLoops s' = if (0 <? mi)%Z && existsb is_bootstrap (rt_ch s') then 1 else 0.
Proof.
  destruct (serve_effect p ctx mi _ ps reqs s' ps' Hids Hrun) as (l & Hl & _ & _ & Ho & Hn & _).
  cbn in Hl, Ho. rewrite Hn, Ho, Hl. cbn. by rewrite andb_true_r.
Qed.

Lemma metrics_loop_started_once_witness :
  ∃ s' ps', serve sample_plugin [0] 60 (initial_rt [0], 0%nat) sample_requests = Ret (s', ps') ∧
    rt_metricsLoops s' = (if (0 <? 60)%Z && existsb is_bootstrap (rt_ch s') then 1 else 0) ∧
    existsb is_bootstrap (rt_ch s') = true.
Proof.
  destruct (serve sample_plugin [0] 60 (initial_rt [0], 0%nat) sample_requests) as [[s' ps']|] eqn:E;
    [|vm_compute in E; discriminate].
  exists s', ps'. split; [reflexivity|]. split.
  - apply (metrics_loop_started_once sample_plugin [0] 60 0%nat sample_requests s' ps'); [|exact E].
    repeat constructor; by eexists.
  - vm_compute in E. injection E as <- <-. reflexivity.
Defined.

(** ** Streams *)

Lemma stream_handler {P} (p : Plugin P) ctx mi s ps req r :
  stream_part req = Some r →
  ∃ call, createHandler p ctx mi (s, ps) req = handle_stream s ps req r call.
Proof. destruct req; cbn; intros [= <-]; by eexists. Qed.

Lemma Start_stream s id :
  streams (streamStore_Start s id).1 !! id =
    Some (default (mkStreamRecord (streamStore_Start s id).2 0) (streams s !! id)).
Proof.
  unfold streamStore_Start. fold (streams s). destruct (streams s !! id) as [rec|] eqn:H; cbn.
  - exact H.
  - by rewrite lookup_insert_eq.
Qed.

Lemma Start_ch s id : rt_ch (streamStore_Start s id).1 = rt_ch s.
Proof. unfold streamStore_Start. by case_match. Qed.

(** The messages of a stream are numbered 1, 2, 3, ... (modulo 2^64) in the
    order in which they are sent; a second request with the same ID continues
    the numbering where the first one stopped. *)
Theorem stream_messages_numbered {P} (p : Plugin P) (ctx : context) (mi : Z) (s s' : rtState) (ps ps' : P)
    (req : Request) (r : BaseJobStreamRequest) (id : Z)
    (Hid : Request_ID req = Ret id) (Hreq : stream_part req = Some r)
    (Hcancel : BaseJobStreamRequest_Cancel r = false)
    (Hrun : createHandler p ctx mi (s, ps) req = Ret (s', ps')) :
  let before := from_option streamRecord_SeqID 0%Z (streams s !! id) in
  ∃ l, rt_ch s' = rt_ch s ++ l ∧
    sequence_ids l = (λ i, wrap64 (before + 1 + Z.of_nat i)) <$> seq 0 (length (sequence_ids l)) ∧
    from_option streamRecord_SeqID 0%Z (streams s' !! id) =
      Nat.iter (length (sequence_ids l)) next64 before.
Proof.
  destruct (stream_handler p ctx mi s ps req r Hreq) as [call Hcall]. rewrite Hcall in Hrun.
  unfold handle_stream in Hrun. rewrite Hid in Hrun. cbn in Hrun. rewrite Hcancel in Hrun.
  pose proof (Start_stream s id) as Hst. pose proof (Start_ch s id) as Hch.
  destruct (streamStore_Start s id) as [s1 sctx]. cbn in Hst, Hch.
  unfold newStreamWriter in Hrun. rewrite Hid in Hrun. cbn in Hrun. unfold run_plugin in Hrun.
  apply bind_Ret_inv in Hrun as ([ps1 cs] & _ & [= <- <-]). cbn.
  set (w := mkWriter s1 req id true).
  destruct (replay_emits w cs) as (l & He & _). exists l.
  pose proof (em_seqs _ _ _ He) as Hs. pose proof (em_streams _ _ _ He) as Hs'.
  change (stream_of w) with (streams s1 !! id) in Hs, Hs'. rewrite Hst in Hs, Hs'.
  split; [rewrite (em_ch _ _ _ He); cbn; by rewrite Hch|].
  assert (streamRecord_SeqID (default (mkStreamRecord sctx 0) (streams s !! id)) =
    from_option streamRecord_SeqID 0%Z (streams s !! id)) as Hb by (by destruct (streams s !! id)).
  split.
  - rewrite Hs at 1. rewrite Hb, count_from_seq by apply wrap64_idemp.
    apply list_fmap_ext. intros i x _. unfold next64. rewrite wrap64_idemp_add. done.
  - unfold streams at 1. rewrite Hs'. cbn. rewrite lookup_insert_eq. cbn. by rewrite Hb.
Qed.

Lemma stream_messages_numbered_witness :
  ∃ s' l, createHandler sample_plugin [0] 60 (initial_rt [0], 0%nat) (stream_request 7 false) = Ret (s', 1%nat) ∧
    rt_ch s' = l ∧ sequence_ids l = [1; 2]%Z ∧
    from_option streamRecord_SeqID 0%Z (streams s' !! 7%Z) = 2%Z.
Proof.
  destruct (createHandler sample_plugin [0] 60 (initial_rt [0], 0%nat) (stream_request 7 false))
    as [[s' ps']|] eqn:E; [|vm_compute in E; discriminate].
  destruct (stream_messages_numbered sample_plugin [0] 60 (initial_rt [0]) s' 0%nat ps'
    (stream_request 7 false) _ 7 eq_refl eq_refl eq_refl E) as (l & Hl & Hs & Hn).
  assert (ps' = 1%nat) as -> by (vm_compute in E; by injection E as _ <-).
  exists s', l. split; [reflexivity|]. cbn in Hl.
  assert (l = rt_ch s') as Hl' by (by rewrite Hl).
  assert (length (sequence_ids l) = 2%nat) as Hlen
    by (rewrite Hl'; vm_compute in E; injection E as <-; reflexivity).
  rewrite Hlen in Hs, Hn. split; [exact Hl|]. split; [rewrite Hs; reflexivity|rewrite Hn; reflexivity].
Defined.

(** Cancelling a stream ends that stream and no other.  While a plugin
    serves requests, no running stream's context is cancelled; a cancel request
    sends nothing, removes its stream and cancels exactly that stream's
    context, and leaves the plugin alone; a cancel request for a stream that
    has not started yet changes nothing, so the stream it was meant for runs on
    once it starts. *)
Theorem cancel_ends_one_stream {P} (p : Plugin P) (ctx : context) (mi : Z) (ps0 ps : P)
    (reqs : list Request) (s : rtState) (req : Request) (r : BaseJobStreamRequest) (id : Z)
    (Hids : Forall has_id reqs) (Hrun : serve p ctx mi (initial_rt ctx, ps0) reqs = Ret (s, ps))
    (Hid : Request_ID req = Ret id) (Hreq : stream_part req = Some r)
    (Hcancel : BaseJobStreamRequest_Cancel r = true) :
  (∀ k rec, streams s !! k = Some rec → context_Err (rt_cancelled s) (streamRecord_Context rec) = false) ∧
  ∃ s', createHandler p ctx mi (s, ps) req = Ret (s', ps) ∧ rt_ch s' = rt_ch s ∧
    streams s' = delete id (streams s) ∧
    (∀ rec, streams s !! id = Some rec → context_Err (rt_cancelled s') (streamRecord_Context rec) = true) ∧
    (∀ k rec, k ≠ id → streams s !! k = Some rec →
       context_Err (rt_cancelled s') (streamRecord_Context rec) = false) ∧
    (streams s !! id = None → s' = s).
Proof.
  destruct (serve_effect p ctx mi _ ps0 reqs s ps Hids Hrun) as (_ & _ & _ & _ & _ & _ & Hwf).
  specialize (Hwf (initial_rt_wf ctx)). split; [intros k rec Hk; by eapply live_not_cancelled|].
  destruct (stream_handler p ctx mi s ps req r Hreq) as [call ->].
  unfold handle_stream. rewrite Hid. cbn. rewrite Hcancel. eexists. split; [done|].
  pose proof (Cancel_wf s id Hwf) as Hwf'. unfold streamStore_Cancel in *. fold (streams s) in *.
  destruct (streams s !! id) as [rec0|] eqn:H0.
  - split; [done|]. split; [done|]. split; [|split; [|done]].
    + intros rec [= <-]. cbn. destruct (rw_context _ Hwf _ _ H0) as (n & Hn & _). rewrite Hn. cbn.
      rewrite bool_decide_true by set_solver. done.
    + intros k rec Hk Hrec. eapply (live_not_cancelled _ k); [exact Hwf'|]. unfold streams. cbn.
      by rewrite lookup_delete_ne.
  - split; [done|]. split; [by rewrite delete_id|]. split; [done|]. split; [|done].
    intros k rec _ Hrec. by eapply live_not_cancelled.
Qed.

Lemma cancel_ends_one_stream_witness :
  ∃ s ps, serve sample_plugin [0] 60 (initial_rt [0], 0%nat) sample_requests = Ret (s, ps) ∧
  (∀ k rec, streams s !! k = Some rec → context_Err (rt_cancelled s) (streamRecord_Context rec) = false) ∧
  ∃ s', createHandler sample_plugin [0] 60 (s, ps) (stream_request 7 true) = Ret (s', ps) ∧ rt_ch s' = rt_ch s ∧
    streams s' = delete 7%Z (streams s) ∧
    (∀ rec, streams s !! 7%Z = Some rec → context_Err (rt_cancelled s') (streamRecord_Context rec) = true) ∧
    (∀ k rec, k ≠ 7%Z → streams s !! k = Some rec →
       context_Err (rt_cancelled s') (streamRecord_Context rec) = false) ∧
    (streams s !! 7%Z = None → s' = s).
Proof.
  destruct (serve sample_plugin [0] 60 (initial_rt [0], 0%nat) sample_requests) as [[s ps]|] eqn:E;
    [|vm_compute in E; discriminate].
  exists s, ps. split; [reflexivity|].
  eapply (cancel_ends_one_stream sample_plugin [0] 60 0%nat ps sample_requests s (stream_request 7 true));
    [|exact E|reflexivity|reflexivity|reflexivity].
  repeat constructor; by eexists.
Defined.

(** ** Refused requests *)

(** The state after one error response. *)
Definition refused (s : rtState) (id : Z) (code : ErrCode) (msg : string) : rtState :=
  s <| rt_ch := rt_ch s ++ [RespError (NewErrorResponse id code msg)] |>.

(** C33: invalid requests are answered with one error and never reach the
    plugin: a bootstrap with another major API version, a control request for
    the wildcard job or with an unknown operation, and a submission whose job
    names no user when none can be filled in. *)
Theorem invalid_requests_refused {P} (p : Plugin P) (ctx : context) (mi : Z) (s : rtState) (ps : P)
    (req : Request) (id : Z) (Hid : Request_ID req = Ret id) :
  (∀ r, req = ReqBootstrap r → Version_Major (BootstrapRequest_Version r) ≠ Version_Major APIVersion →
     ∃ msg, createHandler p ctx mi (s, ps) req = Ret (refused s id CodeUnsupportedVersion msg, ps)) ∧
  (∀ r, req = ReqControlJob r →
     JobID_IsWildcard (BaseJobRequest_JobID (ControlJobRequest_Base r)) = true ∨
     valid_operation (ControlJobRequest_Operation r) = false →
     ∃ msg, createHandler p ctx mi (s, ps) req = Ret (refused s id CodeInvalidRequest msg, ps)) ∧
  (∀ r job, req = ReqSubmitJob r → SubmitJobRequest_Job r = Some job → Job_User job = "" →
     BaseUserRequest_Username (SubmitJobRequest_Base r) = "*" ∨
     BaseUserRequest_Username (SubmitJobRequest_Base r) = "" →
     createHandler p ctx mi (s, ps) req =
       Ret (refused s id CodeInvalidRequest "User must not be empty", ps)).
Proof.
  split; [|split].
  - intros r -> Hv. cbn. unfold handle_bootstrap, newResponseWriter. rewrite Hid. cbn [mbind outcome_bind].
    destruct (Z.eqb_spec (Version_Major (BootstrapRequest_Version r)) (Version_Major APIVersion)); [done|].
    by eexists.
  - intros r -> Hor. cbn. unfold handle_control, newResponseWriter. rewrite Hid. cbn [mbind outcome_bind].
    destruct (JobID_IsWildcard _) eqn:Hw; [by eexists|].
    destruct Hor as [|Hv]; [done|]. rewrite Hv. by eexists.
  - intros r job -> Hj Hu Hname. cbn. unfold handle_submit, newResponseWriter. rewrite Hid, Hj.
    cbn [mbind outcome_bind deref]. cbv zeta.
    destruct (decide (BaseUserRequest_Username (SubmitJobRequest_Base r) ≠ "*" ∧ Job_User job = "")) as [[Hn _]|Hn].
    + destruct Hname as [|Hname]; [done|]. rewrite Hname. by destruct job.
    + by rewrite decide_True.
Qed.

Lemma invalid_requests_refused_witness :
  ∃ msg, createHandler sample_plugin [0] 60 (initial_rt [0], 0%nat) (bootstrap_request 2)
    = Ret (refused (initial_rt [0]) 1 CodeUnsupportedVersion msg, 0%nat).
Proof.
  apply (proj1 (invalid_requests_refused sample_plugin [0] 60 (initial_rt [0]) 0%nat
    (bootstrap_request 2) 1 eq_refl) _ eq_refl). vm_compute. discriminate.
Defined.

(** A submission without a job crashes the handler: the job is
    dereferenced before anything checks for it. *)
Theorem submit_without_job_panics {P} (p : Plugin P) (ctx : context) (mi : Z) (s : rtState) (ps : P)
    (user : BaseUserRequest) (id : Z) (Hid : BaseRequest_RequestID (BaseUserRequest_Base user) = Some id) :
  createHandler p ctx mi (s, ps) (ReqSubmitJob (mkSubmitJobRequest user None)) = Panic nil_deref.
Proof.
  cbn. unfold handle_submit, newResponseWriter, Request_ID, BaseRequest_ID. cbn. by rewrite Hid.
Qed.

Lemma submit_without_job_panics_witness :
  createHandler sample_plugin [0] 60 (initial_rt [0], 0%nat)
    (ReqSubmitJob (mkSubmitJobRequest (mkBaseUserRequest (base_request requestSubmitJob 5) "alice" "") None))
    = Panic nil_deref.
Proof.
  apply (submit_without_job_panics sample_plugin [0] 60 (initial_rt [0]) 0%nat
    (mkBaseUserRequest (base_request requestSubmitJob 5) "alice" "") 5 eq_refl).
Defined.
