(* ===== verification/Handlers.v ===== *)
(** * Request handlers as programs (src/launcher/launcher.go)

    The function made by [createHandler] once more, this time as the sequence of
    actions a goroutine performs on what it shares with others: [prog].  Between
    two of these actions other goroutines may run.  [handler_prog] is the program
    of a request and [write_call] that of a call on the writer; [exec] runs a
    program without interruption, and agrees with [createHandler]
    ([exec_handler]). *)

From S2P Require Import Prelude GoStd Types Writer SubManager Rpc Runtime RuntimeFacts.

(** ** Programs *)

(** A writer without the state it writes to. *)
Record handle := mkHandle { handle_req : Request; handle_id : Z; handle_store : bool }.

(** A call of a plugin method, with its arguments. *)
Inductive methodCall :=
| MSubmitJob (ctx : context) (user : string) (job : Job)
| MGetJob (ctx : context) (user : string) (id : JobID) (fields : list string)
| MGetJobs (ctx : context) (user : string) (filter : JobFilter) (fields : list string)
| MControlJob (ctx : context) (user : string) (id : JobID) (op : JobOperation) (opts : ControlJobOptions)
| MGetJobStatus (ctx : context) (user : string) (id : JobID)
| MGetJobStatuses (ctx : context) (user : string)
| MGetJobOutput (ctx : context) (user : string) (id : JobID) (outputType : JobOutput)
| MGetJobResourceUtil (ctx : context) (user : string) (id : JobID)
| MGetJobNetwork (ctx : context) (user : string) (id : JobID)
| MClusterInfo (ctx : context) (user : string)
| MBootstrap (ctx : context)
| MSyncNodes (nodes : list Node)
| MReloadConfig (ctx : context).

(** What a goroutine does next: it returns, panics, calls [nextResponseID],
    [SequenceID], [Start] or [Cancel] (each atomic: an atomic addition, or a
    section under the lock of the store), sends on the channel, is in a plugin
    method (which has a writer, if the method takes one), or is at
    [metricsOnce.Do]. *)
Inductive prog :=
| PReturn
| PPanic (why : string)
| PNextID (k : Z → prog)
| PSequenceID (id : Z) (k : Z → prog)
| PSend (resp : Response) (k : prog)
| PStart (id : Z) (k : context → prog)
| PCancel (id : Z) (k : prog)
| PMethod (w : option handle) (m : methodCall) (k : option error → prog)
| PMetricsOnce (k : prog).

(** ** The methods of the writer *)
Definition send_numbered (mk : Z → Response) (k : prog) : prog :=
  PNextID (λ rid, PSend (mk rid) k).

Definition send_streamed (w : handle) (mk : Z → Z → Response) (k : prog) : prog :=
  PNextID (λ rid, PSequenceID (handle_id w) (λ seq, PSend (mk rid seq) k)).

Definition status_response (rid : Z) (id : JobID) (name status statusCode msg : string)
    (respID seq : Z) : Response :=
  let resp := NewJobStatusStreamResponse respID id name status statusCode msg in
  RespJobStatus (mkJobStatusStreamResponse (JobStatusStreamResponse_Base resp) (Some [mkStreamSequence rid seq])
    (JobStatusStreamResponse_ID resp) (JobStatusStreamResponse_Name resp)
    (JobStatusStreamResponse_Status resp) (JobStatusStreamResponse_Code resp)
    (JobStatusStreamResponse_Msg resp)).

Definition output_response (rid : Z) (output outputType : string) (complete : bool) (respID seq : Z) : Response :=
  let resp := NewJobOutputStreamResponse rid respID in
  RespJobOutput (mkJobOutputResponse (JobOutputResponse_Base resp) seq output outputType complete).

Definition resource_response (rid : Z) (cpuPercent cpuTime virtualMem residentMem : float64) (complete : bool)
    (respID seq : Z) : Response :=
  let resp := NewJobResourceResponse respID complete in
  RespJobResource (mkJobResourceResponse (JobResourceResponse_Base resp) (Some [mkStreamSequence rid seq])
    cpuPercent cpuTime virtualMem residentMem (JobResourceResponse_Complete resp)).

Definition write_close (w : handle) (k : prog) : prog :=
  if negb (handle_store w) then k
  else
    match handle_req w with
    | ReqJobOutput _ => send_streamed w (output_response (handle_id w) "" "" true) k
    | JobResourceUtilRequest _ =>
        send_streamed w (resource_response (handle_id w) zero_float zero_float zero_float zero_float true) k
    | _ => k
    end.

(** One call of the plugin on its writer, and then [k]. *)
Definition write_call (w : handle) (c : WriterCall) (k : prog) : prog :=
  let id := handle_id w in
  match c with
  | CallErrorf code msg => PSend (RespError (NewErrorResponse id code msg)) k
  | CallError err =>
      let code := match errors_As_API err with Some werr => Error_Code werr | None => CodeUnknown end in
      PSend (RespError (NewErrorResponse id code (error_Error err))) k
  | CallJobs jobs => send_numbered (λ rid, RespJobState (NewJobStateResponse id rid jobs)) k
  | CallControlJob complete msg =>
      send_numbered (λ rid, RespControlJob (NewControlJobResponse id rid complete msg)) k
  | CallJobNetwork host addr =>
      send_numbered (λ rid, RespJobNetwork (NewJobNetworkResponse id rid host addr)) k
  | CallClusterInfo o =>
      send_numbered (λ rid, RespClusterInfo (NewClusterInfoResponse id rid (ClusterOptions_toProtocol o))) k
  | CallJobStatus job name status code msg =>
      if negb (handle_store w) then k else send_streamed w (status_response id job name status code msg) k
  | CallJobOutput out t =>
      if negb (handle_store w) then k else send_streamed w (output_response id out (JobOutput_String t) false) k
  | CallJobResourceUtil cpuPercent cpuTime residentMem virtualMem =>
      if negb (handle_store w) then k
      else send_streamed w (resource_response id cpuPercent cpuTime virtualMem residentMem false) k
  | CallClose => write_close w k
  end.

(** ** The handler *)

(** The optional interfaces the plugin implements. *)
Record interfaces := mkInterfaces {
  has_Bootstrap : bool;
  has_SyncNodes : bool;
  has_ReloadConfig : bool;
}.

Section Handler.
Context (ifs : interfaces) (ctx : context) (metricsInterval : Z).

(** [r.ID()], a dereference. *)
Definition with_ID (req : Request) (k : Z → prog) : prog :=
  match Request_ID req with Ret id => k id | Panic why => PPanic why end.

(** [w = newResponseWriter(req, ch)]. *)
Definition with_writer (req : Request) (k : handle → prog) : prog :=
  with_ID req (λ id, k (mkHandle req id false)).

Definition call (w : handle) (m : methodCall) : prog := PMethod (Some w) m (λ _, PReturn).

Definition prog_bootstrap (req : Request) (v : Version) : prog :=
  with_writer req (λ w,
    if negb (Version_Major v =? Version_Major APIVersion)%Z then
      let msg := ("The plugin supports API version " ++ strconv_Itoa (Version_Major APIVersion)
        ++ ".X.XXXX. The Launcher's API version is " ++ strconv_Itoa (Version_Major v) ++ "."
        ++ strconv_Itoa (Version_Minor v) ++ "." ++ strconv_Itoa (Version_Patch v))%string in
      write_call w (CallErrorf CodeUnsupportedVersion msg) PReturn
    else
      let after := send_numbered (λ rid, RespBootstrap (NewBootstrapResponse (handle_id w) rid))
        (if (0 <? metricsInterval)%Z then PMetricsOnce PReturn else PReturn) in
      if has_Bootstrap ifs then PMethod (Some w) (MBootstrap ctx) (λ _, after) else after).

Definition prog_submit (req : Request) (r : SubmitJobRequest) : prog :=
  let username := BaseUserRequest_Username (SubmitJobRequest_Base r) in
  with_writer req (λ w,
    match deref (SubmitJobRequest_Job r) with
    | Panic why => PPanic why
    | Ret job =>
        let job := if decide (username ≠ "*" ∧ Job_User job = "") then job <| Job_User := username |> else job in
        if decide (Job_User job = "")
        then write_call w (CallErrorf CodeInvalidRequest "User must not be empty") PReturn
        else
          let job := if decide (Job_Profile job = "") then job <| Job_Profile := "custom" |> else job in
          call w (MSubmitJob ctx username job)
    end).

Definition prog_stream (req : Request) (r : BaseJobStreamRequest) (m : context → methodCall) : prog :=
  with_ID req (λ id,
    if BaseJobStreamRequest_Cancel r then PCancel id PReturn
    else PStart id (λ sctx, call (mkHandle req id true) (m sctx))).

Definition prog_control (req : Request) (r : ControlJobRequest) : prog :=
  let base := ControlJobRequest_Base r in
  let id := BaseJobRequest_JobID base in
  with_writer req (λ w,
    if JobID_IsWildcard id then
      write_call w (CallErrorf CodeInvalidRequest
        "Cannot control all jobs simultaneously. Please specify a single Job ID.") PReturn
    else if negb (valid_operation (ControlJobRequest_Operation r)) then
      write_call w (CallErrorf CodeInvalidRequest
        ("Unknown control job operation (" ++ strconv_Itoa (ControlJobRequest_Operation r)
          ++ ") for job " ++ id)) PReturn
    else
      call w (MControlJob ctx (job_user base) id (ControlJobRequest_Operation r)
        (mkControlJobOptions (ControlJobRequest_StatusMessage r) (ControlJobRequest_StatusCode r)))).

Definition write_reload (w : handle) (t : ConfigReloadErrorType) (msg : string) : prog :=
  send_numbered (λ rid, RespConfigReload (NewConfigReloadResponse (handle_id w) rid t msg)) PReturn.

Definition prog_reload (req : Request) : prog :=
  with_writer req (λ w,
    if negb (has_ReloadConfig ifs) then write_reload w ReloadErrorNone ""
    else
      PMethod None (MReloadConfig ctx) (λ err,
        match err with
        | None => write_reload w ReloadErrorNone ""
        | Some err =>
            match errors_As_Reload err with
            | Some (t, msg) => write_reload w t msg
            | None => write_reload w ReloadErrorUnknown (error_Error err)
            end
        end)).

Definition prog_nodes (req : Request) (r : SetLoadBalancerNodesRequest) : prog :=
  with_writer req (λ w,
    let after := send_numbered (λ rid, RespBase (NewSetLoadBalancerNodesResponse (handle_id w) rid)) PReturn in
    if has_SyncNodes ifs
    then PMethod None (MSyncNodes (SetLoadBalancerNodesRequest_Nodes r)) (λ _, after)
    else after).

(** The type switch. *)
Definition handler_prog (req : Request) : prog :=
  match req with
  | HeartbeatRequest _ => with_writer req (λ _, PSend (RespBase NewHeartbeatResponse) PReturn)
  | ReqBootstrap r => prog_bootstrap req (BootstrapRequest_Version r)
  | ReqSubmitJob r => prog_submit req r
  | ReqJobState r =>
      let base := JobStateRequest_Base r in
      let filter := JobStateRequest_Filter r in
      with_writer req (λ w,
        if negb (JobID_IsWildcard (BaseJobRequest_JobID base))
        then call w (MGetJob ctx (job_user base) (BaseJobRequest_JobID base) (JobFilter_Fields filter))
        else call w (MGetJobs ctx (job_user base) filter (JobFilter_Fields filter)))
  | JobStatusStreamRequest r =>
      let base := BaseJobStreamRequest_Base r in
      prog_stream req r (λ sctx,
        if negb (JobID_IsWildcard (BaseJobRequest_JobID base))
        then MGetJobStatus sctx (job_user base) (BaseJobRequest_JobID base)
        else MGetJobStatuses sctx (job_user base))
  | ReqControlJob r => prog_control req r
  | ReqJobOutput r =>
      let base := BaseJobStreamRequest_Base (JobOutputRequest_Base r) in
      prog_stream req (JobOutputRequest_Base r) (λ sctx,
        MGetJobOutput sctx (job_user base) (BaseJobRequest_JobID base) (JobOutputRequest_Output r))
  | JobResourceUtilRequest r =>
      let base := BaseJobStreamRequest_Base r in
      prog_stream req r (λ sctx, MGetJobResourceUtil sctx (job_user base) (BaseJobRequest_JobID base))
  | JobNetworkRequest r =>
      with_writer req (λ w, call w (MGetJobNetwork ctx (job_user r) (BaseJobRequest_JobID r)))
  | ClusterInfoRequest r =>
      with_writer req (λ w, call w (MClusterInfo ctx (BaseUserRequest_Username r)))
  | ReqSetLoadBalancerNodes r => prog_nodes req r
  | ConfigReloadRequest r => prog_reload req
  end.
End Handler.

(** ** Running a program without interruption *)
Definition interfaces_of {P} (p : Plugin P) : interfaces :=
  mkInterfaces (bool_decide (is_Some (Plugin_Bootstrap p))) (bool_decide (is_Some (Plugin_SyncNodes p)))
    (bool_decide (is_Some (Plugin_ReloadConfig p))).

Section Exec.
Context {P : Type} (p : Plugin P).

(** The call of a method: the plugin's new state, its calls on the writer, the
    error it returns.  An optional method is called only if it exists. *)
Definition call_method (ps : P) (m : methodCall) : outcome (P * list WriterCall * option error) :=
  let plain (r : outcome (P * list WriterCall)) := r ← r; Ret (fst r, snd r, None) in
  match m with
  | MSubmitJob ctx user job => plain (Plugin_SubmitJob p ps ctx user job)
  | MGetJob ctx user id fields => plain (Plugin_GetJob p ps ctx user id fields)
  | MGetJobs ctx user filter fields => plain (Plugin_GetJobs p ps ctx user filter fields)
  | MControlJob ctx user id op opts => plain (Plugin_ControlJob p ps ctx user id op opts)
  | MGetJobStatus ctx user id => plain (Plugin_GetJobStatus p ps ctx user id)
  | MGetJobStatuses ctx user => plain (Plugin_GetJobStatuses p ps ctx user)
  | MGetJobOutput ctx user id t => plain (Plugin_GetJobOutput p ps ctx user id t)
  | MGetJobResourceUtil ctx user id => plain (Plugin_GetJobResourceUtil p ps ctx user id)
  | MGetJobNetwork ctx user id => plain (Plugin_GetJobNetwork p ps ctx user id)
  | MClusterInfo ctx user => plain (Plugin_ClusterInfo p ps ctx user)
  | MBootstrap ctx =>
      bootstrap ← deref (Plugin_Bootstrap p); plain (bootstrap ps ctx)
  | MSyncNodes nodes =>
      sync ← deref (Plugin_SyncNodes p); ps ← sync ps nodes; Ret (ps, [], None)
  | MReloadConfig ctx =>
      reload ← deref (Plugin_ReloadConfig p); r ← reload ps ctx; Ret (fst r, [], snd r)
  end.

(** The calls of a method, performed by its writer if it has one. *)
Definition replay_on (w : option handle) (s : rtState) (cs : list WriterCall) : rtState :=
  match w with
  | Some w => writer_state (replay (mkWriter s (handle_req w) (handle_id w) (handle_store w)) cs)
  | None => s
  end.

Definition metricsOnce_Do (s : rtState) : rtState :=
  if rt_metricsOnce s then s
  else s <| rt_metricsOnce := true |> <| rt_metricsLoops := S (rt_metricsLoops s) |>.

Fixpoint exec (s : rtState) (ps : P) (pr : prog) : outcome (rtState * P) :=
  match pr with
  | PReturn => Ret (s, ps)
  | PPanic why => Panic why
  | PNextID k => let '(s, rid) := nextResponseID s in exec s ps (k rid)
  | PSequenceID id k => let '(s, seq) := streamStore_SequenceID s id in exec s ps (k seq)
  | PSend resp k => exec (s <| rt_ch := rt_ch s ++ [resp] |>) ps k
  | PStart id k => let '(s, sctx) := streamStore_Start s id in exec s ps (k sctx)
  | PCancel id k => exec (streamStore_Cancel s id) ps k
  | PMethod w m k =>
      r ← call_method ps m;
      let '(ps, cs, err) := r in
      exec (replay_on w s cs) ps (k err)
  | PMetricsOnce k => exec (metricsOnce_Do s) ps k
  end.

(** The program of a call does what the method of the writer does. *)
Lemma exec_write_call w c s ps k :
  exec s ps (write_call w c k) = exec (replay_on (Some w) s [c]) ps k.
Proof.
  destruct w as [req id store]. unfold replay_on, replay. cbn [foldl handle_req handle_id handle_store].
  destruct c; cbn; try done; try (by destruct (streamStore_SequenceID _ _)).
  - unfold writer_WriteJobStatus. destruct store; cbn; [|done]. by destruct (streamStore_SequenceID _ _).
  - unfold writer_WriteJobOutput. destruct store; cbn; [|done]. by destruct (streamStore_SequenceID _ _).
  - unfold writer_WriteJobResourceUtil. destruct store; cbn; [|done]. by destruct (streamStore_SequenceID _ _).
  - unfold write_close, writer_Close. destruct store; cbn; [|done].
    destruct req; cbn; try done; by destruct (streamStore_SequenceID _ _).
Qed.

(** *** Agreement with [createHandler] *)
Lemma replay_id w cs : writer_id (replay w cs) = writer_id w.
Proof. destruct (replay_emits w cs) as (l & He & _). apply (em_writer _ _ _ He). Qed.

Lemma exec_call w m s ps :
  exec s ps (call w m) =
  (r ← call_method ps m; Ret (replay_on (Some w) s (snd (fst r)), fst (fst r))).
Proof. unfold call. cbn. by destruct (call_method ps m) as [[[??]?]|]. Qed.

Lemma run_plugin_plain w (m : outcome (P * list WriterCall)) :
  run_plugin w m =
  (r ← (r ← m; Ret (fst r, snd r, @None error)); Ret (writer_state (replay w (snd (fst r))), fst (fst r))).
Proof. by destruct m. Qed.

Context (ctx : context) (mi : Z).

Lemma exec_bootstrap s ps req v :
  exec s ps (prog_bootstrap (interfaces_of p) ctx mi req v) = handle_bootstrap p ctx mi s ps req v.
Proof.
  unfold prog_bootstrap, handle_bootstrap, with_writer, with_ID, newResponseWriter.
  destruct (Request_ID req) as [id|]; [|done]. cbn [mbind outcome_bind].
  destruct (negb _); [done|]. cbn [interfaces_of has_Bootstrap].
  destruct (Plugin_Bootstrap p) as [bs|] eqn:Hbs; cbn.
  - rewrite Hbs. cbn. destruct (bs ps ctx) as [[ps1 cs]|]; [|done]. cbn.
    pose proof (replay_id (mkWriter s req id false) cs) as Hid. unfold replay in Hid. rewrite Hid.
    destruct (0 <? mi)%Z; cbn; [|done]. unfold metricsOnce_Do. cbn. by destruct (rt_metricsOnce _).
  - destruct (0 <? mi)%Z; cbn; [|done]. unfold metricsOnce_Do. cbn. by destruct (rt_metricsOnce _).
Qed.

Lemma exec_submit s ps req r : exec s ps (prog_submit ctx req r) = handle_submit p ctx s ps req r.
Proof.
  unfold prog_submit, handle_submit, with_writer, with_ID, newResponseWriter.
  destruct (Request_ID req) as [id|]; [|done]. cbn [mbind outcome_bind].
  destruct (SubmitJobRequest_Job r) as [job|]; [|done]. cbn [deref mbind outcome_bind]. cbv zeta.
  set (job1 := if decide (_ ∧ _) then _ else _). destruct (decide (Job_User job1 = "")); [done|].
  by rewrite exec_call, run_plugin_plain.
Qed.

Lemma exec_stream s ps req r m call :
  (∀ sctx, call_method ps (m sctx) = (r ← call sctx; Ret (fst r, snd r, None))) →
  exec s ps (prog_stream req r m) = handle_stream s ps req r call.
Proof.
  intros Hm. unfold prog_stream, handle_stream, newStreamWriter, with_ID.
  destruct (Request_ID req) as [id|]; [|done]. cbn [mbind outcome_bind].
  destruct (BaseJobStreamRequest_Cancel r); [done|]. cbn [exec].
  destruct (streamStore_Start s id) as [s1 sctx]. by rewrite exec_call, run_plugin_plain, Hm.
Qed.

Lemma exec_control s ps req r : exec s ps (prog_control ctx req r) = handle_control p ctx s ps req r.
Proof.
  unfold prog_control, handle_control, with_writer, with_ID, newResponseWriter.
  destruct (Request_ID req) as [id|]; [|done]. cbn [mbind outcome_bind].
  destruct (JobID_IsWildcard _); [done|]. destruct (negb _); [done|].
  by rewrite exec_call, run_plugin_plain.
Qed.

Lemma exec_reload s ps req : exec s ps (prog_reload (interfaces_of p) ctx req) = handle_reload p ctx s ps req.
Proof.
  unfold prog_reload, handle_reload, with_writer, with_ID, newResponseWriter.
  destruct (Request_ID req) as [id|]; [|done]. cbn [mbind outcome_bind interfaces_of has_ReloadConfig].
  destruct (Plugin_ReloadConfig p) as [reload|] eqn:Hr; cbn; [|done]. rewrite Hr. cbn.
  destruct (reload ps ctx) as [[ps1 [err|]]|]; cbn; [|done|done].
  by destruct (errors_As_Reload err) as [[t msg]|].
Qed.

(** Run without interruption, the program of a request is its handler. *)
Lemma exec_handler s ps req :
  exec s ps (handler_prog (interfaces_of p) ctx mi req) = createHandler p ctx mi (s, ps) req.
Proof.
  destruct req as [b|r|r|r|r|r|r|r|r|r|r|r]; cbn [handler_prog createHandler].
  all: try solve [apply exec_bootstrap | apply exec_submit | apply exec_control | apply exec_reload
                 | apply exec_stream; intros; by destruct (negb _) | by apply exec_stream].
  all: unfold prog_nodes, with_writer, with_ID, newResponseWriter;
    match goal with |- context [Request_ID ?req] => destruct (Request_ID req) as [id|]; [|done] end;
    cbn [mbind outcome_bind].
  - done.
  - by destruct (negb _); rewrite exec_call, run_plugin_plain.
  - by rewrite exec_call, run_plugin_plain.
  - by rewrite exec_call, run_plugin_plain.
  - cbn [interfaces_of has_SyncNodes]. destruct (Plugin_SyncNodes p) as [sync|] eqn:Hsync; cbn; [|done].
    rewrite Hsync. cbn. by destruct (sync ps _).
Qed.
End Exec.
