(* ===== verification/HandlersFacts.v ===== *)
(** * What the programs of handlers do

    [prog_ok]: which numbers a program holds, whose request its responses
    answer, and which arguments it gives to plugin methods.  [can_send]: the lists
    of responses a program can send, for any plugin and any numbers. *)

From S2P Require Import Prelude GoStd Types Writer SubManager Rpc Runtime RuntimeFacts Handlers.

Definition opens_stream (req : Request) : Prop :=
  ∃ r, stream_part req = Some r ∧ BaseJobStreamRequest_Cancel r = false.
Definition cancels_stream (req : Request) : Prop :=
  ∃ r, stream_part req = Some r ∧ BaseJobStreamRequest_Cancel r = true.

(** A submission without a job, which the handler dereferences. *)
Definition lacks_job (req : Request) : Prop :=
  match req with ReqSubmitJob r => SubmitJobRequest_Job r = None | _ => False end.

Definition is_metrics (r : Response) : bool := match r with RespMetrics _ => true | _ => false end.

(** ** Arguments of plugin methods *)
Definition method_context (m : methodCall) : option context :=
  match m with
  | MSubmitJob c _ _ | MGetJob c _ _ _ | MGetJobs c _ _ _ | MControlJob c _ _ _ _ | MGetJobStatus c _ _
  | MGetJobStatuses c _ | MGetJobOutput c _ _ _ | MGetJobResourceUtil c _ _ | MGetJobNetwork c _ _
  | MClusterInfo c _ | MBootstrap c | MReloadConfig c => Some c
  | MSyncNodes _ => None
  end.

(** What a plugin may rely on: a submitted job names a user and a profile, a job
    that is asked for or controlled is a single one, operations exist, and a
    bootstrap comes from a Launcher of the same major version. *)
Definition method_ok (req : Request) (m : methodCall) : Prop :=
  match m with
  | MSubmitJob _ _ job => Job_User job ≠ "" ∧ Job_Profile job ≠ ""
  | MGetJob _ _ id _ | MGetJobStatus _ _ id => JobID_IsWildcard id = false
  | MControlJob _ _ id op _ => JobID_IsWildcard id = false ∧ valid_operation op = true
  | MBootstrap _ =>
      ∃ r, req = ReqBootstrap r ∧ Version_Major (BootstrapRequest_Version r) = Version_Major APIVersion
  | _ => True
  end.

(** ** Programs that keep their numbers

    [held] and [seqd] are the response ID and the sequence ID the program has
    been given and has not sent yet; [sctx] is the context of its stream. *)
Section Ok.
Context (ctx : context) (mi : Z) (req : Request) (id : Z).

Definition handle_ok (w : handle) : Prop :=
  handle_req w = req ∧ handle_id w = id ∧ answer_id req id = id ∧ (handle_store w = true → opens_stream req).

Fixpoint prog_ok (sctx : option context) (held seqd : option Z) (pr : prog) : Prop :=
  match pr with
  | PReturn => held = None ∧ seqd = None
  | PPanic why => lacks_job req ∧ why = nil_deref
  | PNextID k => held = None ∧ seqd = None ∧ ∀ rid, prog_ok sctx (Some rid) None (k rid)
  | PSequenceID i k => i = id ∧ opens_stream req ∧ seqd = None ∧ ∀ seq, prog_ok sctx held (Some seq) (k seq)
  | PSend resp k =>
      response_id resp = held ∧ sequence_id resp = seqd ∧ answers (answer_id req id) resp ∧
      is_metrics resp = false ∧ prog_ok sctx None None k
  | PStart _ _ => False
  | PCancel i k => i = id ∧ cancels_stream req ∧ held = None ∧ seqd = None ∧ prog_ok sctx None None k
  | PMethod w m k =>
      held = None ∧ seqd = None ∧ (∀ h, w = Some h → handle_ok h) ∧ method_ok req m ∧
      (∀ c, method_context m = Some c → c = default ctx sctx) ∧
      ∀ err, prog_ok sctx None None (k err)
  | PMetricsOnce k => (0 < mi)%Z ∧ held = None ∧ seqd = None ∧ prog_ok sctx None None k
  end.

(** A handler either still has to start its stream or has a program as above. *)
Definition handler_ok (sctx : option context) (held seqd : option Z) (pr : prog) : Prop :=
  match pr with
  | PStart i k =>
      i = id ∧ opens_stream req ∧ sctx = None ∧ held = None ∧ seqd = None ∧
      ∀ c, prog_ok (Some c) None None (k c)
  | _ => prog_ok sctx held seqd pr ∧ (opens_stream req ↔ is_Some sctx)
  end.

Lemma handler_ok_intro sctx held seqd pr :
  prog_ok sctx held seqd pr → (opens_stream req ↔ is_Some sctx) → handler_ok sctx held seqd pr.
Proof. by destruct pr. Qed.

Lemma handler_ok_cases sctx held seqd pr :
  handler_ok sctx held seqd pr →
  (∃ k, pr = PStart id k ∧ opens_stream req ∧ sctx = None ∧ held = None ∧ seqd = None ∧
     ∀ c, prog_ok (Some c) None None (k c)) ∨
  (prog_ok sctx held seqd pr ∧ (opens_stream req ↔ is_Some sctx)).
Proof. destruct pr; auto. intros (-> & H). left. eauto. Qed.

Lemma send_numbered_ok sctx (mk : Z → Response) k :
  (∀ rid, response_id (mk rid) = Some rid ∧ sequence_id (mk rid) = None ∧
     answers (answer_id req id) (mk rid) ∧ is_metrics (mk rid) = false) →
  prog_ok sctx None None k → prog_ok sctx None None (send_numbered mk k).
Proof. intros Hmk Hk. cbn. do 2 (split; [done|]). intros rid. destruct (Hmk rid) as (? & ? & ? & ?). done. Qed.

Lemma send_streamed_ok sctx w (mk : Z → Z → Response) k :
  handle_id w = id → opens_stream req →
  (∀ rid seq, response_id (mk rid seq) = Some rid ∧ sequence_id (mk rid seq) = Some seq ∧
     answers (answer_id req id) (mk rid seq) ∧ is_metrics (mk rid seq) = false) →
  prog_ok sctx None None k → prog_ok sctx None None (send_streamed w mk k).
Proof.
  intros Hid Ho Hmk Hk. cbn. do 2 (split; [done|]). intros rid. do 3 (split; [done|]).
  intros seq. destruct (Hmk rid seq) as (? & ? & ? & ?). done.
Qed.

Lemma write_call_ok sctx w c k :
  handle_ok w → prog_ok sctx None None k → prog_ok sctx None None (write_call w c k).
Proof.
  intros (Hreq & Hid & Ha & Hst) Hk. unfold write_call, write_close. rewrite Hid.
  destruct c; try (by apply send_numbered_ok; [rewrite Ha|]); try (cbn; rewrite Ha; done).
  all: destruct (handle_store w) eqn:Hs; cbn [negb]; [|done]; specialize (Hst eq_refl).
  1-3: apply send_streamed_ok; try done; rewrite Ha; intros rid seq; split_and!; try done; by exists seq.
  destruct (handle_req w); try done; rewrite ?Hid; (apply send_streamed_ok; try done; rewrite Ha;
    intros rid seq; split_and!; try done; by exists seq).
Qed.
End Ok.

Section Handler.
Context (ifs : interfaces) (ctx : context) (mi : Z).

Lemma call_ok req id m :
  answer_id req id = id → method_ok req m → (∀ c, method_context m = Some c → c = ctx) →
  prog_ok ctx mi req id None None None (call (mkHandle req id false) m).
Proof. intros Ha Hm Hc. cbn. split_and!; try done. by intros h [= <-]. Qed.

Lemma prog_stream_ok req r m id :
  stream_part req = Some r → Request_ID req = Ret id → answer_id req id = id →
  (∀ c, method_ok req (m c) ∧ method_context (m c) = Some c) →
  handler_ok ctx mi req id None None None (prog_stream req r m).
Proof.
  intros Hr Hid Ha Hm. unfold prog_stream, with_ID. rewrite Hid.
  destruct (BaseJobStreamRequest_Cancel r) eqn:Hc.
  - apply handler_ok_intro; [|split; [intros (r' & ? & ?); congruence|by intros [? ?]]]. cbn. split_and!; try done. by exists r.
  - cbn. assert (opens_stream req) as Ho by (by exists r). split_and!; try done. intros c. split_and!; try done.
    + by intros h [= <-].
    + apply Hm.
    + intros c'. rewrite (proj2 (Hm c)). by intros [= <-].
Qed.

Lemma prog_bootstrap_ok r id :
  Request_ID (ReqBootstrap r) = Ret id →
  prog_ok ctx mi (ReqBootstrap r) id None None None
    (prog_bootstrap ifs ctx mi (ReqBootstrap r) (BootstrapRequest_Version r)).
Proof.
  intros Hid. unfold prog_bootstrap, with_writer, with_ID. rewrite Hid.
  destruct (Z.eqb_spec (Version_Major (BootstrapRequest_Version r)) (Version_Major APIVersion)) as [Hv|]; [|done].
  cbn [negb]. cbv zeta.
  match goal with |- context [send_numbered ?mk ?k] => set (after := send_numbered mk k) end.
  assert (prog_ok ctx mi (ReqBootstrap r) id None None None after) as Hafter
    by (apply send_numbered_ok; [done|by destruct (Z.ltb_spec 0 mi)]).
  destruct (has_Bootstrap ifs); [|done]. cbn [prog_ok]. split_and!; try done.
  - by intros h [= <-].
  - by exists r.
  - by intros c [= <-].
Qed.

Lemma prog_submit_ok r id :
  Request_ID (ReqSubmitJob r) = Ret id →
  prog_ok ctx mi (ReqSubmitJob r) id None None None (prog_submit ctx (ReqSubmitJob r) r).
Proof.
  intros Hid. unfold prog_submit, with_writer, with_ID. rewrite Hid.
  destruct (SubmitJobRequest_Job r) as [job|] eqn:Hj; [|by split]. cbn [deref]. cbv zeta.
  set (job1 := if decide (_ ∧ _) then _ else _). destruct (decide (Job_User job1 = "")) as [|Hu]; [done|].
  apply call_ok; [done| |by intros c [= <-]]. destruct job1. cbn in *. by destruct (decide (_ = _)).
Qed.

Lemma prog_control_ok r id :
  Request_ID (ReqControlJob r) = Ret id →
  prog_ok ctx mi (ReqControlJob r) id None None None (prog_control ctx (ReqControlJob r) r).
Proof.
  intros Hid. unfold prog_control, with_writer, with_ID. rewrite Hid.
  destruct (JobID_IsWildcard _) eqn:Hw; [done|]. destruct (valid_operation _) eqn:Hv; [|done].
  apply call_ok; [done|done|by intros c [= <-]].
Qed.

Lemma write_reload_ok r id w t msg :
  handle_id w = id → prog_ok ctx mi (ConfigReloadRequest r) id None None None (write_reload w t msg).
Proof. intros <-. by apply send_numbered_ok. Qed.

Lemma prog_reload_ok r id :
  Request_ID (ConfigReloadRequest r) = Ret id →
  prog_ok ctx mi (ConfigReloadRequest r) id None None None (prog_reload ifs ctx (ConfigReloadRequest r)).
Proof.
  intros Hid. unfold prog_reload, with_writer, with_ID. rewrite Hid.
  destruct (has_ReloadConfig ifs); [|by apply write_reload_ok]. cbn [negb prog_ok]. split_and!; try done.
  - by intros c [= <-].
  - intros [err|]; [destruct (errors_As_Reload err) as [[t msg]|]|]; by apply write_reload_ok.
Qed.

Lemma handler_prog_ok req id :
  Request_ID req = Ret id → handler_ok ctx mi req id None None None (handler_prog ifs ctx mi req).
Proof.
  intros Hid. destruct req as [b|r|r|r|r|r|r|r|r|r|r|r]; cbn [handler_prog].
  5,7,8: apply prog_stream_ok; try done; intros c; try done;
    (destruct (JobID_IsWildcard _) eqn:Hw; cbn; by rewrite ?Hw).
  all: apply handler_ok_intro; [|by split; [intros (? & [=] & _)|intros [? ?]]].
  - unfold with_writer, with_ID. by rewrite Hid.
  - by apply prog_bootstrap_ok.
  - by apply prog_submit_ok.
  - unfold with_writer, with_ID. rewrite Hid. destruct (JobID_IsWildcard _) eqn:Hw;
      (apply call_ok; [done|done|by intros c [= <-]]).
  - by apply prog_control_ok.
  - unfold with_writer, with_ID. rewrite Hid. apply call_ok; [done|done|by intros c [= <-]].
  - unfold with_writer, with_ID. rewrite Hid. apply call_ok; [done|done|by intros c [= <-]].
  - unfold prog_nodes, with_writer, with_ID. rewrite Hid.
    destruct (has_SyncNodes ifs); [|by apply send_numbered_ok]. cbn [prog_ok]. split_and!; try done.
  - by apply prog_reload_ok.
Qed.
End Handler.

(** ** What a program can send *)
Inductive can_send : prog → list Response → Prop :=
| cs_return : can_send PReturn []
| cs_next k rid l : can_send (k rid) l → can_send (PNextID k) l
| cs_sequence id k seq l : can_send (k seq) l → can_send (PSequenceID id k) l
| cs_send resp k l : can_send k l → can_send (PSend resp k) (resp :: l)
| cs_start id k c l : can_send (k c) l → can_send (PStart id k) l
| cs_cancel id k l : can_send k l → can_send (PCancel id k) l
| cs_method w m k err l : can_send (k err) l → can_send (PMethod w m k) l
| cs_call w m k c l :
    can_send (write_call w c (PMethod (Some w) m k)) l → can_send (PMethod (Some w) m k) l
| cs_once k l : can_send k l → can_send (PMetricsOnce k) l.

(** Everything a program sends answers its request. *)
Lemma can_send_answers ctx mi req id pr l :
  can_send pr l → ∀ sctx held seqd, prog_ok ctx mi req id sctx held seqd pr →
  Forall (answers (answer_id req id)) l.
Proof.
  induction 1 as [|k rid l _ IH|i k seq l _ IH|resp k l _ IH|i k c l _ IH|i k l _ IH|w m k err l _ IH|w m k c l _ IH|k l _ IH];
    intros sctx held seqd Hok; pose proof Hok as Hpr; cbn in Hok; destruct_and?; subst; eauto; try done.
  eapply IH, write_call_ok; [by auto|exact Hpr].
Qed.

(** The part of a plugin method: what it sends comes before what follows it, and
    answers the request. *)
Section Method.
Context (id : Z) (w : handle) (m : methodCall) (k : option error → prog).
Context (Hw : handle_id w = id).

(** A program inside of the method. *)
Inductive inside : prog → Prop :=
| in_method : inside (PMethod (Some w) m k)
| in_next k' : (∀ rid, inside (k' rid)) → inside (PNextID k')
| in_sequence i k' : (∀ seq, inside (k' seq)) → inside (PSequenceID i k')
| in_send resp pr : answers id resp → inside pr → inside (PSend resp pr).

Lemma write_call_inside c pr : inside pr → inside (write_call w c pr).
Proof.
  intros Hpr. unfold write_call, write_close, send_numbered, send_streamed. rewrite Hw.
  destruct c; repeat (constructor || intros); try done; destruct (handle_store w); cbn; try done;
    try (destruct (handle_req w); try done);
    repeat (constructor || intros); try done; cbn; rewrite ?Hw; by eexists.
Qed.

Lemma inside_sends pr l :
  can_send pr l → inside pr →
  ∃ l1 l2 err, l = l1 ++ l2 ∧ Forall (answers id) l1 ∧ can_send (k err) l2.
Proof.
  induction 1 as [|k' rid l _ IH|i k' seq l _ IH|resp pr l _ IH|i k' c l _ IH|i pr l _ IH
    |w' m' k' err l Hk _|w' m' k' c l _ IH|pr l _ IH]; intros Hin; inversion Hin; subst; auto.
  - destruct IH as (l1 & l2 & err & -> & Ha & Hk); [done|]. exists (resp :: l1), l2, err. by split_and!; [|constructor|].
  - by exists [], l, err.
  - apply IH, write_call_inside. constructor.
Qed.
End Method.

(** ** The answers a request gets *)

(** What the responses to a request look like once its handler has returned. *)
Definition expected (req : Request) (id : Z) (l : list Response) : Prop :=
  match req with
  | HeartbeatRequest _ => l = [RespBase NewHeartbeatResponse]
  | ReqBootstrap r =>
      if (Version_Major (BootstrapRequest_Version r) =? Version_Major APIVersion)%Z
      then ∃ l1 rid, l = l1 ++ [RespBootstrap (NewBootstrapResponse id rid)] ∧ Forall (answers id) l1
      else ∃ msg, l = [RespError (NewErrorResponse id CodeUnsupportedVersion msg)]
  | ReqControlJob r =>
      if JobID_IsWildcard (BaseJobRequest_JobID (ControlJobRequest_Base r)) ||
         negb (valid_operation (ControlJobRequest_Operation r))
      then ∃ msg, l = [RespError (NewErrorResponse id CodeInvalidRequest msg)]
      else Forall (answers id) l
  | ReqSetLoadBalancerNodes _ => ∃ rid, l = [RespBase (NewSetLoadBalancerNodesResponse id rid)]
  | ConfigReloadRequest _ => ∃ rid t msg, l = [RespConfigReload (NewConfigReloadResponse id rid t msg)]
  | _ =>
      Forall (answers id) l ∧
      ∀ r, stream_part req = Some r → BaseJobStreamRequest_Cancel r = true → l = []
  end.

(** Invert the sends of a program up to its plugin method. *)
Ltac inv_send :=
  repeat match goal with
  | H : can_send (write_call _ _ _) _ |- _ => progress cbn in H
  | H : can_send PReturn _ |- _ => inversion H; subst; clear H
  | H : can_send (PSend _ _) _ |- _ => inversion H; subst; clear H
  | H : can_send (PNextID _) _ |- _ => inversion H; subst; clear H
  | H : can_send (PCancel _ _) _ |- _ => inversion H; subst; clear H
  | H : can_send (PMetricsOnce _) _ |- _ => inversion H; subst; clear H
  | H : can_send (PMethod None _ _) _ |- _ => inversion H; subst; clear H
  end.

Section Expected.
Context (ifs : interfaces) (ctx : context) (mi : Z).

Lemma bootstrap_sends r id l :
  Request_ID (ReqBootstrap r) = Ret id → can_send (handler_prog ifs ctx mi (ReqBootstrap r)) l →
  expected (ReqBootstrap r) id l.
Proof.
  intros Hid. cbn [handler_prog expected]. unfold prog_bootstrap, with_writer, with_ID. rewrite Hid.
  destruct (_ =? _)%Z; cbn [negb]; intros Hl; [|inv_send; by eexists]. cbv zeta in Hl.
  assert (∀ l, can_send (send_numbered (λ rid, RespBootstrap (NewBootstrapResponse id rid))
    (if (0 <? mi)%Z then PMetricsOnce PReturn else PReturn)) l →
    ∃ rid, l = [RespBootstrap (NewBootstrapResponse id rid)]) as Hafter.
  { unfold send_numbered. intros l'. destruct (0 <? mi)%Z; intros Hl'; inv_send; by eexists. }
  cbn [handle_id] in Hl. destruct (has_Bootstrap ifs).
  - destruct (inside_sends id (mkHandle (ReqBootstrap r) id false) _ _ eq_refl _ _ Hl (in_method _ _ _ _)) as (l1 & l2 & err & -> & Ha & Hl2).
    destruct (Hafter _ Hl2) as [rid ->]. by exists l1, rid.
  - destruct (Hafter _ Hl) as [rid ->]. by exists [], rid.
Qed.

Lemma reload_sends r id l :
  Request_ID (ConfigReloadRequest r) = Ret id → can_send (handler_prog ifs ctx mi (ConfigReloadRequest r)) l →
  expected (ConfigReloadRequest r) id l.
Proof.
  intros Hid. cbn. unfold prog_reload, with_writer, with_ID, write_reload, send_numbered. rewrite Hid.
  destruct (has_ReloadConfig ifs); cbn [negb]; intros Hl; inv_send; [|by eexists _, _, _].
  destruct err as [err|]; [destruct (errors_As_Reload err) as [[t msg]|]|]; inv_send; by eexists _, _, _.
Qed.

(** For any plugin, a handler that has returned has sent what is expected. *)
Lemma handler_sends req id l :
  Request_ID req = Ret id → can_send (handler_prog ifs ctx mi req) l → expected req id l.
Proof.
  intros Hid Hl. pose proof (handler_prog_ok ifs ctx mi req id Hid) as Hok.
  assert (Forall (answers (answer_id req id)) l) as Ha.
  { apply handler_ok_cases in Hok as [(k & Hk & _ & _ & _ & _ & Hok)|[Hok _]]; [|by eapply can_send_answers].
    rewrite Hk in Hl. inversion Hl; subst. by eapply can_send_answers. }
  destruct req as [b|r|r|r|r|r|r|r|r|r|r|r]; cbn [answer_id] in Ha.
  - cbn in Hl |- *. unfold with_writer, with_ID in Hl. rewrite Hid in Hl. by inv_send.
  - by apply bootstrap_sends.
  - done.
  - done.
  - split; [done|]. intros r' [= <-] Hc. cbn in Hl. unfold prog_stream, with_ID in Hl. rewrite Hid, Hc in Hl.
    by inv_send.
  - cbn in Hl |- *. unfold prog_control, with_writer, with_ID in Hl. rewrite Hid in Hl.
    destruct (JobID_IsWildcard _); cbn in Hl |- *; [inv_send; by eexists|].
    destruct (valid_operation _); cbn in Hl |- *; [done|]. inv_send; by eexists.
  - split; [done|]. intros r' [= <-] Hc. cbn in Hl. unfold prog_stream, with_ID in Hl. rewrite Hid, Hc in Hl.
    by inv_send.
  - split; [done|]. intros r' [= <-] Hc. cbn in Hl. unfold prog_stream, with_ID in Hl. rewrite Hid, Hc in Hl.
    by inv_send.
  - done.
  - done.
  - cbn in Hl |- *. unfold prog_nodes, with_writer, with_ID in Hl. rewrite Hid in Hl.
    unfold send_numbered in Hl. destruct (has_SyncNodes ifs); inv_send; by eexists.
  - by apply reload_sends.
Qed.
End Expected.
