(* ===== verification/Process.v ===== *)
(** * A running plugin (src/launcher/launcher.go, src/internal/protocol/communicator.go)

    [Runtime.Run] as a whole: [Serve] with its goroutines, and the handlers that
    [createHandler] makes as the goroutines it starts for requests.  [Process]
    joins the state of [Serve], the state the handlers share, and the program
    each of them still has to run.  [proc_step] executes one action of one
    goroutine, [proc_reachable] closes over all interleavings.

    The plugin is part of the environment: a method that runs may at any time make
    a call on its writer or return.  It uses the writer from one goroutine at a
    time and not after its return, and does not panic. *)

From S2P Require Import Prelude GoStd Types Writer SubManager Stream Rpc.
From S2P Require Import Communicator Runtime Handlers.

(** [proc_log] is a record: the responses the handlers have sent on the channel,
    with the number of the handler, in order. *)
Record Process (W : Type) := mkProcess {
  proc_serve : Serve W;
  proc_rt : rtState;
  proc_progs : list prog;
  proc_log : list (nat * Response);
}.
Arguments mkProcess {W}.
Arguments proc_serve {W}.
Arguments proc_rt {W}.
Arguments proc_progs {W}.
Arguments proc_log {W}.

#[export] Instance eta_Process {W} : Eta (Process W) := λ s,
  mkProcess (proc_serve s) (proc_rt s) (proc_progs s) (proc_log s).
#[export] Instance set_proc_serve {W} : Setter (@proc_serve W) := ltac:(solve_setter).
#[export] Instance set_proc_rt {W} : Setter (@proc_rt W) := ltac:(solve_setter).
#[export] Instance set_proc_progs {W} : Setter (@proc_progs W) := ltac:(solve_setter).
#[export] Instance set_proc_log {W} : Setter (@proc_log W) := ltac:(solve_setter).

(** [ctx.Err() != nil] in a plugin method with the context [sctx]: the context of
    the server, from which all others derive, or the stream's own was cancelled. *)
Definition method_Err {W} (st : Process W) (sctx : context) : bool :=
  sv_cancelled (proc_serve st) || context_Err (rt_cancelled (proc_rt st)) sctx.

(** What a plugin method does next. *)
Inductive pluginChoice := PluginCall (c : WriterCall) | PluginReturn (err : option error).

Inductive procEvent := ProcServe (e : serveEvent) | ProcHandler (i : nat) (ch : pluginChoice).

Section Step.
Context {W : Type} `{!Writer W} `{!Unmarshal}.
Variable json_Marshal : Response → option bytes.
Context (ifs : interfaces) (ctx : context) (metricsInterval : Z).

Definition Process_start (c : Communicator W) : Process W :=
  mkProcess (Serve_start c) (initial_rt ctx) [] [].

(** An action of the reader, the writer, the caller of [Serve] or the metrics
    loop.  The caller starts a handler for a request it receives. *)
Definition proc_serve_step (st : Process W) (e : serveEvent) : option (outcome (Process W)) :=
  match e with
  | EvHandler _ _ => None
  | _ =>
      res ← serve_step json_Marshal (proc_serve st) e;
      Some (s ← res;
            let started := drop (length (proc_progs st)) (sv_dispatched s) in
            Ret (st <| proc_serve := s |>
                    <| proc_progs := proc_progs st ++ (handler_prog ifs ctx metricsInterval <$> started) |>))
  end.

(** The next action of a program whose goroutine is not blocked. *)
Definition proc_prog_step (st : Process W) (i : nat) (pr : prog) (ch : pluginChoice)
    : option (outcome (Process W)) :=
  let rt := proc_rt st in
  match pr with
  | PReturn =>
      res ← handler_step (proc_serve st) i ActReturn;
      Some (s ← res; Ret (st <| proc_serve := s |>))
  | PPanic why => Some (Panic why)
  | PNextID k =>
      let '(rt, rid) := nextResponseID rt in
      Some (Ret (st <| proc_rt := rt |> <| proc_progs := <[i := k rid]> (proc_progs st) |>))
  | PSequenceID id k =>
      let '(rt, seq) := streamStore_SequenceID rt id in
      Some (Ret (st <| proc_rt := rt |> <| proc_progs := <[i := k seq]> (proc_progs st) |>))
  | PSend resp _ =>
      res ← handler_step (proc_serve st) i (ActSend resp);
      Some (s ← res; Ret (st <| proc_serve := s |>))
  | PStart id k =>
      let '(rt, sctx) := streamStore_Start rt id in
      Some (Ret (st <| proc_rt := rt |> <| proc_progs := <[i := k sctx]> (proc_progs st) |>))
  | PCancel id k =>
      Some (Ret (st <| proc_rt := streamStore_Cancel rt id |> <| proc_progs := <[i := k]> (proc_progs st) |>))
  | PMethod w m k =>
      match ch, w with
      | PluginReturn err, _ => Some (Ret (st <| proc_progs := <[i := k err]> (proc_progs st) |>))
      | PluginCall c, Some w =>
          Some (Ret (st <| proc_progs := <[i := write_call w c pr]> (proc_progs st) |>))
      | PluginCall _, None => None
      end
  | PMetricsOnce k =>
      let st := st <| proc_progs := <[i := k]> (proc_progs st) |> in
      if rt_metricsOnce rt then Some (Ret st)
      else
        res ← handler_step (proc_serve st) i ActBackground;
        Some (s ← res; Ret (st <| proc_serve := s |> <| proc_rt := metricsOnce_Do rt |>))
  end.

(** The send itself, once there is room in the channel. *)
Definition proc_send_step (st : Process W) (i : nat) (pr : prog) : option (outcome (Process W)) :=
  match pr with
  | PSend resp k =>
      res ← handler_step (proc_serve st) i (ActSend resp);
      Some (s ← res;
            Ret (st <| proc_serve := s |>
                    <| proc_rt := (proc_rt st) <| rt_ch := rt_ch (proc_rt st) ++ [resp] |> |>
                    <| proc_progs := <[i := k]> (proc_progs st) |>
                    <| proc_log := proc_log st ++ [(i, resp)] |>))
  | _ => None
  end.

Definition proc_handler_step (st : Process W) (i : nat) (ch : pluginChoice) : option (outcome (Process W)) :=
  pr ← proc_progs st !! i;
  h ← sv_handlers (proc_serve st) !! i;
  match h with
  | HdRunning => proc_prog_step st i pr ch
  | HdSend _ => proc_send_step st i pr
  | HdReturned => None
  end.

Definition proc_step (st : Process W) (e : procEvent) : option (outcome (Process W)) :=
  match e with
  | ProcServe e => proc_serve_step st e
  | ProcHandler i ch => proc_handler_step st i ch
  end.

Fixpoint proc_run (st : Process W) (es : list procEvent) : option (outcome (Process W)) :=
  match es with
  | [] => Some (Ret st)
  | e :: es =>
      match proc_step st e with
      | Some (Ret st') => proc_run st' es
      | other => other
      end
  end.

Inductive proc_reachable (c : Communicator W) : Process W → Prop :=
| proc_reachable_start : proc_reachable c (Process_start c)
| proc_reachable_step st e st' :
    proc_reachable c st → proc_step st e = Some (Ret st') → proc_reachable c st'.
End Step.
