(* ===== verification/ProcessFacts.v ===== *)
(** * The running plugin: moves and traces

    The steps of a process as a relation ([move] for the handlers), how they
    relate to the steps of [Serve], and the reachable states once more
    ([traced]), with a record of what each handler holds. *)

From S2P Require Import Prelude GoStd Types Writer SubManager Stream Rpc.
From S2P Require Import Communicator CommunicatorFacts Runtime RuntimeFacts Handlers HandlersFacts Process.

(** ** Moves of the handlers *)

(** What a handler has been given: the context of its stream, and the response ID
    and the sequence ID of the response it is about to send. *)
Record ghost := mkGhost { g_ctx : option context; g_held : option Z; g_seq : option Z }.

#[export] Instance eta_ghost : Eta ghost := λ g, mkGhost (g_ctx g) (g_held g) (g_seq g).
#[export] Instance set_g_ctx : Setter g_ctx := ltac:(solve_setter).
#[export] Instance set_g_held : Setter g_held := ltac:(solve_setter).
#[export] Instance set_g_seq : Setter g_seq := ltac:(solve_setter).

Definition ghost0 : ghost := mkGhost None None None.

(** Actions on the shared state of the runtime, and choices of the plugin. *)
Inductive local_step (rt : rtState) (g : ghost) : prog → rtState → prog → ghost → Prop :=
| ls_next k :
    local_step rt g (PNextID k) (nextResponseID rt).1 (k (nextResponseID rt).2)
      (g <| g_held := Some (nextResponseID rt).2 |>)
| ls_sequence id k :
    local_step rt g (PSequenceID id k) (streamStore_SequenceID rt id).1 (k (streamStore_SequenceID rt id).2)
      (g <| g_seq := Some (streamStore_SequenceID rt id).2 |>)
| ls_start id k :
    local_step rt g (PStart id k) (streamStore_Start rt id).1 (k (streamStore_Start rt id).2)
      (g <| g_ctx := Some (streamStore_Start rt id).2 |>)
| ls_cancel id k :
    local_step rt g (PCancel id k) (streamStore_Cancel rt id) k g
| ls_method w m k err :
    local_step rt g (PMethod w m k) rt (k err) g
| ls_call w m k c :
    local_step rt g (PMethod (Some w) m k) rt (write_call w c (PMethod (Some w) m k)) g
| ls_once k :
    rt_metricsOnce rt = true → local_step rt g (PMetricsOnce k) rt k g.

Section Facts.
Context {W : Type} `{!Writer W} `{!Unmarshal}.
Variable json_Marshal : Response → option bytes.
Context (ifs : interfaces) (ctx : context) (mi : Z).

Local Abbreviation step := (proc_step json_Marshal ifs ctx mi).
Local Abbreviation reachable := (proc_reachable json_Marshal ifs ctx mi).
Local Abbreviation program := (handler_prog ifs ctx mi).

(** What handler [i] may do: an action of its own, the start of the metrics loop,
    the beginning and the end of a send, its return. *)
Inductive move (st : Process W) (gs : list ghost) (i : nat) : Process W → list ghost → Prop :=
| mv_local pr g rt' pr' g' :
    proc_progs st !! i = Some pr → sv_handlers (proc_serve st) !! i = Some HdRunning →
    gs !! i = Some g → local_step (proc_rt st) g pr rt' pr' g' →
    move st gs i (st <| proc_rt := rt' |> <| proc_progs := <[i := pr']> (proc_progs st) |>) (<[i := g']> gs)
| mv_loop k s :
    proc_progs st !! i = Some (PMetricsOnce k) → sv_handlers (proc_serve st) !! i = Some HdRunning →
    rt_metricsOnce (proc_rt st) = false →
    s = (proc_serve st) <| sv_background := S (sv_background (proc_serve st)) |> →
    move st gs i (st <| proc_serve := s |> <| proc_rt := metricsOnce_Do (proc_rt st) |>
                     <| proc_progs := <[i := k]> (proc_progs st) |>) gs
| mv_queue resp k s :
    proc_progs st !! i = Some (PSend resp k) → sv_handlers (proc_serve st) !! i = Some HdRunning →
    s = (proc_serve st) <| sv_handlers := <[i := HdSend resp]> (sv_handlers (proc_serve st)) |> →
    move st gs i (st <| proc_serve := s |>) gs
| mv_sent resp resp' k ch s g :
    proc_progs st !! i = Some (PSend resp k) → sv_handlers (proc_serve st) !! i = Some (HdSend resp') →
    handler_step (proc_serve st) i (ActSend resp) = Some (Ret s) →
    s = (proc_serve st) <| sv_respCh := ch |>
          <| sv_handlers := <[i := HdRunning]> (sv_handlers (proc_serve st)) |>
          <| sv_sent := sv_sent (proc_serve st) ++ [resp'] |> →
    gs !! i = Some g →
    move st gs i (st <| proc_serve := s |>
                     <| proc_rt := (proc_rt st) <| rt_ch := rt_ch (proc_rt st) ++ [resp] |> |>
                     <| proc_progs := <[i := k]> (proc_progs st) |>
                     <| proc_log := proc_log st ++ [(i, resp)] |>)
                 (<[i := mkGhost (g_ctx g) None None]> gs)
| mv_return s :
    proc_progs st !! i = Some PReturn → sv_handlers (proc_serve st) !! i = Some HdRunning →
    s = (proc_serve st) <| sv_handlers := <[i := HdReturned]> (sv_handlers (proc_serve st)) |>
          <| sv_wg := (sv_wg (proc_serve st) - 1)%Z |> →
    handler_step (proc_serve st) i ActReturn = Some (Ret s) →
    move st gs i (st <| proc_serve := s |>) gs.

Lemma prog_step_move st gs i g pr ch st' :
  proc_progs st !! i = Some pr → sv_handlers (proc_serve st) !! i = Some HdRunning → gs !! i = Some g →
  proc_prog_step st i pr ch = Some (Ret st') → ∃ gs', move st gs i st' gs'.
Proof.
  intros Hpr Hh Hg Hs. destruct pr as [|why|k|id k|resp k|id k|id k|w m k|k]; cbn in Hs.
  - apply bind_Some in Hs as (res & Hres & [= Hs]). destruct res as [s|]; cbn in Hs; [|done]. injection Hs as <-.
    eexists. eapply mv_return; [done|done| |exact Hres]. unfold handler_step in Hres. rewrite Hh in Hres. cbn in Hres.
    destruct (_ <=? _)%Z; [done|]. by simplify_eq.
  - done.
  - injection Hs as <-. eexists. eapply mv_local; [done|done|done|]. apply (ls_next (proc_rt st)).
  - pose proof (ls_sequence (proc_rt st) g id k) as Hl.
    destruct (streamStore_SequenceID (proc_rt st) id) as [rt' seq]. injection Hs as <-.
    eexists. by eapply mv_local.
  - unfold handler_step in Hs. rewrite Hh in Hs. cbn in Hs. injection Hs as <-. eexists. by eapply mv_queue.
  - pose proof (ls_start (proc_rt st) g id k) as Hl.
    destruct (streamStore_Start (proc_rt st) id) as [rt' sctx]. injection Hs as <-.
    eexists. by eapply mv_local.
  - injection Hs as <-. eexists. eapply mv_local; [done|done|done|]. apply ls_cancel.
  - assert (∀ pr', local_step (proc_rt st) g (PMethod w m k) (proc_rt st) pr' g →
      ∃ gs', move st gs i (st <| proc_progs := <[i := pr']> (proc_progs st) |>) gs') as Hkeep.
    { intros pr' Hl. pose proof (mv_local st gs i _ _ _ _ _ Hpr Hh Hg Hl) as Hm. destruct st. by eexists. }
    destruct ch as [c|err].
    + destruct w as [w|]; [|done]. injection Hs as <-. apply Hkeep, ls_call.
    + injection Hs as <-. apply Hkeep, ls_method.
  - destruct (rt_metricsOnce (proc_rt st)) eqn:Hone.
    + injection Hs as <-. pose proof (mv_local st gs i _ _ _ _ _ Hpr Hh Hg (ls_once _ _ k Hone)) as Hm.
      destruct st. by eexists.
    + unfold handler_step in Hs. cbn in Hs. rewrite Hh in Hs. cbn in Hs. injection Hs as <-.
      pose proof (mv_loop st gs i k _ Hpr Hh Hone eq_refl) as Hm. destruct st. by eexists.
Qed.

Lemma handler_move st gs i ch st' :
  length gs = length (proc_progs st) → step st (ProcHandler i ch) = Some (Ret st') → ∃ gs', move st gs i st' gs'.
Proof.
  cbn. unfold proc_handler_step. intros Hlen Hs.
  apply bind_Some in Hs as (pr & Hpr & Hs). apply bind_Some in Hs as (h & Hh & Hs).
  destruct (lookup_lt_is_Some_2 gs i) as [g Hg]; [rewrite Hlen; by eapply lookup_lt_Some|].
  destruct h as [|resp'|]; [by eapply prog_step_move| |done].
  unfold proc_send_step in Hs. destruct pr as [| | | |resp k| | | |]; try done.
  apply bind_Some in Hs as (res & Hres & [= Hs]). destruct res as [s|]; cbn in Hs; [|done]. injection Hs as <-.
  pose proof Hres as Hres'. unfold handler_step in Hres'. rewrite Hh in Hres'. cbn in Hres'.
  apply bind_Some in Hres' as (c & _ & [= Hc]). destruct c as [c|]; cbn in Hc; [|done].
  eexists. eapply (mv_sent _ _ _ resp resp' k c); [done|done|exact Hres|by injection Hc as <-|exact Hg].
Qed.

(** ** Steps of [Serve] *)

(** How an action outside of the handlers changes what the handlers see. *)
Record serve_moves (s s' : Serve W) : Prop := {
  sm_handlers : (sv_handlers s' = sv_handlers s ∧ sv_dispatched s' = sv_dispatched s) ∨
    ∃ req, sv_handlers s' = sv_handlers s ++ [HdRunning] ∧ sv_dispatched s' = sv_dispatched s ++ [req];
  sm_sent : sv_sent s' = sv_sent s ∨ ∃ m, sv_sent s' = sv_sent s ++ [RespMetrics m];
  sm_background : sv_background s' ≤ sv_background s;
}.

Lemma serve_step_moves s e s' :
  serve_step json_Marshal s e = Some (Ret s') → (∀ i a, e ≠ EvHandler i a) → serve_moves s s'.
Proof.
  intros Hs He. destruct s. destruct e; cbn in Hs; [| | |by edestruct He| | |].
  all: unfold reader_step, writer_step, main_step, select_step, background_step, background_stop in Hs;
    cbn in Hs; inv_step; split; cbn; eauto.
Qed.

(** ** Traces *)

(** The process reaches [st], and its handlers hold [gs]. *)
Inductive traced (c : Communicator W) : Process W → list ghost → Prop :=
| tr_start : traced c (Process_start ctx c) []
| tr_serve st gs e s :
    traced c st gs → serve_step json_Marshal (proc_serve st) e = Some (Ret s) →
    serve_moves (proc_serve st) s →
    sv_handlers s = sv_handlers (proc_serve st) → sv_dispatched s = sv_dispatched (proc_serve st) →
    traced c (st <| proc_serve := s |>) gs
| tr_dispatch st gs e s req :
    traced c st gs → serve_step json_Marshal (proc_serve st) e = Some (Ret s) →
    serve_moves (proc_serve st) s →
    sv_handlers s = sv_handlers (proc_serve st) ++ [HdRunning] →
    sv_dispatched s = sv_dispatched (proc_serve st) ++ [req] →
    traced c (st <| proc_serve := s |> <| proc_progs := proc_progs st ++ [program req] |>) (gs ++ [ghost0])
| tr_move st gs i st' gs' :
    traced c st gs → move st gs i st' gs' → traced c st' gs'.

Lemma move_lengths st gs i st' gs' :
  move st gs i st' gs' →
  length (proc_progs st') = length (proc_progs st) ∧ length gs' = length gs ∧
  length (sv_handlers (proc_serve st')) = length (sv_handlers (proc_serve st)) ∧
  sv_dispatched (proc_serve st') = sv_dispatched (proc_serve st).
Proof. by destruct 1; subst; cbn; rewrite ?length_insert. Qed.

Lemma traced_lengths c st gs :
  traced c st gs →
  length (proc_progs st) = length (sv_dispatched (proc_serve st)) ∧ length gs = length (proc_progs st) ∧
  length (sv_handlers (proc_serve st)) = length (sv_dispatched (proc_serve st)).
Proof.
  induction 1 as [|st gs e s _ (IH1 & IH2 & IH3) _ _ Hh Hd|st gs e s req _ (IH1 & IH2 & IH3) _ _ Hh Hd
    |st gs i st' gs' _ (IH1 & IH2 & IH3) Hm]; cbn.
  - done.
  - by rewrite Hh, Hd.
  - rewrite Hh, Hd, !length_app, IH1, IH2, IH3. cbn. by rewrite IH1.
  - destruct (move_lengths _ _ _ _ _ Hm) as (-> & -> & -> & ->). done.
Qed.

(** A step outside of the handlers. *)
Lemma serve_step_cases st e r :
  step st (ProcServe e) = Some r →
  (∀ i a, e ≠ EvHandler i a) ∧ ∃ res, serve_step json_Marshal (proc_serve st) e = Some res ∧
    r = (s ← res; Ret (st <| proc_serve := s |> <| proc_progs := proc_progs st ++
           (program <$> drop (length (proc_progs st)) (sv_dispatched s)) |>)).
Proof.
  cbn [proc_step]. unfold proc_serve_step. destruct e; try done.
  all: intros (res & Hres & [= <-])%bind_Some; split; [done|by exists res].
Qed.

Lemma reachable_traced c st : reachable c st → ∃ gs, traced c st gs.
Proof.
  induction 1 as [|st e st' _ [gs Ht] Hs]; [eexists; constructor|].
  destruct (traced_lengths _ _ _ Ht) as (Hl1 & Hl2 & Hl3).
  destruct e as [e|i ch]; [|destruct (handler_move _ _ _ _ _ Hl2 Hs) as [gs' Hm]; exists gs'; by eapply tr_move].
  apply serve_step_cases in Hs as (He & res & Hres & Hs). destruct res as [s|]; [|done]. injection Hs as ->.
  pose proof (serve_step_moves _ _ _ Hres He) as Hm. rewrite Hl1.
  destruct (sm_handlers _ _ Hm) as [[Hh Hd]|(req & Hh & Hd)]; rewrite Hd.
  - rewrite drop_all. cbn. rewrite app_nil_r. exists gs.
    pose proof (tr_serve _ _ _ _ _ Ht Hres Hm Hh Hd) as Ht'. by destruct st.
  - rewrite drop_app_length. eexists. by eapply tr_dispatch.
Qed.

(** ** Refinement: the process runs [Serve] *)

(** Every move of a handler is one of the actions [Serve] allows its handlers, or
    invisible to it. *)
Lemma move_serve st gs i st' gs' :
  move st gs i st' gs' →
  proc_serve st' = proc_serve st ∨ ∃ a, handler_step (proc_serve st) i a = Some (Ret (proc_serve st')).
Proof.
  intros [pr g rt' pr' g' Hp Hh Hg Hl|k s Hp Hh Ho Hs|resp k s Hp Hh Hs|resp resp' k ch s g Hp Hh Hst Hs Hg|s Hp Hh Hs Hst];
    cbn; [by left|right..].
  - subst s. exists ActBackground. unfold handler_step. by rewrite Hh.
  - subst s. exists (ActSend resp). unfold handler_step. by rewrite Hh.
  - by exists (ActSend resp).
  - by exists ActReturn.
Qed.

Lemma traced_serve c st gs : traced c st gs → serve_reachable json_Marshal c (proc_serve st).
Proof.
  induction 1 as [|st gs e s _ IH Hs _ _ _|st gs e s req _ IH Hs _ _ _|st gs i st' gs' _ IH Hm];
    [constructor|by econstructor..|].
  destruct (move_serve _ _ _ _ _ Hm) as [->|[a Ha]]; [done|]. by apply (serve_reachable_step _ _ _ (EvHandler i a) _ IH).
Qed.

Lemma step_simulates c st e st' :
  reachable c st → step st e = Some (Ret st') →
  proc_serve st' = proc_serve st ∨
  ∃ e', serve_step json_Marshal (proc_serve st) e' = Some (Ret (proc_serve st')).
Proof.
  intros [gs Ht]%reachable_traced Hs. destruct e as [e|i ch].
  - apply serve_step_cases in Hs as (_ & res & Hres & Hs). destruct res as [s|]; [|done]. injection Hs as ->.
    right. by exists e.
  - destruct (traced_lengths _ _ _ Ht) as (_ & Hl2 & _). destruct (handler_move _ _ _ _ _ Hl2 Hs) as [gs' Hm].
    destruct (move_serve _ _ _ _ _ Hm) as [Heq|[a Ha]]; [by left|]. right. by exists (EvHandler i a).
Qed.

Lemma reachable_serve c st : reachable c st → serve_reachable json_Marshal c (proc_serve st).
Proof. intros [gs Ht]%reachable_traced. by eapply traced_serve. Qed.
End Facts.
