(* ===== verification/ProcessInv.v ===== *)
(** * The running plugin: invariants

    What holds in every state a process reaches: what a handler sends answers its
    request and is what its program can send, response IDs are handed out once,
    sequence IDs count the messages of a stream, and the contexts of streams are
    cancelled by cancel requests only. *)

From S2P Require Import Prelude GoStd Types Writer SubManager Stream Rpc.
From S2P Require Import Communicator CommunicatorFacts Runtime RuntimeFacts Handlers HandlersFacts.
From S2P Require Import Process ProcessFacts.

(** The responses of one handler, in order. *)
Definition sent_by (i : nat) (log : list (nat * Response)) : list Response :=
  snd <$> base.filter (λ e, e.1 = i) log.

Arguments sent_by : simpl never.

Lemma sent_by_snoc i j resp log :
  sent_by i (log ++ [(j, resp)]) = sent_by i log ++ (if decide (j = i) then [resp] else []).
Proof.
  unfold sent_by. rewrite list.filter_app, fmap_app, filter_cons, filter_nil. cbn. by destruct (decide (j = i)).
Qed.

Lemma sent_by_new i log : (∀ j resp, (j, resp) ∈ log → j < i) → sent_by i log = [].
Proof.
  intros Hlt. unfold sent_by. destruct (base.filter _ log) as [|[j resp] l] eqn:E; [done|]. exfalso.
  assert ((j, resp) ∈ base.filter (λ e : nat * Response, e.1 = i) log) as Hin by (rewrite E; by left).
  apply list_elem_of_filter in Hin as [Hj Hin]. cbn in Hj. apply Hlt in Hin. lia.
Qed.

(** Lookups after a change of one entry, and after the arrival of one. *)
Lemma insert_cases {A} (l : list A) i j x y :
  <[i := x]> l !! j = Some y → (j = i ∧ y = x) ∨ (j ≠ i ∧ l !! j = Some y).
Proof.
  destruct (decide (i = j)) as [->|Hne]; [|rewrite list_lookup_insert_ne by done; auto].
  intros H. left. assert (j < length l) as Hj by (apply lookup_lt_Some in H; by rewrite length_insert in H).
  rewrite list_lookup_insert_eq in H by done. by simplify_eq.
Qed.

Lemma snoc_cases {A} (l : list A) x j y :
  (l ++ [x]) !! j = Some y → (j = length l ∧ y = x) ∨ (j < length l ∧ l !! j = Some y).
Proof.
  intros [H|[Hj H]]%lookup_app_Some; [right; split; [by eapply lookup_lt_Some|done]|].
  apply list_lookup_singleton_Some in H as [? <-]. left. split; [lia|done].
Qed.

Section Inv.
Context {W : Type} `{!Writer W} `{!Unmarshal, !UnmarshalLaws}.
Variable json_Marshal : Response → option bytes.
Context (ifs : interfaces) (ctx : context) (mi : Z) (c : Communicator W).

Local Abbreviation traced := (traced json_Marshal ifs ctx mi c).
Local Abbreviation program := (handler_prog ifs ctx mi).

(** ** Requests *)

(** Every request that is handed over has an ID. *)
Lemma requests_valid s :
  serve_reachable json_Marshal c s →
  Forall (λ req, BaseRequest_Valid (Request_Base req) = true) (sv_dispatched s ++ gochan_buf (sv_reqCh s)).
Proof.
  induction 1 as [|s e s' Hr IH Hs]; [constructor|].
  assert (e = EvReader ∨ e ≠ EvReader) as [->|He] by (destruct e; auto);
    [|by rewrite (step_input _ _ _ _ Hs He)].
  destruct (serve_reachable_inv _ _ _ Hr) as [_ Hv]. unfold reader_valid in Hv. destruct s as [enc dec rd].
  cbn in *. unfold reader_step in Hs. cbn in Hs. destruct rd as [|req|req|err| |]; inv_step; try done.
  - match goal with H : gochan_send _ _ = Some _ |- _ => apply gochan_send_Some in H end.
    destruct_or!; destruct_and!; simplify_eq/=. rewrite app_assoc. apply Forall_app. split; [done|].
    constructor; [by eapply Hv|constructor].
  - unfold gochan_close in *. inv_step.
Qed.

Lemma dispatched_ID s i req :
  serve_reachable json_Marshal c s → sv_dispatched s !! i = Some req → ∃ id, Request_ID req = Ret id.
Proof.
  intros Hr Hi. pose proof (requests_valid _ Hr) as Hv.
  apply Forall_app in Hv as [Hv _]. eapply list.Forall_lookup_1 in Hv; [|exact Hi].
  destruct (Valid_ID_Type _ Hv) as (id & _ & Hid & _). by exists id.
Qed.

(** ** Programs *)
Lemma local_step_ok rt g pr rt' pr' g' req id :
  local_step rt g pr rt' pr' g' → handler_ok ctx mi req id (g_ctx g) (g_held g) (g_seq g) pr →
  handler_ok ctx mi req id (g_ctx g') (g_held g') (g_seq g') pr'.
Proof.
  destruct g as [sctx held seqd]. intros Hl Hok. destruct Hl; cbn in Hok |- *; destruct_and?; subst;
    try (apply handler_ok_intro; by auto).
  apply handler_ok_intro; [|done]. apply write_call_ok; [auto|]. by split_and!.
Qed.

Lemma traced_ok st gs i req pr g :
  traced st gs → sv_dispatched (proc_serve st) !! i = Some req → proc_progs st !! i = Some pr →
  gs !! i = Some g →
  ∃ id, Request_ID req = Ret id ∧ handler_ok ctx mi req id (g_ctx g) (g_held g) (g_seq g) pr.
Proof.
  intros Ht. revert i req pr g.
  induction Ht as [|st gs e s Ht IH Hs Hsm Hh Hd|st gs e s new Ht IH Hs Hsm Hh Hd|st gs i st' gs' Ht IH Hm];
    intros j req pr g Hreq Hpr Hg; cbn in *.
  - done.
  - rewrite Hd in Hreq. eauto.
  - destruct (traced_lengths _ _ _ _ _ _ _ Ht) as (Hl1 & Hl2 & _).
    assert (∃ id, Request_ID req = Ret id) as [id Hid].
    { eapply (dispatched_ID _ j); [|exact Hreq]. eapply serve_reachable_step; [|exact Hs]. by eapply traced_serve. }
    rewrite Hd in Hreq.
    apply snoc_cases in Hreq as [[-> ->]|[? Hreq]], Hpr as [[? ->]|[? Hpr]],
      Hg as [[? ->]|[? Hg]]; try lia; [|eauto]. exists id. split; [done|]. by apply handler_prog_ok.
  - destruct Hm as [pr0 g0 rt' pr' g' Hp Hhd Hg0 Hl|k s Hp Hhd Ho Hs|resp k s Hp Hhd Hs
      |resp resp' k ch s g0 Hp Hhd Hst Hs Hg0|s Hp Hhd Hs Hst]; cbn in *.
    + apply insert_cases in Hpr as [[-> ->]|[? Hpr]], Hg as [[? ->]|[? Hg]]; try done; [|eauto].
      destruct (IH _ _ _ _ Hreq Hp Hg0) as (id & Hid & Hok). exists id. split; [done|]. by eapply local_step_ok.
    + subst s. cbn in Hreq. apply insert_cases in Hpr as [[-> ->]|[? Hpr]]; [|eauto].
      destruct (IH _ _ _ _ Hreq Hp Hg) as (id & Hid & Hok). exists id. split; [done|]. cbn in Hok.
      destruct_and?. destruct g; cbn in *; subst. by apply handler_ok_intro.
    + subst s. eauto.
    + rewrite Hs in Hreq. cbn in Hreq.
      apply insert_cases in Hpr as [[-> ->]|[? Hpr]], Hg as [[? ->]|[? Hg]]; try done; [|eauto].
      destruct (IH _ _ _ _ Hreq Hp Hg0) as (id & Hid & Hok). exists id. split; [done|]. cbn in Hok |- *.
      destruct_and?. by apply handler_ok_intro.
    + subst s. eauto.
Qed.

(** ** Positions *)

(** Where [Serve] has a handler and where its program is. *)
Definition pc_agrees (h : handlerPc) (pr : prog) : Prop :=
  match h with
  | HdRunning => True
  | HdSend resp => ∃ k, pr = PSend resp k
  | HdReturned => pr = PReturn
  end.

Lemma traced_pc st gs i h pr :
  traced st gs → sv_handlers (proc_serve st) !! i = Some h → proc_progs st !! i = Some pr → pc_agrees h pr.
Proof.
  intros Ht. revert i h pr.
  induction Ht as [|st gs e s Ht IH Hs Hsm Hh Hd|st gs e s new Ht IH Hs Hsm Hh Hd|st gs i st' gs' Ht IH Hm];
    intros j h pr Hj Hpr; cbn in *.
  - done.
  - rewrite Hh in Hj. eauto.
  - destruct (traced_lengths _ _ _ _ _ _ _ Ht) as (Hl1 & Hl2 & Hl3). rewrite Hh in Hj.
    apply snoc_cases in Hj as [[-> ->]|[? Hj]], Hpr as [[? ->]|[? Hpr]]; try lia; [done|eauto].
  - destruct Hm as [pr0 g0 rt' pr' g' Hp Hhd Hg0 Hl|k s Hp Hhd Ho Hs|resp k s Hp Hhd Hs
      |resp resp' k ch s g0 Hp Hhd Hst Hs Hg0|s Hp Hhd Hs Hst]; cbn in *; rewrite ?Hs in Hj; cbn in Hj;
      try apply insert_cases in Hj as [[-> ->]|[? Hj]]; try apply insert_cases in Hpr as [[-> ->]|[? Hpr]];
      simplify_eq; eauto; cbn; eauto.
Qed.

(** ** What the handlers have sent *)
Lemma local_step_ch rt g pr rt' pr' g' : local_step rt g pr rt' pr' g' → rt_ch rt' = rt_ch rt.
Proof.
  destruct 1 as [| id k | id k | id k | | |]; try done.
  - unfold streamStore_SequenceID. by destruct (streamStore_streams (rt_store rt) !! id).
  - unfold streamStore_Start. by destruct (streamStore_streams (rt_store rt) !! id).
  - unfold streamStore_Cancel. by destruct (streamStore_streams (rt_store rt) !! id).
Qed.

Lemma traced_log st gs :
  traced st gs →
  (∀ j resp, (j, resp) ∈ proc_log st → j < length (proc_progs st)) ∧
  rt_ch (proc_rt st) = (proc_log st).*2 ∧
  base.filter (λ r, is_metrics r = false) (sv_sent (proc_serve st)) = (proc_log st).*2.
Proof.
  intros Ht.
  induction Ht as [|st gs e s Ht (IH1 & IH2 & IH3) Hs Hsm Hh Hd|st gs e s new Ht (IH1 & IH2 & IH3) Hs Hsm Hh Hd
    |st gs i st' gs' Ht (IH1 & IH2 & IH3) Hm]; cbn.
  - split; [intros j resp Hin%not_elem_of_nil|]; done.
  - split_and!; try done. destruct (sm_sent _ _ Hsm) as [->|[m ->]]; [done|].
    by rewrite list.filter_app, app_nil_r.
  - split_and!; try done.
    + intros j resp Hj%IH1. rewrite length_app. lia.
    + destruct (sm_sent _ _ Hsm) as [->|[m ->]]; [done|]. by rewrite list.filter_app, app_nil_r.
  - destruct (move_lengths _ _ _ _ _ Hm) as (Hlen & _).
    destruct Hm as [pr0 g0 rt' pr' g' Hp Hhd Hg0 Hl|k s Hp Hhd Ho Hs|resp k s Hp Hhd Hs
      |resp resp' k ch s g0 Hp Hhd Hst Hs Hg0|s Hp Hhd Hs Hst]; cbn in *; rewrite ?Hlen; try (subst s; by split_and!).
    + split_and!; try done. rewrite <- IH2. by eapply local_step_ch.
    + subst s. split_and!; try done. unfold metricsOnce_Do. by destruct (rt_metricsOnce _).
    + destruct (traced_pc _ _ _ _ _ Ht Hhd Hp) as [k' [= <- _]].
      destruct (traced_lengths _ _ _ _ _ _ _ Ht) as (Hl1 & _).
      assert (is_Some (sv_dispatched (proc_serve st) !! i)) as [req Hreq].
      { apply lookup_lt_is_Some. rewrite <- Hl1. by eapply lookup_lt_Some. }
      destruct (traced_ok _ _ _ _ _ _ Ht Hreq Hp Hg0) as (id & Hid & (Hok & _)). cbn in Hok.
      rewrite Hs. cbn. rewrite list.filter_app, fmap_app, IH2, IH3, filter_cons, filter_nil.
      split_and!; [|done|by rewrite decide_True by naive_solver].
      intros j r [Hj%IH1|Hj%list_elem_of_singleton]%elem_of_app; [done|]. simplify_eq.
      by eapply lookup_lt_Some.
Qed.

(** A handler sends what its program can send. *)
Lemma local_step_sends rt g pr rt' pr' g' l :
  local_step rt g pr rt' pr' g' → can_send pr' l → can_send pr l.
Proof. destruct 1; intros; by econstructor. Qed.

Lemma traced_sends st gs i req pr l :
  traced st gs → sv_dispatched (proc_serve st) !! i = Some req → proc_progs st !! i = Some pr →
  can_send pr l → can_send (program req) (sent_by i (proc_log st) ++ l).
Proof.
  intros Ht. revert i req pr l.
  induction Ht as [|st gs e s Ht IH Hs Hsm Hh Hd|st gs e s new Ht IH Hs Hsm Hh Hd|st gs i st' gs' Ht IH Hm];
    intros j req pr l Hreq Hpr Hl; cbn in *.
  - done.
  - rewrite Hd in Hreq. eauto.
  - destruct (traced_lengths _ _ _ _ _ _ _ Ht) as (Hl1 & _). rewrite Hd in Hreq.
    apply snoc_cases in Hreq as [[-> ->]|[? Hreq]], Hpr as [[? ->]|[? Hpr]]; try lia; [|eauto].
    rewrite sent_by_new; [done|]. rewrite <- Hl1. apply (traced_log _ _ Ht).
  - destruct Hm as [pr0 g0 rt' pr' g' Hp Hhd Hg0 Hls|k s Hp Hhd Ho Hs|resp k s Hp Hhd Hs
      |resp resp' k ch s g0 Hp Hhd Hst Hs Hg0|s Hp Hhd Hs Hst]; cbn in *; rewrite ?Hs in Hreq; cbn in Hreq; try (by eauto).
    + apply insert_cases in Hpr as [[-> ->]|[? Hpr]]; [|eauto]. eapply IH; [done|done|]. by eapply local_step_sends.
    + apply insert_cases in Hpr as [[-> ->]|[? Hpr]]; [|eauto]. eapply IH; [done|done|]. by constructor.
    + rewrite sent_by_snoc. apply insert_cases in Hpr as [[-> ->]|[? Hpr]].
      * rewrite decide_True, <- app_assoc by done. eapply IH; [done|done|]. by constructor.
      * rewrite decide_False, app_nil_r by done. eauto.
Qed.

(** The program and the request at a position of the ghost list. *)
Lemma traced_at st gs i pr g :
  traced st gs → proc_progs st !! i = Some pr → gs !! i = Some g →
  ∃ req id, sv_dispatched (proc_serve st) !! i = Some req ∧ Request_ID req = Ret id ∧
    handler_ok ctx mi req id (g_ctx g) (g_held g) (g_seq g) pr.
Proof.
  intros Ht Hp Hg. destruct (traced_lengths _ _ _ _ _ _ _ Ht) as (Hl1 & _).
  assert (is_Some (sv_dispatched (proc_serve st) !! i)) as [req Hreq].
  { apply lookup_lt_is_Some. rewrite <- Hl1. by eapply lookup_lt_Some. }
  destruct (traced_ok _ _ _ _ _ _ Ht Hreq Hp Hg) as (id & Hid & Hok). by exists req, id.
Qed.

(** ** Response IDs *)
Lemma omap_insert {A B} (f : A → option B) (l : list A) i x y :
  l !! i = Some x → option_list (f x) ++ omap f (<[i := y]> l) ≡ₚ option_list (f y) ++ omap f l.
Proof.
  intros Hi. rewrite insert_take_drop by (by eapply lookup_lt_Some).
  rewrite <- (take_drop_middle l i x Hi) at 3. rewrite !omap_app. cbn [omap list_omap].
  destruct (f x), (f y); cbn; solve_Permutation.
Qed.

Lemma local_step_counter rt g pr rt' pr' g' :
  local_step rt g pr rt' pr' g' →
  (∃ k, pr = PNextID k ∧ rt_responseCounter rt' = next64 (rt_responseCounter rt) ∧
     g_held g' = Some (wrap64 (rt_responseCounter rt))) ∨
  (rt_responseCounter rt' = rt_responseCounter rt ∧ g_held g' = g_held g).
Proof.
  destruct 1 as [k | id k | id k | id k | | |]; auto.
  - left. exists k. split_and!; [done|done|]. cbn. f_equal. apply wrap64_pred.
  - right. unfold streamStore_SequenceID. by destruct (streamStore_streams (rt_store rt) !! id).
  - right. unfold streamStore_Start. by destruct (streamStore_streams (rt_store rt) !! id).
  - right. unfold streamStore_Cancel. by destruct (streamStore_streams (rt_store rt) !! id).
Qed.

Lemma count_from_snoc z n : count_from z (S n) = count_from z n ++ [Nat.iter n next64 z].
Proof. replace (S n) with (n + 1) by lia. by rewrite count_from_app. Qed.

(** The response IDs handed out: sent, or held by a handler that is about to send. *)
Lemma traced_ids st gs :
  traced st gs →
  ∃ n, response_ids (proc_log st).*2 ++ omap g_held gs ≡ₚ count_from 0 n ∧
    rt_responseCounter (proc_rt st) = Nat.iter n next64 0%Z.
Proof.
  intros Ht.
  induction Ht as [|st gs e s Ht (n & IH & Hn) Hs Hsm Hh Hd|st gs e s new Ht (n & IH & Hn) Hs Hsm Hh Hd
    |st gs i st' gs' Ht (n & IH & Hn) Hm].
  - by exists 0.
  - by exists n.
  - exists n. cbn. by rewrite omap_app, app_nil_r.
  - destruct Hm as [pr0 g0 rt' pr' g' Hp Hhd Hg0 Hls|k s Hp Hhd Ho Hs|resp k s Hp Hhd Hs
      |resp resp' k ch s g0 Hp Hhd Hst Hs Hg0|s Hp Hhd Hs Hst]; cbn; try (by exists n).
    + destruct (traced_at _ _ _ _ _ Ht Hp Hg0) as (req & id & _ & _ & Hok).
      pose proof (omap_insert g_held gs i g0 g' Hg0) as Hins.
      destruct (local_step_counter _ _ _ _ _ _ Hls) as [(k & -> & Hc & Hg')|[Hc Hg']].
      * exists (S n). cbn in Hok. destruct Hok as [(Hnone & _) _]. rewrite Hnone, Hg' in Hins. cbn in Hins.
        rewrite Hins, Hc, Hn, count_from_snoc, <- IH, <- iter_wrap. split; [solve_Permutation|done].
      * exists n. rewrite Hg' in Hins. apply Permutation_app_inv_l in Hins. by rewrite Hins, Hc.
    + exists n. split; [done|]. unfold metricsOnce_Do. by destruct (rt_metricsOnce _).
    + destruct (traced_at _ _ _ _ _ Ht Hp Hg0) as (req & id & _ & _ & (Hok & _)). cbn in Hok.
      exists n. split; [|done].
      pose proof (omap_insert g_held gs i g0 (mkGhost (g_ctx g0) None None) Hg0) as Hins. cbn in Hins.
      rewrite fmap_app. unfold response_ids. rewrite omap_app, <- IH, <- Hins, <- app_assoc. cbn.
      destruct Hok as [-> _]. by destruct (g_held g0).
Qed.

(** ** The metrics loop *)
Lemma traced_loops st gs :
  traced st gs →
  sv_background (proc_serve st) ≤ rt_metricsLoops (proc_rt st) ∧
  rt_metricsLoops (proc_rt st) = (if rt_metricsOnce (proc_rt st) then 1 else 0) ∧
  (rt_metricsOnce (proc_rt st) = true → (0 < mi)%Z).
Proof.
  intros Ht.
  induction Ht as [|st gs e s Ht (IH1 & IH2 & IH3) Hs Hsm Hh Hd|st gs e s new Ht (IH1 & IH2 & IH3) Hs Hsm Hh Hd
    |st gs i st' gs' Ht (IH1 & IH2 & IH3) Hm]; cbn.
  - done.
  - pose proof (sm_background _ _ Hsm). split_and!; [lia|done|done].
  - pose proof (sm_background _ _ Hsm). split_and!; [lia|done|done].
  - destruct Hm as [pr0 g0 rt' pr' g' Hp Hhd Hg0 Hls|k s Hp Hhd Ho Hs|resp k s Hp Hhd Hs
      |resp resp' k ch s g0 Hp Hhd Hst Hs Hg0|s Hp Hhd Hs Hst]; cbn in *; try (by subst s).
    + assert (rt_metricsOnce rt' = rt_metricsOnce (proc_rt st) ∧ rt_metricsLoops rt' = rt_metricsLoops (proc_rt st))
        as [-> ->]; [|done].
      destruct Hls as [k | id k | id k | id k | | |]; try done.
      * unfold streamStore_SequenceID. by destruct (streamStore_streams _ !! id).
      * unfold streamStore_Start. by destruct (streamStore_streams _ !! id).
      * unfold streamStore_Cancel. by destruct (streamStore_streams _ !! id).
    + destruct (traced_lengths _ _ _ _ _ _ _ Ht) as (_ & Hl2 & _).
      destruct (lookup_lt_is_Some_2 gs i) as [g Hg]; [rewrite Hl2; by eapply lookup_lt_Some|].
      destruct (traced_at _ _ _ _ _ Ht Hp Hg) as (req & id & _ & _ & ((Hmi & _) & _)).
      unfold metricsOnce_Do. subst s. rewrite Ho in *. cbn. split_and!; [lia|lia|done].
Qed.

(** ** Streams and their contexts *)

(** A cancel request for the stream has been handed over. *)
Definition cancel_dispatched (st : Process W) (id : Z) : Prop :=
  ∃ i req, sv_dispatched (proc_serve st) !! i = Some req ∧ cancels_stream req ∧ Request_ID req = Ret id.

(** A stream request with this ID has been handed over. *)
Definition stream_dispatched (st : Process W) (id : Z) : Prop :=
  ∃ i req, sv_dispatched (proc_serve st) !! i = Some req ∧ opens_stream req ∧ Request_ID req = Ret id.

(** The context is that of the running stream, or the stream was cancelled. *)
Definition live_or_cancelled (st : Process W) (id : Z) (sctx : context) : Prop :=
  (∃ n, sctx = n :: ctx) ∧
  ((∃ rec, streams (proc_rt st) !! id = Some rec ∧ streamRecord_Context rec = sctx) ∨
   (sctx ∈ rt_cancelled (proc_rt st) ∧ cancel_dispatched st id)).

Lemma SequenceID_same rt id : same_contexts rt (streamStore_SequenceID rt id).1.
Proof.
  unfold streamStore_SequenceID, same_contexts, streams.
  destruct (streamStore_streams (rt_store rt) !! id) as [rec|] eqn:Hrec; cbn; [|done].
  do 3 (split; [done|]). intros id'.
  destruct (decide (id = id')) as [<-|]; [by rewrite lookup_insert_eq, Hrec|by rewrite lookup_insert_ne].
Qed.

Lemma local_step_wf rt g pr rt' pr' g' :
  local_step rt g pr rt' pr' g' → rt_wf rt → rt_wf rt' ∧ root rt' = root rt.
Proof.
  intros Hl Hwf. destruct Hl as [k | id k | id k | id k | | |]; try done.
  - split; [|done]. by apply (rt_wf_same rt).
  - pose proof (SequenceID_same rt id) as Hsame. split; [by eapply rt_wf_same|]. apply Hsame.
  - split; [by apply Start_wf|]. unfold root, streamStore_Start.
    by destruct (streamStore_streams (rt_store rt) !! id).
  - split; [by apply Cancel_wf|]. unfold root, streamStore_Cancel.
    by destruct (streamStore_streams (rt_store rt) !! id).
Qed.

Lemma traced_wf st gs : traced st gs → rt_wf (proc_rt st) ∧ root (proc_rt st) = ctx.
Proof.
  induction 1 as [|st gs e s Ht IH Hs Hsm Hh Hd|st gs e s new Ht IH Hs Hsm Hh Hd|st gs i st' gs' Ht [Hwf Hroot] Hm];
    cbn; try done.
  destruct Hm as [pr0 g0 rt' pr' g' Hp Hhd Hg0 Hls|k s Hp Hhd Ho Hs|resp k s Hp Hhd Hs
    |resp resp' k ch s g0 Hp Hhd Hst Hs Hg0|s Hp Hhd Hs Hst]; cbn; try done.
  - destruct (local_step_wf _ _ _ _ _ _ Hls Hwf) as [? ->]. done.
  - split; [|unfold metricsOnce_Do; by destruct (rt_metricsOnce _)].
    eapply rt_wf_same; [|exact Hwf]. unfold metricsOnce_Do. by destruct (rt_metricsOnce _).
  - split; [|done]. by apply (rt_wf_same (proc_rt st)).
Qed.

(** The streams before and after an action. *)
Lemma local_step_streams rt g pr rt' pr' g' id :
  local_step rt g pr rt' pr' g' →
  (∃ k, pr = PSequenceID id k) ∨ (∃ k, pr = PStart id k) ∨ (∃ k, pr = PCancel id k) ∨
  streams rt' !! id = streams rt !! id.
Proof.
  destruct 1 as [k | id' k | id' k | id' k | | |]; try (by do 3 right);
    destruct (decide (id' = id)) as [->|Hne]; eauto; do 3 right.
  - unfold streamStore_SequenceID, streams. destruct (streamStore_streams _ !! id') eqn:E; cbn; [|done].
    by rewrite lookup_insert_ne.
  - unfold streamStore_Start, streams. destruct (streamStore_streams _ !! id') eqn:E; cbn; [done|].
    by rewrite lookup_insert_ne.
  - unfold streamStore_Cancel, streams. destruct (streamStore_streams _ !! id') eqn:E; cbn; [|done].
    by rewrite lookup_delete_ne.
Qed.

Lemma local_step_cancelled rt g pr rt' pr' g' :
  local_step rt g pr rt' pr' g' → rt_cancelled rt ⊆ rt_cancelled rt'.
Proof.
  destruct 1 as [k | id k | id k | id k | | |]; try done.
  - unfold streamStore_SequenceID. by destruct (streamStore_streams _ !! id).
  - unfold streamStore_Start. by destruct (streamStore_streams _ !! id).
  - unfold streamStore_Cancel. destruct (streamStore_streams _ !! id); cbn; [|done]. set_solver.
Qed.

(** Only the handler of a cancel request with the stream's ID ends it. *)
Lemma local_step_live st gs i pr g rt' pr' g' id sctx st' :
  traced st gs → proc_progs st !! i = Some pr → gs !! i = Some g →
  local_step (proc_rt st) g pr rt' pr' g' →
  proc_rt st' = rt' → sv_dispatched (proc_serve st') = sv_dispatched (proc_serve st) →
  live_or_cancelled st id sctx → live_or_cancelled st' id sctx.
Proof.
  intros Ht Hp Hg Hls Hrt Hdisp [Hn Hor]. split; [done|]. unfold cancel_dispatched in *. rewrite Hrt, Hdisp.
  destruct Hor as [(rec & Hrec & Hc)|[Hin Hcd]]; [|right; split; [|done]; by eapply local_step_cancelled].
  destruct (traced_at _ _ _ _ _ Ht Hp Hg) as (req & id' & Hreq & Hid & Hok).
  destruct (local_step_streams _ _ _ _ _ _ id Hls) as [[k ->]|[[k ->]|[[k ->]|Heq]]];
    [| | |left; rewrite Heq; by exists rec]; inversion Hls; subst.
  - left. destruct (SequenceID_same (proc_rt st) id) as (_ & _ & _ & Hsame). specialize (Hsame id).
    rewrite Hrec in Hsame. destruct (streams (streamStore_SequenceID _ _).1 !! id) as [rec'|]; [|done].
    exists rec'. by injection Hsame as <-.
  - left. exists rec. unfold streamStore_Start. unfold streams in *. by rewrite Hrec.
  - right. destruct Hok as [(-> & Hcs & _) _]. unfold streamStore_Cancel, streams in *. rewrite Hrec. cbn.
    split; [set_solver|]. by exists i, req.
Qed.

Lemma traced_live st gs i req g id sctx :
  traced st gs → sv_dispatched (proc_serve st) !! i = Some req → gs !! i = Some g →
  g_ctx g = Some sctx → Request_ID req = Ret id → live_or_cancelled st id sctx.
Proof.
  intros Ht. revert i req g id sctx.
  induction Ht as [|st gs e s Ht IH Hs Hsm Hh Hd|st gs e s new Ht IH Hs Hsm Hh Hd|st gs i st' gs' Ht IH Hm];
    intros j req g id sctx Hreq Hg Hc Hid.
  - done.
  - cbn in Hreq. rewrite Hd in Hreq. unfold live_or_cancelled, cancel_dispatched in *. cbn. rewrite Hd. eauto.
  - destruct (traced_lengths _ _ _ _ _ _ _ Ht) as (Hl1 & Hl2 & _). cbn in Hreq. rewrite Hd in Hreq.
    apply snoc_cases in Hg as [[-> ->]|[? Hg]]; [done|]. apply snoc_cases in Hreq as [[? ->]|[? Hreq]]; [lia|].
    destruct (IH _ _ _ _ _ Hreq Hg Hc Hid) as [? [?|[? (k & r & Hk & ?)]]]; (split; [done|]); [by left|right].
    split; [done|]. exists k, r. split; [|done]. cbn. rewrite Hd. by apply lookup_app_l_Some.
  - destruct (move_lengths _ _ _ _ _ Hm) as (_ & _ & _ & Hdisp). rewrite Hdisp in Hreq.
    destruct Hm as [pr0 g0 rt' pr' g' Hp Hhd Hg0 Hls|k s Hp Hhd Ho Hs|resp k s Hp Hhd Hs
      |resp resp' k ch s g0 Hp Hhd Hst Hs Hg0|s Hp Hhd Hs Hst].
    + destruct (traced_wf _ _ Ht) as [Hwf Hroot].
      assert (∀ sctx, live_or_cancelled st id sctx → live_or_cancelled
        (st <| proc_rt := rt' |> <| proc_progs := <[i := pr']> (proc_progs st) |>) id sctx) as Hkeep
        by (intros sctx' Hlive; by apply (local_step_live st gs i _ _ _ _ _ _ _ _ Ht Hp Hg0 Hls)).
      apply insert_cases in Hg as [[-> ->]|[? Hg]]; [|by eapply Hkeep, IH].
      destruct Hls as [k|id' k|id' k|id' k|w m k err|w m k c'|k]; try (by eapply Hkeep, IH). clear Hkeep.
      injection Hc as <-. destruct (traced_at _ _ _ _ _ Ht Hp Hg0) as (req' & id'' & Hreq' & Hid' & (-> & _)).
      assert (req' = req) as -> by congruence. assert (id'' = id) as -> by congruence.
      pose proof (Start_wf (proc_rt st) id Hwf) as [Hctx _ _].
      unfold live_or_cancelled, streams, root, streamStore_Start in *. cbn.
      destruct (streamStore_streams (rt_store (proc_rt st)) !! id) as [rec|] eqn:Hrec; cbn in *.
      * destruct (Hctx _ _ Hrec) as (n & Hn & _). split; [exists n; congruence|]. left. by exists rec.
      * split; [eexists; by rewrite Hroot|]. left. rewrite lookup_insert_eq. by eexists.
    + subst s. destruct (IH _ _ _ _ _ Hreq Hg Hc Hid) as [Hn Hor]. split; [done|].
      cbn. unfold metricsOnce_Do. by destruct (rt_metricsOnce _).
    + subst s. by eapply IH.
    + subst s. apply insert_cases in Hg as [[-> ->]|[? Hg]]; by eapply IH.
    + subst s. by eapply IH.
Qed.

(** ** Answers *)
Lemma traced_answers st gs i req id :
  traced st gs → sv_dispatched (proc_serve st) !! i = Some req → Request_ID req = Ret id →
  Forall (answers (answer_id req id)) (sent_by i (proc_log st)).
Proof.
  intros Ht. revert i req id.
  induction Ht as [|st gs e s Ht IH Hs Hsm Hh Hd|st gs e s new Ht IH Hs Hsm Hh Hd|st gs i st' gs' Ht IH Hm];
    intros j req id Hreq Hid; cbn in *.
  - done.
  - rewrite Hd in Hreq. eauto.
  - destruct (traced_lengths _ _ _ _ _ _ _ Ht) as (Hl1 & _). rewrite Hd in Hreq.
    apply snoc_cases in Hreq as [[-> ->]|[? Hreq]]; [|eauto].
    rewrite sent_by_new; [constructor|]. rewrite <- Hl1. by eapply traced_log.
  - destruct (move_lengths _ _ _ _ _ Hm) as (_ & _ & _ & Hdisp). rewrite Hdisp in Hreq.
    destruct Hm as [pr0 g0 rt' pr' g' Hp Hhd Hg0 Hls|k s Hp Hhd Ho Hs|resp k s Hp Hhd Hs
      |resp resp' k ch s g0 Hp Hhd Hst Hs Hg0|s Hp Hhd Hs Hst]; cbn; try (by eapply IH).
    rewrite sent_by_snoc. apply Forall_app. split; [by eapply IH|].
    destruct (decide (i = j)) as [->|]; [|constructor]. constructor; [|constructor].
    destruct (traced_at _ _ _ _ _ Ht Hp Hg0) as (req' & id' & Hreq' & Hid' & (Hok & _)). cbn in Hok.
    assert (req' = req) as -> by congruence. assert (id' = id) as -> by congruence. apply Hok.
Qed.

(** A handler that has returned has answered its request. *)
Lemma returned_expected st gs i req :
  traced st gs → sv_dispatched (proc_serve st) !! i = Some req →
  sv_handlers (proc_serve st) !! i = Some HdReturned →
  ∃ id, Request_ID req = Ret id ∧ expected req id (sent_by i (proc_log st)).
Proof.
  intros Ht Hreq Hret. destruct (dispatched_ID _ _ _ (traced_serve _ _ _ _ _ _ _ Ht) Hreq) as [id Hid].
  exists id. split; [done|]. destruct (traced_lengths _ _ _ _ _ _ _ Ht) as (Hl1 & _).
  destruct (lookup_lt_is_Some_2 (proc_progs st) i) as [pr Hp]; [rewrite Hl1; by eapply lookup_lt_Some|].
  pose proof (traced_pc _ _ _ _ _ Ht Hret Hp) as Hpc. cbn in Hpc. subst pr.
  apply (handler_sends ifs ctx mi); [done|].
  pose proof (traced_sends _ _ _ _ _ _ Ht Hreq Hp cs_return) as Hl. by rewrite app_nil_r in Hl.
Qed.

(** A handler that has returned holds no numbers. *)
Lemma returned_holds st gs :
  traced st gs → Forall (λ h, h = HdReturned) (sv_handlers (proc_serve st)) → omap g_held gs = [].
Proof.
  intros Ht Hall. destruct (traced_lengths _ _ _ _ _ _ _ Ht) as (Hl1 & Hl2 & Hl3).
  assert (∀ i g, gs !! i = Some g → g_held g = None) as Hnone.
  { intros i g Hg. pose proof (lookup_lt_Some _ _ _ Hg) as Hi.
    destruct (lookup_lt_is_Some_2 (sv_handlers (proc_serve st)) i) as [h Hh]; [lia|].
    destruct (lookup_lt_is_Some_2 (proc_progs st) i) as [pr Hp]; [lia|].
    pose proof (list.Forall_lookup_1 _ _ _ _ Hall Hh) as ->.
    pose proof (traced_pc _ _ _ _ _ Ht Hh Hp) as Hpc. cbn in Hpc. subst pr.
    destruct (traced_at _ _ _ _ _ Ht Hp Hg) as (req & id & _ & _ & (Hok & _)). apply Hok. }
  clear -Hnone. induction gs as [|g gs IH]; [done|]. cbn. rewrite (Hnone 0 g eq_refl).
  apply IH. intros i g' Hg. by apply (Hnone (S i)).
Qed.

(** A plugin method that runs: its arguments, and the handler it runs in. *)
Lemma method_at_facts st gs i w m k :
  traced st gs → proc_progs st !! i = Some (PMethod w m k) →
  ∃ req id g, sv_dispatched (proc_serve st) !! i = Some req ∧ Request_ID req = Ret id ∧ gs !! i = Some g ∧
    method_ok req m ∧ (∀ sctx, method_context m = Some sctx → sctx = default ctx (g_ctx g)) ∧
    (opens_stream req ↔ is_Some (g_ctx g)).
Proof.
  intros Ht Hp. destruct (traced_lengths _ _ _ _ _ _ _ Ht) as (_ & Hl2 & _).
  destruct (lookup_lt_is_Some_2 gs i) as [g Hg]; [rewrite Hl2; by eapply lookup_lt_Some|].
  destruct (traced_at _ _ _ _ _ Ht Hp Hg) as (req & id & Hreq & Hid & (Hok & Hsc)).
  destruct Hok as (_ & _ & _ & Hm & Hc & _). by exists req, id, g.
Qed.

(** The context of a stream, by the state of the stream. *)
Lemma cancelled_dispatched st gs id sctx :
  traced st gs → live_or_cancelled st id sctx →
  context_Err (rt_cancelled (proc_rt st)) sctx = true → cancel_dispatched st id.
Proof.
  intros Ht [_ [(rec & Hrec & <-)|[_ ?]]] Herr; [|done]. destruct (traced_wf _ _ Ht) as [Hwf _].
  by rewrite (live_not_cancelled _ _ _ Hwf Hrec) in Herr.
Qed.

Lemma cancel_effect st gs id id' sctx :
  traced st gs → live_or_cancelled st id sctx →
  context_Err (rt_cancelled (streamStore_Cancel (proc_rt st) id')) sctx =
    if decide (id' = id) then true else context_Err (rt_cancelled (proc_rt st)) sctx.
Proof.
  intros Ht [[n Hn] Hor]. destruct (traced_wf _ _ Ht) as [Hwf Hroot]. rewrite <- Hroot in Hn.
  pose proof (Cancel_wf _ id' Hwf) as Hwf'.
  assert (root (streamStore_Cancel (proc_rt st) id') = root (proc_rt st)) as Hroot'
    by (unfold root, streamStore_Cancel; by destruct (streamStore_streams _ !! id')).
  assert (context_Err (rt_cancelled (streamStore_Cancel (proc_rt st) id')) sctx =
    bool_decide (sctx ∈ rt_cancelled (streamStore_Cancel (proc_rt st) id'))) as ->
    by (rewrite Hn, <- Hroot'; by apply stream_context_Err).
  assert (context_Err (rt_cancelled (proc_rt st)) sctx = bool_decide (sctx ∈ rt_cancelled (proc_rt st))) as ->
    by (rewrite Hn; by apply stream_context_Err).
  clear Hwf' Hroot'. unfold streamStore_Cancel. fold (streams (proc_rt st)). destruct (decide (id' = id)) as [->|Hne].
  - apply bool_decide_eq_true. destruct Hor as [(rec & Hrec & <-)|[Hc _]].
    + rewrite Hrec. cbn. set_solver.
    + destruct (streams (proc_rt st) !! id); cbn; set_solver.
  - apply bool_decide_ext. destruct (streams (proc_rt st) !! id') as [rec'|] eqn:Hrec'; [|done]. cbn.
    assert (streamRecord_Context rec' ≠ sctx); [|set_solver]. destruct Hor as [(rec & Hrec & <-)|[Hc _]].
    + intros He. apply Hne. by eapply (rw_distinct _ Hwf).
    + by eapply (rw_cancelled _ Hwf).
Qed.

(** ** Panics *)

(** A process panics at a request that lacks its job, or in [Serve]. *)
Lemma step_panics st gs e why :
  traced st gs → proc_step json_Marshal ifs ctx mi st e = Some (Panic why) →
  (why = nil_deref ∧ ∃ i req, sv_dispatched (proc_serve st) !! i = Some req ∧ lacks_job req) ∨
  (∃ e', serve_step json_Marshal (proc_serve st) e' = Some (Panic why)).
Proof.
  intros Ht Hs. destruct e as [e|i ch].
  - apply serve_step_cases in Hs as (_ & res & Hres & Hs). destruct res as [s|]; [done|]. injection Hs as <-.
    right. by exists e.
  - cbn in Hs. unfold proc_handler_step in Hs. apply bind_Some in Hs as (pr & Hp & Hs).
    apply bind_Some in Hs as (h & Hh & Hs).
    destruct (traced_lengths _ _ _ _ _ _ _ Ht) as (_ & Hl2 & _).
    destruct (lookup_lt_is_Some_2 gs i) as [g Hg]; [rewrite Hl2; by eapply lookup_lt_Some|].
    destruct (traced_at _ _ _ _ _ Ht Hp Hg) as (req & id & Hreq & _ & Hok).
    destruct h as [|resp'|]; [| |done].
    + destruct pr as [|why'|k|id' k|resp k|id' k|id' k|w m k|k]; cbn in Hs.
      * right. exists (EvHandler i ActReturn). cbn. destruct (handler_step _ _ _) as [[|]|]; by simplify_eq/=.
      * injection Hs as <-. destruct Hok as ((Hj & ->) & _). left. split; [done|]. by exists i, req.
      * done.
      * by destruct (streamStore_SequenceID _ _).
      * right. exists (EvHandler i (ActSend resp)). cbn. destruct (handler_step _ _ _) as [[|]|]; by simplify_eq/=.
      * by destruct (streamStore_Start _ _).
      * done.
      * by destruct ch, w.
      * destruct (rt_metricsOnce _); [done|]. right. exists (EvHandler i ActBackground). cbn in Hs |- *.
        destruct (handler_step _ _ _) as [[|]|]; by simplify_eq/=.
    + unfold proc_send_step in Hs. destruct pr as [| | | |resp k| | | |]; try done.
      right. exists (EvHandler i (ActSend resp)). cbn. destruct (handler_step _ _ _) as [[|]|]; by simplify_eq/=.
Qed.

(** ** After the last cancel request *)

(** The input has ended, and the handlers of all cancel requests have returned. *)
Record cancels_over (st : Process W) : Prop := {
  co_reader : sv_reader (proc_serve st) = RdExited;
  co_queue : gochan_buf (sv_reqCh (proc_serve st)) = [];
  co_returned : ∀ i req, sv_dispatched (proc_serve st) !! i = Some req → cancels_stream req →
    sv_handlers (proc_serve st) !! i = Some HdReturned;
}.

Lemma exited_step s e s' :
  sv_reader s = RdExited → gochan_buf (sv_reqCh s) = [] → serve_step json_Marshal s e = Some (Ret s') →
  sv_reader s' = RdExited ∧ gochan_buf (sv_reqCh s') = [] ∧ sv_dispatched s' = sv_dispatched s ∧
  ∀ i, sv_handlers s !! i = Some HdReturned → sv_handlers s' !! i = Some HdReturned.
Proof.
  intros Hr Hq Hs. destruct s. cbn in Hr, Hq. subst.
  destruct e; cbn in Hs; unfold reader_step, writer_step, main_step, select_step, handler_step, background_step,
    background_stop in Hs; cbn in Hs; inv_step;
    try (match goal with H : gochan_recv _ = Some (_, Some _) |- _ => apply gochan_recv_Some in H as (? & ? & ?) end);
    simplify_eq/=; try congruence.
  all: split_and!; try done; intros k Hk; rewrite list_lookup_insert_ne; [done|congruence].
Qed.

Lemma local_step_uncancelled rt g pr rt' pr' g' :
  local_step rt g pr rt' pr' g' → (∃ id k, pr = PCancel id k) ∨ rt_cancelled rt' = rt_cancelled rt.
Proof.
  destruct 1 as [k | id k | id k | id k | | |]; try (by right); [| |left; eauto].
  - right. unfold streamStore_SequenceID. by destruct (streamStore_streams _ !! id).
  - right. unfold streamStore_Start. by destruct (streamStore_streams _ !! id).
Qed.

(** From then on no context is cancelled any more. *)
Lemma cancels_over_step st e st' :
  proc_reachable json_Marshal ifs ctx mi c st → cancels_over st →
  proc_step json_Marshal ifs ctx mi st e = Some (Ret st') →
  cancels_over st' ∧ rt_cancelled (proc_rt st') = rt_cancelled (proc_rt st).
Proof.
  intros Hr [Hrd Hq Hret] Hs.
  assert (cancels_over st') as Hover.
  { destruct (step_simulates _ _ _ _ _ _ _ _ Hr Hs) as [Heq|[e' He']]; [split; by rewrite Heq|].
    destruct (exited_step _ _ _ Hrd Hq He') as (H1 & H2 & H3 & H4).
    split; [done|done|]. intros i req. rewrite H3. eauto. }
  split; [done|]. destruct (reachable_traced _ _ _ _ _ _ Hr) as [gs Ht]. destruct e as [e|i ch].
  - apply serve_step_cases in Hs as (_ & res & _ & Hs). destruct res as [s|]; [|done]. by injection Hs as ->.
  - destruct (traced_lengths _ _ _ _ _ _ _ Ht) as (_ & Hl2 & _).
    destruct (handler_move _ _ _ _ _ _ _ _ _ Hl2 Hs) as [gs' Hm].
    destruct Hm as [pr0 g0 rt' pr' g' Hp Hhd Hg0 Hls|k s Hp Hhd Ho Hs'|resp k s Hp Hhd Hs'
      |resp resp' k ch' s g0 Hp Hhd Hst Hs' Hg0|s Hp Hhd Hs' Hst]; cbn; try done.
    + destruct (local_step_uncancelled _ _ _ _ _ _ Hls) as [(id & k & ->)|]; [|done].
      destruct (traced_at _ _ _ _ _ Ht Hp Hg0) as (req & id' & Hreq & _ & ((_ & Hcs & _) & _)).
      specialize (Hret _ _ Hreq Hcs). congruence.
    + unfold metricsOnce_Do. by destruct (rt_metricsOnce _).
Qed.

Lemma cancels_over_run st es st' :
  proc_reachable json_Marshal ifs ctx mi c st → cancels_over st →
  proc_run json_Marshal ifs ctx mi st es = Some (Ret st') →
  rt_cancelled (proc_rt st') = rt_cancelled (proc_rt st).
Proof.
  revert st. induction es as [|e es IH]; intros st Hr Hover; cbn; [by intros [= <-]|].
  destruct (proc_step _ _ _ _ st e) as [[st1|]|] eqn:He; [|done|done]. intros Hrun.
  destruct (cancels_over_step _ _ _ Hr Hover He) as [Hover1 <-]. apply IH; [by econstructor|done|done].
Qed.
End Inv.
