(* ===== verification/ProcessSeq.v ===== *)
(** * The running plugin: sequence IDs

    While the IDs of stream requests are distinct, the messages of each stream are
    numbered 1, 2, 3, ... until the stream is cancelled, and 0 from then on,
    however the handlers interleave. *)

From S2P Require Import Prelude GoStd Types Writer SubManager Stream Rpc.
From S2P Require Import Communicator CommunicatorFacts Runtime RuntimeFacts Handlers HandlersFacts.
From S2P Require Import Process ProcessFacts ProcessInv.

#[local] Arguments sequence_ids : simpl never.

(** The ID of a request that opens a stream. *)
Definition stream_id (req : Request) : option Z :=
  r ← stream_part req;
  if BaseJobStreamRequest_Cancel r then None else BaseRequest_RequestID (Request_Base req).

Lemma stream_id_Some req id : opens_stream req → Request_ID req = Ret id → stream_id req = Some id.
Proof.
  intros (r & Hr & Hc) Hid. unfold stream_id. rewrite Hr. cbn. rewrite Hc.
  unfold Request_ID, BaseRequest_ID in Hid. destruct (BaseRequest_RequestID _); by simplify_eq/=.
Qed.

Lemma NoDup_omap_lookup {A B} (f : A → option B) (l : list A) i j x y b :
  NoDup (omap f l) → l !! i = Some x → l !! j = Some y → f x = Some b → f y = Some b → i = j.
Proof.
  revert i j. induction l as [|z l IH]; intros i j Hnd Hi Hj Hx Hy; [done|].
  assert (∀ k u, l !! k = Some u → f u = Some b → b ∈ omap f l) as Hin.
  { intros k u Hk Hu. apply list_elem_of_omap. exists u. split; [by eapply list_elem_of_lookup_2|done]. }
  cbn in Hnd. destruct i as [|i], j as [|j]; cbn in Hi, Hj; simplify_eq; [done| | |].
  - rewrite Hx in Hnd. apply list.NoDup_cons in Hnd as [Hn _]. by destruct Hn; eapply Hin.
  - rewrite Hy in Hnd. apply list.NoDup_cons in Hnd as [Hn _]. by destruct Hn; eapply Hin.
  - f_equal. apply IH; try done. destruct (f z); [by apply list.NoDup_cons in Hnd as [_ ?]|done].
Qed.

(** The numbers of a stream's messages so far, for the state of its record. *)
Definition numbers_ok (started : bool) (rec : option streamRecord) (l : list Z) : Prop :=
  match started, rec with
  | false, None => l = []
  | false, Some _ => False
  | true, Some rec => l = count_from 1 (length l) ∧ streamRecord_SeqID rec = Nat.iter (length l) next64 0%Z
  | true, None => ∃ n m, l = count_from 1 n ++ replicate m 0%Z
  end.

Lemma numbers_ok_start rec : streamRecord_SeqID rec = 0%Z → numbers_ok true (Some rec) [].
Proof. done. Qed.

(** The next message of a running stream, and of a cancelled one. *)
Lemma numbers_ok_next rec rec' l :
  numbers_ok true (Some rec) l → streamRecord_SeqID rec' = next64 (streamRecord_SeqID rec) →
  numbers_ok true (Some rec') (l ++ [next64 (streamRecord_SeqID rec)]).
Proof.
  intros [Hl Hs] Hs'. cbn. rewrite length_app, Nat.add_comm. cbn [plus length].
  assert (next64 (streamRecord_SeqID rec) = Nat.iter (length l) next64 1%Z) as Hnext.
  { rewrite Hs. change 1%Z with (next64 0). by rewrite <- Nat.iter_succ_r. }
  split; [by rewrite count_from_snoc, <- Hl, Hnext|]. by rewrite Hs', Hs.
Qed.

Lemma numbers_ok_zero l : numbers_ok true None l → numbers_ok true None (l ++ [0%Z]).
Proof.
  intros (n & m & ->). exists n, (S m). by rewrite <- app_assoc, (replicate_S_end m).
Qed.

Lemma numbers_ok_cancel b rec l : numbers_ok b rec l → numbers_ok b None l.
Proof.
  destruct b, rec as [rec|]; cbn; try done. intros [Hl _]. exists (length l), 0. cbn. by rewrite app_nil_r.
Qed.

#[local] Arguments numbers_ok : simpl never.

Section Seq.
Context {W : Type} `{!Writer W} `{!Unmarshal, !UnmarshalLaws}.
Variable json_Marshal : Response → option bytes.
Context (ifs : interfaces) (ctx : context) (mi : Z) (c : Communicator W).

Local Abbreviation traced := (traced json_Marshal ifs ctx mi c).

(** Every running stream was opened by a request. *)
Lemma traced_owned st gs id rec :
  traced st gs → streams (proc_rt st) !! id = Some rec → stream_dispatched st id.
Proof.
  intros Ht. revert rec.
  induction Ht as [|st gs e s Ht IH Hs Hsm Hh Hd|st gs e s new Ht IH Hs Hsm Hh Hd|st gs i st' gs' Ht IH Hm];
    intros rec Hrec.
  - cbn in Hrec. by rewrite lookup_empty in Hrec.
  - unfold stream_dispatched in *. cbn in *. rewrite Hd. eauto.
  - destruct (IH _ Hrec) as (i & req & Hi & ?). exists i, req. split; [|done]. cbn. rewrite Hd. by apply lookup_app_l_Some.
  - destruct (move_lengths _ _ _ _ _ Hm) as (_ & _ & _ & Hdisp). unfold stream_dispatched in *. rewrite Hdisp.
    destruct Hm as [pr0 g0 rt' pr' g' Hp Hhd Hg0 Hls|k s Hp Hhd Ho Hs|resp k s Hp Hhd Hs
      |resp resp' k ch s g0 Hp Hhd Hst Hs Hg0|s Hp Hhd Hs Hst]; cbn in Hrec; try (by eapply IH).
    + destruct (traced_at _ _ _ _ _ _ _ _ _ _ Ht Hp Hg0) as (req & id' & Hreq & Hid & Hok).
      destruct (local_step_streams _ _ _ _ _ _ id Hls) as [[k ->]|[[k ->]|[[k ->]|Heq]]];
        [| | |rewrite Heq in Hrec; by eapply IH].
      * destruct Hok as [(-> & Ho & _) _]. by exists i, req.
      * destruct Hok as (-> & Ho & _). by exists i, req.
      * inversion Hls; subst. unfold streamStore_Cancel, streams in *.
        destruct (streamStore_streams (rt_store (proc_rt st)) !! id) eqn:E; [|congruence].
        cbn in Hrec. by rewrite lookup_delete_eq in Hrec.
    + unfold metricsOnce_Do in Hrec. destruct (rt_metricsOnce _); by eapply IH.
Qed.

(** The numbers given to the messages of a handler: those sent, and the one it
    holds. *)
Definition numbers (st : Process W) (i : nat) (g : ghost) : list Z :=
  sequence_ids (sent_by i (proc_log st)) ++ option_list (g_seq g).

Definition is_started (g : ghost) : bool := bool_decide (is_Some (g_ctx g)).

(** An action of the stream's own handler. *)
Lemma own_step_numbers st gs i pr g rt' pr' g' req id :
  traced st gs → proc_progs st !! i = Some pr → gs !! i = Some g →
  sv_dispatched (proc_serve st) !! i = Some req → opens_stream req → Request_ID req = Ret id →
  local_step (proc_rt st) g pr rt' pr' g' →
  numbers_ok (is_started g) (streams (proc_rt st) !! id) (numbers st i g) →
  numbers_ok (is_started g') (streams rt' !! id) (numbers st i g').
Proof.
  intros Ht Hp Hg Hreq Ho Hid Hls Hnum.
  destruct (traced_at _ _ _ _ _ _ _ _ _ _ Ht Hp Hg) as (req' & id' & Hreq' & Hid' & Hok).
  assert (req' = req) as -> by congruence. assert (id' = id) as -> by congruence.
  destruct g as [sctx held seqd]. unfold numbers, is_started in *.
  destruct Hls as [k|id' k|id' k|id' k|w m k err|w m k c'|k]; cbn in Hok, Hnum |- *; try done; destruct_and?; subst.
  - match goal with H : opens_stream req ↔ is_Some sctx |- _ => destruct (proj1 H Ho) as [x ->] end.
    unfold streamStore_SequenceID. fold (streams (proc_rt st)). cbn in Hnum. rewrite app_nil_r in Hnum.
    destruct (streams (proc_rt st) !! id) as [rec|] eqn:Hrec; cbn [fst snd option_list].
    + unfold streams at 1. cbn. rewrite lookup_insert_eq. by eapply numbers_ok_next.
    + rewrite Hrec. by apply numbers_ok_zero.
  - cbn in Hnum. unfold streamStore_Start. fold (streams (proc_rt st)).
    destruct (streams (proc_rt st) !! id) as [rec|] eqn:Hrec; [done|]. unfold numbers_ok in Hnum. cbn in Hnum |- *. rewrite Hnum.
    unfold streams. cbn. rewrite lookup_insert_eq. by apply numbers_ok_start.
  - destruct Ho as (r & Hr & Hc). match goal with H : cancels_stream req |- _ => destruct H as (r' & Hr' & Hc') end.
    congruence.
Qed.

(** An action of another handler: it may cancel the stream. *)
Lemma other_step_numbers st gs i j pr g rt' pr' g' req id b l :
  traced st gs → NoDup (omap stream_id (sv_dispatched (proc_serve st))) →
  proc_progs st !! i = Some pr → gs !! i = Some g → j ≠ i →
  sv_dispatched (proc_serve st) !! j = Some req → opens_stream req → Request_ID req = Ret id →
  local_step (proc_rt st) g pr rt' pr' g' →
  numbers_ok b (streams (proc_rt st) !! id) l → numbers_ok b (streams rt' !! id) l.
Proof.
  intros Ht Hnd Hp Hg Hij Hreq Ho Hid Hls Hnum.
  destruct (traced_at _ _ _ _ _ _ _ _ _ _ Ht Hp Hg) as (req' & id' & Hreq' & Hid' & Hok).
  assert (opens_stream req' → id ≠ id') as Hother.
  { intros Ho' ->. apply Hij. by eapply (NoDup_omap_lookup stream_id); eauto using stream_id_Some. }
  destruct (local_step_streams _ _ _ _ _ _ id Hls) as [[k ->]|[[k ->]|[[k ->]|Heq]]]; [| | |by rewrite Heq].
  - destruct Hok as [(-> & Ho' & _) _]. by destruct Hother.
  - destruct Hok as (-> & Ho' & _). by destruct Hother.
  - inversion Hls; subst. unfold streamStore_Cancel, streams in *.
    destruct (streamStore_streams (rt_store (proc_rt st)) !! id) as [rec|] eqn:E; cbn.
    + rewrite lookup_delete_eq. by eapply numbers_ok_cancel.
    + by rewrite E.
Qed.

Lemma traced_numbers st gs i req g id :
  traced st gs → NoDup (omap stream_id (sv_dispatched (proc_serve st))) →
  sv_dispatched (proc_serve st) !! i = Some req → gs !! i = Some g →
  opens_stream req → Request_ID req = Ret id →
  numbers_ok (is_started g) (streams (proc_rt st) !! id) (numbers st i g).
Proof.
  intros Ht. revert i req g id.
  induction Ht as [|st gs e s Ht IH Hs Hsm Hh Hd|st gs e s new Ht IH Hs Hsm Hh Hd|st gs i st' gs' Ht IH Hm];
    intros j req g id Hnd Hreq Hg Ho Hid.
  - done.
  - cbn in *. rewrite Hd in Hnd, Hreq. by eapply IH.
  - destruct (traced_lengths _ _ _ _ _ _ _ Ht) as (Hl1 & Hl2 & _). cbn in Hnd, Hreq |- *. rewrite Hd in Hnd, Hreq.
    pose proof Hreq as Hreq'. apply snoc_cases in Hreq' as [[-> ->]|[Hlt Hreq']], Hg as [[Hj ->]|[? Hg]]; try lia.
    + assert (streams (proc_rt st) !! id = None) as ->.
      { destruct (streams (proc_rt st) !! id) as [rec|] eqn:Hrec; [|done].
        destruct (traced_owned _ _ _ _ Ht Hrec) as (i & req & Hi & Ho' & Hid').
        pose proof (lookup_lt_Some _ _ _ Hi) as Hlt. exfalso.
        enough (i = length (sv_dispatched (proc_serve st))) by lia.
        eapply (NoDup_omap_lookup stream_id); [exact Hnd|by apply lookup_app_l_Some|exact Hreq|..];
          by apply stream_id_Some. }
      unfold numbers. cbn. rewrite sent_by_new; [done|]. rewrite <- Hl1. by eapply traced_log.
    + rewrite omap_app in Hnd. apply list.NoDup_app in Hnd as [Hnd _]. by eapply IH.
  - destruct (move_lengths _ _ _ _ _ Hm) as (_ & _ & _ & Hdisp). rewrite Hdisp in Hreq, Hnd.
    destruct Hm as [pr0 g0 rt' pr' g' Hp Hhd Hg0 Hls|k s Hp Hhd Ho' Hs|resp k s Hp Hhd Hs
      |resp resp' k ch s g0 Hp Hhd Hst Hs Hg0|s Hp Hhd Hs Hst]; cbn; try (by eapply IH).
    + change (numbers _ j g) with (numbers st j g).
      apply insert_cases in Hg as [[-> ->]|[Hne Hg]]; [eapply own_step_numbers; eauto|].
      eapply (other_step_numbers _ _ i j); eauto.
    + unfold metricsOnce_Do, numbers. destruct (rt_metricsOnce _); by eapply IH.
    + unfold numbers. cbn. rewrite sent_by_snoc. apply insert_cases in Hg as [[-> ->]|[Hne Hg]].
      * destruct (traced_at _ _ _ _ _ _ _ _ _ _ Ht Hp Hg0) as (req' & id' & _ & _ & (Hok & _)). cbn in Hok.
        rewrite decide_True by done. specialize (IH _ _ _ _ Hnd Hreq Hg0 Ho Hid). unfold numbers in IH.
        unfold sequence_ids. rewrite omap_app. cbn. destruct Hok as (_ & -> & _).
        unfold is_started, sequence_ids in *. cbn. rewrite app_nil_r. by destruct (g_seq g0).
      * rewrite decide_False, app_nil_r by done. by eapply IH.
Qed.

(** A prefix of such numbers has the same form. *)
Lemma take_count_from k z n : take k (count_from z n) = count_from z (k `min` n).
Proof. revert z n. induction k as [|k IH]; intros z [|n]; cbn; [done..|]. by rewrite IH. Qed.

Lemma numbers_prefix l1 l2 n m :
  l1 ++ l2 = count_from 1 n ++ replicate m 0%Z →
  ∃ n' m', l1 = count_from 1 n' ++ replicate m' 0%Z ∧ m' ≤ m.
Proof.
  intros Heq. exists (length l1 `min` n), ((length l1 - length (count_from 1 n)) `min` m). split; [|lia].
  rewrite <- take_count_from, <- take_replicate, <- take_app, <- Heq. by rewrite take_app_length.
Qed.

(** The sequence IDs a stream's handler has sent. *)
Lemma traced_sequence st gs i req id :
  traced st gs → NoDup (omap stream_id (sv_dispatched (proc_serve st))) →
  sv_dispatched (proc_serve st) !! i = Some req → opens_stream req → Request_ID req = Ret id →
  ∃ n m, sequence_ids (sent_by i (proc_log st)) = count_from 1 n ++ replicate m 0%Z ∧
    (¬ cancel_dispatched st id → m = 0).
Proof.
  intros Ht Hnd Hreq Ho Hid. destruct (traced_lengths _ _ _ _ _ _ _ Ht) as (Hl1 & Hl2 & _).
  destruct (lookup_lt_is_Some_2 gs i) as [g Hg]; [rewrite Hl2, Hl1; by eapply lookup_lt_Some|].
  pose proof (traced_numbers _ _ _ _ _ _ Ht Hnd Hreq Hg Ho Hid) as Hnum.
  assert (∃ n m, numbers st i g = count_from 1 n ++ replicate m 0%Z ∧ (¬ cancel_dispatched st id → m = 0))
    as (n & m & Heq & Hm).
  { unfold numbers_ok, is_started in Hnum. destruct (g_ctx g) as [sctx|] eqn:Hc; cbn in Hnum.
    - destruct (streams (proc_rt st) !! id) as [rec|] eqn:Hrec.
      + destruct Hnum as [Hl _]. eexists _, 0. by rewrite app_nil_r.
      + destruct Hnum as (n & m & Hl). exists n, m. split; [done|]. intros Hno.
        destruct (traced_live _ _ _ _ _ _ _ _ _ _ _ _ Ht Hreq Hg Hc Hid) as [_ [(rec & ? & _)|[_ ?]]]; [congruence|done].
    - destruct (streams (proc_rt st) !! id); [done|]. exists 0, 0. by rewrite Hnum. }
  unfold numbers in Heq. destruct (numbers_prefix _ _ _ _ Heq) as (n' & m' & Hl & Hle).
  exists n', m'. split; [done|]. intros Hno. specialize (Hm Hno). lia.
Qed.
End Seq.
