(* ===== verification/ProcessRuns.v ===== *)
(** * The running plugin: schedules

    A handler that runs without interruption does what [createHandler] says; and
    from every reachable state there is a schedule on which all handlers return,
    the responses are written and [Serve] returns. *)

From S2P Require Import Prelude GoStd Types Writer SubManager Stream Rpc.
From S2P Require Import Communicator CommunicatorFacts Runtime RuntimeFacts Handlers HandlersFacts.
From S2P Require Import Process ProcessFacts ProcessInv.

(** ** Runs of one program

    [runs s pr l s' pr']: from the shared state [s], the program [pr] can get to
    [pr'] without interruption; it sends [l] and leaves [s']. *)
Inductive plain_step (s : rtState) : prog → rtState → prog → Prop :=
| pl_local g g' pr s' pr' : local_step s g pr s' pr' g' → plain_step s pr s' pr'
| pl_once k : plain_step s (PMetricsOnce k) (metricsOnce_Do s) k.

Definition push (s : rtState) (resp : Response) : rtState := s <| rt_ch := rt_ch s ++ [resp] |>.

Inductive runs : rtState → prog → list Response → rtState → prog → Prop :=
| runs_done s pr : runs s pr [] s pr
| runs_step s pr s1 pr1 l s' pr' :
    plain_step s pr s1 pr1 → runs s1 pr1 l s' pr' → runs s pr l s' pr'
| runs_send s resp k l s' pr' :
    runs (push s resp) k l s' pr' → runs s (PSend resp k) (resp :: l) s' pr'.

Lemma runs_trans s pr l1 s1 pr1 l2 s2 pr2 :
  runs s pr l1 s1 pr1 → runs s1 pr1 l2 s2 pr2 → runs s pr (l1 ++ l2) s2 pr2.
Proof. induction 1; intros; cbn; [done|by econstructor; eauto|constructor; auto]. Qed.

Lemma runs_ch s pr l s' pr' : runs s pr l s' pr' → rt_ch s' = rt_ch s ++ l.
Proof.
  induction 1 as [s pr|s pr s1 pr1 l s' pr' Hp _ IH|s resp k l s' pr' _ IH]; [by rewrite app_nil_r| |].
  - rewrite IH. f_equal. destruct Hp as [g g' pr s1 pr1 Hl|k]; [by eapply local_step_ch|].
    unfold metricsOnce_Do. by destruct (rt_metricsOnce s).
  - rewrite IH. cbn. by rewrite <- app_assoc.
Qed.

Lemma runs_local s g pr s1 pr1 g1 l s' pr' :
  local_step s g pr s1 pr1 g1 → runs s1 pr1 l s' pr' → runs s pr l s' pr'.
Proof. intros Hl. apply runs_step. by econstructor. Qed.

Lemma runs_numbered s mk k :
  ∃ l, runs s (send_numbered mk k) l (push (nextResponseID s).1 (mk (nextResponseID s).2)) k.
Proof. eexists. eapply runs_local; [apply (ls_next s ghost0)|]. apply runs_send, runs_done. Qed.

Lemma runs_streamed s w mk k :
  let s1 := (nextResponseID s).1 in let rid := (nextResponseID s).2 in
  ∃ l, runs s (send_streamed w mk k) l
    (push (streamStore_SequenceID s1 (handle_id w)).1 (mk rid (streamStore_SequenceID s1 (handle_id w)).2)) k.
Proof.
  eexists. eapply runs_local; [apply (ls_next s ghost0)|]. eapply runs_local; [apply (ls_sequence _ ghost0)|].
  apply runs_send, runs_done.
Qed.

(** A call on the writer has the effect of the writer's method. *)
Lemma runs_write_call s w c k : ∃ l, runs s (write_call w c k) l (replay_on (Some w) s [c]) k.
Proof.
  assert (∃ l, runs s k l s k) as Hnone by (eexists; constructor).
  destruct w as [req id store]. unfold replay_on, replay. cbn [foldl handle_req handle_id handle_store perform].
  destruct c; try (by eexists; apply runs_send, runs_done); try apply runs_numbered;
    cbn [write_call handle_store handle_id WriteJobStatus WriteJobOutput WriteJobResourceUtil WriterClose
         writer_StreamResponseWriter].
  1-3: unfold writer_WriteJobStatus, writer_WriteJobOutput, writer_WriteJobResourceUtil;
    destruct store; cbn [negb]; [|exact Hnone].
  - pose proof (runs_streamed s (mkHandle req id true) (status_response id id0 name status statusCode msg) k) as Hr.
    cbn in Hr |- *. by destruct (streamStore_SequenceID _ _).
  - pose proof (runs_streamed s (mkHandle req id true) (output_response id output (JobOutput_String outputType) false) k) as Hr.
    cbn in Hr |- *. by destruct (streamStore_SequenceID _ _).
  - pose proof (runs_streamed s (mkHandle req id true)
      (resource_response id cpuPercent cpuTime virtualMem residentMem false) k) as Hr.
    cbn in Hr |- *. by destruct (streamStore_SequenceID _ _).
  - unfold write_close, writer_Close. destruct store; cbn [negb handle_store handle_req]; [|exact Hnone].
    destruct req; try exact Hnone.
    + pose proof (runs_streamed s (mkHandle (ReqJobOutput r) id true) (output_response id "" "" true) k) as Hr.
      cbn in Hr |- *. by destruct (streamStore_SequenceID _ _).
    + pose proof (runs_streamed s (mkHandle (JobResourceUtilRequest r) id true)
        (resource_response id zero_float zero_float zero_float zero_float true) k) as Hr.
      cbn in Hr |- *. by destruct (streamStore_SequenceID _ _).
Qed.

Lemma replay_on_cons w s c cs : replay_on (Some w) s (c :: cs) = replay_on (Some w) (replay_on (Some w) s [c]) cs.
Proof.
  unfold replay_on, replay. cbn [foldl]. do 2 f_equal.
  destruct (perform_emits (mkWriter s (handle_req w) (handle_id w) (handle_store w)) c) as (l & He & _).
  destruct (em_writer _ _ _ He) as (Hr & Hi & Hs). clear He. revert Hr Hi Hs.
  destruct (perform _ c). cbn. congruence.
Qed.

Lemma runs_replay w m k cs s : ∃ l, runs s (PMethod w m k) l (replay_on w s cs) (PMethod w m k).
Proof.
  destruct w as [w|]; [|eexists; constructor]. revert s. induction cs as [|c cs IH]; intros s.
  { eexists. unfold replay_on. cbn. constructor. }
  destruct (runs_write_call s w c (PMethod (Some w) m k)) as [l1 H1].
  destruct (IH (replay_on (Some w) s [c])) as [l2 H2]. rewrite replay_on_cons. exists (l1 ++ l2).
  eapply runs_local; [apply (ls_call s ghost0)|]. by eapply runs_trans.
Qed.

(** [exec] is a run. *)
Lemma exec_runs {P} (p : Plugin P) pr s ps s' ps' :
  exec p s ps pr = Ret (s', ps') → ∃ l, runs s pr l s' PReturn.
Proof.
  revert s ps. induction pr as [|why|k IH|id k IH|resp k IH|id k IH|id k IH|w m k IH|k IH]; intros s ps He; cbn in He.
  - injection He as <- <-. eexists. constructor.
  - done.
  - destruct (IH _ _ _ He) as [l Hl]. exists l. by eapply runs_local, Hl; apply (ls_next s ghost0).
  - destruct (streamStore_SequenceID s id) as [s1 seq] eqn:E. destruct (IH _ _ _ He) as [l Hl]. exists l.
    eapply runs_local, Hl. pose proof (ls_sequence s ghost0 id k) as Hls. by rewrite E in Hls.
  - destruct (IH _ _ He) as [l Hl]. exists (resp :: l). by constructor.
  - destruct (streamStore_Start s id) as [s1 sctx] eqn:E. destruct (IH _ _ _ He) as [l Hl]. exists l.
    eapply runs_local, Hl. pose proof (ls_start s ghost0 id k) as Hls. by rewrite E in Hls.
  - destruct (IH _ _ He) as [l Hl]. exists l. eapply runs_local, Hl. apply (ls_cancel s ghost0).
  - destruct (call_method p ps m) as [[[ps1 cs] err]|]; [|done]. cbn in He.
    destruct (IH _ _ _ He) as [l2 Hl2]. destruct (runs_replay w m k cs s) as [l1 Hl1]. exists (l1 ++ l2).
    eapply runs_trans; [exact Hl1|]. eapply runs_local, Hl2. apply (ls_method _ ghost0).
  - destruct (IH _ _ He) as [l Hl]. exists l. eapply runs_step, Hl. apply pl_once.
Qed.

(** ** Schedules *)
Section Schedule.
Context {W : Type} `{!Writer W} `{!Unmarshal}.
Variable json_Marshal : Response → option bytes.
Context (ifs : interfaces) (ctx : context) (mi : Z).

Local Abbreviation step := (proc_step json_Marshal ifs ctx mi).
Local Abbreviation run := (proc_run json_Marshal ifs ctx mi).

Lemma proc_run_app st es1 es2 st1 :
  run st es1 = Some (Ret st1) → run st (es1 ++ es2) = run st1 es2.
Proof.
  revert st. induction es1 as [|e es IH]; intros st; cbn; [by intros [= <-]|].
  destruct (step st e) as [[st'|]|]; [apply IH|done|done].
Qed.

Lemma proc_run_reachable c st es st' :
  proc_reachable json_Marshal ifs ctx mi c st → run st es = Some (Ret st') →
  proc_reachable json_Marshal ifs ctx mi c st'.
Proof.
  revert st. induction es as [|e es IH]; intros st Hs; cbn; [by intros [= <-]|].
  destruct (step st e) as [[st1|]|] eqn:He; [|done|done]. apply IH. by econstructor.
Qed.

(** Handler [i] is not blocked and has the program [pr] to run. *)
Definition at_prog (i : nat) (st : Process W) (pr : prog) : Prop :=
  proc_progs st !! i = Some pr ∧ sv_handlers (proc_serve st) !! i = Some HdRunning.

(** From [st] to [st'], handler [i] has sent [l]; the other handlers and the
    goroutines of [Serve] are where they were. *)
Record moved (i : nat) (st st' : Process W) (l : list Response) : Prop := {
  md_progs : ∀ j, j ≠ i → proc_progs st' !! j = proc_progs st !! j;
  md_handlers : ∀ j, j ≠ i → sv_handlers (proc_serve st') !! j = sv_handlers (proc_serve st) !! j;
  md_length : length (sv_handlers (proc_serve st')) = length (sv_handlers (proc_serve st));
  md_main : sv_main (proc_serve st') = sv_main (proc_serve st);
  md_writer : sv_writer (proc_serve st') = sv_writer (proc_serve st);
  md_dispatched : sv_dispatched (proc_serve st') = sv_dispatched (proc_serve st);
  md_wg : sv_wg (proc_serve st') = sv_wg (proc_serve st);
  md_buf : gochan_buf (sv_respCh (proc_serve st')) = gochan_buf (sv_respCh (proc_serve st)) ++ l;
  md_cap : gochan_cap (sv_respCh (proc_serve st')) = gochan_cap (sv_respCh (proc_serve st));
  md_closed : gochan_closed (sv_respCh (proc_serve st')) = gochan_closed (sv_respCh (proc_serve st));
  md_log : proc_log st' = proc_log st ++ ((i,.) <$> l);
}.

Lemma moved_nil i st st' rt pr :
  st' = st <| proc_rt := rt |> <| proc_progs := <[i := pr]> (proc_progs st) |> → moved i st st' [].
Proof.
  intros ->. split; cbn; rewrite ?app_nil_r; try done. intros j Hj. by rewrite list_lookup_insert_ne.
Qed.

Lemma moved_trans i st st1 st2 l1 l2 : moved i st st1 l1 → moved i st1 st2 l2 → moved i st st2 (l1 ++ l2).
Proof.
  intros [A1 A2 A3 A4 A5 A6 A7 A8 A9 A10 A11] [B1 B2 B3 B4 B5 B6 B7 B8 B9 B10 B11]. split; try congruence.
  - intros j Hj. by rewrite B1, A1.
  - intros j Hj. by rewrite B2, A2.
  - by rewrite B8, A8, app_assoc.
  - by rewrite B11, A11, fmap_app, app_assoc.
Qed.

Lemma at_prog_insert i st pr rt pr' :
  at_prog i st pr → at_prog i (st <| proc_rt := rt |> <| proc_progs := <[i := pr']> (proc_progs st) |>) pr'.
Proof.
  intros [Hp Hh]. split; [|done]. cbn. apply list_lookup_insert_eq. by eapply lookup_lt_Some.
Qed.

Lemma plain_event i st pr rt' pr' :
  plain_step (proc_rt st) pr rt' pr' → at_prog i st pr →
  ∃ ch st', step st (ProcHandler i ch) = Some (Ret st') ∧ at_prog i st' pr' ∧ proc_rt st' = rt' ∧ moved i st st' [].
Proof.
  intros Hp Hat. pose proof Hat as [Hpr Hh].
  set (st1 := st <| proc_rt := rt' |> <| proc_progs := <[i := pr']> (proc_progs st) |>).
  assert (at_prog i st1 pr') as Hat1 by (by eapply at_prog_insert).
  assert (moved i st st1 []) as Hm by (by eapply moved_nil).
  assert (∀ ch, proc_prog_step st i pr ch = Some (Ret st1) →
    ∃ ch st', step st (ProcHandler i ch) = Some (Ret st') ∧ at_prog i st' pr' ∧ proc_rt st' = rt' ∧
      moved i st st' []) as Hdone.
  { intros ch Hs. exists ch, st1. split; [|done]. cbn. unfold proc_handler_step. rewrite Hpr. cbn. rewrite Hh. exact Hs. }
  destruct Hp as [g g' pr rt' pr' Hl|k].
  - destruct Hl as [k|id k|id k|id k|w m k err|w m k c|k Ho].
    + by apply (Hdone (PluginReturn None)).
    + apply (Hdone (PluginReturn None)). cbn. subst st1. by destruct (streamStore_SequenceID (proc_rt st) id).
    + apply (Hdone (PluginReturn None)). cbn. subst st1. by destruct (streamStore_Start (proc_rt st) id).
    + by apply (Hdone (PluginReturn None)).
    + apply (Hdone (PluginReturn err)). subst st1. by destruct st.
    + apply (Hdone (PluginCall c)). subst st1. by destruct st.
    + apply (Hdone (PluginReturn None)). cbn. rewrite Ho. subst st1. by destruct st.
  - destruct (rt_metricsOnce (proc_rt st)) eqn:Ho.
    + apply (Hdone (PluginReturn None)). subst st1. unfold metricsOnce_Do. cbn. rewrite Ho. by destruct st.
    + set (st2 := st1 <| proc_serve := (proc_serve st) <| sv_background := S (sv_background (proc_serve st)) |> |>).
      exists (PluginReturn None), st2. split_and!; [|exact Hat1|done|].
      * cbn. unfold proc_handler_step. rewrite Hpr. cbn. rewrite Hh. cbn. rewrite Ho. unfold handler_step. cbn.
        rewrite Hh. subst st2 st1. by destruct st.
      * destruct Hm. by split.
Qed.

Lemma send_event i st resp k :
  at_prog i st (PSend resp k) → gochan_closed (sv_respCh (proc_serve st)) = false →
  length (gochan_buf (sv_respCh (proc_serve st))) < gochan_cap (sv_respCh (proc_serve st)) →
  ∃ st', run st [ProcHandler i (PluginReturn None); ProcHandler i (PluginReturn None)] = Some (Ret st') ∧
    at_prog i st' k ∧ proc_rt st' = push (proc_rt st) resp ∧ moved i st st' [resp].
Proof.
  intros [Hp Hh] Hc Hroom. pose proof (lookup_lt_Some _ _ _ Hp) as Hi. pose proof (lookup_lt_Some _ _ _ Hh) as Hi'.
  cbn. unfold proc_handler_step. rewrite Hp. cbn. rewrite Hh. cbn. unfold handler_step. rewrite Hh. cbn.
  rewrite Hp. cbn. rewrite !list_lookup_insert_eq by done. cbn. unfold handler_step. cbn.
  rewrite list_lookup_insert_eq by done. cbn.
  unfold gochan_send. rewrite Hc. destruct (Nat.ltb_spec (length (gochan_buf (sv_respCh (proc_serve st))))
    (gochan_cap (sv_respCh (proc_serve st)))); [|lia]. cbn. eexists. split; [reflexivity|]. split_and!.
  - split; cbn; [by apply list_lookup_insert_eq|]. apply list_lookup_insert_eq. by rewrite length_insert.
  - done.
  - split; cbn; try done; try (intros j Hj; by rewrite !list_lookup_insert_ne). by rewrite !length_insert.
Qed.

Definition handler_event (i : nat) (e : procEvent) : Prop := ∃ ch, e = ProcHandler i ch.

(** With room for its responses, a handler can run on its own. *)
Lemma runs_alone i st l rt' pr pr' :
  runs (proc_rt st) pr l rt' pr' → at_prog i st pr →
  gochan_closed (sv_respCh (proc_serve st)) = false →
  length (gochan_buf (sv_respCh (proc_serve st))) + length l ≤ gochan_cap (sv_respCh (proc_serve st)) →
  ∃ es st', Forall (handler_event i) es ∧ run st es = Some (Ret st') ∧
    at_prog i st' pr' ∧ proc_rt st' = rt' ∧ moved i st st' l.
Proof.
  intros Hr. remember (proc_rt st) as rt eqn:Hrt. revert st Hrt.
  induction Hr as [rt pr|rt pr rt1 pr1 l rt' pr' Hp _ IH|rt resp k l rt' pr' _ IH]; intros st -> Hat Hc Hroom.
  - exists [], st. split_and!; try done. split; rewrite ?app_nil_r; done.
  - destruct (plain_event i st _ _ _ Hp Hat) as (ch & st1 & Hs & Hat1 & Hrt1 & Hm).
    destruct (IH st1) as (es & st' & Hes & Hrun & Hat' & Hrt' & Hm'); [done|done|by rewrite (md_closed _ _ _ _ Hm)| |].
    { rewrite (md_buf _ _ _ _ Hm), (md_cap _ _ _ _ Hm), app_nil_r. done. }
    exists (ProcHandler i ch :: es), st'. split_and!; [by constructor; [exists ch|]| |done|done|].
    + cbn [proc_run]. by rewrite Hs.
    + by apply (moved_trans _ _ _ _ _ _ Hm Hm').
  - cbn in Hroom. destruct (send_event i st resp k Hat Hc) as (st1 & Hs & Hat1 & Hrt1 & Hm); [lia|].
    destruct (IH st1) as (es & st' & Hes & Hrun & Hat' & Hrt' & Hm'); [done|done|by rewrite (md_closed _ _ _ _ Hm)| |].
    { rewrite (md_buf _ _ _ _ Hm), (md_cap _ _ _ _ Hm), length_app. cbn. lia. }
    eexists (_ ++ es), st'. split_and!; [|by rewrite (proc_run_app _ _ _ _ Hs)|done|done|].
    + apply Forall_app. split; [repeat constructor; by eexists|done].
    + by apply (moved_trans _ _ _ _ _ _ Hm Hm').
Qed.

(** The return of a handler. *)
Lemma return_event i st :
  at_prog i st PReturn → (0 < sv_wg (proc_serve st))%Z →
  ∃ st', step st (ProcHandler i (PluginReturn None)) = Some (Ret st') ∧
    sv_handlers (proc_serve st') = <[i := HdReturned]> (sv_handlers (proc_serve st)) ∧
    proc_rt st' = proc_rt st ∧ proc_log st' = proc_log st ∧
    sv_main (proc_serve st') = sv_main (proc_serve st) ∧
    sv_dispatched (proc_serve st') = sv_dispatched (proc_serve st) ∧ proc_progs st' = proc_progs st.
Proof.
  intros [Hp Hh] Hwg. cbn. unfold proc_handler_step. rewrite Hp. cbn. rewrite Hh. cbn. unfold handler_step.
  rewrite Hh. cbn. destruct (Z.leb_spec (sv_wg (proc_serve st)) 0); [lia|]. cbn. by eexists.
Qed.

(** ** Room in the response channel *)
Definition within {A} (ch : gochan A) : Prop := length (gochan_buf ch) ≤ gochan_cap ch.

Lemma send_within {A} (ch ch' : gochan A) x :
  gochan_send ch x = Some (Ret ch') → within ch' ∧ gochan_cap ch' = gochan_cap ch.
Proof.
  unfold gochan_send, within. destruct (gochan_closed ch); [done|]. destruct (Nat.ltb_spec (length (gochan_buf ch)) (gochan_cap ch)); [|done].
  intros [= <-]. cbn. rewrite length_app. cbn. lia.
Qed.

Lemma recv_within {A} (ch ch' : gochan A) got :
  gochan_recv ch = Some (ch', got) → within ch → within ch' ∧ gochan_cap ch' = gochan_cap ch.
Proof.
  intros Hr. apply gochan_recv_Some in Hr. unfold within. destruct got as [x|].
  - destruct Hr as (rest & -> & ->). cbn. lia.
  - by destruct Hr as [-> _].
Qed.

Lemma respCh_within c s :
  serve_reachable json_Marshal c s → within (sv_respCh s) ∧ gochan_cap (sv_respCh s) = 100.
Proof.
  induction 1 as [|s e s' Hr (IH1 & IH2) Hs]; [split; [unfold within; cbn; lia|done]|].
  destruct s as [enc dec rd wr mn er reqs [buf cap closed]]. cbn in IH1, IH2.
  destruct e; cbn in Hs; unfold reader_step, writer_step, main_step, select_step, handler_step, background_step,
    background_stop, gochan_close in Hs; cbn in Hs; inv_step.
  all: repeat match goal with
    | H : gochan_send (mkGochan _ _ _) _ = Some (Ret _) |- _ =>
        apply send_within in H as [? ?]; split; [done|]; cbn in *; congruence
    | H : gochan_recv (mkGochan _ _ _) = Some _ |- _ =>
        apply recv_within in H as [? ?]; [|done]; split; [done|]; cbn in *; congruence
    end.
Qed.

(** ** Finishing *)
Context `{!UnmarshalLaws} (c : Communicator W).

(** Every response can be encoded. *)
Context (Hall : ∀ resp, encodes json_Marshal (Encoder_maxSize (comm_enc c)) resp).

Local Abbreviation reachable := (proc_reachable json_Marshal ifs ctx mi c).

(** Then the writer never fails. *)
Lemma writer_never_fails s :
  serve_reachable json_Marshal c s →
  writer_failed (sv_writer s) = false ∧ Encoder_maxSize (sv_enc s) = Encoder_maxSize (comm_enc c).
Proof.
  induction 1 as [|s e s' Hr (IH1 & IH2) Hs]; [done|]. destruct s as [[w max] dec rd wr]. cbn in IH1, IH2.
  destruct e; cbn in Hs; unfold reader_step, writer_step, main_step, select_step, handler_step, background_step,
    background_stop in Hs; cbn in Hs; inv_step.
  - specialize (Hall resp w). match goal with H : Encoder_Encode _ _ = _ |- _ => rewrite H in Hall end. done.
  - pose proof (Encode_maxSize (mkEncoder w (Encoder_maxSize (comm_enc c))) (json_Marshal resp)) as Hmax.
    match goal with H : Encoder_Encode _ _ = _ |- _ => rewrite H in Hmax end. done.
Qed.

(** Steps of [Serve] that hand over no request. *)
Lemma lift_step st e s :
  reachable st → serve_step json_Marshal (proc_serve st) e = Some (Ret s) → (∀ i a, e ≠ EvHandler i a) →
  sv_dispatched s = sv_dispatched (proc_serve st) →
  step st (ProcServe e) = Some (Ret (st <| proc_serve := s |>)).
Proof.
  intros [gs Ht]%reachable_traced Hs He Hd. destruct (traced_lengths _ _ _ _ _ _ _ Ht) as (Hl & _).
  assert (proc_progs st ++ (handler_prog ifs ctx mi <$> drop (length (proc_progs st)) (sv_dispatched s)) = proc_progs st)
    as Hnone by (by rewrite Hd, Hl, drop_all, app_nil_r).
  destruct e; cbn [proc_step proc_serve_step]; try (by edestruct He); rewrite Hs; cbn; rewrite Hnone; by destruct st.
Qed.

Lemma own_event_dispatched s e s' :
  own_event e → serve_step json_Marshal s e = Some (Ret s') → sv_dispatched s' = sv_dispatched s.
Proof.
  destruct s. intros [->| ->] Hs; cbn in Hs; unfold writer_step, main_step, select_step in Hs; cbn in Hs; by inv_step.
Qed.

Lemma lift_run st es s :
  reachable st → Forall own_event es → serve_run json_Marshal (proc_serve st) es = Some (Ret s) →
  run st (ProcServe <$> es) = Some (Ret (st <| proc_serve := s |>)).
Proof.
  intros Hr Hes. revert st Hr. induction Hes as [|e es He _ IH]; intros st Hr Hrun.
  - cbn in Hrun. injection Hrun as <-. cbn. by destruct st.
  - cbn in Hrun. destruct (serve_step _ _ e) as [[s1|]|] eqn:Hs; [|done|done].
    assert (∀ i a, e ≠ EvHandler i a) as Hno by (by destruct He as [->| ->]).
    pose proof (lift_step _ _ _ Hr Hs Hno (own_event_dispatched _ _ _ He Hs)) as Hstep.
    change (ProcServe <$> (e :: es)) with (ProcServe e :: (ProcServe <$> es)). cbn [proc_run]. rewrite Hstep.
    rewrite (IH (st <| proc_serve := s1 |>)); [by destruct st|by econstructor|done].
Qed.

(** The parts of [Serve] the writer leaves alone. *)
Definition same_handlers (s s' : Serve W) : Prop :=
  sv_handlers s' = sv_handlers s ∧ sv_main s' = sv_main s ∧ sv_dispatched s' = sv_dispatched s ∧
  gochan_cap (sv_respCh s') = gochan_cap (sv_respCh s) ∧ gochan_closed (sv_respCh s') = gochan_closed (sv_respCh s).

(** The writer makes room in the response channel. *)
Lemma serve_makes_room s :
  serve_reachable json_Marshal c s → gochan_closed (sv_respCh s) = false →
  ∃ es s', Forall own_event es ∧ serve_run json_Marshal s es = Some (Ret s') ∧ same_handlers s s' ∧
    length (gochan_buf (sv_respCh s')) < gochan_cap (sv_respCh s').
Proof.
  intros Hr Hc. destruct (writer_never_fails _ Hr) as (Hw & Hmax). destruct (respCh_within _ _ Hr) as (Hin & Hcap).
  destruct (serve_reachable_inv _ _ _ Hr) as [Hinv _]. unfold within in Hin.
  destruct (decide (length (gochan_buf (sv_respCh s)) < gochan_cap (sv_respCh s))) as [Hlt|Hge].
  { by exists [], s. }
  assert (∀ s1, sv_writer s1 = WrRange → sv_respCh s1 = sv_respCh s → same_handlers s s1 →
    ∃ s', serve_step json_Marshal s1 EvWriter = Some (Ret s') ∧ same_handlers s s' ∧
      length (gochan_buf (sv_respCh s')) < gochan_cap (sv_respCh s')) as Hrecv.
  { intros s1 Hw1 Hch (A1 & A2 & A3 & A4 & A5). cbn. unfold writer_step, gochan_recv. rewrite Hw1, Hch.
    unfold same_handlers. clear A4 A5. revert Hin Hcap Hge.
    destruct (sv_respCh s) as [[|resp rest] cap cl]; cbn; intros; [lia|]. eexists. split; [reflexivity|].
    cbn. by split_and!. }
  destruct (sv_writer s) as [|resp|err|f|f] eqn:Hwr; [| |done| |].
  - destruct (Hrecv s Hwr eq_refl) as (s' & Hs & ? & ?); [done|]. exists [EvWriter], s'.
    split_and!; try done; [repeat constructor|]. cbn [serve_run]. by rewrite Hs.
  - destruct (encode_step json_Marshal s resp Hwr) as (s1 & Hs1 & Hw1 & _ & Hch & _); [rewrite Hmax; apply Hall|].
    assert (same_handlers s s1) as Hsame.
    { unfold same_handlers. rewrite Hch. cbn in Hs1. unfold writer_step in Hs1. rewrite Hwr in Hs1.
      destruct (Encoder_Encode _ _) as [enc [err|]]; by simplify_eq. }
    destruct (Hrecv s1 Hw1 Hch Hsame) as (s' & Hs & ? & ?). exists [EvWriter; EvWriter], s'.
    split_and!; try done; [repeat constructor|]. cbn [serve_run]. by rewrite Hs1, Hs.
  - destruct f as [err|]; [done|]. destruct (si_finished _ _ _ Hinv) as [_ ?]; [by rewrite Hwr|congruence].
  - destruct f as [err|]; [done|]. destruct (si_finished _ _ _ Hinv) as [_ ?]; [by rewrite Hwr|congruence].
Qed.

Lemma makes_room st :
  reachable st → gochan_closed (sv_respCh (proc_serve st)) = false →
  ∃ es s, run st es = Some (Ret (st <| proc_serve := s |>)) ∧ same_handlers (proc_serve st) s ∧
    length (gochan_buf (sv_respCh s)) < gochan_cap (sv_respCh s).
Proof.
  intros Hr Hc. destruct (serve_makes_room (proc_serve st)) as (es & s & Hes & Hrun & Hsame & Hlt);
    [by eapply reachable_serve|done|].
  exists (ProcServe <$> es), s. split; [by apply lift_run|done].
Qed.

(** While a handler runs, the response channel is open. *)
Lemma active_open st i h :
  reachable st → sv_handlers (proc_serve st) !! i = Some h → active h = true →
  gochan_closed (sv_respCh (proc_serve st)) = false ∧ (0 < sv_wg (proc_serve st))%Z.
Proof.
  intros Hr Hi Ha. destruct (serve_reachable_inv _ _ _ (reachable_serve _ _ _ _ _ _ Hr)) as [Hinv _].
  pose proof (active_count_pos _ _ _ Hi Ha) as Hpos. rewrite <- (si_wg _ _ _ Hinv) in Hpos. split; [|done].
  rewrite (si_resp _ _ _ Hinv). destruct (main_closed (sv_main (proc_serve st))) eqn:Hcl; [|done].
  rewrite (si_joined _ _ _ Hinv) in Hpos; [lia|]. by destruct (sv_main (proc_serve st)).
Qed.

(** From [st] to [st'], handler [i] has returned and the others are where they
    were. *)
Definition finished (i : nat) (st st' : Process W) : Prop :=
  sv_handlers (proc_serve st') !! i = Some HdReturned ∧
  (∀ j, j ≠ i → sv_handlers (proc_serve st') !! j = sv_handlers (proc_serve st) !! j) ∧
  sv_main (proc_serve st') = sv_main (proc_serve st) ∧
  sv_dispatched (proc_serve st') = sv_dispatched (proc_serve st).

Definition can_finish (i : nat) (st : Process W) : Prop :=
  ∃ es st', run st es = Some (Ret st') ∧ finished i st st'.

Lemma can_finish_after i st es st1 :
  run st es = Some (Ret st1) →
  (∀ j, j ≠ i → sv_handlers (proc_serve st1) !! j = sv_handlers (proc_serve st) !! j) →
  sv_main (proc_serve st1) = sv_main (proc_serve st) →
  sv_dispatched (proc_serve st1) = sv_dispatched (proc_serve st) →
  can_finish i st1 → can_finish i st.
Proof.
  intros Hrun Hh Hm Hd (es' & st' & Hrun' & Hi & Hj & Hm' & Hd'). exists (es ++ es'), st'.
  split; [by rewrite (proc_run_app _ _ _ _ Hrun)|]. split_and!; [done| |congruence|congruence].
  intros j Hne. by rewrite Hj, Hh.
Qed.

Lemma can_finish_plain i st pr rt' pr' :
  at_prog i st pr → plain_step (proc_rt st) pr rt' pr' → reachable st →
  (∀ st', at_prog i st' pr' → reachable st' →
     sv_dispatched (proc_serve st') = sv_dispatched (proc_serve st) → can_finish i st') →
  can_finish i st.
Proof.
  intros Hat Hp Hr Hk. destruct (plain_event i st _ _ _ Hp Hat) as (ch & st1 & Hs & Hat1 & Hrt1 & Hm).
  assert (run st [ProcHandler i ch] = Some (Ret st1)) as Hrun by (cbn [proc_run]; by rewrite Hs).
  apply (can_finish_after i st _ _ Hrun); [apply Hm|apply Hm|apply Hm|].
  apply Hk; [done|by eapply proc_run_reachable|apply Hm].
Qed.

(** A handler whose request has what it needs can run to its return: plugin
    methods return, and the writer makes room for responses. *)
Lemma running_can_finish pr i st :
  reachable st → at_prog i st pr → Forall (λ req, ¬ lacks_job req) (sv_dispatched (proc_serve st)) →
  can_finish i st.
Proof.
  revert st. induction pr as [|why|k IH|id k IH|resp k IH|id k IH|id k IH|w m k IH|k IH]; intros st Hr Hat Hjobs.
  - destruct (active_open _ _ _ Hr (proj2 Hat) eq_refl) as [_ Hwg].
    destruct (return_event i st Hat Hwg) as (st' & Hs & Hh & _ & _ & Hm & Hd & _).
    exists [ProcHandler i (PluginReturn None)], st'. split; [cbn [proc_run]; by rewrite Hs|].
    split_and!; [|intros j Hj; by rewrite Hh, list_lookup_insert_ne|done|done].
    rewrite Hh. apply list_lookup_insert_eq. eapply lookup_lt_Some, Hat.
  - destruct (reachable_traced _ _ _ _ _ _ Hr) as [gs Ht]. destruct Hat as [Hp Hh].
    destruct (traced_lengths _ _ _ _ _ _ _ Ht) as (_ & Hl2 & _).
    destruct (lookup_lt_is_Some_2 gs i) as [g Hg]; [rewrite Hl2; by eapply lookup_lt_Some|].
    destruct (traced_at _ _ _ _ _ _ _ _ _ _ Ht Hp Hg) as (req & id & Hreq & _ & (Hok & _)).
    eapply list.Forall_lookup_1 in Hjobs; [|exact Hreq]. by destruct Hjobs; apply Hok.
  - eapply can_finish_plain; [done|eapply pl_local, (ls_next _ ghost0)|done|].
    intros st' Hat' Hr' Hd. eapply IH; [done|done|by rewrite Hd].
  - eapply can_finish_plain; [done|eapply pl_local, (ls_sequence _ ghost0)|done|].
    intros st' Hat' Hr' Hd. eapply IH; [done|done|by rewrite Hd].
  - destruct (active_open _ _ _ Hr (proj2 Hat) eq_refl) as [Hc _].
    destruct (makes_room st Hr Hc) as (es & s & Hrun & (Hh & Hm & Hd & Hcap & Hcl) & Hlt).
    apply (can_finish_after i st _ _ Hrun); cbn; [by rewrite Hh|done|done|].
    destruct (send_event i (st <| proc_serve := s |>) resp k) as (st1 & Hs1 & Hat1 & _ & Hm1);
      [destruct Hat; split; cbn; [done|by rewrite Hh]|cbn; congruence|done|].
    apply (can_finish_after i _ _ _ Hs1); [apply Hm1|apply Hm1|apply Hm1|].
    apply IH; [|done|by rewrite (md_dispatched _ _ _ _ Hm1); cbn; rewrite Hd].
    eapply proc_run_reachable; [|exact Hs1]. by eapply proc_run_reachable.
  - eapply can_finish_plain; [done|eapply pl_local, (ls_start _ ghost0)|done|].
    intros st' Hat' Hr' Hd. eapply IH; [done|done|by rewrite Hd].
  - eapply can_finish_plain; [done|eapply pl_local, (ls_cancel _ ghost0)|done|].
    intros st' Hat' Hr' Hd. eapply IH; [done|done|by rewrite Hd].
  - eapply can_finish_plain; [done|eapply pl_local, (ls_method _ ghost0 _ _ _ None)|done|].
    intros st' Hat' Hr' Hd. eapply IH; [done|done|by rewrite Hd].
  - eapply can_finish_plain; [done|apply pl_once|done|].
    intros st' Hat' Hr' Hd. eapply IH; [done|done|by rewrite Hd].
Qed.

(** A handler that waits in a send. *)
Lemma sent_event i st resp resp' k :
  proc_progs st !! i = Some (PSend resp k) → sv_handlers (proc_serve st) !! i = Some (HdSend resp') →
  gochan_closed (sv_respCh (proc_serve st)) = false →
  length (gochan_buf (sv_respCh (proc_serve st))) < gochan_cap (sv_respCh (proc_serve st)) →
  ∃ st', step st (ProcHandler i (PluginReturn None)) = Some (Ret st') ∧ at_prog i st' k ∧
    (∀ j, j ≠ i → sv_handlers (proc_serve st') !! j = sv_handlers (proc_serve st) !! j) ∧
    sv_main (proc_serve st') = sv_main (proc_serve st) ∧
    sv_dispatched (proc_serve st') = sv_dispatched (proc_serve st).
Proof.
  intros Hp Hh Hc Hroom. pose proof (lookup_lt_Some _ _ _ Hp) as Hi. pose proof (lookup_lt_Some _ _ _ Hh) as Hi'.
  cbn. unfold proc_handler_step. rewrite Hp. cbn. rewrite Hh. cbn. unfold handler_step. rewrite Hh. cbn.
  unfold gochan_send. rewrite Hc. destruct (Nat.ltb_spec (length (gochan_buf (sv_respCh (proc_serve st))))
    (gochan_cap (sv_respCh (proc_serve st)))); [|lia]. cbn. eexists. split; [reflexivity|].
  split; [split; cbn; by apply list_lookup_insert_eq|]. split; [|done].
  intros j Hj. cbn. by rewrite list_lookup_insert_ne.
Qed.

Lemma handler_can_finish i h st :
  reachable st → sv_handlers (proc_serve st) !! i = Some h →
  Forall (λ req, ¬ lacks_job req) (sv_dispatched (proc_serve st)) → can_finish i st.
Proof.
  intros Hr Hh Hjobs. destruct (reachable_traced _ _ _ _ _ _ Hr) as [gs Ht].
  destruct (traced_lengths _ _ _ _ _ _ _ Ht) as (Hl1 & _ & Hl3).
  destruct (lookup_lt_is_Some_2 (proc_progs st) i) as [pr Hp]; [rewrite Hl1, <- Hl3; by eapply lookup_lt_Some|].
  pose proof (traced_pc _ _ _ _ _ _ _ _ _ _ Ht Hh Hp) as Hpc. destruct h as [|resp|]; cbn in Hpc.
  - by eapply running_can_finish.
  - destruct Hpc as [k ->]. destruct (active_open _ _ _ Hr Hh eq_refl) as [Hc _].
    destruct (makes_room st Hr Hc) as (es & s & Hrun & (Hhs & Hm & Hd & Hcap & Hcl) & Hlt).
    apply (can_finish_after i st _ _ Hrun); cbn; [by rewrite Hhs|done|done|].
    destruct (sent_event i (st <| proc_serve := s |>) resp resp k) as (st1 & Hs1 & Hat1 & Hj1 & Hm1 & Hd1);
      [done|cbn; by rewrite Hhs|cbn; congruence|done|].
    assert (run (st <| proc_serve := s |>) [ProcHandler i (PluginReturn None)] = Some (Ret st1)) as Hrun1
      by (cbn [proc_run]; by rewrite Hs1).
    apply (can_finish_after i _ _ _ Hrun1); [done|done|done|].
    apply (running_can_finish k); [|done|by rewrite Hd1; cbn; rewrite Hd].
    eapply proc_run_reachable; [|exact Hrun1]. by eapply proc_run_reachable.
  - exists [], st. by split.
Qed.

(** All handlers can run to their return. *)
Lemma handlers_can_finish n st :
  reachable st → Forall (λ req, ¬ lacks_job req) (sv_dispatched (proc_serve st)) →
  n ≤ length (sv_dispatched (proc_serve st)) →
  ∃ es st', run st es = Some (Ret st') ∧ sv_main (proc_serve st') = sv_main (proc_serve st) ∧
    sv_dispatched (proc_serve st') = sv_dispatched (proc_serve st) ∧
    ∀ j, j < n → sv_handlers (proc_serve st') !! j = Some HdReturned.
Proof.
  intros Hr Hjobs. induction n as [|n IH]; intros Hn.
  { exists [], st. split_and!; try done. intros j Hj. lia. }
  destruct IH as (es1 & st1 & Hrun1 & Hm1 & Hd1 & Hj1); [lia|].
  assert (reachable st1) as Hr1 by (by eapply proc_run_reachable).
  destruct (reachable_traced _ _ _ _ _ _ Hr1) as [gs Ht]. destruct (traced_lengths _ _ _ _ _ _ _ Ht) as (_ & _ & Hl3).
  destruct (lookup_lt_is_Some_2 (sv_handlers (proc_serve st1)) n) as [h Hh]; [rewrite Hl3, Hd1; lia|].
  destruct (handler_can_finish n h st1 Hr1 Hh) as (es2 & st2 & Hrun2 & Hi2 & Hj2 & Hm2 & Hd2); [by rewrite Hd1|].
  exists (es1 ++ es2), st2. split_and!; [by rewrite (proc_run_app _ _ _ _ Hrun1)|congruence|congruence|].
  intros j Hj. destruct (decide (j = n)) as [->|Hne]; [done|]. rewrite Hj2 by done. apply Hj1. lia.
Qed.

Lemma all_returned_wg hs : (∀ j h, hs !! j = Some h → h = HdReturned) → active_count hs = 0%Z.
Proof.
  intros Hall'. unfold active_count. induction hs as [|h hs IH]; [done|]. rewrite filter_cons.
  rewrite (Hall' 0 h eq_refl). cbn. apply IH. intros j h' Hj. by apply (Hall' (S j)).
Qed.

(** After the end of its loop, [Serve] can return. *)
Lemma left_can_return st :
  reachable st → Forall (λ req, ¬ lacks_job req) (sv_dispatched (proc_serve st)) →
  sv_main (proc_serve st) ≠ MnSelect →
  ∃ es st' err, run st es = Some (Ret st') ∧ sv_main (proc_serve st') = MnReturned err.
Proof.
  intros Hr Hjobs Hleft.
  destruct (handlers_can_finish (length (sv_dispatched (proc_serve st))) st Hr Hjobs) as (es1 & st1 & Hrun1 & Hm1 & Hd1 & Hj1);
    [done|].
  assert (reachable st1) as Hr1 by (by eapply proc_run_reachable).
  pose proof (reachable_serve _ _ _ _ _ _ Hr1) as Hs1. destruct (serve_reachable_inv _ _ _ Hs1) as [Hinv _].
  destruct (reachable_traced _ _ _ _ _ _ Hr1) as [gs Ht]. destruct (traced_lengths _ _ _ _ _ _ _ Ht) as (_ & _ & Hl3).
  destruct (writer_never_fails _ Hs1) as (Hw & Hmax).
  destruct (serve_finishes json_Marshal _ (proc_serve st1) Hinv) as (es2 & s & err & _ & Hown & Hrun2 & Hret).
  - by rewrite Hm1.
  - rewrite (si_wg _ _ _ Hinv). apply all_returned_wg. intros j h Hj.
    pose proof (lookup_lt_Some _ _ _ Hj) as Hlt. rewrite Hl3, Hd1 in Hlt. rewrite Hj1 in Hj by done. congruence.
  - intros err' Herr. by rewrite Herr in Hw.
  - rewrite Hmax. apply list.Forall_forall. intros resp _. apply Hall.
  - exists (es1 ++ (ProcServe <$> es2)), (st1 <| proc_serve := s |>), err. split; [|done].
    rewrite (proc_run_app _ _ _ _ Hrun1). by apply lift_run.
Qed.

(** And from within the loop, once the context is cancelled. *)
Lemma can_return st :
  reachable st → Forall (λ req, ¬ lacks_job req) (sv_dispatched (proc_serve st)) →
  ∃ es st' err, run st es = Some (Ret st') ∧ sv_main (proc_serve st') = MnReturned err.
Proof.
  intros Hr Hjobs. assert (sv_main (proc_serve st) = MnSelect ∨ sv_main (proc_serve st) ≠ MnSelect) as [Hm|Hm]
    by (destruct (sv_main (proc_serve st)); auto); [|by apply left_can_return].
  set (st1 := st <| proc_serve := (proc_serve st) <| sv_cancelled := true |> |>).
  assert (step st (ProcServe EvCancel) = Some (Ret st1)) as Hs1 by (by apply lift_step).
  assert (reachable st1) as Hr1 by (by econstructor).
  set (st2 := st1 <| proc_serve := (proc_serve st1) <| sv_main := MnWait |> |>).
  assert (step st1 (ProcServe (EvMain CaseCtx)) = Some (Ret st2)) as Hs2.
  { apply lift_step; [done| |done|done]. cbn. unfold main_step. cbn. by rewrite Hm. }
  assert (reachable st2) as Hr2 by (by econstructor).
  destruct (left_can_return st2 Hr2) as (es & st' & err & Hrun & Hret); [done|done|].
  exists (ProcServe EvCancel :: ProcServe (EvMain CaseCtx) :: es), st', err. split; [|done].
  cbn [proc_run]. by rewrite Hs1, Hs2.
Qed.
End Schedule.
