(* ===== verification/ProcessProps.v ===== *)
(** * Properties of a running plugin

    What [Runtime.Run] guarantees whatever the plugin does and however the
    handlers interleave; and, on a sample session of four requests, two schedules
    on which it does not do what its comments say. *)

From Stdlib Require Import Strings.Byte.
From S2P Require Import Prelude GoStd Types Writer SubManager Stream Rpc.
From S2P Require Import Communicator CommunicatorFacts Json Rfc3339 RpcJson RpcJsonFacts RpcResponses.
From S2P Require Import Runtime RuntimeFacts RuntimeProps Handlers HandlersFacts.
From S2P Require Import Process ProcessFacts ProcessInv ProcessSeq ProcessRuns.

Section Props.
Context {W : Type} `{!Writer W} `{!Unmarshal, !UnmarshalLaws}.
Variable json_Marshal : Response → option bytes.
Context (ifs : interfaces) (ctx : context) (mi : Z) (c : Communicator W).

Local Abbreviation step := (proc_step json_Marshal ifs ctx mi).
Local Abbreviation run := (proc_run json_Marshal ifs ctx mi).
Local Abbreviation reachable := (proc_reachable json_Marshal ifs ctx mi c).
Local Abbreviation program := (handler_prog ifs ctx mi).

(** ** The handlers inside of [Serve] *)



(** ** Responses *)


(** C7: response IDs are handed out once each, however the handlers interleave:
    those the handlers have sent, together with those some handlers hold for
    responses they are about to send, are 0, 1, 2, ... (modulo 2^64), each once,
    though not always in this order; when all handlers have returned, none is
    missing; and no two responses carry the same ID before 2^64 have been given. *)
Theorem process_response_ids (st : Process W) (Hst : reachable st) :
  ∃ n held, response_ids (proc_log st).*2 ++ held ≡ₚ (λ i, wrap64 (Z.of_nat i)) <$> seq 0 n ∧
    (Forall (λ h, h = HdReturned) (sv_handlers (proc_serve st)) → held = []) ∧
    ((Z.of_nat n ≤ 2 ^ 64)%Z → NoDup (response_ids (proc_log st).*2)).
Proof.
  destruct (reachable_traced _ _ _ _ _ _ Hst) as [gs Ht].
  destruct (traced_ids _ _ _ _ _ _ _ Ht) as (n & Hperm & _). rewrite count_from_seq in Hperm by done.
  exists n, (omap g_held gs). split_and!; [done|by eapply returned_holds|]. intros Hn.
  assert (NoDup (response_ids (proc_log st).*2 ++ omap g_held gs)) as Hnd.
  { rewrite Hperm. apply NoDup_fmap_2_strong; [|apply NoDup_seq]. intros i j Hi%elem_of_seq Hj%elem_of_seq.
    unfold wrap64. rewrite !Z.mod_small by lia. lia. }
  by apply list.NoDup_app in Hnd as [? _].
Qed.


(** ** Plugin methods *)

(** The context given to the plugin method that handler [i] is in, if it is in one. *)
Definition method_at (st : Process W) (i : nat) (m : methodCall) : Prop :=
  ∃ w k, proc_progs st !! i = Some (PMethod w m k).

(** C9: the plugin is called with valid arguments only, whatever the Launcher
    sends: a submitted job names its user and its profile, a job asked for or
    controlled is a single one, operations exist, and a bootstrap comes from a
    Launcher of the same major version.  A stream gets a context of its own below
    the server's; every other method gets the server's. *)
Theorem process_methods_valid (st : Process W) (i : nat) (m : methodCall) (sctx : context)
    (Hst : reachable st) (Hm : method_at st i m) (Hctx : method_context m = Some sctx) :
  ∃ req, sv_dispatched (proc_serve st) !! i = Some req ∧ method_ok req m ∧
    ((opens_stream req ∧ ∃ n, sctx = n :: ctx) ∨ (¬ opens_stream req ∧ sctx = ctx)).
Proof.
  destruct (reachable_traced _ _ _ _ _ _ Hst) as [gs Ht]. destruct Hm as (w & k & Hp).
  destruct (method_at_facts _ _ _ _ _ _ _ _ _ _ _ Ht Hp) as (req & id & g & Hreq & Hid & Hg & Hok & Hc & Hsc).
  exists req. split_and!; [done|done|]. rewrite (Hc _ Hctx). destruct (g_ctx g) as [c0|] eqn:E; cbn.
  - left. split; [by apply Hsc|]. eapply (traced_live _ _ _ _ _ _ _ _ _ _ _ _ Ht Hreq Hg E Hid).
  - right. split; [|done]. intros Ho. by apply Hsc in Ho as [? ?].
Qed.

(** C8: cancelling reaches the stream it is meant for and no other, however the
    handlers interleave.  The context of a running stream method is cancelled
    only if the server's is or a cancel request with its ID was received; and when
    a cancel request is handled, the contexts of the methods that run for its
    stream are cancelled, and the contexts of all other streams are left as they
    are. *)
Theorem process_cancel (st : Process W) (i : nat) (m : methodCall) (req : Request) (id : Z) (sctx : context)
    (Hst : reachable st) (Hm : method_at st i m) (Hctx : method_context m = Some sctx)
    (Hreq : sv_dispatched (proc_serve st) !! i = Some req) (Hopen : opens_stream req)
    (Hid : Request_ID req = Ret id) :
  (method_Err st sctx = true → sv_cancelled (proc_serve st) = true ∨ cancel_dispatched st id) ∧
  ∀ j id' k ch st', proc_progs st !! j = Some (PCancel id' k) → step st (ProcHandler j ch) = Some (Ret st') →
    method_Err st' sctx = if decide (id' = id) then true else method_Err st sctx.
Proof.
  destruct (reachable_traced _ _ _ _ _ _ Hst) as [gs Ht]. destruct Hm as (w & k & Hp).
  destruct (method_at_facts _ _ _ _ _ _ _ _ _ _ _ Ht Hp) as (req' & id0 & g & Hreq' & Hid' & Hg & _ & Hc & Hsc).
  assert (req' = req) as -> by congruence. assert (id0 = id) as -> by congruence.
  apply Hsc in Hopen as [sctx' Hg']. specialize (Hc _ Hctx). rewrite Hg' in Hc. cbn in Hc. subst sctx'.
  pose proof (traced_live _ _ _ _ _ _ _ _ _ _ _ _ Ht Hreq Hg Hg' Hid) as Hlive.
  destruct (traced_wf _ _ _ _ _ _ _ Ht) as [Hwf Hroot].
  split; [intros [?|?]%orb_true_iff; [by left|right; by eapply cancelled_dispatched]|]. intros j id' k' ch st' Hj Hs.
  assert (proc_rt st' = streamStore_Cancel (proc_rt st) id' ∧ proc_serve st' = proc_serve st) as [Hrt Hsv].
  { cbn in Hs. unfold proc_handler_step in Hs. rewrite Hj in Hs. cbn in Hs.
    destruct (sv_handlers (proc_serve st) !! j) as [[| |]|]; cbn in Hs; by simplify_eq. }
  unfold method_Err. rewrite Hrt, Hsv. erewrite cancel_effect by done. case_decide; [apply orb_true_r|done].
Qed.

(** ** Progress *)


End Props.

(** ** From the input to the output *)
Section EndToEnd.
Context {W : Type} `{!Writer W} `{!Unmarshal, !UnmarshalLaws}.
Variable json_Marshal : Response → option bytes.
Context (ifs : interfaces) (ctx : context) (mi : Z).

End EndToEnd.

(** ** A sample session *)
Definition message (fields : list (string * json)) : bytes := bytes_of (print (JsonObj fields)).

Definition bootstrap_text : bytes :=
  message [("messageType", JsonNum "1"); ("requestId", JsonNum "1"); ("version", JsonObj [("major", JsonNum "3")])].
Definition status_text (cancel : bool) : bytes :=
  message [("messageType", JsonNum "4"); ("requestId", JsonNum "7"); ("username", JsonStr "alice");
           ("jobId", JsonStr "*"); ("cancel", JsonBool cancel)].
Definition cluster_text : bytes :=
  message [("messageType", JsonNum "9"); ("requestId", JsonNum "8"); ("username", JsonStr "alice")].

Definition launcher_input : list bytes := [bootstrap_text; status_text false; status_text true; cluster_text].
Definition launcher_comm : Communicator bytes := input_comm launcher_input 4096 [].

#[local] Existing Instance no_zones.
#[local] Instance sample_json : Unmarshal := json_requests (λ _, "bad").
#[local] Instance sample_json_laws : UnmarshalLaws := json_requests_laws _.

(** A plugin with a bootstrap phase, under a server context, with metrics. *)
Definition bootstrapped : interfaces := mkInterfaces true false false.

Definition session_of (marshal : Response → option bytes) (ifs : interfaces) (es : list procEvent)
    : option (outcome (Process bytes)) :=
  proc_run marshal ifs [0] 60 (Process_start [0] launcher_comm) es.

Definition runs_well (r : option (outcome (Process bytes))) : bool :=
  match r with Some (Ret _) => true | _ => false end.

Definition state_of (marshal : Response → option bytes) (ifs : interfaces) (es : list procEvent) : Process bytes :=
  match session_of marshal ifs es with Some (Ret st) => st | _ => Process_start [0] launcher_comm end.

Lemma state_of_reachable marshal ifs es :
  runs_well (session_of marshal ifs es) = true →
  proc_reachable marshal ifs [0] 60 launcher_comm (state_of marshal ifs es).
Proof.
  unfold state_of. destruct (session_of marshal ifs es) as [[st|]|] eqn:E; [|done|done]. intros _.
  eapply proc_run_reachable; [constructor|exact E].
Qed.

(** ** Schedules *)
Definition reads (n : nat) : list procEvent := replicate n (ProcServe EvReader).
Definition dispatches (n : nat) : list procEvent := replicate n (ProcServe (EvMain CaseReq)).
(** Handler [i] goes on; its plugin method, if it is in one, returns. *)
Definition go (i : nat) : procEvent := ProcHandler i (PluginReturn None).
Definition writes_status (i : nat) : procEvent := ProcHandler i (PluginCall (CallJobStatus "j1" "demo" StatusRunning "" "")).

(** All requests are read and handed over. *)
Definition arrivals : list procEvent := reads 14 ++ dispatches 4.

(** The stream starts and takes a response ID for its first message; the
    bootstrap is answered with the next one; then the message is sent. *)
Definition before_cancel : list procEvent :=
  arrivals ++ [go 1; writes_status 1; go 1; go 1] ++ [go 0; go 0; go 0; go 0] ++ [go 1; go 1].

(** The stream is cancelled and sends one more message; everything returns. *)
Definition whole_session : list procEvent :=
  before_cancel ++ [go 2; go 2] ++ [writes_status 1; go 1; go 1; go 1; go 1] ++
  [go 0; go 0] ++ [go 1; go 1] ++ [go 3; go 3].

Definition session_state : Process bytes := state_of response_json bootstrapped whole_session.

Lemma session_reachable : proc_reachable response_json bootstrapped [0] 60 launcher_comm session_state.
Proof. apply state_of_reachable. vm_compute. reflexivity. Qed.


(** A plugin without a bootstrap phase, when all requests have arrived. *)
Definition arrived_state : Process bytes := state_of response_json (interfaces_of sample_plugin) arrivals.

Definition status_request (cancel : bool) : Request :=
  JobStatusStreamRequest (mkBaseJobStreamRequest
    (mkBaseJobRequest (mkBaseUserRequest (mkBaseRequest (Some 4%Z) (Some 7%Z)) "alice" "") "*" "") cancel).



Lemma process_response_ids_witness :
  response_ids (proc_log session_state).*2 = [1; 0; 2]%Z ∧
  ∃ n held, response_ids (proc_log session_state).*2 ++ held ≡ₚ (λ i, wrap64 (Z.of_nat i)) <$> seq 0 n ∧ held = [].
Proof.
  split; [vm_compute; reflexivity|].
  destruct (process_response_ids response_json bootstrapped [0] 60 launcher_comm session_state session_reachable)
    as (n & held & Hperm & Hheld & _).
  exists n, held. split; [exact Hperm|]. apply Hheld. vm_compute. by repeat constructor.
Defined.


(** The state before the cancel request is handled. *)
Definition running_state : Process bytes := state_of response_json bootstrapped before_cancel.

Lemma running_reachable : proc_reachable response_json bootstrapped [0] 60 launcher_comm running_state.
Proof. apply state_of_reachable. vm_compute. reflexivity. Qed.

Lemma running_method : method_at running_state 1 (MGetJobStatuses [0; 0] "alice").
Proof. eexists _, _. vm_compute. reflexivity. Qed.

Lemma process_methods_valid_witness :
  ∃ req, sv_dispatched (proc_serve running_state) !! 1 = Some req ∧
    ((opens_stream req ∧ ∃ n, [0; 0] = n :: [0]) ∨ (¬ opens_stream req ∧ [0; 0] = [0])).
Proof.
  destruct (process_methods_valid response_json bootstrapped [0] 60 launcher_comm running_state 1
    (MGetJobStatuses [0; 0] "alice") [0; 0] running_reachable running_method eq_refl) as (req & Hreq & _ & Hor).
  exists req. split; [exact Hreq|exact Hor].
Defined.

Lemma process_cancel_witness :
  (method_Err running_state [0; 0] = true →
     sv_cancelled (proc_serve running_state) = true ∨ cancel_dispatched running_state 7) ∧
  ∃ st', proc_step response_json bootstrapped [0] 60 running_state (go 2) = Some (Ret st') ∧
    method_Err st' [0; 0] = true.
Proof.
  destruct (process_cancel response_json bootstrapped [0] 60 launcher_comm running_state 1
    (MGetJobStatuses [0; 0] "alice") (status_request false) 7 [0; 0] running_reachable running_method eq_refl)
    as [H1 H2]; [vm_compute; reflexivity|by eexists|reflexivity|].
  split; [exact H1|].
  assert (runs_well (proc_step response_json bootstrapped [0] 60 running_state (go 2)) = true) as Hok
    by (vm_compute; reflexivity).
  destruct (proc_step response_json bootstrapped [0] 60 running_state (go 2)) as [[st'|]|] eqn:E;
    [|discriminate|discriminate].
  exists st'. split; [reflexivity|]. eapply (H2 2 7%Z PReturn _ st'); [vm_compute; reflexivity|exact E].
Defined.

(** The input has ended, the handlers have returned, and [Serve] has closed the
    response channel; the metrics loop runs on. *)
Definition closed_state : Process bytes := state_of response_json bootstrapped (whole_session ++ dispatches 3).


(** Responses of two bytes can always be encoded. *)
Definition short_Marshal (resp : Response) : option bytes := Some [x7b; x7d].


(** The rest of the session: the input has ended, the responses are written. *)
Definition completed : list procEvent :=
  whole_session ++ dispatches 3 ++ replicate 8 (ProcServe EvWriter) ++ dispatches 1.
Definition completed_state : Process bytes := state_of response_json bootstrapped completed.

Definition launcher_requests : list Request :=
  omap (λ msg, match RequestFromJSON msg with Ret (inl req) => Some req | _ => None end) launcher_input.


(** ** Two schedules *)

(** The cancel request is handled before the request it follows. *)
Definition overtaken : list procEvent := arrivals ++ [go 2; go 2] ++ [go 1].
Definition overtaken_state : Process bytes := state_of response_json bootstrapped overtaken.

Lemma overtaken_reachable : proc_reachable response_json bootstrapped [0] 60 launcher_comm overtaken_state.
Proof. apply state_of_reachable. vm_compute. reflexivity. Qed.

Lemma overtaken_dispatched :
  sv_dispatched (proc_serve overtaken_state) !! 1 = Some (status_request false) ∧
  sv_dispatched (proc_serve overtaken_state) !! 2 = Some (status_request true) ∧
  ∀ i req, sv_dispatched (proc_serve overtaken_state) !! i = Some req → cancels_stream req → i = 2.
Proof.
  split_and!; [by vm_compute..|].
  assert (∃ r0 r3, sv_dispatched (proc_serve overtaken_state) =
    [ReqBootstrap r0; status_request false; status_request true; ClusterInfoRequest r3]) as (r0 & r3 & ->)
    by (do 2 eexists; vm_compute; reflexivity).
  intros [|[|[|[|i]]]] req Hi (r & Hr & Hc); simplify_eq/=; done.
Qed.

Lemma overtaken_over : cancels_over overtaken_state.
Proof.
  split; [by vm_compute..|]. intros i req Hi Hc.
  rewrite (proj2 (proj2 overtaken_dispatched) i req Hi Hc). by vm_compute.
Qed.

(** C38: a stream can survive its cancellation.  The Launcher opens a stream and
    then cancels it; both requests are handed over in this order, but each to a
    goroutine of its own, and the handler of the second may run first: it finds no
    stream and returns.  Then the stream starts, and under no continuation is its
    context cancelled before that of the whole server is. *)
Theorem cancel_can_be_lost :
  ∃ st : Process bytes, proc_reachable response_json bootstrapped [0] 60 launcher_comm st ∧
    sv_dispatched (proc_serve st) !! 1 = Some (status_request false) ∧
    sv_dispatched (proc_serve st) !! 2 = Some (status_request true) ∧
    sv_handlers (proc_serve st) !! 2 = Some HdReturned ∧
    method_at st 1 (MGetJobStatuses [0; 0] "alice") ∧
    ∀ es st', proc_run response_json bootstrapped [0] 60 st es = Some (Ret st') →
      method_Err st' [0; 0] = sv_cancelled (proc_serve st').
Proof.
  exists overtaken_state. destruct overtaken_dispatched as (H1 & H2 & _). split_and!.
  - exact overtaken_reachable.
  - exact H1.
  - exact H2.
  - by vm_compute.
  - eexists _, _. vm_compute. reflexivity.
  - intros es st' Hrun.
    unfold method_Err. rewrite (cancels_over_run _ _ _ _ _ _ _ _ overtaken_reachable overtaken_over Hrun).
    assert (context_Err (rt_cancelled (proc_rt overtaken_state)) [0; 0] = false) as -> by (vm_compute; reflexivity).
    apply orb_false_r.
Qed.

(** The bootstrap method runs, and so does a method for a later request: nothing
    makes the second wait for the first. *)
Theorem bootstrap_not_awaited :
  ∃ st : Process bytes, proc_reachable response_json bootstrapped [0] 60 launcher_comm st ∧
    method_at st 0 (MBootstrap [0]) ∧ method_at st 3 (MClusterInfo [0] "alice").
Proof.
  exists (state_of response_json bootstrapped arrivals). split_and!.
  - apply state_of_reachable. vm_compute. reflexivity.
  - eexists _, _. vm_compute. reflexivity.
  - eexists _, _. vm_compute. reflexivity.
Qed.
