(* ===== verification/Plugintest.v ===== *)
(** * Test support for plugins (src/plugintest/mocks.go, helpers.go)

    The two recording response writers, as instances of the writer interfaces,
    their accessors, and the assertion helpers.  A helper that reports through
    [*testing.T] is the boolean "the test was not marked as failed"; the texts
    of the reports are left out.  The writers hold values: the documentation asks
    the callers to treat what is shared as read-only. *)

From S2P Require Import Prelude GoStd Types Writer SubManager Rpc Runtime.

Record ControlResult := mkControlResult { ControlResult_Complete : bool; ControlResult_Message : string }.
Record NetworkInfo := mkNetworkInfo { NetworkInfo_Host : string; NetworkInfo_Addresses : slice string }.
Record ConfigReloadResult := mkConfigReloadResult {
  ConfigReloadResult_ErrorType : ConfigReloadErrorType;
  ConfigReloadResult_ErrorMessage : string;
}.

(** ** [MockResponseWriter] *)
Record MockResponseWriter := mkMock {
  mock_errors : list Error;
  mock_jobs : list (slice Job);
  mock_controlResults : list ControlResult;
  mock_networks : list NetworkInfo;
  mock_clusterInfo : option ClusterOptions;
  mock_configReloadResults : list ConfigReloadResult;
}.

#[export] Instance eta_Mock : Eta MockResponseWriter := λ m,
  mkMock (mock_errors m) (mock_jobs m) (mock_controlResults m) (mock_networks m) (mock_clusterInfo m)
    (mock_configReloadResults m).
#[export] Instance set_mock_errors : Setter mock_errors := ltac:(solve_setter).
#[export] Instance set_mock_jobs : Setter mock_jobs := ltac:(solve_setter).
#[export] Instance set_mock_controlResults : Setter mock_controlResults := ltac:(solve_setter).
#[export] Instance set_mock_networks : Setter mock_networks := ltac:(solve_setter).
#[export] Instance set_mock_clusterInfo : Setter mock_clusterInfo := ltac:(solve_setter).
#[export] Instance set_mock_configReloadResults : Setter mock_configReloadResults := ltac:(solve_setter).

Definition NewMockResponseWriter : MockResponseWriter := mkMock [] [] [] [] None [].

Definition mock_WriteErrorf (m : MockResponseWriter) (code : ErrCode) (msg : string)
    : MockResponseWriter * option error :=
  (m <| mock_errors := mock_errors m ++ [Errorf code msg] |>, None).

Definition mock_WriteError (m : MockResponseWriter) (err : error) : MockResponseWriter * option error :=
  match errors_As_API err with
  | Some apiErr => (m <| mock_errors := mock_errors m ++ [apiErr] |>, None)
  | None => (m <| mock_errors := mock_errors m ++ [mkError CodeUnknown (error_Error err)] |>, None)
  end.

Definition mock_WriteJobs (m : MockResponseWriter) (jobs : slice Job) : MockResponseWriter * option error :=
  (m <| mock_jobs := mock_jobs m ++ [jobs] |>, None).

Definition mock_WriteControlJob (m : MockResponseWriter) (complete : bool) (msg : string)
    : MockResponseWriter * option error :=
  (m <| mock_controlResults := mock_controlResults m ++ [mkControlResult complete msg] |>, None).

Definition mock_WriteJobNetwork (m : MockResponseWriter) (host : string) (addr : slice string)
    : MockResponseWriter * option error :=
  (m <| mock_networks := mock_networks m ++ [mkNetworkInfo host addr] |>, None).

Definition mock_WriteClusterInfo (m : MockResponseWriter) (opts : ClusterOptions)
    : MockResponseWriter * option error :=
  (m <| mock_clusterInfo := Some opts |>, None).

Definition mock_WriteConfigReload (m : MockResponseWriter) (t : ConfigReloadErrorType) (msg : string)
    : MockResponseWriter * option error :=
  (m <| mock_configReloadResults := mock_configReloadResults m ++ [mkConfigReloadResult t msg] |>, None).

#[export] Instance mock_ResponseWriter : ResponseWriter MockResponseWriter := {
  WriteErrorf := mock_WriteErrorf;
  WriteError := mock_WriteError;
  WriteJobs := mock_WriteJobs;
  WriteControlJob := mock_WriteControlJob;
  WriteJobNetwork := mock_WriteJobNetwork;
  WriteClusterInfo := mock_WriteClusterInfo;
}.

(** The accessors; [slices.Clone] keeps the value. *)
Definition mock_Errors (m : MockResponseWriter) : list Error := mock_errors m.
Definition mock_HasError (m : MockResponseWriter) : bool := (0 <? length (mock_errors m))%nat.
Definition mock_LastError (m : MockResponseWriter) : option Error := list.last (mock_errors m).
Definition mock_FirstError (m : MockResponseWriter) : option Error := list.head (mock_errors m).
Definition mock_Jobs (m : MockResponseWriter) : list (slice Job) := mock_jobs m.

(** [LastJobs] returns nil when there is no batch, and the batch otherwise. *)
Definition mock_LastJobs (m : MockResponseWriter) : slice Job :=
  match list.last (mock_jobs m) with None => None | Some batch => batch end.

(** [all] stays nil until a job is appended. *)
Definition mock_AllJobs (m : MockResponseWriter) : slice Job :=
  foldl (λ all jobs, match jobs with
                     | None | Some [] => all
                     | Some js => Some (default [] all ++ js)
                     end) None (mock_jobs m).

Definition mock_ControlResults (m : MockResponseWriter) : list ControlResult := mock_controlResults m.
Definition mock_Networks (m : MockResponseWriter) : list NetworkInfo := mock_networks m.
Definition mock_ClusterInfo (m : MockResponseWriter) : option ClusterOptions := mock_clusterInfo m.
Definition mock_ConfigReloadResults (m : MockResponseWriter) : list ConfigReloadResult :=
  mock_configReloadResults m.
Definition mock_Reset (m : MockResponseWriter) : MockResponseWriter :=
  m <| mock_errors := [] |> <| mock_jobs := [] |> <| mock_controlResults := [] |> <| mock_networks := [] |>
    <| mock_clusterInfo := None |> <| mock_configReloadResults := [] |>.

(** ** [MockStreamResponseWriter] *)
Record StatusUpdate := mkStatusUpdateT {
  StatusUpdate_ID : JobID;
  StatusUpdate_Name : string;
  StatusUpdate_Status : string;
  StatusUpdate_StatusCode : string;
  StatusUpdate_Message : string;
}.
Record OutputChunk := mkOutputChunk { OutputChunk_Output : string; OutputChunk_OutputType : JobOutput }.
Record ResourceUtilData := mkResourceUtilData {
  ResourceUtilData_CPUPercent : float64;
  ResourceUtilData_CPUTime : float64;
  ResourceUtilData_ResidentMem : float64;
  ResourceUtilData_VirtualMem : float64;
}.

Record MockStreamResponseWriter := mkMockStream {
  mstream_base : MockResponseWriter;
  mstream_statuses : list StatusUpdate;
  mstream_outputs : list OutputChunk;
  mstream_resourceUtils : list ResourceUtilData;
  mstream_closed : bool;
}.

#[export] Instance eta_MockStream : Eta MockStreamResponseWriter := λ m,
  mkMockStream (mstream_base m) (mstream_statuses m) (mstream_outputs m) (mstream_resourceUtils m)
    (mstream_closed m).
#[export] Instance set_mstream_base : Setter mstream_base := ltac:(solve_setter).
#[export] Instance set_mstream_statuses : Setter mstream_statuses := ltac:(solve_setter).
#[export] Instance set_mstream_outputs : Setter mstream_outputs := ltac:(solve_setter).
#[export] Instance set_mstream_resourceUtils : Setter mstream_resourceUtils := ltac:(solve_setter).
#[export] Instance set_mstream_closed : Setter mstream_closed := ltac:(solve_setter).

Definition NewMockStreamResponseWriter : MockStreamResponseWriter :=
  mkMockStream (mkMock [] [] [] [] None []) [] [] [] false.

Definition mstream_WriteJobStatus (m : MockStreamResponseWriter) (id : JobID)
    (name status statusCode msg : string) : MockStreamResponseWriter * option error :=
  (m <| mstream_statuses := mstream_statuses m ++ [mkStatusUpdateT id name status statusCode msg] |>, None).

Definition mstream_WriteJobOutput (m : MockStreamResponseWriter) (output : string) (outputType : JobOutput)
    : MockStreamResponseWriter * option error :=
  (m <| mstream_outputs := mstream_outputs m ++ [mkOutputChunk output outputType] |>, None).

Definition mstream_WriteJobResourceUtil (m : MockStreamResponseWriter)
    (cpuPercent cpuTime residentMem virtualMem : float64) : MockStreamResponseWriter * option error :=
  (m <| mstream_resourceUtils := mstream_resourceUtils m ++
          [mkResourceUtilData cpuPercent cpuTime residentMem virtualMem] |>, None).

Definition mstream_Close (m : MockStreamResponseWriter) : MockStreamResponseWriter * option error :=
  (m <| mstream_closed := true |>, None).

(** The methods promoted from the embedded writer. *)
Definition promoted (m : MockStreamResponseWriter) (r : MockResponseWriter * option error)
    : MockStreamResponseWriter * option error :=
  (m <| mstream_base := fst r |>, snd r).

#[export] Instance mstream_ResponseWriter : ResponseWriter MockStreamResponseWriter := {
  WriteErrorf m code msg := promoted m (mock_WriteErrorf (mstream_base m) code msg);
  WriteError m err := promoted m (mock_WriteError (mstream_base m) err);
  WriteJobs m jobs := promoted m (mock_WriteJobs (mstream_base m) jobs);
  WriteControlJob m complete msg := promoted m (mock_WriteControlJob (mstream_base m) complete msg);
  WriteJobNetwork m host addr := promoted m (mock_WriteJobNetwork (mstream_base m) host addr);
  WriteClusterInfo m o := promoted m (mock_WriteClusterInfo (mstream_base m) o);
}.

#[export] Instance mstream_StreamResponseWriter : StreamResponseWriter MockStreamResponseWriter := {
  WriteJobStatus := mstream_WriteJobStatus;
  WriteJobOutput := mstream_WriteJobOutput;
  WriteJobResourceUtil := mstream_WriteJobResourceUtil;
  WriterClose := mstream_Close;
}.

Definition mstream_Statuses (m : MockStreamResponseWriter) : list StatusUpdate := mstream_statuses m.
Definition mstream_LastStatus (m : MockStreamResponseWriter) : option StatusUpdate := list.last (mstream_statuses m).
Definition mstream_StatusCount (m : MockStreamResponseWriter) : Z := Z.of_nat (length (mstream_statuses m)).
Definition mstream_Outputs (m : MockStreamResponseWriter) : list OutputChunk := mstream_outputs m.
Definition mstream_OutputCount (m : MockStreamResponseWriter) : Z := Z.of_nat (length (mstream_outputs m)).
Definition mstream_CombinedOutput (m : MockStreamResponseWriter) : string :=
  foldl (λ combined chunk, combined ++ OutputChunk_Output chunk)%string "" (mstream_outputs m).
Definition mstream_ResourceUtils (m : MockStreamResponseWriter) : list ResourceUtilData := mstream_resourceUtils m.
Definition mstream_IsClosed (m : MockStreamResponseWriter) : bool := mstream_closed m.
Definition mstream_ResetStream (m : MockStreamResponseWriter) : MockStreamResponseWriter :=
  m <| mstream_statuses := [] |> <| mstream_outputs := [] |> <| mstream_resourceUtils := [] |>
    <| mstream_closed := false |>.
Definition mstream_Reset (m : MockStreamResponseWriter) : MockStreamResponseWriter :=
  mstream_ResetStream (m <| mstream_base := mock_Reset (mstream_base m) |>).

(** ** Helpers *)

(** [s[i:i+n]]. *)
Definition slice_string (s : string) (i n : nat) : string := String.substring i n s.

(** The loop of [containsRec] with the indices still to try. *)
Fixpoint contains_from (s substr : string) (i : nat) (tries : nat) : bool :=
  match tries with
  | O => false
  | S tries =>
      if bool_decide (slice_string s i (String.length substr) = substr) then true
      else contains_from s substr (S i) tries
  end.

Definition containsRec (s substr : string) : bool :=
  contains_from s substr 0 (S (String.length s) - String.length substr).

Definition contains (s substr : string) : bool :=
  bool_decide (substr = "") ||
  ((String.length substr <=? String.length s)%nat &&
   (bool_decide (s = substr) || ((String.length substr <? String.length s)%nat && containsRec s substr))).

Definition AssertNoError (w : MockResponseWriter) : bool := negb (0 <? length (mock_Errors w))%nat.
Definition AssertError (w : MockResponseWriter) : bool := mock_HasError w.
Definition AssertErrorCode (w : MockResponseWriter) (code : ErrCode) : bool :=
  if negb (mock_HasError w) then false
  else existsb (λ err, bool_decide (Error_Code err = code)) (mock_Errors w).
Definition AssertErrorMessage (w : MockResponseWriter) (msg : string) : bool :=
  if negb (mock_HasError w) then false
  else existsb (λ err, contains (Error_Msg err) msg) (mock_Errors w).
Definition AssertJobCount (w : MockResponseWriter) (expected : Z) : bool :=
  (Z.of_nat (slice_len (mock_AllJobs w)) =? expected)%Z.

(** Assertions about a possibly nil job. *)
Definition AssertJobStatus (job : option Job) (expected : string) : bool :=
  match job with None => false | Some job => bool_decide (Job_Status job = expected) end.
Definition AssertJobID (job : option Job) (expected : JobID) : bool :=
  match job with None => false | Some job => bool_decide (Job_ID job = expected) end.
Definition AssertJobUser (job : option Job) (expected : string) : bool :=
  match job with None => false | Some job => bool_decide (Job_User job = expected) end.
Definition AssertJobExitCode (job : option Job) (expected : Z) : bool :=
  match job with
  | None => false
  | Some job => match Job_ExitCode job with None => false | Some code => (code =? expected)%Z end
  end.
Definition AssertJobHasTag (job : option Job) (tag : string) : bool :=
  match job with None => false | Some job => existsb (λ t, bool_decide (t = tag)) (Job_Tags job) end.
Definition AssertJobHasEnv (job : option Job) (name : string) : bool :=
  match job with None => false | Some job => existsb (λ e, bool_decide (Env_Name e = name)) (Job_Env job) end.
Definition AssertJobEnvValue (job : option Job) (name expectedValue : string) : bool :=
  match job with
  | None => false
  | Some job =>
      match List.find (λ e, bool_decide (Env_Name e = name)) (Job_Env job) with
      | Some env => bool_decide (Env_Value env = expectedValue)
      | None => false
      end
  end.
Definition AssertJobMatchesFilter (job : option Job) (filter : JobFilter) : outcome bool :=
  match job with None => Ret false | Some job => JobFilter_Includes filter job end.
Definition AssertJobDoesNotMatchFilter (job : option Job) (filter : JobFilter) : outcome bool :=
  match job with None => Ret false | Some job => b ← JobFilter_Includes filter job; Ret (negb b) end.

Definition AssertStreamClosed (w : MockStreamResponseWriter) : bool := mstream_IsClosed w.
Definition AssertStreamNotClosed (w : MockStreamResponseWriter) : bool := negb (mstream_IsClosed w).
Definition AssertStatusCount (w : MockStreamResponseWriter) (expected : Z) : bool :=
  (mstream_StatusCount w =? expected)%Z.
Definition AssertOutputCount (w : MockStreamResponseWriter) (expected : Z) : bool :=
  (mstream_OutputCount w =? expected)%Z.
Definition AssertControlComplete (w : MockResponseWriter) (expectedMsg : string) : bool :=
  match list.last (mock_ControlResults w) with
  | None => false
  | Some result =>
      ControlResult_Complete result &&
      negb (bool_decide (expectedMsg ≠ "" ∧ ControlResult_Message result ≠ expectedMsg))
  end.
Definition AssertControlIncomplete (w : MockResponseWriter) : bool :=
  match list.last (mock_ControlResults w) with
  | None => false
  | Some result => negb (ControlResult_Complete result)
  end.

Definition FindJobByID (jobs : list Job) (id : JobID) : option Job :=
  List.find (λ job, bool_decide (Job_ID job = id)) jobs.
Definition FindJobsByStatus (jobs : list Job) (status : string) : list Job :=
  base.filter (λ job, Job_Status job = status) jobs.
Definition FindJobsByUser (jobs : list Job) (user : string) : list Job :=
  base.filter (λ job, Job_User job = user) jobs.

(** ** Substring search *)

Lemma contains_from_spec s substr i tries :
  contains_from s substr i tries = true ↔
  ∃ j, i ≤ j < i + tries ∧ slice_string s j (String.length substr) = substr.
Proof.
  revert i. induction tries as [|tries IH]; intros i; cbn [contains_from].
  - split; [done|]. intros (j & ? & _). lia.
  - case_bool_decide as H.
    + split; [|done]. intros _. exists i. split; [lia|done].
    + rewrite IH. split; intros (j & Hj & Hs); exists j; (split; [|done]); [lia|].
      destruct (decide (i = j)) as [->|]; [done|lia].
Qed.

Lemma substring_app (a b : string) n : String.substring (String.length a) n (a ++ b) = String.substring 0 n b.
Proof. induction a as [|x a IH]; [done|]. exact IH. Qed.

(** A slice inside the string splits it. *)
Lemma substring_split (s : string) j n :
  j + n ≤ String.length s →
  ∃ a c, s = (a ++ String.substring j n s ++ c)%string ∧ String.length a = j.
Proof.
  revert j n. induction s as [|x s IH]; intros [|j] n Hl; cbn in Hl.
  - exists "", "". by destruct n.
  - lia.
  - destruct n as [|n]; [by exists "", (String x s)|].
    destruct (IH 0 n) as (a & c & Hs & Ha); [lia|]. destruct a; [|done].
    exists "", c. split; [|done]. exact (f_equal (String x) Hs).
  - destruct (IH j n) as (a & c & Hs & Ha); [lia|]. exists (String x a), c.
    split; [exact (f_equal (String x) Hs)|]. cbn. by rewrite Ha.
Qed.

(** ** The mock records what the runtime sends

    What a test can see of the responses. *)
Definition seen_code (r : Response) : option ErrCode :=
  match r with RespError r => Some (ErrorResponse_Code r) | _ => None end.
Definition seen_jobs (r : Response) : option (slice Job) :=
  match r with RespJobState r => Some (JobStateResponse_Jobs r) | _ => None end.
Definition seen_control (r : Response) : option ControlResult :=
  match r with
  | RespControlJob r => Some (mkControlResult (ControlJobResponse_Complete r) (ControlJobResponse_Msg r))
  | _ => None
  end.
Definition seen_network (r : Response) : option NetworkInfo :=
  match r with
  | RespJobNetwork r => Some (mkNetworkInfo (JobNetworkResponse_Host r) (JobNetworkResponse_Addr r))
  | _ => None
  end.
Definition seen_status (r : Response) : option StatusUpdate :=
  match r with
  | RespJobStatus r =>
      Some (mkStatusUpdateT (JobStatusStreamResponse_ID r) (JobStatusStreamResponse_Name r)
        (JobStatusStreamResponse_Status r) (JobStatusStreamResponse_Code r) (JobStatusStreamResponse_Msg r))
  | _ => None
  end.
Definition seen_output (r : Response) : option (string * string) :=
  match r with
  | RespJobOutput r =>
      if JobOutputResponse_Complete r then None
      else Some (JobOutputResponse_Output r, JobOutputResponse_OutputType r)
  | _ => None
  end.
Definition seen_util (r : Response) : option ResourceUtilData :=
  match r with
  | RespJobResource r =>
      if JobResourceResponse_Complete r then None
      else Some (mkResourceUtilData (JobResourceResponse_CPUPercent r) (JobResourceResponse_CPUTime r)
        (JobResourceResponse_ResidentMem r) (JobResourceResponse_VirtualMem r))
  | _ => None
  end.

(** The recording agrees with the responses: error codes, jobs, results and
    stream contents, in order; nil slices are sent as empty ones. *)
Record agrees (l : list Response) (m : MockStreamResponseWriter) : Prop := {
  ag_errors : omap seen_code l = Error_Code <$> mock_Errors (mstream_base m);
  ag_jobs : omap seen_jobs l = non_null <$> mock_Jobs (mstream_base m);
  ag_control : omap seen_control l = mock_ControlResults (mstream_base m);
  ag_network : omap seen_network l =
    (λ n, mkNetworkInfo (NetworkInfo_Host n) (non_null (NetworkInfo_Addresses n))) <$> mock_Networks (mstream_base m);
  ag_status : omap seen_status l = mstream_Statuses m;
  ag_output : omap seen_output l =
    (λ o, (OutputChunk_Output o, JobOutput_String (OutputChunk_OutputType o))) <$> mstream_Outputs m;
  ag_util : omap seen_util l = mstream_ResourceUtils m;
}.

Lemma SequenceID_ch s id : rt_ch (streamStore_SequenceID s id).1 = rt_ch s.
Proof. unfold streamStore_SequenceID. by case_match. Qed.

Ltac solve_agrees l Hch :=
  match goal with |- ∃ l', _ ∧ rt_ch _ ++ [?r] = _ ∧ _ =>
    exists (l ++ [r]); (split_and!; [done|by rewrite Hch, app_assoc|])
  end;
  split; unfold mock_Errors, mock_Jobs, mock_ControlResults, mock_Networks, mstream_Statuses, mstream_Outputs,
    mstream_ResourceUtils; rewrite omap_app; cbn; rewrite ?app_nil_r, ?fmap_app; cbn; congruence.

Lemma perform_agrees ch w m l c :
  writer_store w = true → rt_ch (writer_state w) = ch ++ l → agrees l m →
  ∃ l', writer_store (perform w c) = true ∧ rt_ch (writer_state (perform w c)) = ch ++ l' ∧
    agrees l' (perform m c).
Proof.
  intros Hst Hch [He Hj Hc Hn Hs Ho Hu].
  unfold mock_Errors, mock_Jobs, mock_ControlResults, mock_Networks, mstream_Statuses, mstream_Outputs,
    mstream_ResourceUtils in *.
  destruct w as [s req id store]. cbn [writer_store writer_state] in *. subst store.
  assert (rt_ch (streamStore_SequenceID (nextResponseID s).1 id).1 = ch ++ l) as Hseq
    by (rewrite SequenceID_ch; exact Hch).
  destruct c; cbn -[streamStore_SequenceID omap] in *;
    unfold writer_WriteJobStatus, writer_WriteJobOutput, writer_WriteJobResourceUtil, writer_Close, mock_WriteError in *;
    cbn -[streamStore_SequenceID omap] in *.
  all: try solve_agrees l Hch.
  - destruct (errors_As_API err); cbn; solve_agrees l Hch.
  - destruct (streamStore_SequenceID _ id) as [s' seq]. cbn in Hseq |- *. solve_agrees l Hseq.
  - destruct (streamStore_SequenceID _ id) as [s' seq]. cbn in Hseq |- *. solve_agrees l Hseq.
  - destruct (streamStore_SequenceID _ id) as [s' seq]. cbn in Hseq |- *. solve_agrees l Hseq.
  - destruct (streamStore_SequenceID _ id) as [s' seq]. cbn in Hseq.
    destruct req; try (exists l; by split_and!); cbn; solve_agrees l Hseq.
Qed.

Lemma replay_agrees ch w m l cs :
  writer_store w = true → rt_ch (writer_state w) = ch ++ l → agrees l m →
  ∃ l', rt_ch (writer_state (replay w cs)) = ch ++ l' ∧ agrees l' (replay m cs).
Proof.
  revert w m l. induction cs as [|c cs IH]; intros w m l Hst Hch Ha; [by exists l|].
  destruct (perform_agrees ch w m l c Hst Hch Ha) as (l' & Hst' & Hch' & Ha'). by apply (IH _ _ l').
Qed.

(** C34: a test sees on the mock writer what the Launcher would see: for any
    sequence of calls a plugin method makes, the recorded error codes, job
    batches, control results, network data, statuses, output and utilisation
    are those of the responses the runtime's stream writer sends, in order. *)
Theorem mock_sees_responses (w : defaultResponseWriter) (Hst : writer_store w = true) (cs : list WriterCall) :
  ∃ l, rt_ch (writer_state (replay w cs)) = rt_ch (writer_state w) ++ l ∧
    agrees l (replay NewMockStreamResponseWriter cs).
Proof. by apply (replay_agrees _ w _ []); [|rewrite app_nil_r|]. Qed.

Lemma mock_sees_responses_witness :
  let w := mkWriter (initial_rt [0]) (HeartbeatRequest (mkBaseRequest (Some 0%Z) (Some 7%Z))) 7 true in
  let cs := [CallJobStatus "job-1" "demo" StatusRunning "" ""; CallErrorf CodeTimeout "late"] in
  mstream_StatusCount (replay NewMockStreamResponseWriter cs) = 1%Z ∧
  ∃ l, rt_ch (writer_state (replay w cs)) = rt_ch (writer_state w) ++ l ∧
    agrees l (replay NewMockStreamResponseWriter cs).
Proof. intros w cs. split; [done|]. by apply (mock_sees_responses w). Defined.

(** The text of an error is not among them: for an API error inside a wrapping
    error, the mock keeps the inner message while the runtime sends the whole
    text, so an assertion about the message can disagree with the message sent. *)
Theorem mock_error_text_differs :
  ∃ (err : error) (apiErr : Error),
    mock_LastError (mock_WriteError NewMockResponseWriter err).1 = Some apiErr ∧
    AssertErrorMessage (mock_WriteError NewMockResponseWriter err).1 "submit" = false ∧
    ∀ w, ∃ r, rt_ch (writer_state (writer_WriteError w err).1) = rt_ch (writer_state w) ++ [RespError r] ∧
      ErrorResponse_Code r = Error_Code apiErr ∧ contains (ErrorResponse_Msg r) "submit" = true.
Proof.
  exists (ErrWrap "submit" (ErrAPI (mkError CodeTimeout "late"))), (mkError CodeTimeout "late").
  split_and!; [done|by vm_compute|]. intros w. eexists. split_and!; [done|done|by vm_compute].
Qed.

(** [contains] is substring search: it holds exactly when the string splits
    around the substring. *)
Theorem contains_spec (s substr : string) :
  contains s substr = true ↔ ∃ a b, s = (a ++ substr ++ b)%string.
Proof.
  unfold contains. rewrite orb_true_iff, andb_true_iff, orb_true_iff, andb_true_iff, !bool_decide_eq_true.
  rewrite Nat.leb_le, Nat.ltb_lt. unfold containsRec. rewrite contains_from_spec. split.
  - intros [->|[Hl [->|[_ (j & Hj & Hs)]]]].
    + by exists "", s.
    + exists "", "". cbn. by rewrite string_app_nil_r.
    + destruct (substring_split s j (String.length substr)) as (a & c & Heq & _); [lia|].
      unfold slice_string in Hs. rewrite Hs in Heq. by exists a, c.
  - intros (a & b & ->). rewrite !string_length_app.
    destruct (decide (substr = "")); [by left|]. right. split; [lia|].
    destruct (decide (String.length a + String.length b = 0)) as [H0|H0].
    + left. destruct a, b; try done. cbn. apply string_app_nil_r.
    + right. split; [lia|]. exists (String.length a). split; [lia|].
      unfold slice_string. by rewrite substring_app, substring_prefix.
Qed.
