(* ===== verification/InMemory.v ===== *)
(** * The in-memory plugin (src/examples/inmemory/main.go)

    A plugin over the job cache.  Every method is given by the calls it makes
    on its response writer (recorded) and its effect on the plugin's state; the
    background goroutine that simulates a job is split into its two updates.
    Statuses only ever move along the job life cycle. *)

From S2P Require Import Prelude GoStd Types TypesFacts Store Writer SubManager Cache CacheFacts.

Record InMemoryPlugin := mkInMemoryPlugin {
  InMemoryPlugin_cache : JobCache;
  InMemoryPlugin_nextID : Z;
}.

(** [int32] arithmetic wraps. *)
Definition wrap32 (z : Z) : Z := ((z + 2 ^ 31) `mod` 2 ^ 32 - 2 ^ 31)%Z.

Definition job_name (n : Z) : JobID := ("job-" ++ strconv_Itoa n)%string.

(** [job] as [SubmitJob] fills it in. *)
Definition submitted_job (id : JobID) (user : string) (now : Time) (job : Job) : Job :=
  job <| Job_ID := id |> <| Job_User := user |> <| Job_Submitted := Some now |>
      <| Job_LastUpdated := Some now |> <| Job_Status := StatusPending |>.

Definition long_running (job : Job) : bool := existsb (λ tag, bool_decide (tag = "long-running")) (Job_Tags job).

(** [SubmitJob]: the calls made, the plugin afterwards, and the arguments of
    the goroutine it starts. *)
Definition InMemoryPlugin_SubmitJob (pick : bool) (now : Time) (p : InMemoryPlugin) (user : string) (job : Job)
    : outcome (InMemoryPlugin * list WriterCall * option (string * JobID * bool)) :=
  let n := wrap32 (InMemoryPlugin_nextID p + 1) in
  let id := job_name n in
  let job := submitted_job id user now job in
  r ← JobCache_AddOrUpdate pick now (InMemoryPlugin_cache p) job;
  let '(cache, err) := r in
  let p := mkInMemoryPlugin cache n in
  match err with
  | Some err => Ret (p, [CallError err], None)
  | None => Ret (p, JobCache_WriteJob cache [] user id, Some (user, id, long_running job))
  end.

(** The two updates of [simulateJobLifecycle], 500 ms and 5 s after the
    submission; a long-running job gets only the first. *)
Definition mark_running (job : Job) : Job :=
  if decide (Job_Status job = StatusPending) then job <| Job_Status := StatusRunning |> else job.

Definition mark_finished (job : Job) : Job :=
  if decide (Job_Status job = StatusRunning)
  then job <| Job_Status := StatusFinished |> <| Job_ExitCode := Some 0%Z |> else job.

Definition simulate_update (pick : bool) (now : Time) (p : InMemoryPlugin) (user : string) (id : JobID)
    (fn : Job → Job) : outcome InMemoryPlugin :=
  r ← JobCache_Update pick now (InMemoryPlugin_cache p) user id (λ job, Ret (tt, Some (fn job)));
  Ret (mkInMemoryPlugin r.1.2 (InMemoryPlugin_nextID p)).

Definition simulateJobLifecycle_first (pick : bool) (now : Time) (p : InMemoryPlugin) (user : string) (id : JobID) :=
  simulate_update pick now p user id mark_running.

Definition simulateJobLifecycle_second (pick : bool) (now : Time) (p : InMemoryPlugin) (user : string) (id : JobID)
    (longRunning : bool) : outcome InMemoryPlugin :=
  if longRunning then Ret p else simulate_update pick now p user id mark_finished.

Definition InMemoryPlugin_GetJob (p : InMemoryPlugin) (user : string) (id : JobID) : list WriterCall :=
  JobCache_WriteJob (InMemoryPlugin_cache p) [] user id.

Definition InMemoryPlugin_GetJobs (range : gmap string Job → list (string * Job)) (p : InMemoryPlugin)
    (user : string) (filter : JobFilter) : outcome (list WriterCall) :=
  JobCache_WriteJobs range (InMemoryPlugin_cache p) [] user (Some filter).

Definition newline : string := String (Ascii.ascii_of_nat 10) "".

Definition output_line (outputType : JobOutput) (i : nat) : string :=
  let n := strconv_Itoa (Z.of_nat (S i)) in
  if decide (outputType = OutputStdout) then ("Line " ++ n ++ " from stdout" ++ newline)%string
  else if decide (outputType = OutputStderr) then ("Line " ++ n ++ " from stderr" ++ newline)%string
  else ("Line " ++ n ++ " from stdout" ++ newline ++ "Line " ++ n ++ " from stderr" ++ newline)%string.

(** [GetJobOutput] when the client lets [ticks] ticks pass before cancelling. *)
Definition InMemoryPlugin_GetJobOutput (ticks : nat) (p : InMemoryPlugin) (user : string) (id : JobID)
    (outputType : JobOutput) : list WriterCall :=
  match JobCache_Lookup (InMemoryPlugin_cache p) user id (λ _, tt) with
  | inr err => [CallError err]
  | inl _ => ((λ i, CallJobOutput (output_line outputType i) outputType) <$> seq 0 (Nat.min ticks 3)) ++ [CallClose]
  end.

(** The simulated utilisation values. *)
Definition resource_sample : WriterCall :=
  CallJobResourceUtil (float_of_Z 15) (float_of_Z 100) (float_of_Z 350) (float_of_Z 80).

(** One turn of [GetJobResourceUtil]'s loop: the calls, and whether it returns. *)
Definition resource_poll (p : InMemoryPlugin) (user : string) (id : JobID) : list WriterCall * bool :=
  match JobCache_Lookup (InMemoryPlugin_cache p) user id (λ job,
          resource_sample :: (if TerminalStatus (Job_Status job) then [CallClose] else [])) with
  | inl calls => (calls, false)
  | inr err => ([CallError err], true)
  end.

(** The loop over the states the plugin is in at each poll, until the client
    cancels. *)
Fixpoint InMemoryPlugin_GetJobResourceUtil (polls : list InMemoryPlugin) (user : string) (id : JobID)
    : list WriterCall :=
  match polls with
  | [] => []
  | p :: polls =>
      let '(calls, returns) := resource_poll p user id in
      calls ++ (if (returns : bool) then [] else InMemoryPlugin_GetJobResourceUtil polls user id)
  end.

(** The callback of [ControlJob]: the validation error it records and the job
    it returns. *)
Definition control_callback (op : JobOperation) (opts : ControlJobOptions) (job : Job) : option error * Job :=
  let expectedStatus := JobOperation_ValidForStatus op in
  if decide (expectedStatus ≠ Job_Status job) then
    (Some (ErrAPI (Errorf CodeInvalidJobState
       ("Job must be " ++ expectedStatus ++ " to " ++ JobOperation_String op
         ++ " it (current status: " ++ Job_Status job ++ ")"))), job)
  else if decide (op = OperationSuspend ∨ op = OperationResume) then
    (Some (ErrAPI (Errorf CodeRequestNotSupported
       ("Operation " ++ JobOperation_String op ++ " is not supported by this plugin"))), job)
  else if decide (op = OperationStop) then
    (None, job <| Job_Status := StatusFinished |> <| Job_ExitCode := Some 143%Z |>)
  else if decide (op = OperationKill) then
    (None, job <| Job_Status := StatusKilled |> <| Job_ExitCode := Some 137%Z |>
             <| Job_StatusMsg := ControlJobOptions_StatusMessage opts |>
             <| Job_StatusCode := ControlJobOptions_StatusCode opts |>)
  else if decide (op = OperationCancel) then (None, job <| Job_Status := StatusCanceled |>)
  else (None, job).

Definition InMemoryPlugin_ControlJob (pick : bool) (now : Time) (p : InMemoryPlugin) (user : string)
    (id : JobID) (op : JobOperation) (opts : ControlJobOptions) : outcome (InMemoryPlugin * list WriterCall) :=
  r ← JobCache_Update pick now (InMemoryPlugin_cache p) user id
        (λ job, let '(verr, job) := control_callback op opts job in Ret (verr, Some job));
  let '(got, cache, err) := r in
  let p := mkInMemoryPlugin cache (InMemoryPlugin_nextID p) in
  match err, got with
  | Some err, _ => Ret (p, [CallError err])
  | None, Some (Some verr) => Ret (p, [CallError verr])
  | None, _ => Ret (p, [CallControlJob true ("Job " ++ JobOperation_String op ++ " successful")])
  end.

Definition InMemoryPlugin_GetJobNetwork (hostname : string) (p : InMemoryPlugin) (user : string) (id : JobID)
    : list WriterCall :=
  match JobCache_Lookup (InMemoryPlugin_cache p) user id
          (λ _, [CallJobNetwork hostname (Some ["127.0.0.1"])]) with
  | inl calls => calls
  | inr err => [CallError err]
  end.

Definition InMemoryPlugin_ClusterInfo : list WriterCall :=
  [CallClusterInfo {|
     ClusterOptions_Queues := Some ["default"; "high-priority"; "batch"];
     ClusterOptions_DefaultQueue := "default";
     ClusterOptions_Limits := Some [mkResourceLimit "cpuCount" "" "" "32"; mkResourceLimit "memory" "" "" "128GB"];
     ClusterOptions_ImageOpt := mkImageOptions "" None false false false;
     ClusterOptions_Configs := Some [mkJobConfig "email" "string" ""; mkJobConfig "notifications" "bool" ""];
     ClusterOptions_Constraints := Some [];
     ClusterOptions_Profiles := Some [] |}].

(** ** The life cycle *)

(** What can happen to the plugin's jobs. *)
Inductive lifecycle_event :=
| LSubmit (user : string) (job : Job)
| LFirst (user : string) (id : JobID)
| LSecond (user : string) (id : JobID) (longRunning : bool)
| LControl (user : string) (id : JobID) (op : JobOperation) (opts : ControlJobOptions).

Definition lifecycle_step (pick : bool) (now : Time) (p : InMemoryPlugin) (e : lifecycle_event)
    : outcome InMemoryPlugin :=
  match e with
  | LSubmit user job => r ← InMemoryPlugin_SubmitJob pick now p user job; Ret r.1.1
  | LFirst user id => simulateJobLifecycle_first pick now p user id
  | LSecond user id longRunning => simulateJobLifecycle_second pick now p user id longRunning
  | LControl user id op opts => r ← InMemoryPlugin_ControlJob pick now p user id op opts; Ret r.1
  end.

(** A sequence of events, each with its time and the choice of the select. *)
Fixpoint lifecycle_exec (p : InMemoryPlugin) (es : list (bool * Time * lifecycle_event)) : outcome InMemoryPlugin :=
  match es with
  | [] => Ret p
  | (pick, now, e) :: es => p ← lifecycle_step pick now p e; lifecycle_exec p es
  end.

Definition new_plugin : InMemoryPlugin := mkInMemoryPlugin NewJobCache 0.

(** The moves of the life cycle. *)
Inductive moves : string → string → Prop :=
| move_start : moves StatusPending StatusRunning
| move_cancel : moves StatusPending StatusCanceled
| move_finish : moves StatusRunning StatusFinished
| move_kill : moves StatusRunning StatusKilled.

Definition stored (p : InMemoryPlugin) : gmap string Job := store_jobs (JobCache_store (InMemoryPlugin_cache p)).

Lemma mark_running_moves job :
  Job_Status (mark_running job) = Job_Status job ∨ moves (Job_Status job) (Job_Status (mark_running job)).
Proof.
  unfold mark_running. case_decide as H; [right|by left]. rewrite H. destruct job. constructor.
Qed.

Lemma mark_finished_moves job :
  Job_Status (mark_finished job) = Job_Status job ∨ moves (Job_Status job) (Job_Status (mark_finished job)).
Proof.
  unfold mark_finished. case_decide as H; [right|by left]. rewrite H. destruct job. constructor.
Qed.

Lemma control_moves op opts job :
  Job_Status (control_callback op opts job).2 = Job_Status job ∨
  moves (Job_Status job) (Job_Status (control_callback op opts job).2).
Proof.
  unfold control_callback. case_decide as Hs; [by left|].
  assert (Job_Status job = JobOperation_ValidForStatus op) as Hv
    by (by destruct (decide (JobOperation_ValidForStatus op = Job_Status job))).
  case_decide as Hn; [by left|]. rewrite Hv. destruct job.
  destruct (decide (op = OperationStop)) as [->|]; [right; constructor|].
  destruct (decide (op = OperationKill)) as [->|]; [right; constructor|].
  destruct (decide (op = OperationCancel)) as [->|]; [right; constructor|]. by left.
Qed.

(** A write through [Update] moves the named job as its callback does, and no
    other. *)
Lemma written_moves pick now r id job k j cur :
  store_jobs (JobCache_store r) !! id = Some cur →
  Job_Status job = Job_Status cur ∨ moves (Job_Status cur) (Job_Status job) →
  store_jobs (JobCache_store r) !! k = Some j →
  ∃ j', store_jobs (JobCache_store (written pick now r id job)) !! k = Some j' ∧
    (Job_Status j' = Job_Status j ∨ moves (Job_Status j) (Job_Status j')).
Proof.
  intros Hcur Hm Hk. destruct (decide (k = id)) as [->|Hne].
  - rewrite written_lookup, Hcur. simplify_eq. eexists. split; [done|].
    unfold merged. by rewrite syncJob2_Status.
  - exists j. split; [|by left]. unfold written. cbn. by rewrite lookup_insert_ne.
Qed.

(** Statuses after an update with a total callback. *)
Lemma cache_Update_moves {A} pick now r user id (fn : Job → outcome (A * option Job)) res :
  (∀ job, ∃ a job', fn job = Ret (a, Some job') ∧
     (Job_Status job' = Job_Status job ∨ moves (Job_Status job) (Job_Status job'))) →
  JobCache_Update pick now r user id fn = Ret res →
  ∀ k j, store_jobs (JobCache_store r) !! k = Some j →
  ∃ j', store_jobs (JobCache_store res.1.2) !! k = Some j' ∧
    (Job_Status j' = Job_Status j ∨ moves (Job_Status j) (Job_Status j')).
Proof.
  intros Hfn Hup k j Hk. destruct (store_jobs (JobCache_store r) !! id) as [cur|] eqn:Hcur.
  - destruct (user_may user cur) eqn:Hu.
    + destruct (Hfn cur) as (a & job' & Hf & Hm).
      rewrite (Update_allowed _ _ _ _ _ fn cur a job') in Hup by done. injection Hup as <-. cbn.
      by apply (written_moves pick now r id job' k j cur).
    + rewrite Update_denied in Hup by (intros; by simplify_eq). injection Hup as <-. eauto.
  - rewrite Update_denied in Hup by (intros; by simplify_eq). injection Hup as <-. eauto.
Qed.

(** [Update] adds no job. *)
Lemma cache_Update_dom {A} pick now r user id (fn : Job → outcome (A * option Job)) res k :
  JobCache_Update pick now r user id fn = Ret res →
  is_Some (store_jobs (JobCache_store res.1.2) !! k) → is_Some (store_jobs (JobCache_store r) !! k).
Proof.
  rewrite cache_Update_branches. destruct (store_jobs (JobCache_store r) !! id) as [cur|] eqn:Hcur.
  - destruct (user_may user cur); [|by intros [= <-]].
    intros ([a [job|]] & _ & [= <-])%bind_Ret_inv. cbn. rewrite lookup_insert_is_Some.
    intros [<-|[_ H]]; [by rewrite Hcur|done].
  - by intros [= <-].
Qed.

(** Submitted jobs have the IDs handed out so far. *)
Definition ids_bound (p : InMemoryPlugin) : Prop :=
  (0 ≤ InMemoryPlugin_nextID p)%Z ∧
  ∀ id, is_Some (stored p !! id) → ∃ k, (1 ≤ k ≤ InMemoryPlugin_nextID p)%Z ∧ id = job_name k.

Lemma job_name_inj a b :
  (0 ≤ a < 2 ^ 31)%Z → (0 ≤ b < 2 ^ 31)%Z → job_name a = job_name b → a = b.
Proof.
  intros Ha Hb H%(inj (String.app "job-")).
  assert (∀ z, (0 ≤ z < 2 ^ 31)%Z → strconv_Atoi (strconv_Itoa z) = Some z) as Hr.
  { intros z Hz. apply Atoi_Itoa. unfold in_int64, int64_min, int64_max.
    apply andb_true_iff. rewrite !Z.leb_le. lia. }
  pose proof (Hr a Ha) as H1. rewrite H, (Hr b Hb) in H1. by injection H1.
Qed.

Lemma wrap32_small z : (0 ≤ z < 2 ^ 31)%Z → wrap32 z = z.
Proof. intros H. unfold wrap32. rewrite Z.mod_small; lia. Qed.

(** One event: IDs stay bounded, at most one more is handed out, and every job
    stays or moves along the life cycle. *)
Lemma lifecycle_step_ok pick now p e p' :
  ids_bound p → (InMemoryPlugin_nextID p < 2 ^ 31 - 1)%Z → lifecycle_step pick now p e = Ret p' →
  ids_bound p' ∧ (InMemoryPlugin_nextID p' ≤ InMemoryPlugin_nextID p + 1)%Z ∧
  ∀ k j, stored p !! k = Some j → ∃ j', stored p' !! k = Some j' ∧
    (Job_Status j' = Job_Status j ∨ moves (Job_Status j) (Job_Status j')).
Proof.
  intros [Hpos Hids] Hlt Hstep.
  (* what an update of an existing job gives *)
  assert (∀ {A} (fn : Job → outcome (A * option Job)) user id res,
    (∀ job, ∃ a job', fn job = Ret (a, Some job') ∧
       (Job_Status job' = Job_Status job ∨ moves (Job_Status job) (Job_Status job'))) →
    JobCache_Update pick now (InMemoryPlugin_cache p) user id fn = Ret res →
    p' = mkInMemoryPlugin res.1.2 (InMemoryPlugin_nextID p) →
    ids_bound p' ∧ (InMemoryPlugin_nextID p' ≤ InMemoryPlugin_nextID p + 1)%Z ∧
    ∀ k j, stored p !! k = Some j → ∃ j', stored p' !! k = Some j' ∧
      (Job_Status j' = Job_Status j ∨ moves (Job_Status j) (Job_Status j'))) as Hupd.
  { intros A fn user id res Hfn Hup ->. pose proof (cache_Update_moves _ _ _ _ _ _ _ Hfn Hup) as Hm.
    split; [|split; [cbn; lia|exact Hm]]. split; [done|]. intros k Hk. apply Hids.
    by eapply cache_Update_dom. }
  destruct e as [user job|user id|user id lr|user id op opts]; cbn [lifecycle_step] in Hstep.
  - unfold InMemoryPlugin_SubmitJob in Hstep. rewrite AddOrUpdate_eq in Hstep. cbn in Hstep.
    injection Hstep as <-. rewrite wrap32_small by lia. set (n := (InMemoryPlugin_nextID p + 1)%Z).
    set (job' := submitted_job (job_name n) user now job).
    assert (Job_ID job' = job_name n) as Hjid by (by destruct job).
    assert (stored p !! job_name n = None) as Hnew.
    { destruct (stored p !! job_name n) eqn:E; [|done]. destruct (Hids (job_name n)) as (k & Hk & Heq); [by eexists|].
      apply job_name_inj in Heq; lia. }
    unfold written. cbn -[n]. rewrite Hjid. split; [split; [cbn; lia|]|split; [done|]].
    + intros k. unfold stored. cbn -[n]. rewrite lookup_insert_is_Some. intros [<-|[_ Hk]].
      * exists n. split; [lia|done].
      * destruct (Hids k Hk) as (m & Hm & ->). exists m. split; [lia|done].
    + intros k j Hk. exists j. split; [|by left]. unfold stored. cbn -[n].
      rewrite lookup_insert_ne; [done|]. intros <-. unfold stored in Hnew, Hk. congruence.
  - apply bind_Ret_inv in Hstep as (res & Hup & [= <-]). eapply Hupd; [|exact Hup|done].
    intros j. eexists _, _. split; [done|]. apply mark_running_moves.
  - unfold simulateJobLifecycle_second in Hstep. destruct lr.
    + injection Hstep as <-. split; [done|]. split; [lia|]. eauto.
    + apply bind_Ret_inv in Hstep as (res & Hup & [= <-]). eapply Hupd; [|exact Hup|done].
      intros j. eexists _, _. split; [done|]. apply mark_finished_moves.
  - apply bind_Ret_inv in Hstep as ([p1 calls] & Hc & [= <-]). unfold InMemoryPlugin_ControlJob in Hc.
    apply bind_Ret_inv in Hc as ([[got cache] err] & Hup & Hk). eapply Hupd; [|exact Hup|].
    + intros j. cbv beta. pose proof (control_moves op opts j) as Hm.
      destruct (control_callback op opts j) as [verr j']. cbn [snd] in Hm. exists verr, j'. by split.
    + cbn. destruct err; [by injection Hk as <- _|]. destruct got as [[]|]; by injection Hk as <- _.
Qed.

Lemma moves_terminal a b : moves a b → TerminalStatus a = false.
Proof. by destruct 1. Qed.

Lemma lifecycle_exec_ok es p p' :
  ids_bound p → (InMemoryPlugin_nextID p + Z.of_nat (length es) < 2 ^ 31)%Z →
  lifecycle_exec p es = Ret p' →
  ids_bound p' ∧ (InMemoryPlugin_nextID p' ≤ InMemoryPlugin_nextID p + Z.of_nat (length es))%Z ∧
  ∀ k j, stored p !! k = Some j → ∃ j', stored p' !! k = Some j' ∧ rtc moves (Job_Status j) (Job_Status j').
Proof.
  revert p. induction es as [|[[pick now] e] es IH]; intros p Hok Hlt; cbn [lifecycle_exec length].
  - intros [= <-]. split; [done|]. split; [lia|]. intros k j Hk. exists j. split; [done|reflexivity].
  - intros (p1 & H1 & H2)%bind_Ret_inv. cbn [length] in Hlt.
    destruct (lifecycle_step_ok pick now p e p1 Hok ltac:(lia) H1) as (Hok1 & Hn1 & Hm1).
    destruct (IH p1 Hok1 ltac:(lia) H2) as (Hok2 & Hn2 & Hm2).
    split; [done|]. split; [lia|]. intros k j Hk.
    destruct (Hm1 k j Hk) as (j1 & Hj1 & Hs1). destruct (Hm2 k j1 Hj1) as (j2 & Hj2 & Hs2).
    exists j2. split; [done|]. destruct Hs1 as [<-|Hs1]; [done|]. by eapply rtc_l.
Qed.

Lemma rtc_moves_terminal a b : rtc moves a b → TerminalStatus a = true → a = b.
Proof. intros [|? ? ? Hm _]; [done|]. apply moves_terminal in Hm. congruence. Qed.

Lemma new_plugin_ok : ids_bound new_plugin.
Proof. split; [cbn; lia|]. intros id [j Hj]. cbn in Hj. by rewrite lookup_empty in Hj. Qed.

(** ** Properties *)

(** C29: the plugin's jobs follow the life cycle.  Whatever is submitted,
    simulated and controlled, and in whatever order, a stored job stays stored
    and its status only moves pending to running or canceled, and running to
    finished or killed; a job that has ended keeps its status.  (Job IDs are
    unique for the first 2^31 - 1 submissions.) *)
Theorem lifecycle_respected (es1 es2 : list (bool * Time * lifecycle_event)) (p1 p2 : InMemoryPlugin)
    (H1 : lifecycle_exec new_plugin es1 = Ret p1) (H2 : lifecycle_exec p1 es2 = Ret p2)
    (Hlen : (Z.of_nat (length es1 + length es2) < 2 ^ 31)%Z) :
  ∀ id job, stored p1 !! id = Some job →
  ∃ job', stored p2 !! id = Some job' ∧ rtc moves (Job_Status job) (Job_Status job') ∧
    (TerminalStatus (Job_Status job) = true → Job_Status job' = Job_Status job).
Proof.
  destruct (lifecycle_exec_ok es1 new_plugin p1 new_plugin_ok) as (Hok1 & Hn1 & _); [cbn; lia|done|].
  destruct (lifecycle_exec_ok es2 p1 p2 Hok1) as (_ & _ & Hm); [cbn in Hn1; lia|done|].
  intros id job Hj. destruct (Hm id job Hj) as (job' & Hj' & Hr). exists job'. split; [done|].
  split; [done|]. intros Ht. symmetry. by apply rtc_moves_terminal.
Qed.

Definition sample_events : list (bool * Time * lifecycle_event) :=
  let t := mkTime 7 "UTC" in
  [(true, t, LSubmit "alice" sample_job); (true, t, LFirst "alice" "job-1");
   (true, t, LControl "alice" "job-1" OperationKill (mkControlJobOptions "bye" "9"))].

Definition sample_late : list (bool * Time * lifecycle_event) :=
  let t := mkTime 8 "UTC" in
  [(true, t, LSecond "alice" "job-1" false);
   (true, t, LControl "alice" "job-1" OperationStop (mkControlJobOptions "" ""))].

Lemma lifecycle_respected_witness :
  ∃ p1 p2 job job', lifecycle_exec new_plugin sample_events = Ret p1 ∧
    lifecycle_exec p1 sample_late = Ret p2 ∧
    stored p1 !! "job-1" = Some job ∧ Job_Status job = StatusKilled ∧
    stored p2 !! "job-1" = Some job' ∧ rtc moves (Job_Status job) (Job_Status job') ∧
    (TerminalStatus (Job_Status job) = true → Job_Status job' = Job_Status job).
Proof.
  destruct (lifecycle_exec new_plugin sample_events) as [p1|] eqn:E1; [|vm_compute in E1; discriminate].
  destruct (lifecycle_exec p1 sample_late) as [p2|] eqn:E2;
    [|vm_compute in E1; injection E1 as <-; vm_compute in E2; discriminate].
  destruct (stored p1 !! "job-1") as [job|] eqn:Ej;
    [|vm_compute in E1; injection E1 as <-; vm_compute in Ej; discriminate].
  destruct (lifecycle_respected sample_events sample_late p1 p2 E1 E2 ltac:(vm_compute; reflexivity) "job-1" job Ej)
    as (job' & Hj' & Hr & Ht).
  exists p1, p2, job, job'. split; [reflexivity|]. split; [exact E2|]. split; [exact Ej|]. split; [|auto].
  vm_compute in E1. injection E1 as <-. vm_compute in Ej. injection Ej as <-. reflexivity.
Defined.

(** The operation ends the job: its new status, exit code and the status
    texts. *)
Definition control_result (op : JobOperation) (opts : ControlJobOptions) (job : Job) : option Job :=
  if decide (JobOperation_ValidForStatus op ≠ Job_Status job) then None
  else if decide (op = OperationStop) then
    Some (job <| Job_Status := StatusFinished |> <| Job_ExitCode := Some 143%Z |>)
  else if decide (op = OperationKill) then
    Some (job <| Job_Status := StatusKilled |> <| Job_ExitCode := Some 137%Z |>
              <| Job_StatusMsg := ControlJobOptions_StatusMessage opts |>
              <| Job_StatusCode := ControlJobOptions_StatusCode opts |>)
  else if decide (op = OperationCancel) then Some (job <| Job_Status := StatusCanceled |>)
  else None.

(** [ControlJob] on every branch, for the operations the runtime lets
    through: the job of the user is stopped, killed (with the caller's reason)
    or canceled and success is reported exactly when the operation is one of
    these three and valid for the job's status; otherwise one error is written
    and the stored jobs are unchanged. *)
Theorem ControlJob_spec (pick : bool) (now : Time) (p : InMemoryPlugin) (user : string) (id : JobID)
    (op : JobOperation) (opts : ControlJobOptions)
    (Hop : op ∈ [OperationSuspend; OperationResume; OperationStop; OperationKill; OperationCancel]) :
  ∃ p' calls, InMemoryPlugin_ControlJob pick now p user id op opts = Ret (p', calls) ∧
    match (cur ← stored p !! id; if user_may user cur then control_result op opts cur else None) with
    | Some job =>
        calls = [CallControlJob true ("Job " ++ JobOperation_String op ++ " successful")] ∧
        stored p' = <[id := merged now (stored p !! id) job]> (stored p)
    | None => (∃ err, calls = [CallError err]) ∧ stored p' = stored p
    end.
Proof.
  unfold InMemoryPlugin_ControlJob. rewrite cache_Update_branches. fold (stored p).
  destruct (stored p !! id) as [cur|] eqn:Hcur; cbn [mbind option_bind];
    [|eexists _, _; split; [done|]; split; [by eexists|done]].
  destruct (user_may user cur); [|eexists _, _; split; [done|]; split; [by eexists|done]].
  (* an unchanged job is merged back as it was *)
  assert (stored (mkInMemoryPlugin (written pick now (InMemoryPlugin_cache p) id cur) (InMemoryPlugin_nextID p))
    = stored p) as Hsame.
  { unfold stored, written. cbn. fold (stored p). rewrite Hcur. cbn. by rewrite sync_self, insert_id. }
  unfold control_callback, control_result. case_decide as Hs.
  { eexists _, _. split; [done|]. split; [by eexists|exact Hsame]. }
  destruct (decide (op = OperationSuspend ∨ op = OperationResume)) as [Hn|Hn].
  { rewrite !decide_False by (destruct Hn as [-> | ->]; done).
    eexists _, _. split; [done|]. split; [by eexists|exact Hsame]. }
  assert (op = OperationStop ∨ op = OperationKill ∨ op = OperationCancel) as Ho
    by (rewrite !elem_of_cons, elem_of_nil in Hop; tauto).
  destruct Ho as [->|[->| ->]]; cbn -[merged syncJob2 written]; eexists _, _; (split; [done|]);
    (split; [done|]); unfold stored, written; cbn -[merged]; fold (stored p); by rewrite Hcur.
Qed.

Lemma ControlJob_spec_witness :
  let p := mkInMemoryPlugin (NewJobCache <| JobCache_store := sample_store |>) 2 in
  ∃ p', InMemoryPlugin_ControlJob true (mkTime 7 "UTC") p "alice" "job-1" OperationKill
          (mkControlJobOptions "bye" "9") = Ret (p', [CallControlJob true "Job Kill successful"]) ∧
    Job_Status <$> stored p' !! "job-1" = Some StatusKilled.
Proof.
  intros p.
  destruct (ControlJob_spec true (mkTime 7 "UTC") p "alice" "job-1" OperationKill (mkControlJobOptions "bye" "9"))
    as (p' & calls & Hrun & Hres); [apply (bool_decide_unpack (OperationKill ∈ _)); vm_compute; exact I|].
  vm_compute in Hres. destruct Hres as [-> Hst]. exists p'. split; [exact Hrun|].
  clear Hst. vm_compute in Hrun. injection Hrun as <-. vm_compute. reflexivity.
Defined.

(** For a job that has ended, [GetJobResourceUtil] closes its stream and
    then goes on polling: every later poll writes another sample and closes the
    stream again, until the client cancels. *)
Theorem resource_util_writes_after_close (p : InMemoryPlugin) (user : string) (id : JobID) (job : Job) (n : nat)
    (Hj : stored p !! id = Some job) (Hu : user_may user job = true)
    (Ht : TerminalStatus (Job_Status job) = true) :
  InMemoryPlugin_GetJobResourceUtil (replicate n p) user id =
    mjoin (replicate n [resource_sample; CallClose]).
Proof.
  induction n as [|n IH]; [done|]. cbn [replicate InMemoryPlugin_GetJobResourceUtil].
  unfold resource_poll. rewrite (Lookup_found _ _ _ _ job Hj Hu), Ht, IH. done.
Qed.

Lemma resource_util_writes_after_close_witness :
  let p := mkInMemoryPlugin (NewJobCache <| JobCache_store := mkStore {[ "job-1" :=
             sample_job <| Job_Status := StatusFinished |> ]} |>) 1 in
  InMemoryPlugin_GetJobResourceUtil [p; p] "alice" "job-1" =
    [resource_sample; CallClose; resource_sample; CallClose].
Proof.
  intros p. apply (resource_util_writes_after_close p "alice" "job-1"
    (sample_job <| Job_Status := StatusFinished |>) 2); vm_compute; reflexivity.
Defined.
