(* ===== verification/Logger.v ===== *)
(** * Logging configuration and format (src/logger/conf.go, src/logger/logger.go)

    How a plugin's logging configuration is put together from defaults, the
    logging.conf file and the environment, and how a log record is rendered as
    a line.  The INI parser is not part of the repository: its result (the
    value of a key in a section, if present) is an argument.  Strings are byte
    strings and letter case is ASCII. *)

From S2P Require Import Prelude GoStd Types Runtime.

(** ** Levels ([log/slog]) *)
Definition LevelDebug : Z := -4.
Definition LevelInfo : Z := 0.
Definition LevelWarn : Z := 4.
Definition LevelError : Z := 8.

(** [fmt.Sprintf("%s%+d", base, val)], without the suffix for 0. *)
Definition level_offset (base : string) (val : Z) : string :=
  if (val =? 0)%Z then base
  else (base ++ (if (0 <? val)%Z then "+" else "") ++ strconv_Itoa val)%string.

Definition Level_String (l : Z) : string :=
  if (l <? LevelInfo)%Z then level_offset "DEBUG" (l - LevelDebug)
  else if (l <? LevelWarn)%Z then level_offset "INFO" (l - LevelInfo)
  else if (l <? LevelError)%Z then level_offset "WARN" (l - LevelWarn)
  else level_offset "ERROR" (l - LevelError).

Definition levelString (level : Z) : string :=
  if (level =? LevelWarn)%Z then "WARNING" else Level_String level.

(** ** Configuration *)
Definition DestinationFile : string := "file".
Definition DestinationStderr : string := "stderr".

Record Config := mkConfig { Config_Level : Z; Config_Type : string; Config_Dir : string }.

#[export] Instance eta_Config : Eta Config := λ c, mkConfig (Config_Level c) (Config_Type c) (Config_Dir c).
#[export] Instance set_Config_Level : Setter Config_Level := ltac:(solve_setter).
#[export] Instance set_Config_Type : Setter Config_Type := ltac:(solve_setter).
#[export] Instance set_Config_Dir : Setter Config_Dir := ltac:(solve_setter).

Definition defaultConfPath : string := "/etc/rstudio/logging.conf".

Definition parseLevel (s : string) : Z :=
  let s := strings_ToLower s in
  if decide (s = "debug") then LevelDebug
  else if decide (s = "info") then LevelInfo
  else if decide (s = "warn" ∨ s = "warning") then LevelWarn
  else if decide (s = "error") then LevelError
  else LevelWarn.

(** [strings.EqualFold]. *)
Definition EqualFold (s t : string) : bool := bool_decide (strings_ToLower s = strings_ToLower t).

Definition parseLoggerType (s : string) : string :=
  if EqualFold s "stderr" then DestinationStderr else DestinationFile.

(** A section of the file: the value of each key it has. *)
Abbreviation ini_section := (string → option string) (only parsing).

(** [if sec.HasKey(key) { if v := sec.Key(key).String(); v != "" { ... } }]. *)
Definition nonempty_key (sec : ini_section) (key : string) : option string :=
  match sec key with
  | Some v => if decide (v ≠ "") then Some v else None
  | None => None
  end.

Definition applySection (cfg : Config) (sec : ini_section) : Config :=
  let cfg := match nonempty_key sec "log-level" with
             | Some v => cfg <| Config_Level := parseLevel v |> | None => cfg end in
  let cfg := match nonempty_key sec "logger-type" with
             | Some v => cfg <| Config_Type := parseLoggerType v |> | None => cfg end in
  match nonempty_key sec "log-dir" with
  | Some v => cfg <| Config_Dir := v |> | None => cfg end.

Definition applyEnvOverrides (getenv : string → string) (cfg : Config) : Config :=
  let cfg := let v := getenv "RS_LOG_LEVEL" in
             if decide (v ≠ "") then cfg <| Config_Level := parseLevel v |> else cfg in
  let cfg := let v := getenv "RS_LOGGER_TYPE" in
             if decide (v ≠ "") then cfg <| Config_Type := parseLoggerType v |> else cfg in
  let v := getenv "RS_LOG_DIR" in
  if decide (v ≠ "") then cfg <| Config_Dir := v |> else cfg.

(** What [os.Stat] says about a path, and for a regular file what the INI
    parser makes of it: an error, or its sections. *)
Inductive conf_file :=
| NotExist
| StatError (err : error)
| NotRegular
| Regular (parsed : error + (string → string → option string)).

Definition reading_error (path : string) (err : error) : error :=
  ErrWrap ("reading logging config " ++ path) err.

Definition LoadConfig (getenv : string → string) (files : string → conf_file)
    (executableName : string) (defaults : Config) : Config * option error :=
  let cfg := defaults in
  let confPath := getenv "RS_LOG_CONF_FILE" in
  let confPath := if decide (confPath = "") then defaultConfPath else confPath in
  match files confPath with
  | StatError err => (cfg, Some (reading_error confPath err))
  | NotRegular => (cfg, Some (reading_error confPath (ErrSentinel "not a regular file")))
  | Regular (inl err) => (cfg, Some (reading_error confPath err))
  | Regular (inr ini) =>
      let cfg := applySection cfg (ini "*") in
      let cfg := applySection cfg (ini ("@" ++ executableName)%string) in
      (applyEnvOverrides getenv cfg, None)
  | NotExist => (applyEnvOverrides getenv cfg, None)
  end.

(** ** Rendering *)

(** A resolved [slog.Value]: a group, a bool, an error, or another scalar given
    by its [String()]. *)
Inductive Value :=
| GroupValue (children : list (string * Value))
| BoolValue (b : bool)
| ErrorValue (err : error)
| ScalarValue (text : string).

Definition formatValue (v : Value) : string :=
  match v with
  | BoolValue b => if b then "true" else "false"
  | ErrorValue err => error_Error err
  | ScalarValue text => text
  | GroupValue _ => ""
  end.

(** [appendAttr(props, prefix, attr)].  The zero [Attr] has an empty key and is
    not a group, so the test for the empty key covers it. *)
Fixpoint appendAttr (props : list string) (prefix key : string) (v : Value) : list string :=
  match v with
  | GroupValue children =>
      let childPrefix := if decide (key ≠ "") then (prefix ++ key ++ ".")%string else prefix in
      (fix walk (props : list string) (cs : list (string * Value)) : list string :=
         match cs with
         | [] => props
         | c :: cs => walk (appendAttr props childPrefix (fst c) (snd c)) cs
         end) props children
  | _ =>
      if decide (key = "") then props
      else props ++ [(prefix ++ key ++ ": " ++ formatValue v)%string]
  end.

Definition appendAttrs (props : list string) (prefix : string) (attrs : list (string * Value)) : list string :=
  foldl (λ props attr, appendAttr props prefix (fst attr) (snd attr)) props attrs.

Record workbenchHandler := mkHandler {
  handler_level : Z;
  handler_programID : string;
  handler_attrs : list (string * Value);
  handler_groups : list string;
}.

Definition newWorkbenchLogger (programID : string) (level : Z) : workbenchHandler :=
  mkHandler level programID [] [].

Definition workbenchHandler_Enabled (h : workbenchHandler) (level : Z) : bool := (handler_level h <=? level)%Z.

Definition workbenchHandler_WithAttrs (h : workbenchHandler) (attrs : list (string * Value)) : workbenchHandler :=
  mkHandler (handler_level h) (handler_programID h) (handler_attrs h ++ attrs) (handler_groups h).

Definition workbenchHandler_WithGroup (h : workbenchHandler) (name : string) : workbenchHandler :=
  mkHandler (handler_level h) (handler_programID h) (handler_attrs h) (handler_groups h ++ [name]).

Record LogRecord := mkRecord {
  record_time : string;
  record_level : Z;
  record_message : string;
  record_attrs : list (string * Value);
}.

(** The "key: value" entries of a record. *)
Definition handler_props (h : workbenchHandler) (r : LogRecord) : list string :=
  let prefix := strings_Join (handler_groups h ++ [""]) "." in
  let props := appendAttrs [] prefix (handler_attrs h) in
  appendAttrs props prefix (record_attrs r).

(** The line [Handle] writes; [record_time] is the formatted time stamp. *)
Definition workbenchHandler_Handle (h : workbenchHandler) (r : LogRecord) : string :=
  let props := handler_props h r in
  let propStr := if (length props =? 0)%nat then "" else (" [" ++ strings_Join props ", " ++ "]")%string in
  (record_time r ++ " [" ++ handler_programID h ++ "] " ++ levelString (record_level r) ++ " "
    ++ record_message r ++ propStr ++ String (Ascii.ascii_of_nat 10) "")%string.

(** ** Facts *)

Lemma appendAttr_group props prefix key children :
  key ≠ "" →
  appendAttr props prefix key (GroupValue children) = appendAttrs props (prefix ++ key ++ ".") children.
Proof.
  intros Hk. cbn [appendAttr]. rewrite decide_True by done. unfold appendAttrs. revert props.
  induction children as [|c cs IH]; intros props; cbn [foldl]; [done|apply IH].
Qed.

(** The attributes inside nested groups. *)
Fixpoint in_groups (groups : list string) (attrs : list (string * Value)) : list (string * Value) :=
  match groups with
  | [] => attrs
  | g :: gs => [(g, GroupValue (in_groups gs attrs))]
  end.

Lemma Join_prefix g gs :
  strings_Join ((g :: gs) ++ [""]) "." = (g ++ "." ++ strings_Join (gs ++ [""]) ".")%string.
Proof. by destruct gs. Qed.

Lemma appendAttrs_groups groups props prefix attrs :
  Forall (.≠ "") groups →
  appendAttrs props prefix (in_groups groups attrs) =
    appendAttrs props (prefix ++ strings_Join (groups ++ [""]) ".") attrs.
Proof.
  intros Hg. revert props prefix. induction Hg as [|g gs Hg _ IH]; intros props prefix.
  - cbn. by rewrite string_app_nil_r.
  - rewrite Join_prefix. cbn [in_groups]. unfold appendAttrs at 1. cbn [foldl fst snd].
    rewrite appendAttr_group by done. rewrite IH. by rewrite <- !string_app_assoc.
Qed.

(** The first non-empty source of a setting: environment, the binary's own
    section, the global section. *)
Definition conf_key (file : conf_file) (sec key : string) : option string :=
  match file with Regular (inr ini) => nonempty_key (ini sec) key | _ => None end.

Definition conf_path (getenv : string → string) : string :=
  if decide (getenv "RS_LOG_CONF_FILE" = "") then defaultConfPath else getenv "RS_LOG_CONF_FILE".

Definition setting (getenv : string → string) (file : conf_file) (exe env key : string) : option string :=
  if decide (getenv env ≠ "") then Some (getenv env)
  else match conf_key file ("@" ++ exe) key with
       | Some v => Some v
       | None => conf_key file "*" key
       end.

(** ** Properties *)

(** C36: [LoadConfig] resolves each setting on its own: a non-empty environment
    variable wins over the section of the executable, which wins over the
    global section, which wins over the default; empty values count as absent.
    It fails exactly when the configuration file exists but cannot be used, and
    then returns the defaults untouched. *)
Theorem LoadConfig_spec (getenv : string → string) (files : string → conf_file) (exe : string) (defaults : Config) :
  let file := files (conf_path getenv) in
  let get := setting getenv file exe in
  match file with
  | StatError _ | NotRegular | Regular (inl _) =>
      ∃ err, LoadConfig getenv files exe defaults = (defaults, Some err)
  | _ =>
      LoadConfig getenv files exe defaults =
        (mkConfig (from_option parseLevel (Config_Level defaults) (get "RS_LOG_LEVEL" "log-level"))
           (from_option parseLoggerType (Config_Type defaults) (get "RS_LOGGER_TYPE" "logger-type"))
           (default (Config_Dir defaults) (get "RS_LOG_DIR" "log-dir")), None)
  end.
Proof.
  destruct defaults as [level type dir]. cbv zeta. unfold LoadConfig. cbv zeta. fold (conf_path getenv).
  unfold setting, conf_key, applyEnvOverrides, applySection. cbv zeta.
  destruct (files (conf_path getenv)) as [|err| |[err|ini]]; try (by eexists).
  - repeat case_decide; reflexivity.
  - repeat case_decide;
      destruct (nonempty_key (ini "*") "log-level"), (nonempty_key (ini "*") "logger-type"),
        (nonempty_key (ini "*") "log-dir"), (nonempty_key (ini ("@" ++ exe)%string) "log-level"),
        (nonempty_key (ini ("@" ++ exe)%string) "logger-type"),
        (nonempty_key (ini ("@" ++ exe)%string) "log-dir"); reflexivity.
Qed.

(** Logging through a handler with groups is logging the record's
    attributes inside those groups: the entries are the same as those of a
    plain handler for the attributes wrapped in nested groups. *)
Theorem WithGroup_nests (level : Z) (program : string) (groups : list string) (r : LogRecord)
    (Hg : Forall (.≠ "") groups) :
  handler_props (foldl workbenchHandler_WithGroup (newWorkbenchLogger program level) groups) r =
    handler_props (newWorkbenchLogger program level)
      (mkRecord (record_time r) (record_level r) (record_message r) (in_groups groups (record_attrs r))).
Proof.
  assert (∀ gs h, handler_groups (foldl workbenchHandler_WithGroup h gs) = handler_groups h ++ gs ∧
    handler_attrs (foldl workbenchHandler_WithGroup h gs) = handler_attrs h) as Hfold.
  { induction gs as [|g gs IH]; intros h; cbn [foldl]; [by rewrite app_nil_r|].
    destruct (IH (workbenchHandler_WithGroup h g)) as [-> ->]. cbn. by rewrite <- app_assoc. }
  destruct (Hfold groups (newWorkbenchLogger program level)) as [H1 H2].
  unfold handler_props. rewrite H1, H2. cbn [handler_groups handler_attrs newWorkbenchLogger app].
  cbn [record_attrs]. rewrite (appendAttrs_groups groups) by done. done.
Qed.

Lemma WithGroup_nests_witness :
  let r := mkRecord "t" LevelInfo "hello" [("id", ScalarValue "7")] in
  handler_props (workbenchHandler_WithGroup (newWorkbenchLogger "demo" LevelInfo) "job") r = ["job.id: 7"] ∧
  handler_props (foldl workbenchHandler_WithGroup (newWorkbenchLogger "demo" LevelInfo) ["job"]) r =
    handler_props (newWorkbenchLogger "demo" LevelInfo)
      (mkRecord "t" LevelInfo "hello" (in_groups ["job"] [("id", ScalarValue "7")])).
Proof.
  intros r. split; [vm_compute; reflexivity|].
  apply (WithGroup_nests LevelInfo "demo" ["job"] r). constructor; [discriminate|constructor].
Defined.

(** The order of [WithAttrs] and [WithGroup] is lost: attributes attached
    before a group is opened are rendered inside the group, like those of the
    record, although a handler should qualify only what follows. *)
Theorem WithAttrs_before_group (level : Z) (program : string) (attrs : list (string * Value)) (g : string)
    (r : LogRecord) (Hg : g ≠ "") :
  handler_props (workbenchHandler_WithGroup (workbenchHandler_WithAttrs (newWorkbenchLogger program level) attrs) g) r =
    handler_props (newWorkbenchLogger program level)
      (mkRecord (record_time r) (record_level r) (record_message r) (in_groups [g] (attrs ++ record_attrs r))).
Proof.
  unfold handler_props. cbn [handler_groups handler_attrs newWorkbenchLogger workbenchHandler_WithGroup
    workbenchHandler_WithAttrs app record_attrs].
  rewrite (appendAttrs_groups [g]) by (by repeat constructor).
  unfold appendAttrs. by rewrite foldl_app.
Qed.

Lemma WithAttrs_before_group_witness :
  let h := workbenchHandler_WithAttrs (newWorkbenchLogger "demo" LevelInfo) [("user", ScalarValue "alice")] in
  let r := mkRecord "t" LevelInfo "hello" [("id", ScalarValue "7")] in
  handler_props (workbenchHandler_WithGroup h "job") r = ["job.user: alice"; "job.id: 7"].
Proof.
  intros h r. etransitivity.
  - apply (WithAttrs_before_group LevelInfo "demo" [("user", ScalarValue "alice")] "job" r). discriminate.
  - vm_compute. reflexivity.
Defined.
