(* ===== verification/Metrics.v ===== *)
(** * Metrics (src/launcher/metrics.go)

    The latency histogram plugins fill, and the loop that reports metrics to
    the Launcher.  The Prometheus client is not part of the repository: its
    histogram is an interface, of which the code relies on cumulative bucket
    counts that do not decrease. *)

From Stdlib Require Import SpecFloat.
From S2P Require Import Prelude GoStd Types Writer Rpc Communicator Runtime.

(** ** The Prometheus client, as an interface *)

(** [dto.Histogram]: the number of samples, their sum, and for each bucket the
    number of samples up to its bound. *)
Record DtoHistogram := mkDto { dto_SampleCount : Z; dto_SampleSum : float64; dto_CumulativeCounts : list Z }.

Class Prometheus (H : Type) := {
  prom_New : list float64 → H;
  prom_Observe : H → float64 → H;
  prom_Write : H → option DtoHistogram + error;
}.

(** What the client documents of the counts it writes. *)
Class PrometheusLaws (H : Type) `{!Prometheus H} :=
  prom_counts : ∀ h dto, prom_Write h = inl (Some dto) →
    Sorted Z.le (0%Z :: dto_CumulativeCounts dto) ∧
    Forall (λ c, c < 2 ^ 64)%Z (dto_CumulativeCounts dto).

(** ** Histogram *)
Definition is_nan (f : float64) : bool := match f with S754_nan => true | _ => false end.
Definition is_inf (f : float64) : bool := match f with S754_infinity _ => true | _ => false end.
Definition float_zero : float64 := S754_zero false.

Record Histogram (H : Type) := mkHistogram { Histogram_buckets : list float64; Histogram_current : H }.
Arguments mkHistogram {H}.
Arguments Histogram_buckets {H}.
Arguments Histogram_current {H}.

(** [b <= 0 || math.IsNaN(b) || math.IsInf(b, 0)]. *)
Definition bad_bucket (b : float64) : bool := SFleb b float_zero || is_nan b || is_inf b.

(** The loop of [NewHistogram] from some element on. *)
Fixpoint check_buckets (prev : option float64) (buckets : list float64) : outcome unit :=
  match buckets with
  | [] => Ret tt
  | b :: bs =>
      if bad_bucket b then Panic "NewHistogram: bucket must be a finite positive number"
      else match prev with
           | Some p => if SFleb b p then Panic "NewHistogram: buckets must be strictly increasing"
                       else check_buckets (Some b) bs
           | None => check_buckets (Some b) bs
           end
  end.

Section Histogram.
Context {H : Type} `{!Prometheus H}.

Definition NewHistogram (buckets : list float64) : outcome (Histogram H) :=
  if (length buckets =? 0)%nat then Panic "NewHistogram: buckets must not be empty"
  else
    _ ← check_buckets None buckets;
    Ret (mkHistogram buckets (prom_New buckets)).

Definition Histogram_Observe (h : Histogram H) (v : float64) : Histogram H :=
  if is_nan v || is_inf v || SFltb v float_zero then h
  else mkHistogram (Histogram_buckets h) (prom_Observe (Histogram_current h) v).

(** The loop that turns cumulative counts into counts per bucket. *)
Fixpoint per_bucket (prev : Z) (counts : list Z) : list Z :=
  match counts with
  | [] => []
  | count :: counts => wrap64 (count - prev) :: per_bucket count counts
  end.

Definition Histogram_Drain (h : Histogram H) : Histogram H * option HistogramSample :=
  let old := Histogram_current h in
  let h := mkHistogram (Histogram_buckets h) (prom_New (Histogram_buckets h)) in
  match prom_Write old with
  | inr _ | inl None => (h, None)
  | inl (Some hist) =>
      if (dto_SampleCount hist =? 0)%Z then (h, None)
      else (h, Some (mkHistogramSample (float_of_Z <$> per_bucket 0 (dto_CumulativeCounts hist))
                       (dto_SampleSum hist)))
  end.
End Histogram.

(** ** Reporting *)
Record PluginMetrics := mkPluginMetrics {
  PluginMetrics_ClusterInteractionLatency : option HistogramSample;
  PluginMetrics_MemoryUsageBytes : Z;
}.

Definition zeroMetrics : PluginMetrics := mkPluginMetrics None 0.

(** [time.Duration.Seconds]. *)
Definition Duration_Seconds (d : Z) : float64 :=
  let sec := Z.quot d 1000000000 in
  let nsec := Z.rem d 1000000000 in
  SFadd 53 1024 (float_of_Z sec) (SFdiv 53 1024 (float_of_Z nsec) (float_of_Z 1000000000)).

(** [uint64(f)] for a non-negative float in range: truncation. *)
Definition uint64_of_float (f : float64) : Z :=
  match f with
  | S754_finite false m e => if (0 <=? e)%Z then Z.pos m * 2 ^ e else Z.pos m / 2 ^ (- e)
  | _ => 0
  end%Z.

(** [collectPluginMetrics]: [mp] is nil, or what the plugin's method does. *)
Definition collectPluginMetrics (mp : option (outcome PluginMetrics)) : PluginMetrics :=
  match mp with
  | None => zeroMetrics
  | Some (Panic _) => zeroMetrics
  | Some (Ret pm) => pm
  end.

(** [metricsOnce]: a send that does not wait, which still panics when the channel
    is closed. *)
Definition metricsOnce (ch : gochan Response) (mp : option (outcome PluginMetrics))
    (startTime now : Time) : outcome (gochan Response) :=
  let uptime := uint64_of_float (Duration_Seconds (unixNano now - unixNano startTime)) in
  let pm := collectPluginMetrics mp in
  let resp := RespMetrics (NewMetricsResponse uptime (PluginMetrics_MemoryUsageBytes pm)
                             (PluginMetrics_ClusterInteractionLatency pm)) in
  match gochan_send ch resp with
  | Some res => res
  | None => Ret ch
  end.

(** One tick: its time, the plugin's answer, and what the other goroutines did to
    the channel since the last tick. *)
Record tick := mkTick {
  tick_now : Time;
  tick_metrics : option (outcome PluginMetrics);
  tick_env : gochan Response → gochan Response;
}.

(** [metricsLoop] until the context ends. *)
Fixpoint metricsLoop (ch : gochan Response) (startTime : Time) (ticks : list tick)
    : outcome (gochan Response) :=
  match ticks with
  | [] => Ret ch
  | t :: ticks =>
      ch ← metricsOnce (tick_env t ch) (tick_metrics t) startTime (tick_now t);
      metricsLoop ch startTime ticks
  end.

(** ** Facts *)

(** Each bound below the next, and each finite and positive. *)
Definition good_buckets (buckets : list float64) : Prop :=
  buckets ≠ [] ∧ Forall (λ b, bad_bucket b = false) buckets ∧ Sorted (λ a b, SFleb b a = false) buckets.

Lemma check_buckets_ok prev buckets :
  check_buckets prev buckets = Ret tt ↔
  Forall (λ b, bad_bucket b = false) buckets ∧
  Sorted (λ a b, SFleb b a = false) (option_list prev ++ buckets).
Proof.
  revert prev. induction buckets as [|b bs IH]; intros prev; cbn [check_buckets].
  - split; [|done]. intros _. split; [constructor|]. destruct prev; cbn; repeat constructor.
  - rewrite list.Forall_cons. destruct (bad_bucket b); [split; [done|]; by intros [[? _] _]|].
    destruct prev as [p|]; cbn [option_list app].
    + destruct (SFleb b p) eqn:Hp.
      * split; [done|]. intros [_ Hs]. apply Sorted_inv in Hs as [_ Hh]. inversion Hh. congruence.
      * rewrite IH. cbn. split.
        -- intros [Hf Hs]. split; [done|]. by constructor; [|constructor].
        -- intros [[_ Hf] Hs]. split; [done|]. by apply Sorted_inv in Hs as [Hs _].
    + rewrite IH. cbn. tauto.
Qed.

(** Running sums. *)
Fixpoint running (acc : Z) (l : list Z) : list Z :=
  match l with [] => [] | x :: l => (acc + x)%Z :: running (acc + x) l end.

Lemma per_bucket_running prev counts :
  (0 ≤ prev)%Z → Sorted Z.le (prev :: counts) → Forall (λ c, c < 2 ^ 64)%Z counts →
  Forall (λ x, 0 ≤ x)%Z (per_bucket prev counts) ∧ running prev (per_bucket prev counts) = counts.
Proof.
  revert prev. induction counts as [|c cs IH]; intros prev Hp Hs Hb; [done|].
  apply Sorted_inv in Hs as [Hs Hh]. inversion Hh; subst. apply list.Forall_cons in Hb as [Hc Hb].
  cbn [per_bucket running]. rewrite wrap64_small by lia.
  destruct (IH c ltac:(lia) Hs Hb) as [H1 H2]. split; [constructor; [lia|done]|].
  replace (prev + (c - prev))%Z with c by lia. by rewrite H2.
Qed.

(** A small implementation of the interface: it keeps the bounds and the
    samples. *)
Definition counted_up_to (vs : list float64) (b : float64) : Z :=
  Z.min (2 ^ 64 - 1) (Z.of_nat (length (base.filter (λ v, SFleb v b = true) vs))).
Definition count_step (f : float64 → Z) (acc : Z * list Z) (b : float64) : Z * list Z :=
  (Z.max (fst acc) (f b), snd acc ++ [Z.max (fst acc) (f b)]).

#[export] Instance list_Prometheus : Prometheus (list float64 * list float64) := {
  prom_New bounds := (bounds, []);
  prom_Observe h v := (fst h, snd h ++ [v]);
  prom_Write h := inl (Some (mkDto (Z.of_nat (length (snd h)))
    (foldl (SFadd 53 1024) float_zero (snd h))
    (snd (foldl (count_step (counted_up_to (snd h))) (0%Z, []) (fst h)))));
}.

Lemma list_counts (f : float64 → Z) bounds most counts :
  (∀ b, 0 ≤ f b < 2 ^ 64)%Z → (0 ≤ most < 2 ^ 64)%Z →
  ∃ rest, snd (foldl (count_step f) (most, counts) bounds) = counts ++ rest ∧
    Sorted Z.le (most :: rest) ∧ Forall (λ c, c < 2 ^ 64)%Z rest.
Proof.
  intros Hf. revert most counts. induction bounds as [|b bounds IH]; intros most counts Hm; cbn [foldl]; [|unfold count_step at 2; cbn [fst snd]].
  - exists []. rewrite app_nil_r. repeat constructor.
  - specialize (Hf b). destruct (IH (Z.max most (f b)) (counts ++ [Z.max most (f b)]) ltac:(lia))
      as (rest & -> & Hs & Hb).
    exists (Z.max most (f b) :: rest). rewrite <- app_assoc. split; [done|]. split.
    + constructor; [done|]. constructor. lia.
    + constructor; [lia|done].
Qed.

#[export] Instance list_PrometheusLaws : PrometheusLaws (list float64 * list float64).
Proof.
  intros [bounds vs] dto [= <-]. cbn [dto_CumulativeCounts fst snd].
  destruct (list_counts (counted_up_to vs) bounds 0 []) as (rest & Heq & Hs & Hb);
    [intros b; unfold counted_up_to; lia|lia|].
  rewrite Heq. done.
Qed.

(** ** Properties *)

(** [NewHistogram] accepts exactly the non-empty lists of finite positive
    bounds in strictly increasing order, and panics on all others. *)
Lemma NewHistogram_accepts {H} `{!Prometheus H} (buckets : list float64) :
  (∃ h, NewHistogram (H := H) buckets = Ret h) ↔ good_buckets buckets.
Proof.
  unfold NewHistogram, good_buckets. destruct buckets as [|b bs]; [split; [by intros [? ?]|by intros [? _]]|].
  change (length (b :: bs) =? 0)%nat with false. cbn iota.
  pose proof (check_buckets_ok None (b :: bs)) as Hc. cbn [option_list app] in Hc.
  destruct (check_buckets None (b :: bs)) as [[]|why]; cbn [mbind outcome_bind].
  - split; [|by eexists]. intros _. split; [done|]. by apply Hc.
  - split; [by intros [? ?]|]. intros [_ Hg]. by apply Hc in Hg.
Qed.

(** [Drain] hands over what was accumulated and starts afresh: the
    histogram is empty again with the same bounds; the sample's per-bucket
    counts are non-negative and add up, bucket by bucket, to the client's
    cumulative counts; and nothing is reported when nothing was observed. *)
Theorem Drain_spec {H} `{!Prometheus H, !PrometheusLaws H} (h : Histogram H) :
  ∃ h' sample, Histogram_Drain h = (h', sample) ∧
    h' = mkHistogram (Histogram_buckets h) (prom_New (Histogram_buckets h)) ∧
    match prom_Write (Histogram_current h) with
    | inl (Some dto) =>
        if (dto_SampleCount dto =? 0)%Z then sample = None
        else ∃ counts, sample = Some (mkHistogramSample (float_of_Z <$> counts) (dto_SampleSum dto)) ∧
               Forall (λ x, 0 ≤ x)%Z counts ∧ running 0 counts = dto_CumulativeCounts dto
    | _ => sample = None
    end.
Proof.
  unfold Histogram_Drain. destruct (prom_Write (Histogram_current h)) as [[dto|]|err] eqn:Hw;
    [|by eexists _, _|by eexists _, _].
  destruct (dto_SampleCount dto =? 0)%Z; [by eexists _, _|]. eexists _, _. split; [done|]. split; [done|].
  exists (per_bucket 0 (dto_CumulativeCounts dto)). split; [done|].
  destruct (prom_counts _ _ Hw) as [Hs Hb]. by apply per_bucket_running.
Qed.

Definition sample_histogram : Histogram (list float64 * list float64) :=
  let one := float_of_Z 1 in let two := float_of_Z 2 in
  mkHistogram [one; two] ([one; two], [one; two; two]).

Lemma Drain_spec_witness :
  ∃ h' sample, Histogram_Drain sample_histogram = (h', sample) ∧
    h' = mkHistogram (Histogram_buckets sample_histogram) (prom_New (Histogram_buckets sample_histogram)) ∧
    match prom_Write (Histogram_current sample_histogram) with
    | inl (Some dto) =>
        if (dto_SampleCount dto =? 0)%Z then sample = None
        else ∃ counts, sample = Some (mkHistogramSample (float_of_Z <$> counts) (dto_SampleSum dto)) ∧
               Forall (λ x, 0 ≤ x)%Z counts ∧ running 0 counts = dto_CumulativeCounts dto
    | _ => sample = None
    end.
Proof. exact (Drain_spec sample_histogram). Defined.

Example drained_sample :
  snd (Histogram_Drain sample_histogram) =
    Some (mkHistogramSample [float_of_Z 1; float_of_Z 2] (float_of_Z 5)).
Proof. vm_compute. reflexivity. Qed.

(** While the others leave the response channel open, the metrics loop never
    panics, whatever the plugin's [Metrics] does; and a tick that finds room
    appends exactly one report, with the uptime alone when the plugin has no
    metrics or panics. *)
Theorem metricsLoop_safe (ch : gochan Response) (startTime : Time) (ticks : list tick)
    (Hopen : gochan_closed ch = false)
    (Henv : Forall (λ t, ∀ c, gochan_closed c = false → gochan_closed (tick_env t c) = false) ticks) :
  ∃ ch', metricsLoop ch startTime ticks = Ret ch' ∧ gochan_closed ch' = false ∧
  (∀ now mp, length (gochan_buf ch') < gochan_cap ch' →
     ∃ up mem lat, metricsOnce ch' mp startTime now =
       Ret (mkGochan (gochan_buf ch' ++ [RespMetrics (NewMetricsResponse up mem lat)]) (gochan_cap ch') false) ∧
     up = uint64_of_float (Duration_Seconds (unixNano now - unixNano startTime)) ∧
     (mp = None ∨ (∃ why, mp = Some (Panic why)) → mem = 0%Z ∧ lat = None)).
Proof.
  revert ch Hopen. induction Henv as [|t ticks Ht _ IH]; intros ch Hopen; cbn [metricsLoop].
  - exists ch. split_and!; [done|done|]. intros now mp Hroom. unfold metricsOnce, gochan_send.
    rewrite Hopen. destruct (Nat.ltb_spec (length (gochan_buf ch)) (gochan_cap ch)); [|lia].
    eexists _, _, _. split_and!; [done|done|]. by intros [->|[why ->]].
  - unfold metricsOnce, gochan_send at 1. rewrite (Ht ch Hopen).
    destruct (_ <? _)%nat; apply IH; [done|by apply Ht].
Qed.

Lemma metricsLoop_safe_witness :
  let start := mkTime 1000000000 "UTC" in
  let ticks := [mkTick (mkTime 61000000000 "UTC") (Some (Panic "boom")) (λ c, c)] in
  metricsLoop (mkGochan [] 1 false) start ticks =
    Ret (mkGochan [RespMetrics (NewMetricsResponse 60 0 None)] 1 false) ∧
  ∃ ch', metricsLoop (mkGochan [] 1 false) start ticks = Ret ch' ∧ gochan_closed ch' = false.
Proof.
  intros start ticks. split; [vm_compute; reflexivity|].
  destruct (metricsLoop_safe (mkGochan [] 1 false) start ticks) as (ch' & H1 & H2 & _);
    [done|by repeat constructor|]. by exists ch'.
Defined.
