(* ===== verification/TestMonad.v ===== *)
(** * Running tests: the parts of package testing the conformance suite uses

    A test is a computation over the world it runs in (the plugin under test,
    the clock, the goroutines) that may report failures on its [*testing.T] and
    may end early.  [T] holds the world, the flags of the running test and the
    results of the subtests that have ended.  [t_Run] gives a subtest its own
    flags: what it reports marks the parent as failed, [FailNow] and [SkipNow]
    end the subtest only, a panic ends the whole test binary. *)

From S2P Require Import Prelude.

(** How a test can end early: [FailNow], [SkipNow], a panic, a wait that never
    ends. *)
Inductive halt := HaltFatal | HaltSkip | HaltPanic (why : string) | HaltHang.

Inductive verdict := PASS | FAIL | SKIP.

#[export] Instance verdict_eq_dec : EqDecision verdict.
Proof. solve_decision. Defined.

Record T (W : Type) := mkT {
  T_world : W;
  T_failed : bool;
  T_skipped : bool;
  T_results : list (list string * verdict);
}.
Arguments mkT {W}.
Arguments T_world {W}.
Arguments T_failed {W}.
Arguments T_skipped {W}.
Arguments T_results {W}.

Definition Test (W A : Type) : Type := T W → T W * (A + halt).

#[export] Instance Test_ret W : MRet (Test W) := λ A a t, (t, inl a).
#[export] Instance Test_bind W : MBind (Test W) := λ A B f m t,
  match m t with
  | (t, inl a) => f a t
  | (t, inr h) => (t, inr h)
  end.

Lemma Test_bind_eq {W A B} (m : Test W A) (f : A → Test W B) t :
  (m ≫= f) t = match m t with (t, inl a) => f a t | (t, inr h) => (t, inr h) end.
Proof. reflexivity. Qed.

Section Testing.
Context {W : Type}.

(** The world does something: it may panic. *)
Definition world_op {A} (f : W → outcome (W * A)) : Test W A := λ t,
  match f (T_world t) with
  | Ret (w, a) => (mkT w (T_failed t) (T_skipped t) (T_results t), inl a)
  | Panic why => (t, inr (HaltPanic why))
  end.

Definition world_step (f : W → outcome W) : Test W unit := world_op (λ w, w ← f w; Ret (w, tt)).

Definition t_panic {A} (why : string) : Test W A := λ t, (t, inr (HaltPanic why)).
Definition t_hang {A} : Test W A := λ t, (t, inr HaltHang).

(** [t.Error], [t.Errorf]: mark the test as failed and go on. *)
Definition t_Error : Test W unit := λ t, (mkT (T_world t) true (T_skipped t) (T_results t), inl tt).
(** [t.Fatal], [t.Fatalf]. *)
Definition t_Fatal {A} : Test W A := λ t, (mkT (T_world t) true (T_skipped t) (T_results t), inr HaltFatal).
(** [t.Skip], [t.Skipf]. *)
Definition t_Skip {A} : Test W A := λ t, (mkT (T_world t) (T_failed t) true (T_results t), inr HaltSkip).

(** An assertion helper of plugintest, or [if !cond { t.Error(...) }]. *)
Definition t_assert (cond : bool) : Test W unit := if cond then mret tt else t_Error.

Lemma t_assert_eq b (t : T W) :
  t_assert b t = (mkT (T_world t) (T_failed t || negb b) (T_skipped t) (T_results t), inl tt).
Proof. destruct b; [|by destruct t as [? []]]. destruct t. cbn. by rewrite orb_false_r. Qed.

(** [for _, x := range l { f(x) }]. *)
Fixpoint t_for {A} (l : list A) (f : A → Test W unit) : Test W unit :=
  match l with
  | [] => mret tt
  | x :: l => f x ≫= λ _, t_for l f
  end.

(** [defer cleanup()] around the rest of the function.  It runs when the rest
    returns and when it ends the test; after a panic the process dies, and what
    the clean-up does is not seen. *)
Definition t_defer {A} (cleanup : Test W unit) (body : Test W A) : Test W A := λ t,
  match body t with
  | (t, inl a) => match cleanup t with (t, inl _) => (t, inl a) | (t, inr h) => (t, inr h) end
  | (t, inr (HaltFatal as h)) | (t, inr (HaltSkip as h)) =>
      match cleanup t with (t, inl _) => (t, inr h) | (t, inr h') => (t, inr h') end
  | (t, inr h) => (t, inr h)
  end.

(** What is reported of a test that has ended. *)
Definition t_verdict (t : T W) : verdict := if T_failed t then FAIL else if T_skipped t then SKIP else PASS.

Definition under (name : string) (r : list string * verdict) : list string * verdict := (name :: r.1, r.2).

(** [t.Run(name, f)]. *)
Definition t_Run (name : string) (f : Test W unit) : Test W unit := λ t,
  let '(c, r) := f (mkT (T_world t) false false []) in
  let t := mkT (T_world c) (T_failed t || T_failed c) (T_skipped t)
             (T_results t ++ (under name <$> T_results c) ++ [([name], t_verdict c)]) in
  match r with
  | inr (HaltPanic why) => (t, inr (HaltPanic why))
  | inr HaltHang => (t, inr HaltHang)
  | _ => (t, inl tt)
  end.

(** A test function run by [go test]: its final state. *)
Definition t_main (w : W) (f : Test W unit) : T W * (unit + halt) := f (mkT w false false []).

(** The test binary reports "ok": the test returned or was skipped, and nothing
    failed. *)
Definition passed (r : T W * (unit + halt)) : bool :=
  match r.2 with
  | inl _ | inr HaltSkip => negb (T_failed r.1)
  | _ => false
  end.

End Testing.

(** ** Lawful tests

    A failure that was reported is never taken back, and [FailNow] reports one.
    Every test written with the operations above is lawful. *)
Create HintDb testing.

Section Lawful.
Context {W : Type}.

Record lawful {A} (m : Test W A) : Prop := {
  lawful_mono : ∀ t, T_failed t = true → T_failed (m t).1 = true;
  lawful_fatal : ∀ t, (m t).2 = inr HaltFatal → T_failed (m t).1 = true;
}.

Lemma lawful_ret {A} (a : A) : lawful (mret a).
Proof. by split. Qed.

Lemma lawful_bind {A B} (m : Test W A) (f : A → Test W B) : lawful m → (∀ a, lawful (f a)) → lawful (m ≫= f).
Proof.
  intros [Hm1 Hm2] Hf. split; intros t; unfold mbind, Test_bind; specialize (Hm1 t); specialize (Hm2 t);
    destruct (m t) as [t' [a|h]]; cbn in *.
  - intros Ht. by apply Hf, Hm1.
  - done.
  - apply Hf.
  - intros [= ->]. by apply Hm2.
Qed.

Lemma lawful_world_op {A} (f : W → outcome (W * A)) : lawful (world_op f).
Proof. split; intros t; unfold world_op; by destruct (f (T_world t)) as [[]|]. Qed.

Lemma lawful_world_step (f : W → outcome W) : lawful (world_step f).
Proof. apply lawful_world_op. Qed.

Lemma lawful_read {A} (f : T W → A) : lawful (λ t, (t, inl (f t))).
Proof. by split. Qed.

Lemma lawful_Error : lawful t_Error.
Proof. by split. Qed.

Lemma lawful_Fatal {A} : lawful (A := A) t_Fatal.
Proof. by split. Qed.

Lemma lawful_Skip {A} : lawful (A := A) t_Skip.
Proof. by split. Qed.

Lemma lawful_panic {A} why : lawful (A := A) (t_panic why).
Proof. by split. Qed.

Lemma lawful_hang {A} : lawful (A := A) t_hang.
Proof. by split. Qed.

Lemma lawful_assert b : lawful (t_assert b).
Proof. destruct b; [apply lawful_ret|apply lawful_Error]. Qed.

Lemma lawful_for {A} (l : list A) (f : A → Test W unit) : (∀ x, lawful (f x)) → lawful (t_for l f).
Proof. intros Hf. induction l as [|x l IH]; [apply lawful_ret|]. by apply lawful_bind; [apply Hf|intros []]. Qed.

Lemma lawful_defer {A} (c : Test W unit) (m : Test W A) : lawful c → lawful m → lawful (t_defer c m).
Proof.
  intros [Hc1 Hc2] [Hm1 Hm2]. split; intros t; unfold t_defer; specialize (Hm1 t); specialize (Hm2 t);
    destruct (m t) as [t1 [a|[| |w|]]]; cbn in *; try done;
    specialize (Hc1 t1); specialize (Hc2 t1); destruct (c t1) as [t2 [|h]]; cbn in *; naive_solver.
Qed.

Lemma lawful_Run name (f : Test W unit) : lawful (t_Run name f).
Proof.
  split; intros t; unfold t_Run; destruct (f _) as [c [|[]]]; cbn; try done; by intros ->.
Qed.
End Lawful.

#[export] Hint Resolve lawful_ret lawful_bind lawful_world_op lawful_world_step lawful_read lawful_Error lawful_Fatal
  lawful_Skip lawful_panic lawful_hang lawful_assert lawful_for lawful_defer lawful_Run : testing.

(** ** Passing tests

    [passing P m Q]: from a world satisfying [P] the test [m] reports nothing,
    returns, and leaves a world satisfying [Q]. *)
Section Passing.
Context {W : Type}.

Definition passing {A} (P : W → Prop) (m : Test W A) (Q : A → W → Prop) : Prop :=
  ∀ t, P (T_world t) → ∃ a t', m t = (t', inl a) ∧ T_failed t' = T_failed t ∧ T_skipped t' = T_skipped t ∧
    Q a (T_world t').

Lemma passing_conseq {A} (P P' : W → Prop) (m : Test W A) (Q Q' : A → W → Prop) :
  (∀ w, P' w → P w) → (∀ a w, Q a w → Q' a w) → passing P m Q → passing P' m Q'.
Proof. intros HP HQ H t Ht. destruct (H t) as (a & t' & ? & ? & ? & ?); eauto 10. Qed.

Lemma passing_ret {A} (a : A) (P : W → Prop) : passing P (mret a) (λ b w, b = a ∧ P w).
Proof. intros t Ht. by eexists a, t. Qed.

Lemma passing_bind {A B} P Q R (m : Test W A) (f : A → Test W B) :
  passing P m Q → (∀ a, passing (Q a) (f a) R) → passing P (m ≫= f) R.
Proof.
  intros Hm Hf t Ht. destruct (Hm t Ht) as (a & t1 & Hr & Hf1 & Hs1 & HQ).
  destruct (Hf a t1 HQ) as (b & t2 & Hr2 & Hf2 & Hs2 & HR). exists b, t2.
  unfold mbind, Test_bind. rewrite Hr. split_and!; congruence || done.
Qed.

Lemma passing_world_op {A} P (f : W → outcome (W * A)) (Q : A → W → Prop) :
  (∀ w, P w → ∃ w' a, f w = Ret (w', a) ∧ Q a w') → passing P (world_op f) Q.
Proof.
  intros H t Ht. destruct (H _ Ht) as (w' & a & Hf & HQ). unfold world_op. rewrite Hf. by eexists _, _.
Qed.

Lemma passing_assert P b : (∀ w, P w → b = true) → passing P (t_assert b) (λ _, P).
Proof. intros H t Ht. rewrite (H _ Ht). by exists tt, t. Qed.

Lemma passing_for {A} (P : W → Prop) (l : list A) (f : A → Test W unit) :
  (∀ x, x ∈ l → passing P (f x) (λ _, P)) → passing P (t_for l f) (λ _, P).
Proof.
  induction l as [|x l IH]; intros Hf; cbn [t_for].
  - eapply passing_conseq; [done| |apply passing_ret]; naive_solver.
  - eapply passing_bind; [apply Hf; by left|]. intros []. apply IH. intros y Hy. apply Hf. by right.
Qed.

Lemma passing_Run P name (f : Test W unit) Q : passing P f Q → passing P (t_Run name f) Q.
Proof.
  intros H t Ht. unfold t_Run. destruct (H (mkT (T_world t) false false []) Ht) as ([] & c & -> & Hf & Hs & HQ).
  cbn in Hf. eexists tt, _. split; [done|]. cbn. by rewrite Hf, orb_false_r.
Qed.

Lemma passing_pure {A} (φ : Prop) P (m : Test W A) Q :
  (φ → passing P m Q) → passing (λ w, φ ∧ P w) m Q.
Proof. intros H t [Hφ Ht]. by apply H. Qed.

Lemma passing_passed w (m : Test W unit) P Q : passing P m Q → P w → passed (t_main w m) = true.
Proof.
  intros H HP. unfold t_main. destruct (H (mkT w false false []) HP) as (a & t' & -> & Hf & _ & _).
  unfold passed. cbn in *. by rewrite Hf.
Qed.
End Passing.

(** ** What a passed test has shown *)
Section Shown.
Context {W : Type}.

(** [m] returned [a] and nothing was reported. *)
Definition ok {A} (m : Test W A) (t : T W) (a : A) (t' : T W) : Prop := m t = (t', inl a) ∧ T_failed t' = false.

Lemma ok_bind_inv {A B} (m : Test W A) (f : A → Test W B) t b t' :
  (∀ a, lawful (f a)) → ok (m ≫= f) t b t' → ∃ a t1, ok m t a t1 ∧ ok (f a) t1 b t'.
Proof.
  intros Hl [H Hf]. unfold mbind, Test_bind in H. destruct (m t) as [t1 [a|h]] eqn:E; [|done].
  exists a, t1. split; [|done]. split; [done|]. pose proof (lawful_mono _ (Hl a) t1) as Hm.
  rewrite H in Hm. cbn in Hm. destruct (T_failed t1); [|done]. by rewrite Hm in Hf.
Qed.

Lemma ok_world_op_inv {A} (f : W → outcome (W * A)) t a t' :
  ok (world_op f) t a t' → f (T_world t) = Ret (T_world t', a).
Proof.
  intros [H _]. unfold world_op in H. destruct (f (T_world t)) as [[w b]|]; [|done]. by injection H as <- <-.
Qed.

Lemma ok_assert_inv b t u t' : ok (t_assert b) t u t' → b = true ∧ t' = t.
Proof. intros [H Hf]. destruct b; injection H as <- <-; [done|]. by cbn in Hf. Qed.

Lemma ok_defer_inv {A} (c : Test W unit) (m : Test W A) t a t' :
  lawful c → ok (t_defer c m) t a t' → ∃ t1, ok m t a t1 ∧ ok c t1 tt t'.
Proof.
  intros Hc [H Hf]. unfold t_defer in H.
  destruct (m t) as [t1 [b|h]] eqn:Em; [|destruct h; try done; by destruct (c t1) as [? []]].
  destruct (c t1) as [t2 [[]|h]] eqn:Ec; [|done]. injection H as -> ->. exists t1.
  pose proof (lawful_mono _ Hc t1) as Hm. rewrite Ec in Hm. cbn in Hm.
  split; split; try done. destruct (T_failed t1); [|done]. by rewrite Hm in Hf.
Qed.

(** A subtest that passed returned or was skipped, without a report. *)
Lemma ok_Run_inv name (f : Test W unit) t u t' : lawful f → ok (t_Run name f) t u t' →
  ∃ c, T_world t' = T_world c ∧ T_failed c = false ∧
    (ok f (mkT (T_world t) false false []) tt c ∨
     f (mkT (T_world t) false false []) = (c, inr HaltSkip)).
Proof.
  intros Hl [H Hf]. unfold t_Run in H. pose proof (lawful_fatal _ Hl (mkT (T_world t) false false [])) as Hfat.
  destruct (f _) as [c [[]|h]] eqn:E; cbn in Hfat.
  - injection H as <- <-. cbn in *. apply orb_false_iff in Hf as [_ Hf]. exists c.
    split_and!; [done..|]. left. by split.
  - destruct h; try done; injection H as <- <-; cbn in *; apply orb_false_iff in Hf as [_ Hf].
    + by rewrite Hfat in Hf.
    + exists c. by split_and!; [..|right].
Qed.

Lemma passed_inv w (m : Test W unit) : lawful m → passed (t_main w m) = true →
  ∃ t', T_failed t' = false ∧
    (ok m (mkT w false false []) tt t' ∨ m (mkT w false false []) = (t', inr HaltSkip)).
Proof.
  intros Hl. unfold passed, t_main. destruct (m _) as [t' [[]|h]] eqn:E; cbn; [|destruct h; try done];
    rewrite negb_true_iff; intros Hf; exists t'; (split; [done|]); [left; by split|by right].
Qed.
End Shown.

(** ** How a test can end

    [ends_by H m]: when [m] ends early, it is in one of the ways [H] allows. *)
Section Ends.
Context {W : Type}.

Definition ends_by (H : halt → Prop) {A} (m : Test W A) : Prop := ∀ t h, (m t).2 = inr h → H h.

Lemma ends_weaken (H H' : halt → Prop) {A} (m : Test W A) : (∀ h, H h → H' h) → ends_by H m → ends_by H' m.
Proof. intros Hw Hm t h Hh. by apply Hw, (Hm t). Qed.

Lemma ends_ret H {A} (a : A) : ends_by H (mret a).
Proof. by intros t h. Qed.

Lemma ends_read H {A} (f : T W → A) : ends_by H (λ t, (t, inl (f t))).
Proof. by intros t h. Qed.

Lemma ends_bind H {A B} (m : Test W A) (f : A → Test W B) :
  ends_by H m → (∀ a, ends_by H (f a)) → ends_by H (m ≫= f).
Proof.
  intros Hm Hf t h. unfold mbind, Test_bind. specialize (Hm t).
  destruct (m t) as [t' [a|h']]; cbn in *; [apply Hf|]. intros [= ->]. by apply Hm.
Qed.

Lemma ends_world_op (H : halt → Prop) {A} (f : W → outcome (W * A)) :
  (∀ why, H (HaltPanic why)) → ends_by H (world_op f).
Proof. intros HP t h. unfold world_op. destruct (f _) as [[]|]; cbn; [done|]. by intros [= <-]. Qed.

Lemma ends_world_step (H : halt → Prop) (f : W → outcome W) :
  (∀ why, H (HaltPanic why)) → ends_by H (world_step f).
Proof. apply ends_world_op. Qed.

Lemma ends_Error H : ends_by H t_Error.
Proof. by intros t h. Qed.

Lemma ends_assert H b : ends_by H (t_assert b).
Proof. destruct b; [apply ends_ret|apply ends_Error]. Qed.

Lemma ends_Fatal (H : halt → Prop) {A} : H HaltFatal → ends_by H (A := A) t_Fatal.
Proof. by intros HF t h [= <-]. Qed.

Lemma ends_Skip (H : halt → Prop) {A} : H HaltSkip → ends_by H (A := A) t_Skip.
Proof. by intros HF t h [= <-]. Qed.

Lemma ends_panic (H : halt → Prop) {A} why : H (HaltPanic why) → ends_by H (A := A) (t_panic why).
Proof. by intros HF t h [= <-]. Qed.

Lemma ends_hang (H : halt → Prop) {A} : H HaltHang → ends_by H (A := A) t_hang.
Proof. by intros HF t h [= <-]. Qed.

Lemma ends_for H {A} (l : list A) (f : A → Test W unit) : (∀ x, ends_by H (f x)) → ends_by H (t_for l f).
Proof. intros Hf. induction l as [|x l IH]; [apply ends_ret|]. by apply ends_bind; [apply Hf|intros []]. Qed.

Lemma ends_defer H {A} (c : Test W unit) (m : Test W A) : ends_by H c → ends_by H m → ends_by H (t_defer c m).
Proof.
  intros Hc Hm t h. unfold t_defer. specialize (Hm t).
  destruct (m t) as [t1 [a|h1]]; cbn in *; [|destruct h1]; try (intros [= <-]; by apply Hm);
    specialize (Hc t1); destruct (c t1) as [t2 [|h2]]; cbn in *; naive_solver.
Qed.

(** [FailNow] and [SkipNow] end a subtest only. *)
Lemma ends_Run (H : halt → Prop) name (f : Test W unit) :
  ends_by (λ h, H h ∨ h = HaltFatal ∨ h = HaltSkip) f → ends_by H (t_Run name f).
Proof.
  intros Hf t h. unfold t_Run. specialize (Hf (mkT (T_world t) false false [])).
  destruct (f _) as [c [[]|h1]]; cbn in *; [done|].
  destruct h1; intros [= <-]; by destruct (Hf _ eq_refl) as [|[]].
Qed.

Lemma ends_Run_same (H : halt → Prop) name (f : Test W unit) :
  H HaltFatal → H HaltSkip → ends_by H f → ends_by H (t_Run name f).
Proof. intros HF HS Hf. apply ends_Run. eapply ends_weaken; [|exact Hf]. by left. Qed.
End Ends.

#[export] Hint Resolve ends_ret ends_read ends_bind ends_world_op ends_world_step ends_Error ends_assert
  ends_Fatal ends_Skip ends_panic ends_hang ends_for ends_defer : testing.

(** A subtest that is never skipped has run to its end when it passed. *)
Definition no_skip {W A} (m : Test W A) : Prop := ends_by (λ h, h ≠ HaltSkip) m.

(** A test that runs subtests only is never skipped itself. *)
Lemma no_skip_Run {W} name (f : Test W unit) : no_skip (t_Run name f).
Proof. apply ends_Run. intros t []; naive_solver. Qed.

Lemma ok_Run_full {W} name (f : Test W unit) t u t' : lawful f → no_skip f → ok (t_Run name f) t u t' →
  ∃ c, T_world t' = T_world c ∧ ok f (mkT (T_world t) false false []) tt c.
Proof.
  intros Hl Hs H. destruct (ok_Run_inv _ _ _ _ _ Hl H) as (c & Hw & _ & [?|E]); [by exists c|].
  exfalso. apply (Hs (mkT (T_world t) false false []) HaltSkip); [by rewrite E|done].
Qed.

Lemma passed_full {W} w (m : Test W unit) : lawful m → no_skip m → passed (t_main w m) = true →
  ∃ t', ok m (mkT w false false []) tt t'.
Proof.
  intros Hl Hs H. apply passed_inv in H as (t' & _ & [?|E]); [by exists t'| |done].
  exfalso. apply (Hs (mkT w false false []) HaltSkip); [by rewrite E|done].
Qed.

(** Close a goal about the shape of a test by following that shape; facts about
    the functions of the suite are in the hint database. *)
Ltac test_shape :=
  repeat first
    [ progress intros
    | solve [auto 4 with testing]
    | apply lawful_bind | apply lawful_for | apply lawful_defer
    | apply ends_bind | apply ends_for | apply ends_defer
    | (apply ends_Run_same; [done|done|]) | apply ends_Run
    | case_match ];
  auto with testing; try done; try (by left); try (by right).
