(* ===== verification/Conformance.v ===== *)
(** * The conformance suite (src/conformance/)

    Tests to run against any plugin, as computations over the world they run
    in.  [World] is what the suite sees of that world: the methods of the
    plugin, the clock, and streams running in goroutines of their own.  What
    happens in the background while a call or a wait is under way is part of the
    world's answer, so a theorem about every [World] holds for every plugin and
    every schedule.

    The texts of failed assertions are left out, and with them the calls of
    [t.Log].  Jobs and filters are values: the suite passes fresh ones to the
    plugin.  A context with a timeout that is only used to bound a wait is
    represented by the timeout; cancelling it when the wait has ended changes
    nothing. *)

From Stdlib Require Import SpecFloat.
From S2P Require Import Prelude GoStd Types Writer Rpc Plugintest Metrics TestMonad.

(** [time.Duration] counts nanoseconds. *)
Definition Millisecond : Z := 1000000.
Definition Second : Z := 1000000000.

(** The methods the suite runs in the background. *)
Inductive stream_call :=
| CallGetJobStatuses (user : string)
| CallGetJobOutput (user : string) (id : JobID) (outputType : JobOutput).

(** ** The world

    The plugin's methods are called with [context.Background()] and answer with
    the calls they make on their writer.

    [w_ticks w d] tells how the select of a polling loop goes that starts in [w]
    with a context that times out after [d]: the waits before the ticks that are
    taken, and the wait before the end of the context is taken (select chooses at
    random among what is ready, so the context is taken eventually).  A stream is
    opened with a context that may have a timeout, and known by a number;
    [w_calls] are the calls it has made on its writer.  [w_join] waits for its
    goroutine to return, and is [None] if that never happens. *)
Class World (W : Type) := {
  w_SubmitJob : W → string → Job → outcome (W * list WriterCall);
  w_GetJob : W → string → JobID → list string → outcome (W * list WriterCall);
  w_GetJobs : W → string → JobFilter → list string → outcome (W * list WriterCall);
  w_ControlJob : W → string → JobID → JobOperation → ControlJobOptions → outcome (W * list WriterCall);
  w_GetJobNetwork : W → string → JobID → outcome (W * list WriterCall);
  w_ClusterInfo : W → string → outcome (W * list WriterCall);
  w_metrics : option (W → outcome (W * PluginMetrics));
  w_metrics_within : W → Z → outcome (W * bool);
  w_now : W → outcome (W * Time);
  w_sleep : W → Z → outcome W;
  w_ticks : W → Z → list Z * Z;
  w_open : W → stream_call → option Z → outcome (W * nat);
  w_calls : W → nat → list WriterCall;
  w_cancel : W → nat → outcome W;
  w_join : W → nat → outcome (option W);
  w_join_within : W → nat → Z → outcome (W * bool);
}.

(** What the suite relies on: sleeping takes at least the given time, and the
    clock does not go back. *)
Class WorldLaws (W : Type) `{!World W} (clock : W → Z) := {
  law_now : ∀ w w' t, w_now w = Ret (w', t) → (clock w ≤ unixNano t ∧ unixNano t ≤ clock w')%Z;
  law_sleep : ∀ w w' d, w_sleep w d = Ret w' → (clock w + Z.max 0 d ≤ clock w')%Z;
}.

(** The mock a plain response writer records into. *)
Definition recorded (calls : list WriterCall) : MockResponseWriter :=
  mstream_base (replay NewMockStreamResponseWriter calls).

Definition index_out_of_range : string := "index out of range [0] with length 0".

(** [jobs[0]]. *)
Definition index_first {W} (jobs : slice Job) : Test W Job :=
  match jobs with
  | Some (job :: _) => mret job
  | _ => t_panic index_out_of_range
  end.

Section Helpers.
Context {W : Type} `{!World W}.

(** A call of a plugin method with a new mock writer. *)
Definition call (f : W → outcome (W * list WriterCall)) : Test W MockResponseWriter :=
  world_op (λ w, r ← f w; Ret (r.1, recorded r.2)).

Definition p_SubmitJob (user : string) (job : Job) : Test W MockResponseWriter :=
  call (λ w, w_SubmitJob w user job).
Definition p_GetJob (user : string) (id : JobID) (fields : list string) : Test W MockResponseWriter :=
  call (λ w, w_GetJob w user id fields).
Definition p_GetJobs (user : string) (filter : JobFilter) : Test W MockResponseWriter :=
  call (λ w, w_GetJobs w user filter []).
Definition p_ControlJob (user : string) (id : JobID) (op : JobOperation) : Test W MockResponseWriter :=
  call (λ w, w_ControlJob w user id op (mkControlJobOptions "" "")).
Definition p_GetJobNetwork (user : string) (id : JobID) : Test W MockResponseWriter :=
  call (λ w, w_GetJobNetwork w user id).
Definition p_ClusterInfo (user : string) : Test W MockResponseWriter :=
  call (λ w, w_ClusterInfo w user).

Definition time_Now : Test W Time := world_op w_now.
Definition time_Sleep (d : Z) : Test W unit := world_step (λ w, w_sleep w d).

(** ** helpers.go *)

Definition defaultPollInterval : Z := 50 * Millisecond.

Definition SubmitJob (user : string) (job : Job) : Test W JobID :=
  w ← p_SubmitJob user job;
  if mock_HasError w then t_Fatal else
  match mock_LastJobs w with
  | None | Some [] => t_Fatal
  | Some (job :: _) => if bool_decide (Job_ID job = "") then t_Fatal else mret (Job_ID job)
  end.

Definition GetJob (user : string) (id : JobID) (fields : list string) : Test W (option Job * option Error) :=
  w ← p_GetJob user id fields;
  if mock_HasError w then mret (None, mock_LastError w) else
  match mock_LastJobs w with
  | None | Some [] => mret (None, None)
  | Some (job :: _) => mret (Some job, None)
  end.

Definition GetJobs (user : string) (filter : JobFilter) : Test W (list Job) :=
  w ← p_GetJobs user filter;
  mret (default [] (mock_AllJobs w)).

Definition ControlJob (user : string) (id : JobID) (op : JobOperation)
    : Test W (option ControlResult * option Error) :=
  w ← p_ControlJob user id op;
  if mock_HasError w then mret (None, mock_LastError w) else
  match mock_ControlResults w with
  | [] => mret (None, None)
  | result :: _ => mret (Some result, None)
  end.

(** The errors of the two waits. *)
Inductive wait_error :=
| WaitTimeout
| WaitGetJobError (err : Error)
| WaitNoJob
| WaitTerminal (status : string).

(** The polling loop both waits share, over the ticks it takes; [check] is what
    is done with the job of a poll: [None] to go on. *)
Fixpoint wait_loop (check : Job → option (Job + wait_error)) (user : string) (id : JobID)
    (ticks : list Z) (rest : Z) : Test W (Job + wait_error) :=
  match ticks with
  | [] => _ ← time_Sleep rest; mret (inr WaitTimeout)
  | d :: ticks =>
      _ ← time_Sleep d;
      r ← GetJob user id [];
      match r with
      | (_, Some apiErr) => mret (inr (WaitGetJobError apiErr))
      | (None, None) => mret (inr WaitNoJob)
      | (Some job, None) =>
          match check job with
          | Some result => mret result
          | None => wait_loop check user id ticks rest
          end
      end
  end.

Definition wait_with (check : Job → option (Job + wait_error)) (timeout : Z) (user : string) (id : JobID)
    : Test W (Job + wait_error) := λ t,
  let '(ticks, rest) := w_ticks (T_world t) timeout in wait_loop check user id ticks rest t.

(** What [WaitForStatus] does with the job of a poll. *)
Definition status_check (status : string) (job : Job) : option (Job + wait_error) :=
  if bool_decide (Job_Status job = status) then Some (inl job)
  else if TerminalStatus (Job_Status job) && negb (TerminalStatus status)
  then Some (inr (WaitTerminal (Job_Status job)))
  else None.

Definition WaitForStatus (timeout : Z) (user : string) (id : JobID) (status : string)
    : Test W (Job + wait_error) := wait_with (status_check status) timeout user id.

Definition terminal_check (job : Job) : option (Job + wait_error) :=
  if TerminalStatus (Job_Status job) then Some (inl job) else None.

Definition WaitForTerminalStatus (timeout : Z) (user : string) (id : JobID) : Test W (Job + wait_error) :=
  wait_with terminal_check timeout user id.

(** The stream functions return the number of the stream, which stands for the
    writer and the channel that closes when the goroutine exits. *)
Definition CollectStatusStream (timeout : option Z) (user : string) : Test W nat :=
  world_op (λ w, w_open w (CallGetJobStatuses user) timeout).

Definition CollectOutputStream (timeout : option Z) (user : string) (id : JobID) (outputType : JobOutput)
    : Test W nat :=
  world_op (λ w, w_open w (CallGetJobOutput user id outputType) timeout).

(** The writer of a stream as it is now. *)
Definition stream_writer (s : nat) : Test W MockStreamResponseWriter := λ t,
  (t, inl (replay NewMockStreamResponseWriter (w_calls (T_world t) s))).

Definition stream_cancel (s : nat) : Test W unit := world_step (λ w, w_cancel w s).

(** [<-done]. *)
Definition stream_wait (s : nat) : Test W unit :=
  r ← world_op (λ w, r ← w_join w s;
                     match r with Some w' => Ret (w', true) | None => Ret (w, false) end);
  if (r : bool) then mret tt else t_hang.

(** [cancel(); <-done]. *)
Definition stream_stop (s : nat) : Test W unit := _ ← stream_cancel s; stream_wait s.

(** [for time.Now().Before(deadline) { if ready { return }; time.Sleep(interval) }]:
    whether it returned. *)
Fixpoint poll_until (fuel : nat) (deadline : Time) (interval : Z) (ready : Test W bool) : Test W bool :=
  match fuel with
  | O => t_hang
  | S fuel =>
      now ← time_Now;
      if Time_Before now deadline then
        b ← ready;
        if (b : bool) then mret true
        else _ ← time_Sleep interval; poll_until fuel deadline interval ready
      else mret false
  end.

(** As many turns as fit into the timeout. *)
Definition poll_fuel (timeout interval : Z) : nat := S (S (Z.to_nat (timeout / Z.max 1 interval))).

End Helpers.

(** ** conformance.go *)

(** A factory that was not set is [None]; one that is returns a new job. *)
Record Profile := mkProfile {
  Profile_JobFactory : option (string → Job);
  Profile_LongRunningJob : option (string → Job);
  Profile_StopStatus : string;
  Profile_StopExitCodes : list Z;
  Profile_KillStatus : string;
  Profile_KillExitCodes : list Z;
  Profile_OutputAvailable : bool;
  Profile_SuspendSupported : bool;
  Profile_NetworkAvailable : bool;
  Profile_PollInterval : Z;
  Profile_JobStartTimeout : Z;
  Profile_JobCompleteTimeout : Z;
  Profile_OutputTimeout : Z;
}.

#[export] Instance eta_Profile : Eta Profile := λ p,
  mkProfile (Profile_JobFactory p) (Profile_LongRunningJob p) (Profile_StopStatus p) (Profile_StopExitCodes p)
    (Profile_KillStatus p) (Profile_KillExitCodes p) (Profile_OutputAvailable p) (Profile_SuspendSupported p)
    (Profile_NetworkAvailable p) (Profile_PollInterval p) (Profile_JobStartTimeout p)
    (Profile_JobCompleteTimeout p) (Profile_OutputTimeout p).
#[export] Instance set_Profile_JobFactory : Setter Profile_JobFactory := ltac:(solve_setter).
#[export] Instance set_Profile_LongRunningJob : Setter Profile_LongRunningJob := ltac:(solve_setter).
#[export] Instance set_Profile_StopStatus : Setter Profile_StopStatus := ltac:(solve_setter).
#[export] Instance set_Profile_KillStatus : Setter Profile_KillStatus := ltac:(solve_setter).
#[export] Instance set_Profile_SuspendSupported : Setter Profile_SuspendSupported := ltac:(solve_setter).
#[export] Instance set_Profile_PollInterval : Setter Profile_PollInterval := ltac:(solve_setter).
#[export] Instance set_Profile_JobStartTimeout : Setter Profile_JobStartTimeout := ltac:(solve_setter).
#[export] Instance set_Profile_JobCompleteTimeout : Setter Profile_JobCompleteTimeout := ltac:(solve_setter).
#[export] Instance set_Profile_OutputTimeout : Setter Profile_OutputTimeout := ltac:(solve_setter).

(** [if cond { missing = append(missing, name) }]. *)
Definition missing_if (cond : bool) (name : string) : list string := if cond then [name] else [].

(** The names [mustValidate] collects. *)
Definition Profile_missing (p : Profile) : list string :=
  missing_if (bool_decide (Profile_JobFactory p = None)) "JobFactory" ++
  missing_if (bool_decide (Profile_LongRunningJob p = None)) "LongRunningJob" ++
  missing_if (bool_decide (Profile_StopStatus p = "")) "StopStatus" ++
  missing_if (length (Profile_StopExitCodes p) =? 0)%nat "StopExitCodes" ++
  missing_if (bool_decide (Profile_KillStatus p = "")) "KillStatus" ++
  missing_if (length (Profile_KillExitCodes p) =? 0)%nat "KillExitCodes".

Definition default_if_zero (d : Z) (fallback : Z) : Z := if (d =? 0)%Z then fallback else d.

Definition Profile_applyDefaults (p : Profile) : Profile :=
  p <| Profile_PollInterval := default_if_zero (Profile_PollInterval p) (50 * Millisecond) |>
    <| Profile_JobStartTimeout := default_if_zero (Profile_JobStartTimeout p) (30 * Second) |>
    <| Profile_JobCompleteTimeout := default_if_zero (Profile_JobCompleteTimeout p) (60 * Second) |>
    <| Profile_OutputTimeout := default_if_zero (Profile_OutputTimeout p) (10 * Second) |>.

(** [append(job.Tags, tags...)]. *)
Definition add_tags (job : Job) (tags : list string) : Job := job <| Job_Tags := Job_Tags job ++ tags |>.

(** [&api.JobFilter{Tags: tags}]. *)
Definition tag_filter (tags : list string) : JobFilter := mkJobFilter tags None None [] [].

(** [fmt.Sprintf("<prefix>%d", time.Now().UnixNano())]. *)
Definition time_tag {W} `{!World W} (prefix : string) : Test W string :=
  now ← time_Now; mret (prefix ++ strconv_Itoa (unixNano now))%string.

Section Invariants.
Context {W : Type} `{!World W}.

Definition Profile_mustValidate (p : Profile) : Test W unit :=
  if (0 <? length (Profile_missing p))%nat then t_Fatal else mret tt.

(** [profile.JobFactory(user)] and [profile.LongRunningJob(user)]. *)
Definition make_job (factory : option (string → Job)) (user : string) : Test W Job :=
  match factory with Some f => mret (f user) | None => t_panic nil_deref end.

Definition JobFactory (profile : Profile) (user : string) : Test W Job :=
  make_job (Profile_JobFactory profile) user.
Definition LongRunningJob (profile : Profile) (user : string) : Test W Job :=
  make_job (Profile_LongRunningJob profile) user.

Definition testSubmitInvariants (user : string) (profile : Profile) : Test W unit :=
  _ ← t_Run "ReturnsNonEmptyID" (
    job ← JobFactory profile user;
    w ← p_SubmitJob user job;
    _ ← t_assert (AssertNoError w);
    _ ← t_assert (AssertJobCount w 1);
    submitted ← index_first (mock_LastJobs w);
    t_assert (negb (bool_decide (Job_ID submitted = ""))));
  _ ← t_Run "SetsSubmittedTimestamp" (
    job ← JobFactory profile user;
    w ← p_SubmitJob user job;
    _ ← t_assert (AssertNoError w);
    submitted ← index_first (mock_LastJobs w);
    t_assert (negb (bool_decide (Job_Submitted submitted = None))));
  _ ← t_Run "TwoJobsGetDifferentIDs" (
    job1 ← JobFactory profile user;
    w1 ← p_SubmitJob user job1;
    _ ← t_assert (AssertNoError w1);
    job2 ← JobFactory profile user;
    w2 ← p_SubmitJob user job2;
    _ ← t_assert (AssertNoError w2);
    first ← index_first (mock_LastJobs w1);
    second ← index_first (mock_LastJobs w2);
    t_assert (negb (bool_decide (Job_ID first = Job_ID second))));
  _ ← t_Run "PreservesName" (
    job ← JobFactory profile user;
    w ← p_SubmitJob user (job <| Job_Name := "conformance-name-test" |>);
    _ ← t_assert (AssertNoError w);
    submitted ← index_first (mock_LastJobs w);
    t_assert (bool_decide (Job_Name submitted = "conformance-name-test")));
  t_Run "PreservesTags" (
    job ← JobFactory profile user;
    w ← p_SubmitJob user (job <| Job_Tags := ["conformance-tag-a"; "conformance-tag-b"] |>);
    _ ← t_assert (AssertNoError w);
    submitted ← index_first (mock_LastJobs w);
    _ ← t_assert (AssertJobHasTag (Some submitted) "conformance-tag-a");
    t_assert (AssertJobHasTag (Some submitted) "conformance-tag-b")).

Definition testGetJobInvariants (user : string) (profile : Profile) : Test W unit :=
  _ ← t_Run "ReturnsByID" (
    job ← JobFactory profile user;
    id ← SubmitJob user job;
    r ← GetJob user id [];
    match r with
    | (_, Some _) => t_Fatal
    | (None, None) => t_Fatal
    | (Some job, None) => t_assert (AssertJobID (Some job) id)
    end);
  t_Run "NotFoundForBogusID" (
    w ← p_GetJob user "nonexistent-conformance-id-99999" [];
    t_assert (AssertErrorCode w CodeJobNotFound)).

(** [found != nil] for [found := plugintest.FindJobByID(jobs, id)]. *)
Definition found (jobs : list Job) (id : JobID) : bool := bool_decide (is_Some (FindJobByID jobs id)).

Definition testGetJobsInvariants (user : string) (profile : Profile) : Test W unit :=
  _ ← t_Run "ReturnsSubmittedJobs" (
    tag ← time_tag "conformance-get-jobs-";
    job1 ← JobFactory profile user;
    id1 ← SubmitJob user (add_tags job1 [tag]);
    job2 ← JobFactory profile user;
    id2 ← SubmitJob user (add_tags job2 [tag]);
    jobs ← GetJobs user (tag_filter [tag]);
    if (length jobs <? 2)%nat then t_Fatal else
    _ ← t_assert (found jobs id1);
    t_assert (found jobs id2));
  _ ← t_Run "FilterByTagANDLogic" (
    tagA ← time_tag "conformance-and-a-";
    tagB ← time_tag "conformance-and-b-";
    job1 ← JobFactory profile user;
    id1 ← SubmitJob user (add_tags job1 [tagA; tagB]);
    job2 ← JobFactory profile user;
    _ ← SubmitJob user (add_tags job2 [tagA]);
    jobs ← GetJobs user (tag_filter [tagA; tagB]);
    _ ← t_for jobs (λ j,
          _ ← t_assert (AssertJobHasTag (Some j) tagA);
          t_assert (AssertJobHasTag (Some j) tagB));
    t_assert (found jobs id1));
  _ ← t_Run "FilterByStatus" (
    w ← p_GetJobs user (mkJobFilter [] None None [StatusRunning] []);
    t_assert (AssertNoError w));
  t_Run "UnmatchedFilterReturnsEmpty" (
    tag ← time_tag "conformance-nomatch-";
    jobs ← GetJobs user (tag_filter [tag]);
    t_assert (length jobs =? 0)%nat).

Definition testClusterInfoInvariants (user : string) : Test W unit :=
  _ ← t_Run "ReturnsWithoutError" (
    w ← p_ClusterInfo user;
    _ ← t_assert (AssertNoError w);
    t_assert (negb (bool_decide (mock_ClusterInfo w = None))));
  t_Run "LimitsHaveType" (
    w ← p_ClusterInfo user;
    match mock_ClusterInfo w with
    | None => t_Skip
    | Some info =>
        t_for (default [] (ClusterOptions_Limits info)) (λ limit,
          t_assert (negb (bool_decide (ResourceLimit_Type limit = ""))))
    end).

Definition testLifecycleInvariants (user : string) (profile : Profile) : Test W unit :=
  _ ← t_Run "ReachesTerminalStatus" (
    job ← JobFactory profile user;
    id ← SubmitJob user job;
    r ← WaitForTerminalStatus (Profile_JobCompleteTimeout profile) user id;
    match r with
    | inr _ => t_Fatal
    | inl job => t_assert (TerminalStatus (Job_Status job))
    end);
  t_Run "TerminalStatusNeverRegresses" (
    job ← JobFactory profile user;
    id ← SubmitJob user job;
    r ← WaitForTerminalStatus (Profile_JobCompleteTimeout profile) user id;
    match r with
    | inr _ => t_Fatal
    | inl job =>
        _ ← time_Sleep (200 * Millisecond);
        r2 ← GetJob user id [];
        match r2 with
        | (_, Some _) => t_Fatal
        | (None, None) => t_panic nil_deref
        | (Some job2, None) => t_assert (bool_decide (Job_Status job2 = Job_Status job))
        end
    end).

Definition testErrorInvariants (user : string) : Test W unit :=
  _ ← t_Run "NotFoundUsesCodeJobNotFound" (
    w ← p_GetJob user "nonexistent-conformance-err-99999" [];
    t_assert (AssertErrorCode w CodeJobNotFound));
  t_Run "ControlNonexistentReturnsError" (
    w ← p_ControlJob user "nonexistent-conformance-ctrl-99999" OperationStop;
    t_assert (AssertError w)).

Definition Run (user : string) (profile : Profile) : Test W unit :=
  _ ← Profile_mustValidate profile;
  let profile := Profile_applyDefaults profile in
  t_Run "Invariants" (
    _ ← t_Run "Submit" (testSubmitInvariants user profile);
    _ ← t_Run "GetJob" (testGetJobInvariants user profile);
    _ ← t_Run "GetJobs" (testGetJobsInvariants user profile);
    _ ← t_Run "ClusterInfo" (testClusterInfoInvariants user);
    _ ← t_Run "Lifecycle" (testLifecycleInvariants user profile);
    t_Run "Errors" (testErrorInvariants user)).

End Invariants.
