(* ===== verification/Scenarios.v ===== *)
(** * The conformance suite: workflows and scenarios (src/conformance/scenarios.go)

    The request sequences of the products, and the scenarios they are made of,
    over the helpers of Conformance.v. *)

From Stdlib Require Import SpecFloat.
From S2P Require Import Prelude GoStd Types Writer Rpc Plugintest Metrics TestMonad Conformance.

Record StopOpts := mkStopOpts {
  StopOpts_Job : Job;
  StopOpts_ExpectStatus : string;
  StopOpts_ExpectExitCodes : list Z;
  StopOpts_Timeout : Z;
}.
Record KillOpts := mkKillOpts {
  KillOpts_Job : Job;
  KillOpts_ExpectStatus : string;
  KillOpts_ExpectExitCodes : list Z;
  KillOpts_Timeout : Z;
}.
Record CancelOpts := mkCancelOpts { CancelOpts_Job : Job; CancelOpts_Timeout : Z }.
Record SuspendResumeOpts := mkSuspendResumeOpts { SuspendResumeOpts_Job : Job; SuspendResumeOpts_Timeout : Z }.
Record OutputStreamOpts := mkOutputStreamOpts {
  OutputStreamOpts_Job : Job;
  OutputStreamOpts_OutputType : JobOutput;
  OutputStreamOpts_ExpectNonEmpty : bool;
  OutputStreamOpts_Timeout : Z;
}.
Record StatusStreamOpts := mkStatusStreamOpts { StatusStreamOpts_Job : Job; StatusStreamOpts_Timeout : Z }.
Record StreamCancelOpts := mkStreamCancelOpts { StreamCancelOpts_Job : Job; StreamCancelOpts_Timeout : Z }.
Record FieldFilterOpts := mkFieldFilterOpts { FieldFilterOpts_Job : Job; FieldFilterOpts_Fields : list string }.
Record InvalidStateOpts := mkInvalidStateOpts {
  InvalidStateOpts_Job : Job;
  InvalidStateOpts_Operation : JobOperation;
  InvalidStateOpts_Timeout : Z;
}.
Record MetricsOpts := mkMetricsOpts { MetricsOpts_Timeout : Z }.

Definition defaultTimeout (d fallback : Z) : Z := if (d =? 0)%Z then fallback else d.

(** Whether the test is not marked as failed. *)
Definition assertExitCode (job : Job) (acceptable : list Z) : bool :=
  if (length acceptable =? 0)%nat then true
  else match Job_ExitCode job with
       | None => false
       | Some code => existsb (λ c, (code =? c)%Z) acceptable
       end.

Section Scenarios.
Context {W : Type} `{!World W}.

(** [_, err := WaitForStatus(...); if err != nil { t.Fatalf(...) }]. *)
Definition must_reach (timeout : Z) (user : string) (id : JobID) (status : string) : Test W Job :=
  r ← WaitForStatus timeout user id status;
  match r with inr _ => t_Fatal | inl job => mret job end.

Definition must_end (timeout : Z) (user : string) (id : JobID) : Test W Job :=
  r ← WaitForTerminalStatus timeout user id;
  match r with inr _ => t_Fatal | inl job => mret job end.

(** [_, apiErr := ControlJob(...); if apiErr != nil { t.Fatalf(...) }]. *)
Definition must_control (user : string) (id : JobID) (op : JobOperation) : Test W unit :=
  r ← ControlJob user id op;
  match r with (_, Some _) => t_Fatal | (_, None) => mret tt end.

Definition RunStopJob (user : string) (opts : StopOpts) : Test W unit :=
  let timeout := defaultTimeout (StopOpts_Timeout opts) (30 * Second) in
  id ← SubmitJob user (StopOpts_Job opts);
  _ ← must_reach timeout user id StatusRunning;
  s ← CollectStatusStream None user;
  t_defer (stream_stop s) (
    _ ← time_Sleep (50 * Millisecond);
    _ ← must_control user id OperationStop;
    finalJob ← must_end timeout user id;
    _ ← t_assert (bool_decide (Job_Status finalJob = StopOpts_ExpectStatus opts));
    t_assert (assertExitCode finalJob (StopOpts_ExpectExitCodes opts))).

Definition RunKillJob (user : string) (opts : KillOpts) : Test W unit :=
  let timeout := defaultTimeout (KillOpts_Timeout opts) (30 * Second) in
  id ← SubmitJob user (KillOpts_Job opts);
  _ ← must_reach timeout user id StatusRunning;
  _ ← must_control user id OperationKill;
  finalJob ← must_end timeout user id;
  _ ← t_assert (bool_decide (Job_Status finalJob = KillOpts_ExpectStatus opts));
  t_assert (assertExitCode finalJob (KillOpts_ExpectExitCodes opts)).

Definition RunCancelJob (user : string) (opts : CancelOpts) : Test W unit :=
  let timeout := defaultTimeout (CancelOpts_Timeout opts) (30 * Second) in
  id ← SubmitJob user (CancelOpts_Job opts);
  r ← ControlJob user id OperationCancel;
  match r with
  | (_, Some _) => t_Skip
  | (_, None) =>
      finalJob ← must_reach timeout user id StatusCanceled;
      t_assert (AssertJobStatus (Some finalJob) StatusCanceled)
  end.

Definition RunSuspendResume (user : string) (opts : SuspendResumeOpts) : Test W unit :=
  let timeout := defaultTimeout (SuspendResumeOpts_Timeout opts) (30 * Second) in
  id ← SubmitJob user (SuspendResumeOpts_Job opts);
  _ ← must_reach timeout user id StatusRunning;
  _ ← must_control user id OperationSuspend;
  _ ← must_reach timeout user id StatusSuspended;
  _ ← must_control user id OperationResume;
  resumedJob ← must_reach timeout user id StatusRunning;
  _ ← t_assert (AssertJobStatus (Some resumedJob) StatusRunning);
  _ ← ControlJob user id OperationStop;
  mret tt.

(** The wait for something on a stream: [count] after [deadline := time.Now().Add(timeout)]. *)
Definition await_stream (timeout interval : Z) (s : nat) (count : MockStreamResponseWriter → Z) : Test W unit :=
  now ← time_Now;
  let deadline := Time_Add now timeout in
  let ready := (sw ← stream_writer s; mret (0 <? count sw)%Z) in
  returned ← poll_until (poll_fuel timeout interval) deadline interval ready;
  if (returned : bool) then mret tt
  else
    sw ← stream_writer s;
    t_assert (negb (count sw =? 0)%Z).

Definition RunOutputStream (user : string) (opts : OutputStreamOpts) : Test W unit :=
  let timeout := defaultTimeout (OutputStreamOpts_Timeout opts) (10 * Second) in
  id ← SubmitJob user (OutputStreamOpts_Job opts);
  s ← CollectOutputStream (Some timeout) user id (OutputStreamOpts_OutputType opts);
  t_defer (stream_stop s) (
    if OutputStreamOpts_ExpectNonEmpty opts
    then await_stream timeout (50 * Millisecond) s mstream_OutputCount
    else mret tt).

Definition RunStatusStream (user : string) (opts : StatusStreamOpts) : Test W unit :=
  let timeout := defaultTimeout (StatusStreamOpts_Timeout opts) (30 * Second) in
  _ ← SubmitJob user (StatusStreamOpts_Job opts);
  s ← CollectStatusStream (Some timeout) user;
  t_defer (stream_stop s) (await_stream timeout (50 * Millisecond) s mstream_StatusCount).

Definition RunStreamCancellation (user : string) (opts : StreamCancelOpts) : Test W unit :=
  let timeout := defaultTimeout (StreamCancelOpts_Timeout opts) (5 * Second) in
  _ ← SubmitJob user (StreamCancelOpts_Job opts);
  s ← CollectStatusStream None user;
  _ ← time_Sleep (100 * Millisecond);
  sw ← stream_writer s;
  let countBefore := mstream_StatusCount sw in
  _ ← stream_cancel s;
  returned ← world_op (λ w, w_join_within w s timeout);
  _ ← t_assert returned;
  _ ← time_Sleep (100 * Millisecond);
  sw ← stream_writer s;
  let countAfter := mstream_StatusCount sw in
  t_assert (negb (countBefore + 1 <? countAfter)%Z).

Definition RunFieldFiltering (user : string) (opts : FieldFilterOpts) : Test W unit :=
  id ← SubmitJob user (FieldFilterOpts_Job opts);
  r ← GetJob user id (FieldFilterOpts_Fields opts);
  match r with
  | (_, Some _) => t_Fatal
  | (None, None) => t_Fatal
  | (Some job, None) =>
      _ ← t_assert (negb (bool_decide (Job_ID job = "")));
      t_for (FieldFilterOpts_Fields opts) (λ f,
        if bool_decide (f = "status") then t_assert (negb (bool_decide (Job_Status job = "")))
        else if bool_decide (f = "name")
        then t_assert (negb (bool_decide (Job_Name job = "" ∧ Job_Name (FieldFilterOpts_Job opts) ≠ "")))
        else mret tt)
  end.

Definition RunControlInvalidState (user : string) (opts : InvalidStateOpts) : Test W unit :=
  let timeout := defaultTimeout (InvalidStateOpts_Timeout opts) (30 * Second) in
  id ← SubmitJob user (InvalidStateOpts_Job opts);
  _ ← must_end timeout user id;
  r ← ControlJob user id (InvalidStateOpts_Operation opts);
  match r with (_, None) => t_Error | (_, Some _) => mret tt end.

(** [v < 0] on a float. *)
Definition float_negative (v : float64) : bool := SFltb v float_zero.

Definition RunMetrics (opts : MetricsOpts) : Test W unit :=
  let timeout := defaultTimeout (MetricsOpts_Timeout opts) Second in
  match w_metrics (W := W) with
  | None => t_Skip
  | Some metrics =>
      _ ← t_Run "ReturnsWithinTimeout" (
        returned ← world_op (λ w, w_metrics_within w timeout);
        if (returned : bool) then mret tt else t_Fatal);
      t_Run "LatencyBucketsNonNegative" (
        pm ← world_op metrics;
        match PluginMetrics_ClusterInteractionLatency pm with
        | None => t_Skip
        | Some lat =>
            _ ← t_for (HistogramSample_Buckets lat) (λ v, t_assert (negb (float_negative v)));
            t_assert (negb (float_negative (HistogramSample_Sum lat)))
        end)
  end.

(** ** The workflows *)

Definition testLaunchWorkflow (user : string) (profile : Profile) : Test W unit :=
  _ ← t_Run "ClusterInfoReturnsConfig" (
    w ← p_ClusterInfo user;
    _ ← t_assert (AssertNoError w);
    t_assert (negb (bool_decide (mock_ClusterInfo w = None))));
  job ← JobFactory profile user;
  id ← SubmitJob user (add_tags job ["conformance-launch"]);
  _ ← t_Run "SubmitReturnsJobWithID" (t_assert (negb (bool_decide (id = ""))));
  _ ← t_Run "StatusStreamDeliversRunningUpdate" (
    r ← WaitForStatus (Profile_JobStartTimeout profile) user id StatusRunning;
    match r with inr _ => t_Error | inl _ => mret tt end);
  _ ← (if Profile_NetworkAvailable profile then
         t_Run "NetworkAvailableWhenRunning" (
           w ← p_GetJobNetwork user id;
           t_assert (AssertNoError w))
       else mret tt);
  if Profile_OutputAvailable profile then
    t_Run "OutputStreamDeliversData" (
      s ← CollectOutputStream (Some (Profile_OutputTimeout profile)) user id OutputStdout;
      t_defer (stream_stop s)
        (await_stream (Profile_OutputTimeout profile) (Profile_PollInterval profile) s mstream_OutputCount))
  else mret tt.

Definition terminal_filter (tag : string) : JobFilter :=
  mkJobFilter [tag] None None [StatusFinished; StatusFailed; StatusKilled; StatusCanceled] [].

Definition testListWorkflow (user : string) (profile : Profile) : Test W unit :=
  tag ← time_tag "conformance-list-";
  let tagA := (tag ++ "-a")%string in
  let tagB := (tag ++ "-b")%string in
  job1 ← JobFactory profile user;
  id1 ← SubmitJob user (add_tags job1 [tag; tagA]);
  job2 ← JobFactory profile user;
  id2 ← SubmitJob user (add_tags job2 [tag; tagB]);
  _ ← t_Run "FilterByStatusReturnsSubset" (
    _ ← WaitForTerminalStatus (Profile_JobCompleteTimeout profile) user id1;
    w ← p_GetJobs user (terminal_filter tag);
    _ ← t_assert (AssertNoError w);
    t_for (default [] (mock_AllJobs w)) (λ j, t_assert (TerminalStatus (Job_Status j))));
  t_Run "FilterByTagReturnsSubset" (
    jobs ← GetJobs user (tag_filter [tagA]);
    _ ← t_assert (found jobs id1);
    t_assert (negb (found jobs id2))).

Definition RunWorkflows (user : string) (profile : Profile) : Test W unit :=
  _ ← Profile_mustValidate profile;
  let profile := Profile_applyDefaults profile in
  t_Run "Workflows" (
    _ ← t_Run "Launch" (testLaunchWorkflow user profile);
    _ ← t_Run "Stop" (
      job ← LongRunningJob profile user;
      RunStopJob user (mkStopOpts job (Profile_StopStatus profile) (Profile_StopExitCodes profile)
        (Profile_JobStartTimeout profile)));
    _ ← t_Run "Kill" (
      job ← LongRunningJob profile user;
      RunKillJob user (mkKillOpts job (Profile_KillStatus profile) (Profile_KillExitCodes profile)
        (Profile_JobStartTimeout profile)));
    _ ← t_Run "Cancel" (
      job ← LongRunningJob profile user;
      RunCancelJob user (mkCancelOpts job (Profile_JobStartTimeout profile)));
    _ ← t_Run "List" (testListWorkflow user profile);
    if Profile_SuspendSupported profile then
      t_Run "SuspendResume" (
        job ← LongRunningJob profile user;
        RunSuspendResume user (mkSuspendResumeOpts job (Profile_JobStartTimeout profile)))
    else mret tt).

End Scenarios.
