(* ===== verification/MemWorld.v ===== *)
(** * The in-memory plugin as a world for the conformance suite

    The example's own tests (src/examples/inmemory/conformance_test.go) run the
    suite against the in-memory plugin.  Here the plugin's methods (InMemory.v)
    act on a cache with its goroutines (CacheSystem.v), under one scheduler:
    timers fire in the order they are due, and between two actions of the test
    the service and the streams run until they block.  Every action of this
    scheduler is a step of the interleaving semantics. *)

From S2P Require Import Prelude GoStd Types TypesFacts Store Writer SubManager Cache CacheFacts CacheSystem.
From S2P Require Import Rpc Plugintest InMemory Metrics TestMonad Conformance.

(** What is waiting for its time: the two updates of [simulateJobLifecycle], the
    next tick of an output stream, the timeout of a stream's context. *)
Inductive timer :=
| TimerFirst (user : string) (id : JobID) (longRunning : bool)
| TimerSecond (user : string) (id : JobID)
| TimerOutput (s : nat)
| TimerTimeout (s : nat).

(** An output stream: what it was opened for, in which state of the plugin, the
    ticks that have passed, and whether its goroutine has ended. *)
Record output_stream := mkOutput {
  os_plugin : InMemoryPlugin;
  os_user : string;
  os_id : JobID;
  os_type : JobOutput;
  os_ticks : nat;
  os_ended : bool;
}.

Record MemWorld := mkMemWorld {
  mw_clock : Z;
  mw_nextID : Z;
  mw_sys : System;
  mw_timers : list (Z * timer);
  mw_outputs : gmap nat output_stream;
  mw_next : nat;
}.

#[export] Instance eta_MemWorld : Eta MemWorld := λ w,
  mkMemWorld (mw_clock w) (mw_nextID w) (mw_sys w) (mw_timers w) (mw_outputs w) (mw_next w).
#[export] Instance set_mw_clock : Setter mw_clock := ltac:(solve_setter).
#[export] Instance set_mw_nextID : Setter mw_nextID := ltac:(solve_setter).
#[export] Instance set_mw_sys : Setter mw_sys := ltac:(solve_setter).
#[export] Instance set_mw_timers : Setter mw_timers := ltac:(solve_setter).
#[export] Instance set_mw_outputs : Setter mw_outputs := ltac:(solve_setter).
#[export] Instance set_mw_next : Setter mw_next := ltac:(solve_setter).

Definition mw_time (w : MemWorld) : Time := mkTime (mw_clock w) "UTC".

(** The plugin as its methods see it, and the world when they have changed it. *)
Definition mw_plugin (w : MemWorld) : InMemoryPlugin := mkInMemoryPlugin (sys_cache (mw_sys w)) (mw_nextID w).

Definition mw_put (w : MemWorld) (p : InMemoryPlugin) : MemWorld :=
  w <| mw_sys := (mw_sys w) <| sys_cache := InMemoryPlugin_cache p |> |>
    <| mw_nextID := InMemoryPlugin_nextID p |>.

Definition mw_after (w : MemWorld) (d : Z) (t : timer) : MemWorld :=
  w <| mw_timers := mw_timers w ++ [(mw_clock w + d, t)%Z] |>.

(** ** The scheduler *)

(** The next action of the cache's goroutines, if any can act: the service
    first, then the streams. *)
Definition sys_event (s : System) : option event :=
  match sys_service s with
  | SvcGot u => Some (EServiceProcess (λ sub, context_Err (sys_cancelled s) (subscriber_Context sub)))
  | SvcListening =>
      if bool_decide (JobCache_ch (sys_cache s) = []) then None else Some EServiceRecv
  | SvcExited => None
  end.

Definition enabled (s : System) (e : event) : bool :=
  match sys_step map_to_list map_to_list s e with Some _ => true | None => false end.

Definition thread_event (s : System) : option event :=
  List.find (enabled s)
    ((λ '(t, th), EThread t (context_Err (sys_cancelled s) (thread_ctx th))) <$> map_to_list (sys_threads s)).

Definition next_event (s : System) : option event :=
  match sys_event s with Some e => Some e | None => thread_event s end.

(** Run until nothing can move (or [n] actions have been taken). *)
Fixpoint settle (n : nat) (s : System) : outcome System :=
  match n with
  | O => Ret s
  | S n =>
      match next_event s with
      | None => Ret s
      | Some e =>
          match sys_step map_to_list map_to_list s e with
          | Some (Ret s') => settle n s'
          | Some (Panic why) => Panic why
          | None => Ret s
          end
      end
  end.

Definition settle_bound : nat := 1000.

Definition mw_settle (w : MemWorld) : outcome MemWorld :=
  s ← settle settle_bound (mw_sys w); Ret (w <| mw_sys := s |>).

(** ** Timers *)

(** The first timer that is due by [upto], and the others. *)
Fixpoint first_due (upto : Z) (l : list (Z * timer)) : option ((Z * timer) * list (Z * timer)) :=
  match l with
  | [] => None
  | x :: l =>
      match first_due upto l with
      | Some (y, rest) =>
          if (x.1 <=? y.1)%Z then Some (x, l) else Some (y, x :: rest)
      | None => if (x.1 <=? upto)%Z then Some (x, l) else None
      end
  end.

Definition end_output (w : MemWorld) (s : nat) : MemWorld :=
  match mw_outputs w !! s with
  | Some o => w <| mw_outputs :=
                <[s := mkOutput (os_plugin o) (os_user o) (os_id o) (os_type o) (os_ticks o) true]> (mw_outputs w) |>
  | None => w
  end.

(** The context of stream [s] ends. *)
Definition mw_end_stream (w : MemWorld) (s : nat) : outcome MemWorld :=
  let w := end_output w s in
  mw_settle (w <| mw_sys := (mw_sys w) <| sys_cancelled := {[ [s] ]} ∪ sys_cancelled (mw_sys w) |> |>).

Definition fire (w : MemWorld) (t : timer) : outcome MemWorld :=
  match t with
  | TimerFirst user id longRunning =>
      p ← simulateJobLifecycle_first true (mw_time w) (mw_plugin w) user id;
      let w := mw_put w p in
      mw_settle (if (longRunning : bool) then w else mw_after w (4500 * Millisecond) (TimerSecond user id))
  | TimerSecond user id =>
      p ← simulateJobLifecycle_second true (mw_time w) (mw_plugin w) user id false;
      mw_settle (mw_put w p)
  | TimerOutput s =>
      match mw_outputs w !! s with
      | Some o =>
          if os_ended o then Ret w else
          let ticks := S (os_ticks o) in
          let o' := mkOutput (os_plugin o) (os_user o) (os_id o) (os_type o) ticks (ticks =? 3)%nat in
          let w := w <| mw_outputs := <[s := o']> (mw_outputs w) |> in
          Ret (if (ticks =? 3)%nat then w else mw_after w Second (TimerOutput s))
      | None => Ret w
      end
  | TimerTimeout s => mw_end_stream w s
  end.

(** Time passes until [upto]; a timer starts at most one other. *)
Fixpoint advance (n : nat) (upto : Z) (w : MemWorld) : outcome MemWorld :=
  match n with
  | O => Ret (w <| mw_clock := upto |>)
  | S n =>
      match first_due upto (mw_timers w) with
      | None => Ret (w <| mw_clock := upto |>)
      | Some ((due, t), rest) =>
          w ← fire (w <| mw_clock := Z.max due (mw_clock w) |> <| mw_timers := rest |>) t;
          advance n upto w
      end
  end.

Definition mw_sleep (w : MemWorld) (d : Z) : outcome MemWorld :=
  advance (3 * length (mw_timers w)) (mw_clock w + Z.max 0 d) w.

(** ** The methods *)

Definition mw_SubmitJob (w : MemWorld) (user : string) (job : Job) : outcome (MemWorld * list WriterCall) :=
  r ← InMemoryPlugin_SubmitJob true (mw_time w) (mw_plugin w) user job;
  let '(p, calls, sim) := r in
  let w := mw_put w p in
  let w := match sim with
           | Some (user, id, longRunning) => mw_after w (500 * Millisecond) (TimerFirst user id longRunning)
           | None => w
           end in
  w ← mw_settle w; Ret (w, calls).

Definition mw_GetJob (w : MemWorld) (user : string) (id : JobID) (fields : list string)
    : outcome (MemWorld * list WriterCall) := Ret (w, InMemoryPlugin_GetJob (mw_plugin w) user id).

Definition mw_GetJobs (w : MemWorld) (user : string) (filter : JobFilter) (fields : list string)
    : outcome (MemWorld * list WriterCall) :=
  calls ← InMemoryPlugin_GetJobs map_to_list (mw_plugin w) user filter; Ret (w, calls).

Definition mw_ControlJob (w : MemWorld) (user : string) (id : JobID) (op : JobOperation) (opts : ControlJobOptions)
    : outcome (MemWorld * list WriterCall) :=
  r ← InMemoryPlugin_ControlJob true (mw_time w) (mw_plugin w) user id op opts;
  w ← mw_settle (mw_put w r.1); Ret (w, r.2).

(** Streams.  The context of stream [s] is [[s]]; its thread has the same
    number. *)
Definition mw_timeout (w : MemWorld) (s : nat) (timeout : option Z) : MemWorld :=
  match timeout with Some d => mw_after w d (TimerTimeout s) | None => w end.

(** [GetJobStatuses]: a goroutine in the cache's [StreamJobStatuses]. *)
Definition InMemoryPlugin_GetJobStatuses (ctx : context) (user : string) : thread :=
  mkThread (StreamJobStatuses user) ctx PcStart None ctx [] [].

Definition mw_open (w : MemWorld) (c : stream_call) (timeout : option Z) : outcome (MemWorld * nat) :=
  let s := mw_next w in
  let w := mw_timeout (w <| mw_next := S s |>) s timeout in
  match c with
  | CallGetJobStatuses user =>
      w ← mw_settle (w <| mw_sys := set_thread s (InMemoryPlugin_GetJobStatuses [s] user) (mw_sys w) |>);
      Ret (w, s)
  | CallGetJobOutput user id outputType =>
      let missing := match JobCache_Lookup (sys_cache (mw_sys w)) user id (λ _, tt) with
                     | inl _ => false | inr _ => true end in
      let w := w <| mw_outputs := <[s := mkOutput (mw_plugin w) user id outputType 0 missing]> (mw_outputs w) |> in
      Ret (if missing then w else mw_after w Second (TimerOutput s), s)
  end.

(** The calls of an output stream: all but the final [Close] while it runs. *)
Definition output_calls (o : output_stream) : list WriterCall :=
  let calls := InMemoryPlugin_GetJobOutput (os_ticks o) (os_plugin o) (os_user o) (os_id o) (os_type o) in
  if os_ended o then calls else List.removelast calls.

Definition mw_calls (w : MemWorld) (s : nat) : list WriterCall :=
  match mw_outputs w !! s with
  | Some o => output_calls o
  | None => from_option thread_out [] (sys_threads (mw_sys w) !! s)
  end.

(** [GetJobOutput] returns at once, [GetJobStatuses] when its thread has. *)
Definition mw_returned (w : MemWorld) (s : nat) : bool :=
  match sys_threads (mw_sys w) !! s with
  | Some th => match thread_pc th with PcReturned _ => true | _ => false end
  | None => true
  end.

Definition mw_join (w : MemWorld) (s : nat) : outcome (option MemWorld) :=
  Ret (if mw_returned w s then Some w else None).

Definition mw_join_within (w : MemWorld) (s : nat) (d : Z) : outcome (MemWorld * bool) :=
  if mw_returned w s then Ret (w, true)
  else w ← mw_sleep w d; Ret (w, mw_returned w s).

(** A tick every 50 ms, and the end of the context after the given time. *)
Definition mw_ticks (w : MemWorld) (timeout : Z) : list Z * Z :=
  let n := Z.to_nat ((timeout - 1) / defaultPollInterval) in
  (replicate n defaultPollInterval, timeout - Z.of_nat n * defaultPollInterval)%Z.

Definition hostname : string := "localhost".

#[export] Instance mem_World : World MemWorld := {
  w_SubmitJob := mw_SubmitJob;
  w_GetJob := mw_GetJob;
  w_GetJobs := mw_GetJobs;
  w_ControlJob := mw_ControlJob;
  w_GetJobNetwork w user id := Ret (w, InMemoryPlugin_GetJobNetwork hostname (mw_plugin w) user id);
  w_ClusterInfo w user := Ret (w, InMemoryPlugin_ClusterInfo);
  w_metrics := None;
  w_metrics_within w d := Ret (w, false);
  w_now w := Ret (w, mw_time w);
  w_sleep := mw_sleep;
  w_ticks := mw_ticks;
  w_open := mw_open;
  w_calls := mw_calls;
  w_cancel := mw_end_stream;
  w_join := mw_join;
  w_join_within := mw_join_within;
}.

(** [newTestPlugin], at some time. *)
Definition newTestPlugin : MemWorld := mkMemWorld 1700000000000000000 0 initial [] ∅ 0.

Definition testUser : string := "testuser".

Definition testProfile : Profile := {|
  Profile_JobFactory := Some (λ user,
    zeroJob <| Job_User := user |> <| Job_Name := "conformance-test" |> <| Job_Command := "echo hello" |>);
  Profile_LongRunningJob := Some (λ user,
    zeroJob <| Job_User := user |> <| Job_Name := "conformance-long" |> <| Job_Command := "sleep 300" |>
            <| Job_Tags := ["long-running"] |>);
  Profile_StopStatus := StatusFinished;
  Profile_StopExitCodes := [143%Z];
  Profile_KillStatus := StatusKilled;
  Profile_KillExitCodes := [137%Z];
  Profile_OutputAvailable := true;
  Profile_SuspendSupported := false;
  Profile_NetworkAvailable := true;
  Profile_PollInterval := 0;
  Profile_JobStartTimeout := 5 * Second;
  Profile_JobCompleteTimeout := 10 * Second;
  Profile_OutputTimeout := 5 * Second;
|}.
