(* ===== verification/ConformanceFacts.v ===== *)
(** * Facts about the helpers of the conformance suite

    The shape of the helpers (they never take a report back, and how they can
    end), the two waits as a scan over what the plugin answers at the ticks, and
    the loops that poll until a deadline. *)

From Stdlib Require Import SpecFloat.
From S2P Require Import Prelude GoStd Types Writer Rpc Plugintest Metrics TestMonad Conformance Scenarios.

(** ** Shape *)
Section Shape.
Context {W : Type} `{!World W}.

Lemma lawful_call f : lawful (W := W) (call f).
Proof. apply lawful_world_op. Qed.

Lemma lawful_SubmitJob user job : lawful (SubmitJob (W := W) user job).
Proof. apply lawful_bind; [apply lawful_call|]. test_shape. Qed.

Lemma lawful_GetJob user id fields : lawful (GetJob (W := W) user id fields).
Proof. apply lawful_bind; [apply lawful_call|]. test_shape. Qed.

Lemma lawful_GetJobs user filter : lawful (GetJobs (W := W) user filter).
Proof. apply lawful_bind; [apply lawful_call|]. test_shape. Qed.

Lemma lawful_ControlJob user id op : lawful (ControlJob (W := W) user id op).
Proof. apply lawful_bind; [apply lawful_call|]. test_shape. Qed.

Lemma lawful_wait_loop check user id ticks rest : lawful (wait_loop (W := W) check user id ticks rest).
Proof.
  induction ticks as [|d ticks IH]; cbn [wait_loop].
  - apply lawful_bind; [apply lawful_world_step|]. test_shape.
  - apply lawful_bind; [apply lawful_world_step|]. intros _. apply lawful_bind; [apply lawful_GetJob|].
    test_shape.
Qed.

Lemma lawful_wait_with check timeout user id : lawful (wait_with (W := W) check timeout user id).
Proof.
  split; intros t; unfold wait_with; destruct (w_ticks (T_world t) timeout) as [ticks rest];
    apply lawful_wait_loop.
Qed.

Lemma lawful_WaitForStatus timeout user id status : lawful (WaitForStatus (W := W) timeout user id status).
Proof. apply lawful_wait_with. Qed.

Lemma lawful_WaitForTerminalStatus timeout user id : lawful (WaitForTerminalStatus (W := W) timeout user id).
Proof. apply lawful_wait_with. Qed.

Lemma lawful_CollectStatusStream timeout user : lawful (CollectStatusStream (W := W) timeout user).
Proof. apply lawful_world_op. Qed.

Lemma lawful_CollectOutputStream timeout user id o : lawful (CollectOutputStream (W := W) timeout user id o).
Proof. apply lawful_world_op. Qed.

Lemma lawful_make_job factory user : lawful (W := W) (make_job factory user).
Proof. unfold make_job. test_shape. Qed.

Lemma lawful_index_first jobs : lawful (W := W) (index_first jobs).
Proof. unfold index_first. test_shape. Qed.

Lemma lawful_time_tag prefix : lawful (W := W) (time_tag prefix).
Proof. apply lawful_bind; [apply lawful_world_op|]. test_shape. Qed.

Lemma lawful_time_Sleep d : lawful (W := W) (time_Sleep d).
Proof. apply lawful_world_step. Qed.

Lemma ends_call (H : halt → Prop) f : (∀ why, H (HaltPanic why)) → ends_by (W := W) H (call f).
Proof. apply ends_world_op. Qed.

Section Ends.
Context (H : halt → Prop) (HP : ∀ why, H (HaltPanic why)).
#[local] Hint Resolve HP : testing.

Lemma ends_time_Sleep d : ends_by (W := W) H (time_Sleep d).
Proof. by apply ends_world_step. Qed.

Lemma ends_GetJob user id fields : ends_by H (GetJob (W := W) user id fields).
Proof. apply ends_bind; [by apply ends_call|]. test_shape. Qed.

Lemma ends_GetJobs user filter : ends_by H (GetJobs (W := W) user filter).
Proof. apply ends_bind; [by apply ends_call|]. test_shape. Qed.

Lemma ends_ControlJob user id op : ends_by H (ControlJob (W := W) user id op).
Proof. apply ends_bind; [by apply ends_call|]. test_shape. Qed.

Lemma ends_SubmitJob user job : H HaltFatal → ends_by H (SubmitJob (W := W) user job).
Proof. intros HF. apply ends_bind; [by apply ends_call|]. test_shape. Qed.

Lemma ends_wait_loop check user id ticks rest : ends_by H (wait_loop (W := W) check user id ticks rest).
Proof.
  induction ticks as [|d ticks IH]; cbn [wait_loop].
  - apply ends_bind; [by apply ends_world_step|]. test_shape.
  - apply ends_bind; [by apply ends_world_step|]. intros _. apply ends_bind; [apply ends_GetJob|].
    test_shape.
Qed.

Lemma ends_wait_with check timeout user id : ends_by H (wait_with (W := W) check timeout user id).
Proof.
  intros t. unfold wait_with. destruct (w_ticks (T_world t) timeout) as [ticks rest]. apply ends_wait_loop.
Qed.

Lemma ends_WaitForStatus timeout user id status : ends_by H (WaitForStatus (W := W) timeout user id status).
Proof. apply ends_wait_with. Qed.

Lemma ends_WaitForTerminalStatus timeout user id : ends_by H (WaitForTerminalStatus (W := W) timeout user id).
Proof. apply ends_wait_with. Qed.

Lemma ends_CollectStatusStream timeout user : ends_by H (CollectStatusStream (W := W) timeout user).
Proof. by apply ends_world_op. Qed.

Lemma ends_CollectOutputStream timeout user id o : ends_by H (CollectOutputStream (W := W) timeout user id o).
Proof. by apply ends_world_op. Qed.

Lemma ends_make_job factory user : ends_by (W := W) H (make_job factory user).
Proof. unfold make_job. test_shape. Qed.

Lemma ends_index_first jobs : ends_by (W := W) H (index_first jobs).
Proof. unfold index_first. test_shape. Qed.

Lemma ends_time_tag prefix : ends_by (W := W) H (time_tag prefix).
Proof. apply ends_bind; [by apply ends_world_op|]. test_shape. Qed.
End Ends.
End Shape.

#[export] Hint Resolve lawful_call lawful_SubmitJob lawful_GetJob lawful_GetJobs lawful_ControlJob lawful_wait_with
  lawful_make_job lawful_index_first lawful_time_tag lawful_time_Sleep
  lawful_WaitForStatus lawful_WaitForTerminalStatus lawful_CollectStatusStream lawful_CollectOutputStream : testing.
#[export] Hint Resolve ends_call ends_GetJob ends_GetJobs ends_ControlJob ends_SubmitJob ends_wait_with
  ends_make_job ends_index_first ends_time_tag ends_time_Sleep
  ends_WaitForStatus ends_WaitForTerminalStatus ends_CollectStatusStream ends_CollectOutputStream : testing.

(** ** The waits *)

(** What [GetJob] makes of the recorded calls. *)
Definition answer (m : MockResponseWriter) : option Job * option Error :=
  if mock_HasError m then (None, mock_LastError m)
  else match mock_LastJobs m with
       | None | Some [] => (None, None)
       | Some (job :: _) => (Some job, None)
       end.

(** The test goes on in another world. *)
Definition in_world {W} (t : T W) (w : W) : T W := mkT w (T_failed t) (T_skipped t) (T_results t).

Section Waits.
Context {W : Type} `{!World W}.

(** One poll, [d] after the last. *)
Definition look (user : string) (id : JobID) (w : W) (d : Z) : outcome (W * (option Job * option Error)) :=
  w ← w_sleep w d;
  r ← w_GetJob w user id [];
  Ret (r.1, answer (recorded r.2)).

(** What the plugin answers at all the ticks. *)
Fixpoint looks (user : string) (id : JobID) (ticks : list Z) (w : W)
    : list (outcome (W * (option Job * option Error))) :=
  match ticks with
  | [] => []
  | d :: ticks =>
      let r := look user id w d in
      r :: match r with Ret (w', _) => looks user id ticks w' | Panic _ => [] end
  end.

(** The poll leaves the wait going. *)
Definition undecided (check : Job → option (Job + wait_error)) (r : outcome (W * (option Job * option Error))) : Prop :=
  ∃ w job, r = Ret (w, (Some job, None)) ∧ check job = None.

(** How a wait ends that is decided by the poll [r]. *)
Definition decided (check : Job → option (Job + wait_error)) (t : T W) (r : outcome (W * (option Job * option Error)))
    (res : T W * ((Job + wait_error) + halt)) : Prop :=
  match r with
  | Panic why => res.2 = inr (HaltPanic why)
  | Ret (w, (_, Some err)) => res = (in_world t w, inl (inr (WaitGetJobError err)))
  | Ret (w, (None, None)) => res = (in_world t w, inl (inr WaitNoJob))
  | Ret (w, (Some job, None)) => ∃ v, check job = Some v ∧ res = (in_world t w, inl v)
  end.

(** The world after the last of some polls. *)
Definition last_world (w : W) (l : list (outcome (W * (option Job * option Error)))) : W :=
  match list.last l with Some (Ret (w', _)) => w' | _ => w end.

Lemma GetJob_eq user id t :
  GetJob user id [] t =
  match w_GetJob (T_world t) user id [] with
  | Ret (w, calls) => (in_world t w, inl (answer (recorded calls)))
  | Panic why => (t, inr (HaltPanic why))
  end.
Proof.
  unfold GetJob, p_GetJob, call, world_op, answer. unfold mbind at 1, Test_bind at 1.
  destruct (w_GetJob (T_world t) user id []) as [[w calls]|why]; cbn [mbind outcome_bind fst snd]; [|done].
  destruct (mock_HasError (recorded calls)); [done|]. by destruct (mock_LastJobs (recorded calls)) as [[|job l]|].
Qed.

Lemma time_Sleep_eq d (t : T W) :
  time_Sleep d t = match w_sleep (T_world t) d with
                   | Ret w => (in_world t w, inl tt)
                   | Panic why => (t, inr (HaltPanic why))
                   end.
Proof. unfold time_Sleep, world_step, world_op. by destruct (w_sleep (T_world t) d). Qed.

(** A wait as a scan of the polls. *)
Lemma wait_loop_scan check user id ticks rest t :
  (∃ before r after, looks user id ticks (T_world t) = before ++ r :: after ∧
     Forall (undecided check) before ∧ decided check t r (wait_loop check user id ticks rest t)) ∨
  (Forall (undecided check) (looks user id ticks (T_world t)) ∧
   wait_loop check user id ticks rest t =
     match w_sleep (last_world (T_world t) (looks user id ticks (T_world t))) rest with
     | Ret w => (in_world t w, inl (inr WaitTimeout))
     | Panic why => (in_world t (last_world (T_world t) (looks user id ticks (T_world t))), inr (HaltPanic why))
     end).
Proof.
  revert t. induction ticks as [|d ticks IH]; intros t; cbn [wait_loop looks].
  - right. split; [constructor|]. rewrite Test_bind_eq, time_Sleep_eq. cbn.
    destruct (w_sleep (T_world t) rest) as [w|why]; [done|]. by destruct t.
  - rewrite Test_bind_eq, time_Sleep_eq. unfold look.
    destruct (w_sleep (T_world t) d) as [w1|why]; cbn [mbind outcome_bind].
    2:{ left. by eexists [], _, _. }
    rewrite Test_bind_eq, GetJob_eq. cbn [T_world in_world].
    destruct (w_GetJob w1 user id []) as [[w2 calls]|why]; cbn [mbind outcome_bind fst snd].
    2:{ left. by eexists [], _, _. }
    destruct (answer (recorded calls)) as [[job|] [err|]] eqn:Ea.
    1,3,4: left; eexists [], _, _; by split_and!.
    destruct (check job) as [v|] eqn:Ec.
    { left. eexists [], _, _. split_and!; [done..|]. cbn. exists v. by split. }
    specialize (IH (in_world t w2)). cbn [T_world in_world] in IH.
    assert (undecided check (Ret (w2, (Some job, None)))) as Hu by (by eexists _, _).
    destruct IH as [(before & r & after & Hl & Hf & Hd)|[Hf Hw]].
    + left. eexists (_ :: before), r, after. split_and!; [by rewrite Hl|by constructor|]. exact Hd.
    + right. split; [by constructor|].
      replace (last_world (T_world t) _) with (last_world w2 (looks user id ticks w2)).
      * exact Hw.
      * unfold last_world. cbn [list.last]. destruct (looks user id ticks w2) as [|l ls]; [done|].
        change (list.last (Ret (w2, (Some job, None)) :: l :: ls)) with (list.last (l :: ls)).
        destruct (list.last (l :: ls)) as [[[]|]|] eqn:El; [done| |].
        -- apply last_Some in El as [l' El]. rewrite El in Hf. apply list.Forall_app in Hf as [_ Hf].
           apply list.Forall_cons in Hf as [(? & ? & ? & _) _]. done.
        -- by rewrite last_None in El.
Qed.
End Waits.

(** ** Polling until a deadline *)

(** The number of things a stream has written so far. *)
Definition stream_count {W} `{!World W} (count : MockStreamResponseWriter → Z) (s : nat) (w : W) : Z :=
  count (replay NewMockStreamResponseWriter (w_calls w s)).

Section Deadline.
Context {W : Type} `{!World W} (clock : W → Z) `{!WorldLaws W clock}.
Context (count : MockStreamResponseWriter → Z) (s : nat).

(** The test of the loop in [await_stream]. *)
Definition stream_ready : Test W bool := sw ← stream_writer s; mret (0 <? count sw)%Z.

Lemma stream_ready_eq t : stream_ready t = (t, inl (0 <? stream_count count s (T_world t))%Z).
Proof. reflexivity. Qed.

Lemma poll_until_S n deadline interval (ready : Test W bool) :
  poll_until (S n) deadline interval ready =
  (now ← time_Now;
   if Time_Before now deadline then
     b ← ready;
     if (b : bool) then mret true else _ ← time_Sleep interval; poll_until n deadline interval ready
   else mret false).
Proof. reflexivity. Qed.

(** With [n] turns left and less than [n] intervals to go, the loop ends; it
    returns early exactly when something was written, and otherwise at the
    deadline. *)
Lemma poll_until_ends n deadline interval t :
  (0 < interval)%Z → (unixNano deadline - clock (T_world t) ≤ Z.of_nat n * interval)%Z →
  match poll_until (S n) deadline interval stream_ready t with
  | (t', inl true) => t' = in_world t (T_world t') ∧ (0 < stream_count count s (T_world t'))%Z
  | (t', inl false) => t' = in_world t (T_world t') ∧ (unixNano deadline ≤ clock (T_world t'))%Z
  | (_, inr (HaltPanic _)) => True
  | _ => False
  end.
Proof.
  intros Hi. revert t. induction n as [|n IH]; intros t Hn; rewrite poll_until_S, Test_bind_eq;
    unfold time_Now at 1, world_op at 1;
    (destruct (w_now (T_world t)) as [[w1 now]|] eqn:Enow; [|done]);
    apply law_now in Enow as [Hn1 Hn2]; unfold Time_Before;
    destruct (Z.ltb_spec (unixNano now) (unixNano deadline)); [lia|split; [done|cbn; lia]| |split; [done|cbn; lia]].
  rewrite Test_bind_eq, stream_ready_eq. cbn [T_world].
  destruct (Z.ltb_spec 0 (stream_count count s w1)); [by split|].
  rewrite Test_bind_eq, time_Sleep_eq. cbn [T_world].
  destruct (w_sleep w1 interval) as [w2|] eqn:Es; [|done]. apply law_sleep in Es.
  specialize (IH (in_world t w2)). unfold in_world in *. cbn [T_world T_failed T_skipped T_results] in *.
  destruct (poll_until _ _ _ _ _) as [t' [[]|[]]]; apply IH; lia.
Qed.

(** The fuel of [await_stream] is enough. *)
Lemma poll_fuel_enough timeout interval :
  (0 < interval)%Z → (timeout ≤ Z.of_nat (S (Z.to_nat (timeout / Z.max 1 interval))) * interval)%Z.
Proof.
  intros Hi. rewrite Z.max_r by lia. pose proof (Z.mul_succ_div_gt timeout interval Hi).
  destruct (Z.le_gt_cases 0 timeout).
  - rewrite Nat2Z.inj_succ, Z2Nat.id by (apply Z.div_pos; lia). lia.
  - nia.
Qed.

Lemma await_stream_ends timeout interval t :
  (0 < interval)%Z →
  match await_stream timeout interval s count t with
  | (t', inl _) =>
      t' = in_world t (T_world t') ∧ stream_count count s (T_world t') ≠ 0%Z ∨
      T_failed t' = true ∧ stream_count count s (T_world t') = 0%Z ∧
        (clock (T_world t) + timeout ≤ clock (T_world t'))%Z
  | (_, inr (HaltPanic _)) => True
  | _ => False
  end.
Proof.
  intros Hi. unfold await_stream. rewrite Test_bind_eq. unfold time_Now at 1, world_op at 1.
  destruct (w_now (T_world t)) as [[w1 now]|] eqn:Enow; [|done]. apply law_now in Enow as [Hn1 Hn2].
  rewrite Test_bind_eq. fold stream_ready.
  pose proof (poll_until_ends (S (Z.to_nat (timeout / Z.max 1 interval))) (Time_Add now timeout) interval
    (in_world t w1) Hi) as H. unfold poll_fuel. unfold in_world in H at 2. cbn [T_failed T_skipped T_results in_world T_world] in H.
  fold (in_world t w1).
  destruct (poll_until _ _ _ _ _) as [t' [[]|[| |why|]]];
    (destruct H as [Ht H] || destruct H); try done;
    try (pose proof (poll_fuel_enough timeout interval Hi); cbn [unixNano Time_Add]; lia).
  - left. rewrite Ht. split; [done|]. cbn. lia.
  - cbn [unixNano Time_Add] in H. rewrite Test_bind_eq. unfold stream_writer.
    fold (stream_count count s (T_world t')).
    destruct (Z.eqb_spec (stream_count count s (T_world t')) 0); cbn.
    + right. split_and!; [done..|]. lia.
    + left. by rewrite Ht.
Qed.
End Deadline.

(** ** Steps of a passing test *)
Section Control.
Context {W : Type} `{!World W} {A : Type} (P : W → Prop) (Q : A → W → Prop).

Lemma step_factory profile f user (g : Job → Test W A) :
  Profile_JobFactory profile = Some f → passing P (g (f user)) Q →
  passing P (JobFactory profile user ≫= g) Q.
Proof. intros Hf Hg t Ht. rewrite Test_bind_eq. unfold JobFactory. rewrite Hf. by apply Hg. Qed.

Lemma step_assert b (g : unit → Test W A) : b = true → passing P (g tt) Q → passing P (t_assert b ≫= g) Q.
Proof. intros -> Hg t Ht. by apply Hg. Qed.

Lemma step_index m j l (g : Job → Test W A) :
  mock_LastJobs m = Some (j :: l) → passing P (g j) Q → passing P (index_first (mock_LastJobs m) ≫= g) Q.
Proof. intros -> Hg t Ht. by apply Hg. Qed.

Lemma step_run name (f : Test W unit) R (g : unit → Test W A) :
  passing P f (λ _, R) → passing R (g tt) Q → passing P (t_Run name f ≫= g) Q.
Proof. intros Hf Hg. eapply passing_bind; [by apply passing_Run|]. by intros []. Qed.
End Control.

Lemma last_assert {W} (P : W → Prop) b : b = true → passing P (t_assert b) (λ _, P).
Proof. intros ->. intros t Ht. by exists tt, t. Qed.

(** The calls of the plugin's methods, and the factories, by name. *)
#[export] Hint Extern 1 (lawful (p_SubmitJob _ _)) => apply lawful_call : testing.
#[export] Hint Extern 1 (lawful (p_GetJob _ _ _)) => apply lawful_call : testing.
#[export] Hint Extern 1 (lawful (p_GetJobs _ _)) => apply lawful_call : testing.
#[export] Hint Extern 1 (lawful (p_ControlJob _ _ _)) => apply lawful_call : testing.
#[export] Hint Extern 1 (lawful (p_GetJobNetwork _ _)) => apply lawful_call : testing.
#[export] Hint Extern 1 (lawful (p_ClusterInfo _)) => apply lawful_call : testing.
#[export] Hint Extern 1 (lawful (JobFactory _ _)) => apply lawful_make_job : testing.
#[export] Hint Extern 1 (lawful (LongRunningJob _ _)) => apply lawful_make_job : testing.
#[export] Hint Extern 1 (ends_by _ (p_SubmitJob _ _)) => apply ends_call : testing.
#[export] Hint Extern 1 (ends_by _ (p_GetJob _ _ _)) => apply ends_call : testing.
#[export] Hint Extern 1 (ends_by _ (p_GetJobs _ _)) => apply ends_call : testing.
#[export] Hint Extern 1 (ends_by _ (p_ControlJob _ _ _)) => apply ends_call : testing.
#[export] Hint Extern 1 (ends_by _ (p_GetJobNetwork _ _)) => apply ends_call : testing.
#[export] Hint Extern 1 (ends_by _ (p_ClusterInfo _)) => apply ends_call : testing.
#[export] Hint Extern 1 (ends_by _ (JobFactory _ _)) => apply ends_make_job : testing.
#[export] Hint Extern 1 (ends_by _ (LongRunningJob _ _)) => apply ends_make_job : testing.
