(* ===== verification/ConformanceProps.v ===== *)
(** * What the conformance suite guarantees

    The waits and the stream polls on every branch, termination of the suite,
    and what a passed suite has shown of a plugin. *)

From Stdlib Require Import SpecFloat.
From S2P Require Import Prelude GoStd Types Writer Rpc Plugintest Metrics TestMonad Conformance Scenarios ConformanceFacts.

(** ** Termination *)

(** The test never waits for ever. *)
Abbreviation returns m := (ends_by (λ h, h ≠ HaltHang) m) (only parsing).

(** The contract of a streaming method: it returns when its context is
    cancelled. *)
Class StreamsStop (W : Type) `{!World W} :=
  streams_stop : ∀ w s w', w_cancel w s = Ret w' → w_join w' s ≠ Ret None.

Section Termination.
Context {W : Type} `{!World W} (clock : W → Z) `{!WorldLaws W clock, !StreamsStop W}.

Lemma returns_stop s : returns (stream_stop s).
Proof.
  intros t h. unfold stream_stop, stream_cancel, stream_wait, world_step. rewrite Test_bind_eq. unfold world_op at 1.
  destruct (w_cancel (T_world t) s) as [w'|why] eqn:Ec; cbn; [|by intros [= <-]].
  rewrite Test_bind_eq. unfold world_op at 1. cbn [T_world]. pose proof (streams_stop _ _ _ Ec) as Hj.
  destruct (w_join w' s) as [[w2|]|why]; cbn; [done|done|by intros [= <-]].
Qed.

Lemma returns_await timeout interval s count : (0 < interval)%Z → returns (await_stream timeout interval s count).
Proof.
  intros Hi t h. pose proof (await_stream_ends clock count s timeout interval t Hi) as H.
  destruct (await_stream _ _ _ _ _) as [t' [[]|[]]]; cbn; try done. by intros [= <-].
Qed.

Lemma ends_stop (H : halt → Prop) s : (∀ h, h ≠ HaltHang → H h) → ends_by H (stream_stop s).
Proof. intros HH. eapply ends_weaken; [exact HH|apply returns_stop]. Qed.

Lemma ends_await (H : halt → Prop) timeout interval s count :
  (∀ h, h ≠ HaltHang → H h) → (0 < interval)%Z → ends_by H (await_stream timeout interval s count).
Proof. intros HH Hi. eapply ends_weaken; [exact HH|by apply returns_await]. Qed.

#[local] Hint Resolve ends_stop ends_await : testing.

Lemma returns_Stop user opts : returns (RunStopJob (W := W) user opts).
Proof. unfold RunStopJob, must_reach, must_control, must_end. test_shape. Qed.

Lemma returns_Kill user opts : returns (RunKillJob (W := W) user opts).
Proof. unfold RunKillJob, must_reach, must_control, must_end. test_shape. Qed.

Lemma returns_Cancel user opts : returns (RunCancelJob (W := W) user opts).
Proof. unfold RunCancelJob, must_reach. test_shape. Qed.

Lemma returns_SuspendResume user opts : returns (RunSuspendResume (W := W) user opts).
Proof. unfold RunSuspendResume, must_reach, must_control. test_shape. Qed.

Lemma returns_launch user profile :
  (0 < Profile_PollInterval profile)%Z → returns (testLaunchWorkflow (W := W) user profile).
Proof. intros Hi. unfold testLaunchWorkflow, JobFactory, p_ClusterInfo, p_GetJobNetwork. test_shape. Qed.

Lemma returns_list user profile : returns (testListWorkflow (W := W) user profile).
Proof. unfold testListWorkflow, JobFactory, p_GetJobs. test_shape. Qed.

Lemma returns_mustValidate p : returns (Profile_mustValidate (W := W) p).
Proof. unfold Profile_mustValidate. test_shape. Qed.

Lemma returns_sub name (f : Test W unit) : returns f → returns (t_Run name f).
Proof. by apply ends_Run_same. Qed.

Lemma returns_with_job factory user (f : Job → Test W unit) :
  (∀ job, returns (f job)) → returns (job ← make_job factory user; f job).
Proof. intros Hf. apply ends_bind; [by apply ends_make_job|exact Hf]. Qed.

Lemma returns_Run user profile : returns (Run (W := W) user profile).
Proof.
  unfold Run, testSubmitInvariants, testGetJobInvariants, testGetJobsInvariants, testClusterInfoInvariants,
    testLifecycleInvariants, testErrorInvariants, JobFactory, Profile_mustValidate,
    p_SubmitJob, p_GetJob, p_GetJobs, p_ControlJob, p_ClusterInfo. test_shape.
Qed.

Lemma returns_RunWorkflows user profile :
  (0 < Profile_PollInterval (Profile_applyDefaults profile))%Z → returns (RunWorkflows (W := W) user profile).
Proof.
  intros Hi. apply ends_bind; [apply returns_mustValidate|]. intros _. apply returns_sub.
  apply ends_bind; [by apply returns_sub, returns_launch|intros _].
  apply ends_bind; [apply returns_sub, returns_with_job; intros job; apply returns_Stop|intros _].
  apply ends_bind; [apply returns_sub, returns_with_job; intros job; apply returns_Kill|intros _].
  apply ends_bind; [apply returns_sub, returns_with_job; intros job; apply returns_Cancel|intros _].
  apply ends_bind; [apply returns_sub, returns_list|intros _].
  case_match; [|apply ends_ret]. apply returns_sub, returns_with_job. intros job. apply returns_SuspendResume.
Qed.

End Termination.

(** A plugin whose jobs have finished as soon as they are submitted; its world is
    the clock.  It makes the hypotheses below concrete. *)
Definition stub_job (n : Z) : Job :=
  zeroJob <| Job_ID := ("job-" ++ strconv_Itoa n)%string |> <| Job_Status := StatusFinished |>.

#[export] Instance stub_World : World Z := {
  w_SubmitJob w user job := Ret ((w + 1)%Z, [CallJobs (Some [stub_job w])]);
  w_GetJob w user id fields := Ret (w, [CallJobs (Some [(stub_job 0) <| Job_ID := id |>])]);
  w_GetJobs w user filter fields := Ret (w, [CallJobs (Some [])]);
  w_ControlJob w user id op opts := Ret (w, [CallErrorf CodeInvalidJobState "the job has ended"]);
  w_GetJobNetwork w user id := Ret (w, [CallJobNetwork "localhost" None]);
  w_ClusterInfo w user := Ret (w, []);
  w_metrics := None;
  w_metrics_within w d := Ret (w, true);
  w_now w := Ret (w, mkTime w "UTC");
  w_sleep w d := Ret (w + Z.max 0 d)%Z;
  w_ticks w d := ([defaultPollInterval], d);
  w_open w c timeout := Ret (w, 0);
  w_calls w s := [];
  w_cancel w s := Ret w;
  w_join w s := Ret (Some w);
  w_join_within w s d := Ret (w, true);
}.

#[export] Instance stub_WorldLaws : WorldLaws Z id.
Proof. split; cbn; [intros w w' t [= <- <-]; cbn; lia|intros w w' d [= <-]; lia]. Qed.

#[export] Instance stub_StreamsStop : StreamsStop Z.
Proof. by intros w s w' [= <-]. Qed.



(** The wait for something on a stream ends, and ends right: with a positive
    interval the loop runs out of time, not of turns.  When it returns (and the
    world did not panic), either the stream has written something and nothing was
    reported, or nothing was written, the full timeout has passed and the test is
    marked as failed. *)
Theorem await_stream_spec {W : Type} `{!World W} (clock : W → Z) (Hclock : WorldLaws W clock)
    (timeout interval : Z) (s : nat) (count : MockStreamResponseWriter → Z) (t : T W) (Hi : (0 < interval)%Z) :
  match await_stream timeout interval s count t with
  | (t', inl _) =>
      t' = in_world t (T_world t') ∧ stream_count count s (T_world t') ≠ 0%Z ∨
      T_failed t' = true ∧ stream_count count s (T_world t') = 0%Z ∧
        (clock (T_world t) + timeout ≤ clock (T_world t'))%Z
  | (_, inr (HaltPanic _)) => True
  | _ => False
  end.
Proof. by apply await_stream_ends. Qed.

Lemma await_stream_spec_witness :
  let r := await_stream (W := Z) Second (50 * Millisecond) 0 mstream_OutputCount (mkT 5%Z false false []) in
  r.2 = inl tt ∧ T_failed r.1 = true ∧ (5 + Second ≤ T_world r.1)%Z.
Proof.
  intros r.
  pose proof (await_stream_spec (W := Z) id _ Second (50 * Millisecond) 0 mstream_OutputCount (mkT 5%Z false false [])
    ltac:(vm_compute; reflexivity)) as H. fold r in H.
  assert (r.2 = inl tt) as Hr by (vm_compute; reflexivity). split; [exact Hr|].
  destruct r as [t' [[]|h]]; [|discriminate Hr]. destruct H as [[_ H]|(Hf & _ & Hc)]; [|split; [exact Hf|exact Hc]].
  exfalso. apply H. vm_compute. reflexivity.
Defined.

(** C32: [WaitForStatus] returns what the first decisive poll says.  Polls that
    show the job in some other status it may still leave are passed over; the
    first that shows the expected status returns the job, the first that shows an
    error of the plugin, no job, or a terminal status while a non-terminal one is
    expected, returns that error; if no poll decides, the wait times out.  The
    test itself is never marked. *)
Theorem WaitForStatus_spec {W : Type} `{!World W} (timeout : Z) (user : string) (id : JobID) (status : string) (t : T W) :
  let '(ticks, rest) := w_ticks (T_world t) timeout in
  let polls := looks user id ticks (T_world t) in
  let passed_over r := ∃ w job, r = Ret (w, (Some job, None)) ∧ Job_Status job ≠ status ∧
                         (TerminalStatus (Job_Status job) = true → TerminalStatus status = true) in
  let res := WaitForStatus timeout user id status t in
  (∃ before r after, polls = before ++ r :: after ∧ Forall passed_over before ∧
     match r with
     | Panic why => res.2 = inr (HaltPanic why)
     | Ret (w, (_, Some err)) => res = (in_world t w, inl (inr (WaitGetJobError err)))
     | Ret (w, (None, None)) => res = (in_world t w, inl (inr WaitNoJob))
     | Ret (w, (Some job, None)) =>
         Job_Status job = status ∧ res = (in_world t w, inl (inl job)) ∨
         Job_Status job ≠ status ∧ TerminalStatus (Job_Status job) = true ∧ TerminalStatus status = false ∧
           res = (in_world t w, inl (inr (WaitTerminal (Job_Status job))))
     end) ∨
  (Forall passed_over polls ∧
   match w_sleep (last_world (T_world t) polls) rest with
   | Ret w => res = (in_world t w, inl (inr WaitTimeout))
   | Panic why => res.2 = inr (HaltPanic why)
   end).
Proof.
  unfold WaitForStatus, wait_with. destruct (w_ticks (T_world t) timeout) as [ticks rest]. cbv zeta.
  assert (∀ r : outcome (W * _), undecided (status_check status) r →
    ∃ w job, r = Ret (w, (Some job, None)) ∧ Job_Status job ≠ status ∧
      (TerminalStatus (Job_Status job) = true → TerminalStatus status = true)) as Hu.
  { intros r (w & job & -> & Hc). exists w, job. split; [done|]. unfold status_check in Hc.
    case_bool_decide; [done|]. split; [done|]. intros Ht. rewrite Ht in Hc. by destruct (TerminalStatus status). }
  destruct (wait_loop_scan (status_check status) user id ticks rest t)
    as [(before & r & after & Hl & Hf & Hd)|[Hf Hw]].
  - left. exists before, r, after. split; [done|]. split; [by eapply Forall_impl|].
    destruct r as [[w [[job|] [err|]]]|why]; cbn [decided] in Hd; try done.
    destruct Hd as (v & Hc & Hres). unfold status_check in Hc. case_bool_decide; [left; naive_solver|].
    destruct (TerminalStatus (Job_Status job)), (TerminalStatus status); naive_solver.
  - right. split; [by eapply Forall_impl|]. rewrite Hw. by destruct (w_sleep _ rest).
Qed.
