(* ===== verification/ConformanceSound.v ===== *)
(** * What a passed conformance suite has shown

    For each group of tests, the behaviour of the plugin that a pass has
    observed, as a relation between the world before and after the group; and the
    proof that a pass of [Run] has observed all of it. *)

From Stdlib Require Import SpecFloat.
From S2P Require Import Prelude GoStd Types Writer Rpc Plugintest Metrics TestMonad Conformance Scenarios.
From S2P Require Import ConformanceFacts MemWorld.

(** The first job of the last batch. *)
Definition first_job (m : MockResponseWriter) : option Job :=
  match mock_LastJobs m with Some (job :: _) => Some job | _ => None end.

Section Shown.
Context {W : Type} `{!World W} (user : string) (profile : Profile).

(** The submission of [job] is answered without an error, by [j]. *)
Definition submits (w : W) (job j : Job) (w' : W) : Prop :=
  ∃ calls, w_SubmitJob w user job = Ret (w', calls) ∧ mock_Errors (recorded calls) = [] ∧
    first_job (recorded calls) = Some j.

(** The same with exactly one job in the answer. *)
Definition submits_one (w : W) (job j : Job) (w' : W) : Prop :=
  ∃ calls, w_SubmitJob w user job = Ret (w', calls) ∧ mock_Errors (recorded calls) = [] ∧
    slice_len (mock_AllJobs (recorded calls)) = 1 ∧ first_job (recorded calls) = Some j.

(** The query for one job. *)
Definition answers (w : W) (id : JobID) (m : MockResponseWriter) (w' : W) : Prop :=
  ∃ calls, w_GetJob w user id [] = Ret (w', calls) ∧ m = recorded calls.

(** The query for jobs. *)
Definition lists (w : W) (filter : JobFilter) (m : MockResponseWriter) (w' : W) : Prop :=
  ∃ calls, w_GetJobs w user filter [] = Ret (w', calls) ∧ m = recorded calls.

(** [errors m] holds the code. *)
Definition reports_code (m : MockResponseWriter) (code : ErrCode) : Prop :=
  ∃ err, err ∈ mock_Errors m ∧ Error_Code err = code.

(** Submissions are answered by one job with an ID and a time stamp, two of them
    by different IDs, and name and tags are kept. *)
Definition submit_shown (new : Job) (w w' : W) : Prop :=
  ∃ w1 w2 w3 w4 w5 j1 j2 j3 j4 j5 j6,
    submits_one w new j1 w1 ∧ Job_ID j1 ≠ "" ∧
    submits w1 new j2 w2 ∧ Job_Submitted j2 ≠ None ∧
    submits w2 new j3 w3 ∧ submits w3 new j4 w4 ∧ Job_ID j3 ≠ Job_ID j4 ∧
    submits w4 (new <| Job_Name := "conformance-name-test" |>) j5 w5 ∧ Job_Name j5 = "conformance-name-test" ∧
    submits w5 (new <| Job_Tags := ["conformance-tag-a"; "conformance-tag-b"] |>) j6 w' ∧
    "conformance-tag-a" ∈ Job_Tags j6 ∧ "conformance-tag-b" ∈ Job_Tags j6.

(** A submitted job is found under its ID, an unknown ID is reported as such. *)
Definition get_shown (new : Job) (w w' : W) : Prop :=
  ∃ w1 w2 j job m1 m2,
    submits w new j w1 ∧ Job_ID j ≠ "" ∧
    answers w1 (Job_ID j) m1 w2 ∧ answer m1 = (Some job, None) ∧ Job_ID job = Job_ID j ∧
    answers w2 "nonexistent-conformance-id-99999" m2 w' ∧ reports_code m2 CodeJobNotFound.

(** A tag made from the clock. *)
Definition tagged (w : W) (prefix tag : string) (w' : W) : Prop :=
  ∃ now, w_now w = Ret (w', now) ∧ tag = (prefix ++ strconv_Itoa (unixNano now))%string.

Definition has_id (jobs : list Job) (id : JobID) : Prop := ∃ job, job ∈ jobs ∧ Job_ID job = id.

(** A query by tag gives the jobs that were submitted with the tag; a query by two
    tags only jobs with both; a query by status is no error, and one by an unused
    tag gives nothing. *)
Definition list_shown (new : Job) (w w' : W) : Prop :=
  ∃ w1 w2 w3 w4 w5 w6 w7 w8 w9 w10 w11 tag tagA tagB tagC j1 j2 j3 j4 m1 m2 m3 m4,
    let jobs1 := default [] (mock_AllJobs m1) in
    let jobs2 := default [] (mock_AllJobs m2) in
    tagged w "conformance-get-jobs-" tag w1 ∧
    submits w1 (add_tags new [tag]) j1 w2 ∧ submits w2 (add_tags new [tag]) j2 w3 ∧
    lists w3 (tag_filter [tag]) m1 w4 ∧
    2 ≤ length jobs1 ∧ has_id jobs1 (Job_ID j1) ∧ has_id jobs1 (Job_ID j2) ∧
    tagged w4 "conformance-and-a-" tagA w5 ∧ tagged w5 "conformance-and-b-" tagB w6 ∧
    submits w6 (add_tags new [tagA; tagB]) j3 w7 ∧ submits w7 (add_tags new [tagA]) j4 w8 ∧
    lists w8 (tag_filter [tagA; tagB]) m2 w9 ∧
    Forall (λ job, tagA ∈ Job_Tags job ∧ tagB ∈ Job_Tags job) jobs2 ∧ has_id jobs2 (Job_ID j3) ∧
    lists w9 (mkJobFilter [] None None [StatusRunning] []) m3 w10 ∧ mock_Errors m3 = [] ∧
    tagged w10 "conformance-nomatch-" tagC w11 ∧
    lists w11 (tag_filter [tagC]) m4 w' ∧ default [] (mock_AllJobs m4) = [].

(** Cluster information is given, without an error, and limits have types. *)
Definition cluster_shown (w w' : W) : Prop :=
  ∃ w1 calls1 calls2 info,
    w_ClusterInfo w user = Ret (w1, calls1) ∧ mock_Errors (recorded calls1) = [] ∧
    mock_ClusterInfo (recorded calls1) = Some info ∧
    w_ClusterInfo w1 user = Ret (w', calls2) ∧
    ∀ info2, mock_ClusterInfo (recorded calls2) = Some info2 →
      Forall (λ limit, ResourceLimit_Type limit ≠ "") (default [] (ClusterOptions_Limits info2)).

(** A wait for the end of the job saw it end. *)
Definition ends_within (w : W) (id : JobID) (timeout : Z) (job : Job) (w' : W) : Prop :=
  ∃ before after, let '(ticks, rest) := w_ticks w timeout in
    looks user id ticks w = before ++ Ret (w', (Some job, None)) :: after ∧
    Forall (undecided terminal_check) before ∧ TerminalStatus (Job_Status job) = true.

(** A submitted job ends in time, and a job that has ended keeps its status for
    another 200 ms. *)
Definition lifecycle_shown (new : Job) (w w' : W) : Prop :=
  ∃ w1 w2 w3 w4 w5 j j' job job' job2 m,
    submits w new j w1 ∧ ends_within w1 (Job_ID j) (Profile_JobCompleteTimeout profile) job w2 ∧
    submits w2 new j' w3 ∧ ends_within w3 (Job_ID j') (Profile_JobCompleteTimeout profile) job' w4 ∧
    w_sleep w4 (200 * Millisecond) = Ret w5 ∧
    answers w5 (Job_ID j') m w' ∧ answer m = (Some job2, None) ∧ Job_Status job2 = Job_Status job'.

(** Unknown jobs are reported as such, and cannot be stopped. *)
Definition errors_shown (w w' : W) : Prop :=
  ∃ w1 m calls, answers w "nonexistent-conformance-err-99999" m w1 ∧ reports_code m CodeJobNotFound ∧
    w_ControlJob w1 user "nonexistent-conformance-ctrl-99999" OperationStop (mkControlJobOptions "" "")
      = Ret (w', calls) ∧ mock_Errors (recorded calls) ≠ [].

(** ** Single steps *)

Lemma ok_call_inv f t m t' : ok (W := W) (call f) t m t' →
  ∃ calls, f (T_world t) = Ret (T_world t', calls) ∧ m = recorded calls.
Proof.
  intros H. unfold call in H. apply ok_world_op_inv in H. destruct (f (T_world t)) as [[w calls]|]; [|done].
  injection H as -> <-. by exists calls.
Qed.

Lemma HasError_false m : mock_HasError m = false ↔ mock_Errors m = [].
Proof. unfold mock_HasError, mock_Errors. by destruct (mock_errors m). Qed.

Lemma AssertNoError_true m : AssertNoError m = true ↔ mock_Errors m = [].
Proof. unfold AssertNoError, mock_Errors. by destruct (mock_errors m). Qed.

Lemma AssertErrorCode_true m code : AssertErrorCode m code = true → reports_code m code.
Proof.
  unfold AssertErrorCode. destruct (negb _); [done|]. intros (err & Hin & Hc)%existsb_exists.
  exists err. split; [by apply list_elem_of_In|]. by apply bool_decide_eq_true in Hc.
Qed.

Lemma AssertJobHasTag_true job tag : AssertJobHasTag (Some job) tag = true ↔ tag ∈ Job_Tags job.
Proof.
  unfold AssertJobHasTag. rewrite existsb_exists. split.
  - intros (x & Hin & <-%bool_decide_eq_true). by apply list_elem_of_In.
  - intros Hin%list_elem_of_In. exists tag. split; [done|]. by apply bool_decide_eq_true.
Qed.

Lemma ok_index_first_inv jobs t job t' :
  ok (W := W) (index_first jobs) t job t' → t' = t ∧ ∃ l, jobs = Some (job :: l).
Proof. intros [H _]. destruct jobs as [[|x l]|]; try done. injection H as <- <-. eauto. Qed.

(** The submission of the suite's helper. *)
Lemma ok_SubmitJob_inv job t id t' : ok (SubmitJob user job) t id t' →
  ∃ j, submits (T_world t) job j (T_world t') ∧ id = Job_ID j ∧ id ≠ "".
Proof.
  intros H. apply ok_bind_inv in H as (m & t1 & Hc & H); [|test_shape].
  apply ok_call_inv in Hc as (calls & Hc & ->).
  destruct (mock_HasError (recorded calls)) eqn:He; [by destruct H as [? _]|].
  destruct (mock_LastJobs (recorded calls)) as [[|j l]|] eqn:Hl; try (by destruct H as [? _]).
  case_bool_decide as Hid; [by destruct H as [? _]|]. destruct H as [[= <- <-] _].
  exists j. split; [|done]. exists calls. split; [done|]. split; [by apply HasError_false|].
  unfold first_job. by rewrite Hl.
Qed.

(** A submission with [AssertNoError] and [LastJobs()[0]]. *)
Lemma ok_GetJob_inv id t r t' : ok (GetJob user id []) t r t' →
  ∃ m, answers (T_world t) id m (T_world t') ∧ r = answer m.
Proof.
  intros [H Hf]. rewrite GetJob_eq in H. destruct (w_GetJob (T_world t) user id []) as [[w calls]|] eqn:E; [|done].
  injection H as <- <-. exists (recorded calls). split; [|done]. by exists calls.
Qed.

Lemma ok_wait_end_inv id timeout t job t' : ok (WaitForTerminalStatus timeout user id) t (inl job) t' →
  ends_within (T_world t) id timeout job (T_world t').
Proof.
  intros [H _]. unfold WaitForTerminalStatus, wait_with in H. unfold ends_within.
  destruct (w_ticks (T_world t) timeout) as [ticks rest].
  destruct (wait_loop_scan terminal_check user id ticks rest t) as [(before & r & after & Hl & Hf & Hd)|[_ Hw]].
  - rewrite H in Hd. destruct r as [[w [[j|] [err|]]]|why]; cbn in Hd; try done.
    destruct Hd as (v & Hc & Hres). injection Hres as -> <-. unfold terminal_check in Hc.
    destruct (TerminalStatus (Job_Status j)) eqn:Ht; [|done]. injection Hc as <-.
    exists before, after. by rewrite Hl.
  - rewrite Hw in H. by destruct (w_sleep _ rest).
Qed.

Lemma ok_make_job_inv factory t job t' : ok (W := W) (make_job factory user) t job t' →
  t' = t ∧ ∃ f, factory = Some f ∧ job = f user.
Proof. intros [H _]. destruct factory as [f|]; [|done]. injection H as <- <-. eauto. Qed.

Lemma ok_time_Sleep_inv d t u t' : ok (W := W) (time_Sleep d) t u t' → w_sleep (T_world t) d = Ret (T_world t').
Proof.
  intros [H _]. rewrite time_Sleep_eq in H. destruct (w_sleep (T_world t) d); [|done]. by injection H as <- <-.
Qed.

Lemma ok_time_tag_inv prefix t tag t' : ok (W := W) (time_tag prefix) t tag t' →
  tagged (T_world t) prefix tag (T_world t').
Proof.
  intros H. apply ok_bind_inv in H as (now & t1 & Hn & H); [|test_shape]. apply ok_world_op_inv in Hn.
  destruct H as [[= <- <-] _]. by exists now.
Qed.

Lemma ok_GetJobs_inv filter t jobs t' : ok (GetJobs user filter) t jobs t' →
  ∃ m, lists (T_world t) filter m (T_world t') ∧ jobs = default [] (mock_AllJobs m).
Proof.
  intros H. apply ok_bind_inv in H as (m & t1 & Hc & H); [|test_shape]. apply ok_call_inv in Hc as (calls & Hc & ->).
  destruct H as [[= <- <-] _]. exists (recorded calls). split; [by exists calls|done].
Qed.

Lemma ok_for_inv {A} (l : list A) (f : A → Test W unit) (Q : A → Prop) t u t' :
  (∀ x, lawful (f x)) → (∀ x t u t', ok (f x) t u t' → t' = t ∧ Q x) →
  ok (t_for l f) t u t' → t' = t ∧ Forall Q l.
Proof.
  intros Hl Hf. revert t. induction l as [|x l IH]; intros t; cbn [t_for].
  - intros [[= <- <-] _]. done.
  - intros H. apply ok_bind_inv in H as (v & t1 & H1 & H2); [|by auto with testing].
    apply Hf in H1 as [-> Hx]. apply IH in H2 as [-> Hr]. by split; [|constructor].
Qed.

Lemma found_true jobs id : found jobs id = true → has_id jobs id.
Proof.
  intros [job Hf]%bool_decide_eq_true. apply find_some in Hf as [Hin Hid%bool_decide_eq_true].
  exists job. split; [by apply list_elem_of_In|done].
Qed.

Lemma ok_submits_inv job m t t' : ok (p_SubmitJob user job) t m t' → AssertNoError m = true →
  ∀ j, (∃ l, mock_LastJobs m = Some (j :: l)) → submits (T_world t) job j (T_world t').
Proof.
  intros (calls & Hc & ->)%ok_call_inv Hn j [l Hl]. exists calls. split; [done|].
  split; [by apply AssertNoError_true|]. unfold first_job. by rewrite Hl.
Qed.

Lemma ok_submits_one_inv job m t t' : ok (p_SubmitJob user job) t m t' → AssertNoError m = true →
  AssertJobCount m 1 = true →
  ∀ j, (∃ l, mock_LastJobs m = Some (j :: l)) → submits_one (T_world t) job j (T_world t').
Proof.
  intros (calls & Hc & ->)%ok_call_inv Hn H1 j [l Hl]. exists calls. split; [done|].
  split; [by apply AssertNoError_true|]. split; [|unfold first_job; by rewrite Hl].
  apply Z.eqb_eq in H1. lia.
Qed.
End Shown.

(** Take a passed test apart. *)
Ltac ok_step :=
  match goal with
  | H : ok (_ ≫= _) _ _ _ |- _ =>
      let a := fresh "a" in let t := fresh "t" in let H1 := fresh "Hok" in
      apply ok_bind_inv in H as (a & t & H1 & H); [|by test_shape]
  | H : ok (t_assert _) _ _ _ |- _ => let Ha := fresh "Ha" in apply ok_assert_inv in H as [Ha ->]
  | H : ok (t_Run _ _) _ _ _ |- _ =>
      let c := fresh "c" in let Hw := fresh "Hw" in
      apply ok_Run_full in H as (c & Hw & H); [|by test_shape|by unfold no_skip; test_shape]
  | H : ok (index_first _) _ _ _ |- _ => let Hj := fresh "Hj" in apply ok_index_first_inv in H as [-> Hj]
  | H : ok (JobFactory _ _) _ _ _ |- _ =>
      let f := fresh "f" in let Hf := fresh "Hf" in
      apply ok_make_job_inv in H as [-> (f & Hf & ->)]
  | H : ok (mret _) _ _ _ |- _ => destruct H as [[= <- <-] _]
  | H : ok (SubmitJob _ _) _ _ _ |- _ =>
      let j := fresh "j" in let Hs := fresh "Hs" in let Hid := fresh "Hid" in
      apply ok_SubmitJob_inv in H as (j & Hs & -> & Hid)
  | H : ok (GetJob _ _ []) _ _ _ |- _ =>
      let m := fresh "m" in let Hm := fresh "Hm" in
      apply ok_GetJob_inv in H as (m & Hm & ->); destruct (answer m) as [[?job|] [?err|]] eqn:?Ea
  | H : ok (WaitForTerminalStatus _ _ _) _ ?r _ |- _ =>
      tryif is_var r then destruct r as [?job|?err] else apply ok_wait_end_inv in H
  | H : ok (GetJobs _ _) _ _ _ |- _ =>
      let m := fresh "m" in let Hm := fresh "Hm" in apply ok_GetJobs_inv in H as (m & Hm & ->)
  | H : ok (time_tag _) _ _ _ |- _ => apply ok_time_tag_inv in H
  | H : ok (time_Sleep _) _ _ _ |- _ => apply ok_time_Sleep_inv in H
  | H : ok t_Fatal _ _ _ |- _ => by destruct H as [? _]
  | H : ok (t_panic _) _ _ _ |- _ => by destruct H as [? _]
  end.

Section Groups.
Context {W : Type} `{!World W} (user : string) (profile : Profile) (factory : string → Job).
Context (Hfactory : Profile_JobFactory profile = Some factory).


(** The worlds between the steps, and the factory. *)
Ltac shown :=
  repeat ok_step; cbn [T_world] in *;
  repeat match goal with
  | Hf : Profile_JobFactory profile = Some _ |- _ =>
      tryif constr_eq Hf Hfactory then fail else (rewrite Hfactory in Hf; injection Hf as <-)
  | H : ok (p_SubmitJob _ _) _ ?m _, Hn : AssertNoError ?m = true, H1 : AssertJobCount ?m 1 = true,
    Hj : ∃ l, mock_LastJobs ?m = Some (_ :: l) |- _ =>
      apply (ok_submits_one_inv _ _ _ _ _ H Hn H1) in Hj; clear H
  | H : ok (p_SubmitJob _ _) _ ?m _, Hn : AssertNoError ?m = true, Hj : ∃ l, mock_LastJobs ?m = Some (_ :: l) |- _ =>
      apply (ok_submits_inv _ _ _ _ _ H Hn) in Hj; clear H
  | H : negb (bool_decide _) = true |- _ => apply negb_true_iff, bool_decide_eq_false in H
  | H : bool_decide _ = true |- _ => apply bool_decide_eq_true in H
  | H : AssertJobHasTag (Some _) _ = true |- _ => apply AssertJobHasTag_true in H
  | H : AssertErrorCode _ _ = true |- _ => apply AssertErrorCode_true in H
  | H : AssertJobID (Some _) _ = true |- _ => apply bool_decide_eq_true in H
  | H : found _ _ = true |- _ => apply found_true in H
  | H : AssertNoError _ = true |- _ => apply AssertNoError_true in H
  | H : ok (p_GetJob _ _ _) _ _ _ |- _ => apply ok_call_inv in H
  | H : ok (p_GetJobs _ _) _ _ _ |- _ => apply ok_call_inv in H
  | Hw : T_world _ = T_world _ |- _ => rewrite Hw in *; clear Hw
  end; cbn [T_world] in *.

Lemma submit_group t u t' : ok (testSubmitInvariants user profile) t u t' →
  submit_shown user (factory user) (T_world t) (T_world t').
Proof.
  intros H. unfold testSubmitInvariants in H. shown.
  do 11 eexists. split_and!; eassumption.
Qed.

Lemma get_group t u t' : ok (testGetJobInvariants user profile) t u t' →
  get_shown user (factory user) (T_world t) (T_world t').
Proof.
  intros H. unfold testGetJobInvariants in H. shown. do 6 eexists. split_and!; eassumption.
Qed.

Lemma lifecycle_group t u t' : ok (testLifecycleInvariants user profile) t u t' →
  lifecycle_shown user profile (factory user) (T_world t) (T_world t').
Proof.
  intros H. unfold testLifecycleInvariants in H. shown. do 11 eexists. split_and!; eassumption.
Qed.

Lemma errors_group t u t' : ok (testErrorInvariants (W := W) user) t u t' →
  errors_shown user (T_world t) (T_world t').
Proof.
  intros H. unfold testErrorInvariants in H. shown.
  match goal with H : ok (p_ControlJob _ _ _) _ _ _ |- _ => apply ok_call_inv in H as (calls & Hc & ->) end.
  do 3 eexists. split_and!; try eassumption. intros He. unfold AssertError in *.
  apply HasError_false in He. congruence.
Qed.

Lemma list_group t u t' : ok (testGetJobsInvariants user profile) t u t' →
  list_shown user (factory user) (T_world t) (T_world t').
Proof.
  intros H. unfold testGetJobsInvariants in H. shown.
  match goal with H : ok (if ?b then _ else _) _ _ _ |- _ => destruct b eqn:Hlen; shown end.
  apply Nat.ltb_ge in Hlen.
  match goal with H : ok (t_for _ (λ j, t_assert (AssertJobHasTag _ ?a) ≫= λ _, t_assert (AssertJobHasTag _ ?b))) _ _ _
    |- _ => apply (ok_for_inv _ _ (λ job, a ∈ Job_Tags job ∧ b ∈ Job_Tags job)) in H as [-> Htags]; [|test_shape|]
  end; [|intros; shown; eauto].
  match goal with H : (length ?l =? 0) = true |- _ => apply Nat.eqb_eq, nil_length_inv in H end.
  do 23 eexists. split_and!; eassumption.
Qed.

Lemma cluster_group t u t' : ok (testClusterInfoInvariants (W := W) user) t u t' →
  cluster_shown user (T_world t) (T_world t').
Proof.
  intros H. unfold testClusterInfoInvariants in H. shown.
  match goal with H : ok (p_ClusterInfo _) _ _ _ |- _ => apply ok_call_inv in H as (calls1 & Hc1 & ->) end.
  destruct (mock_ClusterInfo (recorded calls1)) as [info|] eqn:Hi; [|done].
  apply ok_Run_inv in H as (c & -> & _ & H); [|test_shape].
  enough (∃ calls2, w_ClusterInfo (T_world t0) user = Ret (T_world c, calls2) ∧
    ∀ info2, mock_ClusterInfo (recorded calls2) = Some info2 →
      Forall (λ limit, ResourceLimit_Type limit ≠ "") (default [] (ClusterOptions_Limits info2))) as (calls2 & Hc2 & Hl).
  { rewrite Hw in Hc2. exists (T_world t1), calls1, calls2, info. by split_and!. }
  destruct H as [H|H].
  - ok_step. match goal with H : ok (p_ClusterInfo _) _ _ _ |- _ => apply ok_call_inv in H as (calls2 & Hc2 & ->) end.
    exists calls2. destruct (mock_ClusterInfo (recorded calls2)) as [info2|] eqn:Hi2; [|by destruct H].
    apply (ok_for_inv _ _ (λ limit, ResourceLimit_Type limit ≠ "")) in H as [-> Hl]; [|test_shape|intros; shown; eauto].
    split; [done|]. intros ? [= <-]. exact Hl.
  - rewrite Test_bind_eq in H. unfold p_ClusterInfo, call, world_op in H. cbn [T_world] in H.
    destruct (w_ClusterInfo (T_world t0) user) as [[w2 calls2]|]; [|done]. cbn [mbind outcome_bind fst snd] in H.
    destruct (mock_ClusterInfo (recorded calls2)) as [info2|] eqn:Hi2.
    + exfalso. assert (no_skip (t_for (W := W) (default [] (ClusterOptions_Limits info2)) (λ limit,
        t_assert (negb (bool_decide (ResourceLimit_Type limit = "")))))) as Hn by (unfold no_skip; test_shape).
      unfold no_skip, ends_by in Hn. eapply Hn; [by rewrite H|done].
    + injection H as <-. exists calls2. split; [done|]. intros ? ?. congruence.
Qed.
End Groups.

(** Everything [Run] observes, in order. *)
Definition run_shown {W} `{!World W} (user : string) (profile : Profile) (new : Job) (w w' : W) : Prop :=
  ∃ w1 w2 w3 w4 w5,
    submit_shown user new w w1 ∧ get_shown user new w1 w2 ∧ list_shown user new w2 w3 ∧
    cluster_shown user w3 w4 ∧ lifecycle_shown user (Profile_applyDefaults profile) new w4 w5 ∧
    errors_shown user w5 w'.

Section Shape.
Context {W : Type} `{!World W} (user : string) (profile : Profile).

(** A group is lawful and runs subtests only. *)
Definition group (m : Test W unit) : Prop := lawful m ∧ no_skip m.

Lemma group_Run name f : group (t_Run name f).
Proof. split; [apply lawful_Run|apply no_skip_Run]. Qed.

Lemma group_bind (m m' : Test W unit) : group m → group m' → group (m ≫= λ _, m').
Proof. intros [] []. split; [by apply lawful_bind|by apply ends_bind]. Qed.

Ltac solve_group := repeat first [apply group_Run | apply group_bind].

Lemma Submit_group : group (testSubmitInvariants (W := W) user profile).
Proof. unfold testSubmitInvariants. solve_group. Qed.
Lemma GetJob_group : group (testGetJobInvariants (W := W) user profile).
Proof. unfold testGetJobInvariants. solve_group. Qed.
Lemma GetJobs_group : group (testGetJobsInvariants (W := W) user profile).
Proof. unfold testGetJobsInvariants. solve_group. Qed.
Lemma Cluster_group : group (testClusterInfoInvariants (W := W) user).
Proof. unfold testClusterInfoInvariants. solve_group. Qed.
Lemma Lifecycle_group : group (testLifecycleInvariants (W := W) user profile).
Proof. unfold testLifecycleInvariants. solve_group. Qed.
Lemma Errors_group : group (testErrorInvariants (W := W) user).
Proof. unfold testErrorInvariants. solve_group. Qed.

Lemma ok_group_inv name (m : Test W unit) t u t' : group m → ok (t_Run name m) t u t' →
  ∃ c c', T_world c = T_world t ∧ T_world c' = T_world t' ∧ ok m c tt c'.
Proof.
  intros [Hl Hs] H. apply ok_Run_full in H as (c' & Hw & H); [|done..].
  exists (mkT (T_world t) false false []), c'. by split_and!.
Qed.

Lemma ok_group_shown name (m : Test W unit) (R : W → W → Prop) t u t' :
  group m → (∀ t u t', ok m t u t' → R (T_world t) (T_world t')) →
  ok (t_Run name m) t u t' → R (T_world t) (T_world t').
Proof. intros Hg HR H. apply ok_group_inv in H as (c & c' & <- & <- & H); [|done]. by eapply HR. Qed.

Lemma lawful_mustValidate : lawful (Profile_mustValidate (W := W) profile).
Proof. unfold Profile_mustValidate. test_shape. Qed.

Lemma group_after_validate (m : Test W unit) : group m → group (_ ← Profile_mustValidate profile; m).
Proof.
  intros Hm. apply group_bind; [|done]. split; [apply lawful_mustValidate|].
  unfold no_skip, Profile_mustValidate. test_shape.
Qed.

Lemma ok_mustValidate_inv t u t' : ok (Profile_mustValidate (W := W) profile) t u t' →
  t' = t ∧ ∃ factory, Profile_JobFactory profile = Some factory.
Proof.
  intros [H _]. unfold Profile_mustValidate, Profile_missing in H.
  destruct (Profile_JobFactory profile) as [f|]; [|done].
  destruct (0 <? _); [done|]. injection H as <- <-. eauto.
Qed.
End Shape.

(** C18: a pass of [Run] is worth what it says.  For any plugin and any schedule, if
    the invariant tests pass then each promise was observed on the way from the
    world they started in: submissions were answered by one job with an ID, a time
    stamp, the given name and tags, and by different IDs; the job was found under
    its ID; queries by tag gave the submitted jobs, and by two tags only jobs with
    both; jobs ended in time and kept their final status; unknown jobs were
    refused. *)
Theorem Run_sound {W : Type} `{!World W} (user : string) (profile : Profile) (w : W)
    (Hpass : passed (t_main w (Run user profile)) = true) :
  ∃ factory w', Profile_JobFactory profile = Some factory ∧ run_shown user profile (factory user) w w'.
Proof.
  apply passed_full in Hpass as [t' H]; [|apply group_after_validate, group_Run..].
  unfold Run in H. apply ok_bind_inv in H as ([] & t0 & Hv & H); [|intros; apply lawful_Run].
  apply ok_mustValidate_inv in Hv as [-> [factory Hf]]. exists factory.
  assert (Profile_JobFactory (Profile_applyDefaults profile) = Some factory) as Hf' by exact Hf.
  apply ok_group_inv in H as (c0 & c & Hc0 & Hc & H);
    [|repeat first [apply group_Run | apply group_bind]]. cbn in Hc0.
  repeat match goal with H : ok (_ ≫= _) _ _ _ |- _ =>
    apply ok_bind_inv in H as (? & ? & ? & H); [|intros; repeat first [apply lawful_Run | apply lawful_bind | intros]] end.
  exists (T_world c). split; [done|]. rewrite <- Hc0.
  eexists _, _, _, _, _. split_and!; (eapply ok_group_shown; [ | |eassumption]).
  - apply Submit_group.
  - intros. by eapply submit_group.
  - apply GetJob_group.
  - intros. by eapply get_group.
  - apply GetJobs_group.
  - intros. by eapply list_group.
  - apply Cluster_group.
  - apply cluster_group.
  - apply Lifecycle_group.
  - intros. by eapply lifecycle_group.
  - apply Errors_group.
  - apply errors_group.
Qed.

Lemma Run_sound_witness :
  ∃ factory w', Profile_JobFactory testProfile = Some factory ∧
    run_shown testUser testProfile (factory testUser) newTestPlugin w'.
Proof. apply (Run_sound testUser testProfile newTestPlugin). vm_compute. reflexivity. Defined.
