(* ===== verification/ScenariosSound.v ===== *)
(** * What the control scenarios show, and what the suite does not

    A pass of [RunStopJob] and [RunKillJob] as a history of the plugin's answers;
    a plugin that refuses submissions crashes the suite instead of failing it;
    field filtering and other ends of a job go unnoticed. *)

From Stdlib Require Import SpecFloat.
From S2P Require Import Prelude GoStd Types TypesFacts Writer Rpc Plugintest Metrics TestMonad Conformance Scenarios.
From S2P Require Import ConformanceFacts MemWorld ConformanceSound.

Section Shown.
Context {W : Type} `{!World W} (user : string).

(** A wait for a status saw it. *)
Definition reaches_within (w : W) (id : JobID) (status : string) (timeout : Z) (job : Job) (w' : W) : Prop :=
  ∃ before after, let '(ticks, rest) := w_ticks w timeout in
    looks user id ticks w = before ++ Ret (w', (Some job, None)) :: after ∧
    Forall (undecided (status_check status)) before ∧ Job_Status job = status.

(** The operation was answered without an error. *)
Definition accepts (w : W) (id : JobID) (op : JobOperation) (w' : W) : Prop :=
  ∃ calls, w_ControlJob w user id op (mkControlJobOptions "" "") = Ret (w', calls) ∧
    mock_Errors (recorded calls) = [].

(** The job ended as expected: the status, and one of the exit codes if any are
    given. *)
Definition ended_as (job : Job) (status : string) (codes : list Z) : Prop :=
  Job_Status job = status ∧ (codes = [] ∨ ∃ code, Job_ExitCode job = Some code ∧ code ∈ codes).

Lemma lawful_must_reach timeout id status : lawful (W := W) (must_reach timeout user id status).
Proof. unfold must_reach. test_shape. Qed.
Lemma lawful_must_end timeout id : lawful (W := W) (must_end timeout user id).
Proof. unfold must_end. test_shape. Qed.
Lemma lawful_must_control id op : lawful (W := W) (must_control user id op).
Proof. unfold must_control. test_shape. Qed.

Lemma no_skip_must_reach timeout id status : no_skip (W := W) (must_reach timeout user id status).
Proof. unfold must_reach, no_skip. test_shape. Qed.
Lemma no_skip_must_end timeout id : no_skip (W := W) (must_end timeout user id).
Proof. unfold must_end, no_skip. test_shape. Qed.
Lemma no_skip_must_control id op : no_skip (W := W) (must_control user id op).
Proof. unfold must_control, no_skip. test_shape. Qed.
Lemma no_skip_stream_stop s : no_skip (W := W) (stream_stop s).
Proof. unfold stream_stop, stream_cancel, stream_wait, no_skip. test_shape. Qed.

Lemma lawful_stream_stop s : lawful (W := W) (stream_stop s).
Proof. unfold stream_stop, stream_cancel, stream_wait. test_shape. Qed.

Lemma ok_must_reach_inv timeout id status t job t' : ok (must_reach timeout user id status) t job t' →
  reaches_within (T_world t) id status timeout job (T_world t').
Proof.
  intros H. apply ok_bind_inv in H as (r & t1 & Hr & H); [|test_shape].
  destruct r as [j|]; [|by destruct H]. destruct H as [[= <- <-] _]. destruct Hr as [H _].
  unfold WaitForStatus, wait_with in H. unfold reaches_within.
  destruct (w_ticks (T_world t) timeout) as [ticks rest].
  destruct (wait_loop_scan (status_check status) user id ticks rest t) as [(before & r & after & Hl & Hf & Hd)|[_ Hw]].
  - rewrite H in Hd. destruct r as [[w [[j'|] [err|]]]|why]; cbn in Hd; try done.
    destruct Hd as (v & Hc & Hres). injection Hres as -> <-. unfold status_check in Hc.
    case_bool_decide as Hs; [|by case_match]. injection Hc as <-. exists before, after. by rewrite Hl.
  - rewrite Hw in H. by destruct (w_sleep _ rest).
Qed.

Lemma ok_must_end_inv timeout id t job t' : ok (must_end timeout user id) t job t' →
  ends_within user (T_world t) id timeout job (T_world t').
Proof.
  intros H. apply ok_bind_inv in H as (r & t1 & Hr & H); [|test_shape].
  destruct r as [j|]; [|by destruct H]. destruct H as [[= <- <-] _]. by apply ok_wait_end_inv.
Qed.

Lemma ok_must_control_inv id op t u t' : ok (must_control user id op) t u t' →
  accepts (T_world t) id op (T_world t').
Proof.
  intros H. apply ok_bind_inv in H as (r & t1 & Hr & H); [|test_shape].
  apply ok_bind_inv in Hr as (m & t2 & Hc & Hr); [|test_shape].
  apply ok_call_inv in Hc as (calls & Hc & ->). destruct (mock_HasError (recorded calls)) eqn:He.
  - destruct Hr as [[= <- <-] _]. destruct (mock_LastError (recorded calls)) eqn:Hl; [by destruct H|].
    apply last_None in Hl. unfold mock_HasError in He. by rewrite Hl in He.
  - exists calls. split; [|by apply HasError_false].
    assert (r.2 = None ∧ t1 = t2) as [Hr2 ->].
    { destruct (mock_ControlResults (recorded calls)); by destruct Hr as [[= <- <-] _]. }
    destruct r as [r1 [err|]]; [done|]. by destruct H as [[= <- <-] _].
Qed.

Lemma assertExitCode_true job codes status :
  Job_Status job = status → assertExitCode job codes = true → ended_as job status codes.
Proof.
  intros Hs H. split; [done|]. unfold assertExitCode in H. destruct codes as [|c codes]; [by left|right].
  cbn [length Nat.eqb] in H. destruct (Job_ExitCode job) as [code|]; [|done].
  apply existsb_exists in H as (c' & Hin & ->%Z.eqb_eq). exists c'. split; [done|by apply list_elem_of_In].
Qed.

Lemma ok_stream_stop_inv s t u t' : ok (stream_stop s) t u t' →
  ∃ w, w_cancel (T_world t) s = Ret w ∧ w_join w s = Ret (Some (T_world t')).
Proof.
  intros H. apply ok_bind_inv in H as (v & t1 & Hc & H); [|unfold stream_wait; test_shape].
  apply ok_bind_inv in H as (b & t2 & Hj & H); [|test_shape].
  unfold stream_cancel, world_step in Hc. apply ok_world_op_inv in Hc, Hj. apply bind_Ret_inv in Hc as (w & Hc & Hw).
  injection Hw as -> _. exists (T_world t1). split; [done|].
  apply bind_Ret_inv in Hj as ([w2|] & Hj & Hw); injection Hw as -> <-; [|by destruct H].
  by destruct H as [[= <-] _].
Qed.
End Shown.

#[export] Hint Resolve lawful_must_reach lawful_must_end lawful_must_control lawful_stream_stop : testing.
#[export] Hint Extern 1 (ends_by _ (must_reach _ _ _ _)) => apply no_skip_must_reach : testing.
#[export] Hint Extern 1 (ends_by _ (must_end _ _ _)) => apply no_skip_must_end : testing.
#[export] Hint Extern 1 (ends_by _ (must_control _ _ _)) => apply no_skip_must_control : testing.
#[export] Hint Extern 1 (ends_by _ (stream_stop _)) => apply no_skip_stream_stop : testing.

(** Take a passed scenario apart. *)
Ltac scenario_step :=
  match goal with
  | H : ok (must_reach _ _ _ _) _ _ _ |- _ => apply ok_must_reach_inv in H
  | H : ok (must_end _ _ _) _ _ _ |- _ => apply ok_must_end_inv in H
  | H : ok (must_control _ _ _) _ _ _ |- _ => apply ok_must_control_inv in H
  | H : ok (CollectStatusStream _ _) _ _ _ |- _ => unfold CollectStatusStream in H; apply ok_world_op_inv in H
  | H : ok (stream_stop _) _ _ _ |- _ => apply ok_stream_stop_inv in H as (? & ? & ?)
  | H : ok (t_defer _ _) _ _ _ |- _ => apply ok_defer_inv in H as (? & ? & H); [|by auto with testing]
  | H : bool_decide _ = true |- _ => apply bool_decide_eq_true in H
  | H : assertExitCode _ _ = true |- _ => eapply assertExitCode_true in H; [|eassumption]
  | _ => ok_step
  end; cbn [T_world] in *.

(** A pass of the stop scenario is a complete history: the job was submitted,
    was seen running, the stop was accepted while a status stream of the user was
    open, the job was then seen to end with the expected status and exit code, and
    the stream returned when it was cancelled. *)
Theorem RunStopJob_sound {W : Type} `{!World W} (user : string) (opts : StopOpts) (w : W)
    (Hpass : passed (t_main w (RunStopJob user opts)) = true) :
  let timeout := defaultTimeout (StopOpts_Timeout opts) (30 * Second) in
  ∃ w1 w2 w3 w4 w5 w6 w7 w8 s j running final,
    submits user w (StopOpts_Job opts) j w1 ∧
    reaches_within user w1 (Job_ID j) StatusRunning timeout running w2 ∧
    w_open w2 (CallGetJobStatuses user) None = Ret (w3, s) ∧
    w_sleep w3 (50 * Millisecond) = Ret w4 ∧
    accepts user w4 (Job_ID j) OperationStop w5 ∧
    ends_within user w5 (Job_ID j) timeout final w6 ∧
    ended_as final (StopOpts_ExpectStatus opts) (StopOpts_ExpectExitCodes opts) ∧
    w_cancel w6 s = Ret w7 ∧ w_join w7 s = Ret (Some w8).
Proof.
  intros timeout. apply passed_full in Hpass as [t' H];
    [|unfold RunStopJob; test_shape|unfold RunStopJob, no_skip; test_shape].
  unfold RunStopJob in H. fold timeout in H. repeat scenario_step.
  do 12 eexists. split_and!; eassumption.
Qed.

Lemma RunStopJob_sound_witness :
  let job := zeroJob <| Job_Name := "conformance-long" |> <| Job_Tags := ["long-running"] |> in
  ∃ w1 j running w2,
    submits testUser newTestPlugin job j w1 ∧
    reaches_within testUser w1 (Job_ID j) StatusRunning (5 * Second) running w2.
Proof.
  intros job. destruct (RunStopJob_sound testUser (mkStopOpts job StatusFinished [143%Z] (5 * Second)) newTestPlugin)
    as (w1 & w2 & _ & _ & _ & _ & _ & _ & _ & j & running & _ & Hs & Hr & _); [vm_compute; reflexivity|].
  exists w1, j, running, w2. split; [exact Hs|exact Hr].
Defined.

(** ** What the suite does not do *)

(** A plugin that refuses every submission. *)
#[export] Instance refusing_World : World unit := {
  w_SubmitJob w user job := Ret (w, [CallErrorf CodeUnknown "the cluster is full"]);
  w_GetJob w user id fields := Ret (w, [CallErrorf CodeJobNotFound "no such job"]);
  w_GetJobs w user filter fields := Ret (w, [CallJobs None]);
  w_ControlJob w user id op opts := Ret (w, [CallErrorf CodeJobNotFound "no such job"]);
  w_GetJobNetwork w user id := Ret (w, [CallErrorf CodeJobNotFound "no such job"]);
  w_ClusterInfo w user := Ret (w, []);
  w_metrics := None;
  w_metrics_within w d := Ret (w, true);
  w_now w := Ret (w, mkTime 0 "UTC");
  w_sleep w d := Ret w;
  w_ticks w d := ([], d);
  w_open w c timeout := Ret (w, 0);
  w_calls w s := [];
  w_cancel w s := Ret w;
  w_join w s := Ret (Some w);
  w_join_within w s d := Ret (w, true);
}.

(** A panic in a subtest ends everything above it. *)
Lemma Run_panics {W} name (f : Test W unit) t c why :
  f (mkT (T_world t) false false []) = (c, inr (HaltPanic why)) →
  ∃ t', t_Run name f t = (t', inr (HaltPanic why)) ∧
    (T_results t').*1 = (T_results t).*1 ++ (cons name <$> (T_results c).*1) ++ [[name]].
Proof.
  intros Hf. unfold t_Run. rewrite Hf. eexists. split; [done|]. cbn. rewrite !fmap_app, <- !list_fmap_compose. done.
Qed.

Lemma first_subtest_panics {W} `{!World W} user profile factory (w w' : W) calls :
  Profile_JobFactory profile = Some factory → w_SubmitJob w user (factory user) = Ret (w', calls) →
  slice_len (mock_LastJobs (recorded calls)) = 0 →
  ∃ c, (job ← JobFactory profile user; m ← p_SubmitJob user job; _ ← t_assert (AssertNoError m);
        _ ← t_assert (AssertJobCount m 1); submitted ← index_first (mock_LastJobs m);
        t_assert (negb (bool_decide (Job_ID submitted = "")))) (mkT w false false [])
       = (c, inr (HaltPanic index_out_of_range)) ∧ T_results c = [].
Proof.
  intros Hf Hs Hn. rewrite Test_bind_eq. unfold JobFactory. rewrite Hf.
  change (make_job (Some factory) user (mkT w false false [])) with (mkT w false false [], inl (A := Job) (B := halt) (factory user)).
  cbv iota beta. rewrite Test_bind_eq. unfold p_SubmitJob, call, world_op. cbn [T_world]. rewrite Hs.
  cbn [mbind outcome_bind fst snd]. rewrite Test_bind_eq, t_assert_eq, Test_bind_eq, t_assert_eq, Test_bind_eq.
  destruct (mock_LastJobs (recorded calls)) as [[|j l]|]; try done; by eexists.
Qed.

(** A plugin that refuses a submission crashes the suite instead of failing
    it.  [testSubmitInvariants] reads [LastJobs()[0]] after assertions that do not
    stop the test: when the answer to the first submission holds no job, the test
    binary panics in the first subtest, and no other test is run. *)
Theorem refused_submission_panics {W : Type} `{!World W} (user : string) (profile : Profile)
    (factory : string → Job) (w w' : W) (calls : list WriterCall)
    (Hvalid : Profile_missing profile = []) (Hfactory : Profile_JobFactory profile = Some factory)
    (Hsubmit : w_SubmitJob w user (factory user) = Ret (w', calls))
    (Hnone : slice_len (mock_LastJobs (recorded calls)) = 0) :
  (t_main w (Run user profile)).2 = inr (HaltPanic index_out_of_range) ∧
  (T_results (t_main w (Run user profile)).1).*1 =
    [["Invariants"; "Submit"; "ReturnsNonEmptyID"]; ["Invariants"; "Submit"]; ["Invariants"]].
Proof.
  assert (Profile_JobFactory (Profile_applyDefaults profile) = Some factory) as Hf by exact Hfactory.
  unfold t_main, Run. rewrite Test_bind_eq. unfold Profile_mustValidate. rewrite Hvalid.
  set (t0 := mkT w false false []). change ((if 0 <? length [] then t_Fatal else mret tt) t0) with (t0, inl (A := unit) (B := halt) tt).
  destruct (first_subtest_panics user _ factory w w' calls Hf Hsubmit Hnone) as (c & Hc & Hr).
  destruct (Run_panics "ReturnsNonEmptyID" _ t0 _ _ Hc) as (c1 & Hc1 & Hr1).
  assert (∃ c2, testSubmitInvariants user (Profile_applyDefaults profile) t0 = (c2, inr (HaltPanic index_out_of_range)) ∧
    (T_results c2).*1 = [["ReturnsNonEmptyID"]]) as (c2 & Hc2 & Hr2).
  { exists c1. unfold testSubmitInvariants. rewrite Test_bind_eq, Hc1. split; [done|]. by rewrite Hr1, Hr. }
  destruct (Run_panics "Submit" _ t0 _ _ Hc2) as (c3 & Hc3 & Hr3).
  match goal with |- context [t_Run "Invariants" ?g t0] =>
    destruct (Run_panics "Invariants" g t0 c3 index_out_of_range) as (c4 & -> & Hr4) end.
  { change (mkT (T_world t0) false false []) with t0. by rewrite Test_bind_eq, Hc3. }
  split; [done|]. cbn [fst]. rewrite Hr4, Hr3, Hr2. done.
Qed.

Lemma refused_submission_panics_witness :
  (t_main tt (Run "alice" testProfile)).2 = inr (HaltPanic index_out_of_range).
Proof.
  refine (proj1 (refused_submission_panics (W := unit) "alice" testProfile _ tt tt
    [CallErrorf CodeUnknown "the cluster is full"] _ eq_refl _ _)); reflexivity.
Defined.

(** Field filtering is not tested for what its documentation says.
    [RunFieldFiltering] passes whenever the job that comes back has an ID, a status
    and a name, whatever other fields it holds and whatever fields were asked
    for: unrequested fields are never looked at. *)
Theorem field_filtering_unchecked {W : Type} `{!World W} (user : string) (opts : FieldFilterOpts)
    (w w1 w2 : W) (j job : Job)
    (Hsubmit : submits user w (FieldFilterOpts_Job opts) j w1) (Hid : Job_ID j ≠ "")
    (Hget : w_GetJob w1 user (Job_ID j) (FieldFilterOpts_Fields opts) = Ret (w2, [CallJobs (Some [job])]))
    (Hjob : Job_ID job ≠ "" ∧ Job_Status job ≠ "" ∧ Job_Name job ≠ "") :
  passed (t_main w (RunFieldFiltering user opts)) = true.
Proof.
  destruct Hsubmit as (calls & Hs & He & Hf). destruct Hjob as (Hj1 & Hj2 & Hj3).
  unfold first_job in Hf. destruct (mock_LastJobs (recorded calls)) as [[|j' l]|] eqn:Hl; [done| |done].
  injection Hf as ->. apply HasError_false in He.
  apply (passing_passed w _ (eq w) (λ _, eq w2)); [|done]. unfold RunFieldFiltering.
  apply (passing_bind _ (λ id v, id = Job_ID j ∧ v = w1)).
  { intros t Hw. unfold SubmitJob. rewrite Test_bind_eq. unfold p_SubmitJob, call, world_op. rewrite <- Hw, Hs.
    cbn [mbind outcome_bind fst snd]. rewrite He, Hl, bool_decide_false by done. by eexists _, _. }
  intros id. apply passing_pure. intros ->.
  apply (passing_bind _ (λ r v, r = (Some job, None) ∧ v = w2)).
  { intros t Hw. unfold GetJob. rewrite Test_bind_eq. unfold p_GetJob, call, world_op. rewrite Hw, Hget.
    by eexists _, _. }
  intros r. apply passing_pure. intros ->.
  apply step_assert; [by rewrite bool_decide_false|].
  apply (passing_conseq (λ v, v = w2) (λ v, v = w2) _ (λ _ v, v = w2)); [done|by intros [] v ->|].
  apply passing_for.
  intros f _. rewrite (bool_decide_false (Job_Status job = "")), (bool_decide_false (Job_Name job = "" ∧ _)) by naive_solver.
  case_bool_decide; [by apply last_assert|]. case_bool_decide; [by apply last_assert|]. intros t Ht. by exists tt, t.
Qed.

Lemma field_filtering_unchecked_witness :
  let job := zeroJob <| Job_Name := "conformance-test" |> <| Job_Command := "echo hello" |> in
  let opts := mkFieldFilterOpts job ["status"; "name"] in
  passed (t_main newTestPlugin (RunFieldFiltering testUser opts)) = true.
Proof.
  intros job opts.
  destruct (mw_SubmitJob newTestPlugin testUser job) as [[w1 calls]|] eqn:Hs; [|vm_compute in Hs; discriminate].
  destruct (first_job (recorded calls)) as [j|] eqn:Hj;
    [|vm_compute in Hs; injection Hs as <- <-; vm_compute in Hj; discriminate].
  destruct (mw_GetJob w1 testUser (Job_ID j) ["status"; "name"]) as [[w2 calls2]|] eqn:Hg; [|discriminate Hg].
  apply (field_filtering_unchecked (W := MemWorld) testUser opts newTestPlugin w1 w2 j j).
  - exists calls. split; [exact Hs|]. split; [|exact Hj].
    vm_compute in Hs. injection Hs as <- <-. vm_compute. reflexivity.
  - vm_compute in Hs. injection Hs as <- <-. vm_compute in Hj. injection Hj as <-. vm_compute. discriminate.
  - vm_compute in Hs. injection Hs as <- <-. vm_compute in Hj. injection Hj as <-. vm_compute in Hg.
    injection Hg as <- <-. vm_compute. reflexivity.
  - vm_compute in Hs. injection Hs as <- <-. vm_compute in Hj. injection Hj as <-.
    split; [vm_compute; discriminate|]. split; vm_compute; discriminate.
Defined.
