(* ===== verification/MemWorldFacts.v ===== *)
(** * The in-memory plugin satisfies the suite

    In every state the plugin can be in, with any number of streams running, and
    for every user and profile, the tests of the suite that do not wait pass; and
    the example's own test file passes as a whole. *)

From S2P Require Import Prelude GoStd Types TypesFacts Store Writer SubManager Cache CacheFacts CacheSystem CacheSystemFacts.
From S2P Require Import Rpc Plugintest InMemory Metrics TestMonad Conformance Scenarios MemWorld ConformanceFacts ConformanceSound.

(** ** The goroutines of the cache leave the jobs alone *)

Lemma map_to_list_perm {V} (m : gmap string V) : map_to_list m ≡ₚ map_to_list m.
Proof. done. Qed.

Lemma start_store rj s t th s' : start_step rj s t th = Ret s' → sys_cache s' = sys_cache s.
Proof.
  unfold start_step. destruct (thread_proc th).
  - by destruct (StreamJobStatus_start _ _ _ _) as [w []]; intros [= <-].
  - by intros (w & _ & [= <-])%bind_Ret_inv.
  - by intros [= <-].
Qed.

Lemma subscribe_store s t th s' :
  subscribe_step s t th = Ret s' → JobCache_store (sys_cache s') = JobCache_store (sys_cache s).
Proof.
  unfold subscribe_step. cbv zeta. fold (with_chan (sys_cache s) (fresh (dom (JobCache_chans (sys_cache s))))).
  set (c := fresh _). destruct (thread_proc th).
  - destruct (subscribeToID_eq (sys_cache s) (thread_ctx th) id c) as (r' & -> & [Hs _] & _).
    by intros [= <-].
  - destruct (subscribeToUser_eq (sys_cache s) (thread_ctx th) user c) as (r' & -> & [Hs _] & _).
    by intros [= <-].
  - destruct (subscribeToID_eq (sys_cache s) (context_WithCancel (thread_ctx th) (sys_next_ctx s)) id c)
      as (r' & -> & [Hs _] & _). by intros [= <-].
Qed.

Lemma loop_store s t th c done s' :
  loop_step s t th c done = Some s' → JobCache_store (sys_cache s') = JobCache_store (sys_cache s).
Proof.
  unfold loop_step. case_match; [done|]. destruct s as [r svc ths canc next proc0], r. cbn.
  destruct (thread_proc th); [destruct (status_loop _ _ _ _) as [[[h w] []]|]..|destruct (running_loop _ _ _) as [[h []]|]];
    cbn; by intros [= <-].
Qed.

(** The actions of the service and the streams. *)
Definition background_event (e : event) : bool :=
  match e with EThread _ _ | EServiceRecv | EServiceProcess _ => true | _ => false end.

Lemma background_store rj rm s e s' :
  sys_inv s → background_event e = true → sys_step rj rm s e = Some (Ret s') →
  JobCache_store (sys_cache s') = JobCache_store (sys_cache s).
Proof.
  intros HI He. destruct e; try done; cbn [sys_step].
  - unfold thread_step. destruct (sys_threads s !! t) as [th|]; [|done]. cbn.
    destruct (thread_pc th), (thread_chan th), (thread_proc th); try done; intros Hs; try injection Hs as Hs;
      try (by apply start_store in Hs as ->); try (by apply subscribe_store in Hs);
      try (unfold recheck_step in Hs; by destruct (RunningJobContext_recheck _ _ _); subst);
      (destruct (loop_step _ _ _ _ _) as [s1|] eqn:Hl; [|done]; injection Hs as ->; by apply loop_store in Hl).
  - destruct (sys_service s); try done. unfold JobCache_service_recv.
    destruct (JobCache_ch (sys_cache s)); [done|]. by intros [= <-].
  - destruct (sys_service s) as [|u|]; try done. case_match; [|done].
    destruct (processUpdate_eq err (sys_cache s) u) as (r' & -> & (Hst & _) & _);
      [by eapply chans_inv_disjoint, HI|]. by intros [= <-].
Qed.

Lemma next_event_background s e : next_event s = Some e → background_event e = true.
Proof.
  unfold next_event, sys_event, thread_event. intros He. destruct (sys_service s).
  - case_bool_decide; [|by injection He as <-]. apply find_some in He as [Hin _].
    apply in_map_iff in Hin as ([t th] & <- & _). done.
  - by injection He as <-.
  - apply find_some in He as [Hin _]. apply in_map_iff in Hin as ([t th] & <- & _). done.
Qed.

(** Settling never panics and keeps the jobs. *)
Lemma settle_ok n s : sys_inv s →
  ∃ s', settle n s = Ret s' ∧ sys_inv s' ∧ JobCache_store (sys_cache s') = JobCache_store (sys_cache s).
Proof.
  revert s. induction n as [|n IH]; intros s HI; cbn [settle]; [eauto|].
  destruct (next_event s) as [e|] eqn:He; [|eauto].
  destruct (sys_step map_to_list map_to_list s e) as [res|] eqn:Hs; [|eauto].
  destruct (step_inv map_to_list map_to_list map_to_list_perm map_to_list_perm s e res HI Hs) as (s1 & -> & HI1).
  destruct (IH s1 HI1) as (s2 & -> & HI2 & Hst). exists s2. split; [done|]. split; [done|].
  rewrite Hst. eapply background_store; [exact HI|by eapply next_event_background|exact Hs].
Qed.

(** ** The states of the world *)

Definition mem_stored (w : MemWorld) : gmap string Job := stored (mw_plugin w).

(** The goroutines are in a state some schedule leads to, and the IDs handed out
    are those of the counter. *)
Definition mem_ok (w : MemWorld) : Prop := sys_inv (mw_sys w) ∧ ids_bound (mw_plugin w).

Lemma newTestPlugin_ok : mem_ok newTestPlugin.
Proof. split; [apply initial_inv|apply new_plugin_ok]. Qed.

(** The same jobs, counter and time. *)
Definition same_jobs (w w' : MemWorld) : Prop :=
  mem_stored w' = mem_stored w ∧ mw_nextID w' = mw_nextID w ∧ mw_clock w' = mw_clock w.

Lemma ids_bound_same w w' : same_jobs w w' → ids_bound (mw_plugin w) → ids_bound (mw_plugin w').
Proof.
  intros (Hs & Hn & _) [H1 H2]. unfold ids_bound. cbn in *. rewrite Hn. split; [done|].
  intros id Hid. unfold mem_stored in Hs. rewrite Hs in Hid. by apply H2.
Qed.

Lemma mw_settle_ok w : mem_ok w → ∃ w', mw_settle w = Ret w' ∧ mem_ok w' ∧ same_jobs w w'.
Proof.
  intros [HI Hb]. unfold mw_settle. destruct (settle_ok settle_bound (mw_sys w) HI) as (s' & -> & HI' & Hst).
  eexists. split; [done|]. assert (same_jobs w (w <| mw_sys := s' |>)) as Hsame.
  { split; [|done]. unfold mem_stored, stored. cbn. by rewrite Hst. }
  split; [|done]. split; [done|]. by eapply ids_bound_same.
Qed.

(** A submission is answered by the new job, which is stored under a new ID. *)
Lemma mw_SubmitJob_ok w user job :
  mem_ok w → (mw_nextID w + 1 < 2 ^ 31)%Z →
  let id := job_name (mw_nextID w + 1) in
  let j := submitted_job id user (mw_time w) job in
  ∃ w', mw_SubmitJob w user job = Ret (w', [CallJobs (Some [j])]) ∧ mem_ok w' ∧
    mw_nextID w' = (mw_nextID w + 1)%Z ∧ mw_clock w' = mw_clock w ∧
    mem_stored w !! id = None ∧ mem_stored w' = <[id := j]> (mem_stored w).
Proof.
  intros [HI Hb] Hlt id j. destruct Hb as [Hpos Hids]. cbn in Hpos, Hids.
  assert (mem_stored w !! id = None) as Hnew.
  { destruct (mem_stored w !! id) eqn:E; [|done]. destruct (Hids id) as (k & Hk & Heq); [by eexists|].
    apply job_name_inj in Heq; lia. }
  assert (Job_ID j = id) as Hid by (by destruct job).
  assert (user_may user j = true) as Hu by (apply bool_decide_eq_true; right; by destruct job).
  unfold mw_SubmitJob, InMemoryPlugin_SubmitJob. cbn [InMemoryPlugin_nextID mw_plugin InMemoryPlugin_cache].
  rewrite wrap32_small by lia. fold id. fold j. rewrite AddOrUpdate_eq, Hid. cbn [mbind outcome_bind].
  set (r := written true (mw_time w) (sys_cache (mw_sys w)) id j).
  assert (store_jobs (JobCache_store r) = <[id := j]> (mem_stored w)) as Hr.
  { unfold r, written. cbn. fold (mem_stored w). unfold mem_stored, stored in Hnew. cbn in Hnew. by rewrite Hnew. }
  unfold JobCache_WriteJob. rewrite (Lookup_found _ _ _ _ j); [|by rewrite Hr, lookup_insert_eq|done].
  set (w1 := mw_after _ _ _).
  assert (mem_stored w1 = <[id := j]> (mem_stored w)) as Hs1 by exact Hr.
  assert (mem_ok w1) as Hok1.
  { split.
    - cbn. apply inv_with_cache; try done. apply written_ok; [apply HI|done].
    - split; [cbn; lia|]. intros k. change (stored (mw_plugin w1)) with (mem_stored w1). rewrite Hs1.
      rewrite lookup_insert_is_Some. intros [<-|[_ Hk]].
      + exists (mw_nextID w + 1)%Z. split; [cbn; lia|done].
      + destruct (Hids k Hk) as (n & Hn & ->). exists n. split; [cbn; lia|done]. }
  destruct (mw_settle_ok w1 Hok1) as (w2 & Hset & Hok2 & Hst & Hn & Hc). cbn [mbind outcome_bind]. rewrite Hset.
  exists w2. split; [done|]. split; [done|]. split; [by rewrite Hn|]. split; [by rewrite Hc|].
  split; [done|]. by rewrite Hst.
Qed.

(** ** Single steps of a test

    [at_state k m c]: the counter is at [k], the jobs are [m], the clock at [c]. *)
Definition at_state (k : Z) (m : gmap string Job) (c : Z) (w : MemWorld) : Prop :=
  mem_ok w ∧ mw_nextID w = k ∧ mem_stored w = m ∧ mw_clock w = c.

(** The job a submission at [k] and [c] makes. *)
Definition new_job (k c : Z) (user : string) (job : Job) : Job :=
  submitted_job (job_name (k + 1)) user (mkTime c "UTC") job.

Lemma new_job_ID k c user job : Job_ID (new_job k c user job) = job_name (k + 1).
Proof. by destruct job. Qed.

Lemma new_job_Name k c user job : Job_Name (new_job k c user job) = Job_Name job.
Proof. by destruct job. Qed.

Lemma new_job_Tags k c user job : Job_Tags (new_job k c user job) = Job_Tags job.
Proof. by destruct job. Qed.

Lemma new_job_Submitted k c user job : Job_Submitted (new_job k c user job) = Some (mkTime c "UTC").
Proof. by destruct job. Qed.

Lemma new_job_may k c user job : user_may user (new_job k c user job) = true.
Proof. apply bool_decide_eq_true. right. by destruct job. Qed.

Lemma job_name_nonempty k : job_name k ≠ "".
Proof. done. Qed.

Section Steps.
Context (k : Z) (m : gmap string Job) (c : Z) (user : string).
Context {A : Type} (Q : A → MemWorld → Prop).

Lemma step_submit job (g : MockResponseWriter → Test MemWorld A) :
  (k + 1 < 2 ^ 31)%Z →
  (m !! job_name (k + 1) = None →
   passing (at_state (k + 1) (<[job_name (k + 1) := new_job k c user job]> m) c)
     (g (recorded [CallJobs (Some [new_job k c user job])])) Q) →
  passing (at_state k m c) (p_SubmitJob user job ≫= g) Q.
Proof.
  intros Hlt Hg t (Hok & <- & <- & <-).
  destruct (mw_SubmitJob_ok (T_world t) user job Hok Hlt) as (w' & Hs & Hok' & Hk & Hc & Hnew & Hst).
  specialize (Hg Hnew (in_world t w')). destruct Hg as (a & t' & Ht' & Hf & Hsk & HQ); [done|].
  exists a, t'. rewrite Test_bind_eq. unfold p_SubmitJob, call, world_op. cbn [w_SubmitJob mem_World].
  rewrite Hs. cbn [mbind outcome_bind fst snd]. by split_and!.
Qed.

Lemma step_SubmitJob job (g : JobID → Test MemWorld A) :
  (k + 1 < 2 ^ 31)%Z →
  (m !! job_name (k + 1) = None →
   passing (at_state (k + 1) (<[job_name (k + 1) := new_job k c user job]> m) c) (g (job_name (k + 1))) Q) →
  passing (at_state k m c) (SubmitJob user job ≫= g) Q.
Proof.
  intros Hlt Hg t Ht. rewrite Test_bind_eq. unfold SubmitJob.
  pose proof (step_submit job (λ w, (if mock_HasError w then t_Fatal else
    match mock_LastJobs w with
    | None | Some [] => t_Fatal
    | Some (job :: _) => if bool_decide (Job_ID job = "") then t_Fatal else mret (Job_ID job)
    end) ≫= g) Hlt) as Hs.
  destruct Hs with (t := t) as (a & t' & Heq & Hr); [|done|].
  - intros Hnew. specialize (Hg Hnew). rewrite <- (new_job_ID k c user job) in Hg at 2.
    cbn -[new_job job_name]. rewrite bool_decide_false; [exact Hg|]. rewrite new_job_ID. apply job_name_nonempty.
  - exists a, t'. split; [|done]. rewrite <- Heq. rewrite !Test_bind_eq.
    by destruct (p_SubmitJob user job t) as [t1 [w|h]].
Qed.

Lemma step_GetJob_found id job (g : option Job * option Error → Test MemWorld A) :
  m !! id = Some job → user_may user job = true →
  passing (at_state k m c) (g (Some job, None)) Q →
  passing (at_state k m c) (GetJob user id [] ≫= g) Q.
Proof.
  intros Hj Hu Hg t Ht. rewrite Test_bind_eq, GetJob_eq. cbn [w_GetJob mem_World].
  unfold mw_GetJob, InMemoryPlugin_GetJob, JobCache_WriteJob. destruct (Ht) as (_ & _ & Hm & _).
  rewrite (Lookup_found _ _ _ _ job); [|by rewrite <- Hm in Hj|done]. destruct t. by apply Hg.
Qed.

(** Jobs that were never submitted. *)
Lemma unknown_id w id : at_state k m c w → (∀ n, id ≠ job_name n) → m !! id = None.
Proof.
  intros ([_ [_ Hids]] & _ & Hm & _) Hid. destruct (m !! id) eqn:E; [|done].
  destruct (Hids id) as (n & _ & Hn); [|by apply Hid in Hn]. unfold mem_stored in Hm. rewrite Hm. by eexists.
Qed.

Lemma step_p_GetJob_unknown id (g : MockResponseWriter → Test MemWorld A) :
  (∀ n, id ≠ job_name n) →
  passing (at_state k m c) (g (recorded [CallError (lookup_error user id)])) Q →
  passing (at_state k m c) (p_GetJob user id [] ≫= g) Q.
Proof.
  intros Hid Hg t Ht. rewrite Test_bind_eq. unfold p_GetJob, call, world_op. cbn [w_GetJob mem_World].
  unfold mw_GetJob, InMemoryPlugin_GetJob, JobCache_WriteJob.
  pose proof (unknown_id _ _ Ht Hid) as Hn. destruct (Ht) as (_ & _ & Hm & _).
  rewrite Lookup_denied by (intros job Hj; change (mem_stored (T_world t) !! id = Some job) in Hj; congruence).
  destruct t. by apply Hg.
Qed.

Lemma step_p_ControlJob_unknown id op (g : MockResponseWriter → Test MemWorld A) :
  (∀ n, id ≠ job_name n) →
  passing (at_state k m c) (g (recorded [CallError (not_found_for user id)])) Q →
  passing (at_state k m c) (p_ControlJob user id op ≫= g) Q.
Proof.
  intros Hid Hg t Ht. rewrite Test_bind_eq. unfold p_ControlJob, call, world_op. cbn [w_ControlJob mem_World].
  unfold mw_ControlJob, InMemoryPlugin_ControlJob. pose proof (unknown_id _ _ Ht Hid) as Hn.
  destruct (Ht) as (Hok & Hk & Hm & Hc).
  rewrite Update_denied by (intros job Hj; change (mem_stored (T_world t) !! id = Some job) in Hj; congruence).
  cbn [mbind outcome_bind fst snd].
  assert (mw_put (T_world t) (mkInMemoryPlugin (InMemoryPlugin_cache (mw_plugin (T_world t)))
    (InMemoryPlugin_nextID (mw_plugin (T_world t)))) = T_world t) as ->.
  { destruct t as [[clk nid [] tm os nx] ? ? ?]. done. }
  destruct (mw_settle_ok (T_world t) Hok) as (w' & -> & Hok' & Hst & Hn' & Hc'). cbn [mbind outcome_bind fst snd].
  apply (Hg (in_world t w')). split_and!; cbn; congruence || done.
Qed.

Lemma step_time_tag prefix (g : string → Test MemWorld A) :
  passing (at_state k m c) (g (prefix ++ strconv_Itoa c)%string) Q →
  passing (at_state k m c) (time_tag prefix ≫= g) Q.
Proof.
  intros Hg t Ht. destruct (Ht) as (_ & _ & _ & Hc). rewrite Test_bind_eq.
  assert (time_tag prefix t = (t, inl (prefix ++ strconv_Itoa c)%string)) as ->.
  { rewrite <- Hc. by destruct t. }
  by apply Hg.
Qed.

(** The jobs a query gives. *)
Definition query_result (filter : JobFilter) (js : list Job) : Prop :=
  ∀ job, job ∈ js ↔ m !! Job_ID job = Some job ∧ visible user (Some filter) job.

Lemma AllJobs_one js : default [] (mock_AllJobs (recorded [CallJobs (Some js)])) = js.
Proof. by destruct js. Qed.

Lemma step_p_GetJobs filter (g : MockResponseWriter → Test MemWorld A) :
  JobFilter_Fields filter = [] → JobFilter_StartTime filter = None → JobFilter_EndTime filter = None →
  (∀ js, query_result filter js → passing (at_state k m c) (g (recorded [CallJobs (Some js)])) Q) →
  passing (at_state k m c) (p_GetJobs user filter ≫= g) Q.
Proof.
  intros Hf Hs He Hg t Ht. destruct (Ht) as ([HI _] & _ & Hm & _).
  destruct (JobsForUser_elems map_to_list map_to_list_perm (JobCache_store (sys_cache (mw_sys (T_world t))))
    user (Some filter)) as (js & Hq & _ & _ & Hin).
  { apply (si_cache _ HI). }
  { intros id job _ f [= <-] _ Hb. unfold has_time_bound in Hb. rewrite Hs, He in Hb. naive_solver. }
  rewrite (list_fmap_ext _ id), list_fmap_id in Hq; [|intros i x _; unfold project; by rewrite Hf].
  rewrite Test_bind_eq. unfold p_GetJobs, call, world_op. cbn [w_GetJobs mem_World].
  unfold mw_GetJobs, InMemoryPlugin_GetJobs, JobCache_WriteJobs. cbn [InMemoryPlugin_cache mw_plugin].
  rewrite Hq. cbn [mbind outcome_bind fst snd]. destruct t. apply (Hg js); [|done].
  unfold query_result. rewrite <- Hm. exact Hin.
Qed.

Lemma step_GetJobs filter (g : list Job → Test MemWorld A) :
  JobFilter_Fields filter = [] → JobFilter_StartTime filter = None → JobFilter_EndTime filter = None →
  (∀ js, query_result filter js → passing (at_state k m c) (g js) Q) →
  passing (at_state k m c) (GetJobs user filter ≫= g) Q.
Proof.
  intros Hf Hs He Hg t Ht. unfold GetJobs.
  destruct (step_p_GetJobs filter (λ w, g (default [] (mock_AllJobs w))) Hf Hs He) with (t := t)
    as (a & t' & Heq & Hr); [|done|].
  - intros js Hjs. rewrite AllJobs_one. by apply Hg.
  - exists a, t'. split; [|done]. rewrite <- Heq. rewrite !Test_bind_eq.
    by destruct (p_GetJobs user filter t) as [t1 [w|h]].
Qed.
End Steps.

(** ** The groups *)
Section Groups.
Context (user : string) (profile : Profile) (factory : string → Job).
Context (Hfactory : Profile_JobFactory profile = Some factory).
Context (m : gmap string Job) (c : Z).

(** One step of a test whose outcome is known. *)
Ltac mem_step :=
  first
    [ eapply step_factory; [exact Hfactory|]
    | eapply step_submit; [lia|]; let Hn := fresh "Hnew" in intros Hn
    | eapply step_SubmitJob; [lia|]; let Hn := fresh "Hnew" in intros Hn
    | eapply step_time_tag
    | eapply step_assert; [done|]
    | eapply step_index; [done|] ].

Lemma distinct_ids k : (0 ≤ k)%Z → (k + 2 < 2 ^ 31)%Z → job_name (k + 1) ≠ job_name (k + 1 + 1).
Proof. intros H0 H1 H. apply job_name_inj in H; lia. Qed.

Lemma mem_submit_group k : (0 ≤ k)%Z → (k + 6 < 2 ^ 31)%Z →
  passing (at_state k m c) (testSubmitInvariants user profile) (λ _ w, mem_ok w).
Proof.
  intros H0 Hk. unfold testSubmitInvariants.
  eapply step_run; [repeat mem_step; apply last_assert; by rewrite new_job_ID|].
  eapply step_run; [repeat mem_step; apply last_assert; by rewrite new_job_Submitted|].
  eapply step_run.
  { repeat mem_step. apply last_assert. rewrite !new_job_ID, bool_decide_false; [done|]. apply distinct_ids; lia. }
  eapply step_run; [repeat mem_step; apply last_assert; rewrite new_job_Name; by destruct (factory user)|].
  eapply passing_conseq; [done| |apply passing_Run].
  2:{ do 4 mem_step. eapply step_assert; [|apply last_assert];
        unfold AssertJobHasTag; rewrite new_job_Tags; by destruct (factory user). }
  by intros _ w [Hok _].
Qed.

(** IDs the plugin never hands out. *)
Lemma not_a_job_name s : String.prefix "job-" s = false → ∀ n, s ≠ job_name n.
Proof.
  intros Hp n ->. assert (String.prefix "job-" (job_name n) = true); [|congruence].
  unfold job_name. by destruct (strconv_Itoa n).
Qed.

Lemma mem_get_group k : (0 ≤ k)%Z → (k + 1 < 2 ^ 31)%Z →
  passing (at_state k m c) (testGetJobInvariants user profile) (λ _ w, mem_ok w).
Proof.
  intros H0 Hk. unfold testGetJobInvariants.
  eapply step_run.
  { do 2 mem_step. eapply step_GetJob_found; [apply lookup_insert_eq|apply new_job_may|].
    apply last_assert. unfold AssertJobID. by rewrite new_job_ID, bool_decide_true. }
  eapply passing_conseq; [done| |apply passing_Run].
  2:{ eapply step_p_GetJob_unknown; [by apply not_a_job_name|]. apply last_assert.
      unfold lookup_error. by destruct (decide (user = "*")). }
  by intros _ w [Hok _].
Qed.

Lemma mem_errors_group k :
  passing (at_state k m c) (testErrorInvariants user) (λ _ w, mem_ok w).
Proof.
  unfold testErrorInvariants. eapply step_run.
  { eapply step_p_GetJob_unknown; [by apply not_a_job_name|]. apply last_assert.
    unfold lookup_error. by destruct (decide (user = "*")). }
  eapply passing_conseq; [done| |apply passing_Run].
  2:{ eapply step_p_ControlJob_unknown; [by apply not_a_job_name|]. by apply last_assert. }
  by intros _ w [Hok _].
Qed.

Lemma mem_cluster_group k :
  passing (at_state k m c) (testClusterInfoInvariants (W := MemWorld) user) (λ _ w, mem_ok w).
Proof.
  intros t Ht. eexists tt, _. split; [reflexivity|]. destruct t as [w f sk res]. cbn.
  rewrite !orb_false_r. split_and!; [done..|apply Ht].
Qed.

(** What a query by tags gives. *)
Lemma tag_query_in m' k' tags job js : query_result m' user (tag_filter tags) js →
  m' !! job_name (k' + 1) = Some (new_job k' c user job) → tags ⊆ Job_Tags job →
  new_job k' c user job ∈ js.
Proof.
  intros Hq Hm Ht. apply Hq. rewrite new_job_ID. split; [done|]. split.
  - right. by destruct job.
  - intros f [= <-]. unfold filter_accepts. cbn. rewrite new_job_Tags. by split_and!; [..|exact Ht].
Qed.

Lemma found_in js job id : job ∈ js → Job_ID job = id → found js id = true.
Proof.
  intros Hin Hid. apply bool_decide_eq_true. unfold FindJobByID.
  destruct (List.find _ js) as [j|] eqn:E; [by eexists|].
  exfalso. apply list_elem_of_In in Hin. pose proof (find_none _ _ E job Hin) as Hn.
  by apply bool_decide_eq_false in Hn.
Qed.

Lemma two_elements {A} (x y : A) (l : list A) : x ∈ l → y ∈ l → x ≠ y → (length l <? 2)%nat = false.
Proof.
  intros Hx Hy Hne. apply Nat.ltb_ge. destruct l as [|a [|b l]]; cbn; [by apply elem_of_nil in Hx| |lia].
  apply list_elem_of_singleton in Hx, Hy. congruence.
Qed.

Lemma add_tags_Tags job tags : Job_Tags (add_tags job tags) = Job_Tags job ++ tags.
Proof. by destruct job. Qed.

(** The tags of the group. *)
Let tag : string := ("conformance-get-jobs-" ++ strconv_Itoa c)%string.
Let tagA : string := ("conformance-and-a-" ++ strconv_Itoa c)%string.
Let tagB : string := ("conformance-and-b-" ++ strconv_Itoa c)%string.
Let tagC : string := ("conformance-nomatch-" ++ strconv_Itoa c)%string.

(** No job of the group has the last tag. *)
Lemma untagged_insert (m' : gmap string Job) k tags job :
  map_Forall (λ _ job, tagC ∉ Job_Tags job) m' → tagC ∉ Job_Tags job → tagC ∉ tags →
  map_Forall (λ _ job, tagC ∉ Job_Tags job) (<[job_name (k + 1) := new_job k c user (add_tags job tags)]> m').
Proof.
  intros Hm Hj Ht. apply map_Forall_insert_2; [|done]. rewrite new_job_Tags, add_tags_Tags. set_solver.
Qed.

Lemma tagC_new : tagC ≠ tag ∧ tagC ≠ tagA ∧ tagC ≠ tagB.
Proof. by unfold tagC, tag, tagA, tagB. Qed.

Lemma mem_list_group k : (0 ≤ k)%Z → (k + 4 < 2 ^ 31)%Z →
  (∀ id job, m !! id = Some job → tagC ∉ Job_Tags job) → tagC ∉ Job_Tags (factory user) →
  passing (at_state k m c) (testGetJobsInvariants user profile) (λ _ w, mem_ok w).
Proof.
  intros H0 Hk Hm Hf. unfold testGetJobsInvariants.
  eapply step_run.
  { repeat mem_step. eapply step_GetJobs; [done..|]. intros js Hq. fold tag in Hq |- *.
    pose proof (tag_query_in _ k [tag] (add_tags (factory user) [tag]) js Hq) as H1.
    pose proof (tag_query_in _ (k + 1) [tag] (add_tags (factory user) [tag]) js Hq) as H2.
    rewrite lookup_insert_ne, lookup_insert_eq in H1 by (apply not_eq_sym, distinct_ids; lia).
    rewrite lookup_insert_eq in H2. rewrite add_tags_Tags in H1, H2.
    specialize (H1 eq_refl ltac:(set_solver)). specialize (H2 eq_refl ltac:(set_solver)).
    rewrite (two_elements _ _ _ H1 H2).
    2:{ intros He. apply (f_equal Job_ID) in He. rewrite !new_job_ID in He. revert He. apply distinct_ids; lia. }
    eapply step_assert; [by eapply found_in; [exact H1|apply new_job_ID]|].
    apply last_assert. by eapply found_in; [exact H2|apply new_job_ID]. }
  eapply step_run.
  { repeat mem_step. eapply step_GetJobs; [done..|]. intros js Hq. fold tagA tagB in Hq |- *.
    pose proof (tag_query_in _ (k + 1 + 1) [tagA; tagB] (add_tags (factory user) [tagA; tagB]) js Hq) as H1.
    rewrite lookup_insert_ne, lookup_insert_eq in H1 by (apply not_eq_sym, distinct_ids; lia).
    rewrite add_tags_Tags in H1. specialize (H1 eq_refl ltac:(set_solver)).
    eapply passing_bind.
    - apply passing_for. intros job [_ [_ Ha]]%Hq. specialize (Ha _ eq_refl) as (_ & _ & _ & Ha). cbn in Ha.
      eapply step_assert; [|apply last_assert]; apply AssertJobHasTag_true; set_solver.
    - intros []. apply last_assert. by eapply found_in; [exact H1|apply new_job_ID]. }
  eapply step_run.
  { eapply step_p_GetJobs; [done..|]. intros js _. by apply last_assert. }
  eapply passing_conseq; [done| |apply passing_Run].
  2:{ mem_step. eapply step_GetJobs; [done..|]. intros js Hq. fold tagC in Hq |- *. apply last_assert.
      destruct js as [|job js]; [done|]. exfalso.
      destruct (proj1 (Hq job)) as [Hj [_ Ha]]; [by left|]. specialize (Ha _ eq_refl) as (_ & _ & _ & Ha). cbn in Ha.
      assert (map_Forall (λ _ job, tagC ∉ Job_Tags job) m) as Hall by exact Hm.
      pose proof tagC_new as (Hn1 & Hn2 & Hn3).
      eapply (map_Forall_lookup_1 (λ _ job, tagC ∉ Job_Tags job)) in Hj; [|by repeat apply untagged_insert; set_solver].
      set_solver. }
  by intros _ w [Hok _].
Qed.
End Groups.

(** ** Properties *)



(** The outcome of a test: whether it passed, and what is reported of its
    subtests. *)
Definition outcome_of (f : Test MemWorld unit) : bool * list verdict :=
  let r := t_main newTestPlugin f in (passed r, (T_results r.1).*2).

(** The tests of the example. *)
Definition longJob : Job :=
  zeroJob <| Job_User := testUser |> <| Job_Name := "conformance-long" |> <| Job_Command := "sleep 300" |>
          <| Job_Tags := ["long-running"] |>.
Definition shortJob : Job :=
  zeroJob <| Job_User := testUser |> <| Job_Name := "conformance-test" |> <| Job_Command := "echo hello" |>.

(** The example's conformance tests pass as a whole: the invariants, the
    workflows and the single scenarios, with their waits of up to ten seconds,
    their streams and timeouts, on the plugin with its cache, service goroutine
    and life-cycle timers; no subtest fails or is skipped. *)
Theorem example_tests_pass :
  outcome_of (Run testUser testProfile) = (true, replicate 24 PASS) ∧
  outcome_of (RunWorkflows testUser testProfile) = (true, replicate 13 PASS) ∧
  outcome_of (RunStopJob testUser (mkStopOpts longJob StatusFinished [143%Z] (5 * Second))) = (true, []) ∧
  outcome_of (RunKillJob testUser (mkKillOpts longJob StatusKilled [137%Z] (5 * Second))) = (true, []) ∧
  outcome_of (RunCancelJob testUser (mkCancelOpts longJob (5 * Second))) = (true, []) ∧
  outcome_of (RunOutputStream testUser (mkOutputStreamOpts shortJob OutputStdout true (5 * Second))) = (true, []) ∧
  outcome_of (RunStatusStream testUser (mkStatusStreamOpts shortJob (5 * Second))) = (true, []) ∧
  outcome_of (RunStreamCancellation testUser (mkStreamCancelOpts shortJob (5 * Second))) = (true, []) ∧
  outcome_of (RunFieldFiltering testUser (mkFieldFilterOpts shortJob ["status"; "name"])) = (true, []) ∧
  outcome_of (RunControlInvalidState testUser (mkInvalidStateOpts shortJob OperationStop (10 * Second))) = (true, []).
Proof. vm_compute. split_and!; reflexivity. Qed.
