(* ===== verification/Builders.v ===== *)
(** * The test builders (src/plugintest/builders.go)

    A builder mutates one struct through a pointer and hands the pointer out, so
    the model has a heap: structs with their plain fields as values and their
    slices, maps and pointers as references to cells.  A slice is the cell of its
    backing array with a length; the capacity is the length of the array, and
    [append] writes in place while there is room.  Two structs may refer to the
    same cell: that is what [Clone] does with the fields it does not copy.

    A builder is identified with the struct it builds (its only field, never
    reassigned), and its methods return the new heap.  Pointers to integers and
    times are made fresh by every method that sets them and never written
    through, so they are values.  InitContainers and the fields no method sets
    stay part of the struct's value. *)

From S2P Require Import Prelude GoStd Types Writer.

(** ** The heap *)

(** Elements of backing arrays. *)
Inductive elem :=
| EString (s : string)
| EEnv (e : Env)
| EMount (m : Mount)
| EPort (p : Port)
| ELimit (l : ResourceLimit)
| EConstraint (c : PlacementConstraint)
| EConfig (c : JobConfig)
| EProfile (p : ResourceProfile)
| EUnset.

Inductive cell :=
| CArray (a : list elem)
| CContainer (c : Container)
| CMap (m : gmap string any).

(** A reference: the cell and, for a slice, the length. *)
Record ref := mkRef { ref_cell : nat; ref_len : nat }.

(** The plain fields of the struct a builder works on. *)
Inductive struct :=
| SJob (j : Job)
| SFilter (f : JobFilter)
| SCluster (o : ClusterOptions).

(** A struct; the references it holds are filed under their field's name, and a
    nil field has none. *)
Record object := mkObject { obj_struct : struct; obj_refs : gmap string ref }.

Record heap := mkHeap { heap_cells : gmap nat cell; heap_objs : gmap nat object }.

#[export] Instance eta_object : Eta object := λ o, mkObject (obj_struct o) (obj_refs o).
#[export] Instance set_obj_struct : Setter obj_struct := ltac:(solve_setter).
#[export] Instance set_obj_refs : Setter obj_refs := ltac:(solve_setter).
#[export] Instance eta_heap : Eta heap := λ h, mkHeap (heap_cells h) (heap_objs h).
#[export] Instance set_heap_cells : Setter heap_cells := ltac:(solve_setter).
#[export] Instance set_heap_objs : Setter heap_objs := ltac:(solve_setter).

Definition alloc (h : heap) (c : cell) : heap * nat :=
  let l := fresh (dom (heap_cells h)) in (h <| heap_cells := <[l := c]> (heap_cells h) |>, l).

Definition new_object (h : heap) (o : object) : heap * nat :=
  let b := fresh (dom (heap_objs h)) in (h <| heap_objs := <[b := o]> (heap_objs h) |>, b).

Definition get_object (h : heap) (b : nat) : outcome object := deref (heap_objs h !! b).

Definition put_object (h : heap) (b : nat) (o : object) : heap :=
  h <| heap_objs := <[b := o]> (heap_objs h) |>.

Definition write_cell (h : heap) (l : nat) (c : cell) : heap :=
  h <| heap_cells := <[l := c]> (heap_cells h) |>.

(** [b.job.F = v] for plain fields. *)
Definition assign (h : heap) (b : nat) (f : struct → struct) : outcome heap :=
  o ← get_object h b; Ret (put_object h b (o <| obj_struct := f (obj_struct o) |>)).

Definition on_job (f : Job → Job) (s : struct) : struct :=
  match s with SJob j => SJob (f j) | _ => s end.
Definition on_filter (f : JobFilter → JobFilter) (s : struct) : struct :=
  match s with SFilter j => SFilter (f j) | _ => s end.
Definition on_cluster (f : ClusterOptions → ClusterOptions) (s : struct) : struct :=
  match s with SCluster j => SCluster (f j) | _ => s end.

(** [b.job.F = r] for a reference. *)
Definition set_ref (h : heap) (b : nat) (field : string) (r : option ref) : outcome heap :=
  o ← get_object h b;
  Ret (put_object h b (o <| obj_refs := partial_alter (λ _, r) field (obj_refs o) |>)).

(** A slice literal, never nil. *)
Definition make_slice (h : heap) (xs : list elem) : heap * ref :=
  let '(h, l) := alloc h (CArray xs) in (h, mkRef l (length xs)).

(** The slice of a variadic call [f(x, y, ...)]: nil without arguments. *)
Definition variadic (h : heap) (xs : list elem) : heap * option ref :=
  match xs with [] => (h, None) | _ => let '(h, r) := make_slice h xs in (h, Some r) end.

Section Append.
(** The capacity [append] gives a new array, from the old capacity and the
    length needed. *)
Variable grow : nat → nat → nat.

(** A new array that holds [xs] and then [x]. *)
Definition grown (cap : nat) (xs : list elem) (x : elem) : list elem :=
  let n := S (length xs) in xs ++ [x] ++ replicate (grow cap n - n) EUnset.

Definition append (h : heap) (s : option ref) (x : elem) : outcome (heap * ref) :=
  match s with
  | None => let '(h, l) := alloc h (CArray (grown 0 [] x)) in Ret (h, mkRef l 1)
  | Some r =>
      match heap_cells h !! ref_cell r with
      | Some (CArray a) =>
          if (ref_len r <? length a)%nat
          then Ret (write_cell h (ref_cell r) (CArray (<[ref_len r := x]> a)), mkRef (ref_cell r) (S (ref_len r)))
          else
            let '(h, l) := alloc h (CArray (grown (length a) (take (ref_len r) a) x)) in
            Ret (h, mkRef l (S (ref_len r)))
      | _ => Panic nil_deref
      end
  end.

(** [b.job.F = append(b.job.F, x)]. *)
Definition append_field (h : heap) (b : nat) (field : string) (x : elem) : outcome heap :=
  o ← get_object h b;
  r ← append h (obj_refs o !! field) x;
  set_ref r.1 b field (Some r.2).

(** [if b.job.F == nil { b.job.F = []T{} }] before the append. *)
Definition append_checked (h : heap) (b : nat) (field : string) (x : elem) : outcome heap :=
  o ← get_object h b;
  h ← match obj_refs o !! field with
      | Some _ => Ret h
      | None => let '(h, r) := make_slice h [] in set_ref h b field (Some r)
      end;
  append_field h b field x.

(** ** JobBuilder *)

Definition NewJob (h : heap) (now : Time) : heap * nat :=
  new_object h (mkObject (SJob (zeroJob <| Job_ID := "test-job-1" |> <| Job_Status := StatusPending |>
    <| Job_Submitted := Some now |> <| Job_LastUpdated := Some now |>)) ∅).

Definition JobBuilder_WithID (h : heap) (b : nat) (id : JobID) : outcome heap :=
  assign h b (on_job (λ j, j <| Job_ID := id |>)).

Definition NewJobWithID (h : heap) (now : Time) (id : JobID) : outcome (heap * nat) :=
  let '(h, b) := NewJob h now in
  h ← assign h b (on_job (λ j, j <| Job_ID := id |>)); Ret (h, b).

Definition JobBuilder_WithName (h : heap) (b : nat) (name : string) : outcome heap :=
  assign h b (on_job (λ j, j <| Job_Name := name |>)).
Definition JobBuilder_WithUser (h : heap) (b : nat) (user : string) : outcome heap :=
  assign h b (on_job (λ j, j <| Job_User := user |>)).
Definition JobBuilder_WithGroup (h : heap) (b : nat) (group : string) : outcome heap :=
  assign h b (on_job (λ j, j <| Job_Group := group |>)).
Definition JobBuilder_WithStatus (h : heap) (b : nat) (status : string) : outcome heap :=
  assign h b (on_job (λ j, j <| Job_Status := status |>)).
Definition JobBuilder_WithStatusMessage (h : heap) (b : nat) (msg : string) : outcome heap :=
  assign h b (on_job (λ j, j <| Job_StatusMsg := msg |>)).
Definition JobBuilder_WithHost (h : heap) (b : nat) (host : string) : outcome heap :=
  assign h b (on_job (λ j, j <| Job_Host := host |>)).
Definition JobBuilder_WithPid (h : heap) (b : nat) (pid : Z) : outcome heap :=
  assign h b (on_job (λ j, j <| Job_Pid := Some pid |>)).
Definition JobBuilder_WithExitCode (h : heap) (b : nat) (code : Z) : outcome heap :=
  assign h b (on_job (λ j, j <| Job_ExitCode := Some code |>)).
Definition JobBuilder_WithCommand (h : heap) (b : nat) (command : string) : outcome heap :=
  assign h b (on_job (λ j, j <| Job_Command := command |>)).
Definition JobBuilder_WithExe (h : heap) (b : nat) (exe : string) : outcome heap :=
  assign h b (on_job (λ j, j <| Job_Exe := exe |>)).
Definition JobBuilder_WithArgs (h : heap) (b : nat) (args : option ref) : outcome heap := set_ref h b "Args" args.
Definition JobBuilder_WithEnv (h : heap) (b : nat) (name value : string) : outcome heap :=
  append_checked h b "Env" (EEnv (mkEnv name value)).
Definition JobBuilder_WithEnvVars (h : heap) (b : nat) (env : option ref) : outcome heap := set_ref h b "Env" env.
Definition JobBuilder_WithWorkDir (h : heap) (b : nat) (dir : string) : outcome heap :=
  assign h b (on_job (λ j, j <| Job_WorkDir := dir |>)).
Definition JobBuilder_WithStdout (h : heap) (b : nat) (path : string) : outcome heap :=
  assign h b (on_job (λ j, j <| Job_Stdout := path |>)).
Definition JobBuilder_WithStderr (h : heap) (b : nat) (path : string) : outcome heap :=
  assign h b (on_job (λ j, j <| Job_Stderr := path |>)).
Definition JobBuilder_WithStdin (h : heap) (b : nat) (stdin : string) : outcome heap :=
  assign h b (on_job (λ j, j <| Job_Stdin := stdin |>)).
Definition JobBuilder_WithQueue (h : heap) (b : nat) (queue : string) : outcome heap :=
  let '(h, r) := make_slice h [EString queue] in set_ref h b "Queues" (Some r).
Definition JobBuilder_WithQueues (h : heap) (b : nat) (queues : option ref) : outcome heap :=
  set_ref h b "Queues" queues.
Definition JobBuilder_WithCluster (h : heap) (b : nat) (cluster : string) : outcome heap :=
  assign h b (on_job (λ j, j <| Job_Cluster := cluster |>)).
Definition JobBuilder_WithProfile (h : heap) (b : nat) (profile : string) : outcome heap :=
  assign h b (on_job (λ j, j <| Job_Profile := profile |>)).
Definition JobBuilder_WithTag (h : heap) (b : nat) (tag : string) : outcome heap :=
  append_checked h b "Tags" (EString tag).
Definition JobBuilder_WithTags (h : heap) (b : nat) (tags : option ref) : outcome heap := set_ref h b "Tags" tags.

Definition zeroContainer : Container := mkContainer "" None None [].

Definition JobBuilder_WithContainer (h : heap) (b : nat) (image : string) : outcome heap :=
  let '(h, l) := alloc h (CContainer (mkContainer image None None [])) in
  set_ref h b "Container" (Some (mkRef l 0)).

(** [if b.job.Container == nil { ... }] and a write through the pointer. *)
Definition container_field (h : heap) (b : nat) (f : Container → Container) : outcome heap :=
  o ← get_object h b;
  h ← match obj_refs o !! "Container" with
      | Some _ => Ret h
      | None => let '(h, l) := alloc h (CContainer zeroContainer) in set_ref h b "Container" (Some (mkRef l 0))
      end;
  o ← get_object h b;
  r ← deref (obj_refs o !! "Container");
  match heap_cells h !! ref_cell r with
  | Some (CContainer c) => Ret (write_cell h (ref_cell r) (CContainer (f c)))
  | _ => Panic nil_deref
  end.

Definition JobBuilder_WithContainerUser (h : heap) (b : nat) (uid : Z) : outcome heap :=
  container_field h b (λ c, mkContainer (Container_Image c) (Some uid) (Container_RunAsGroup c)
    (Container_SupplementalGroups c)).
Definition JobBuilder_WithContainerGroup (h : heap) (b : nat) (gid : Z) : outcome heap :=
  container_field h b (λ c, mkContainer (Container_Image c) (Container_RunAsUser c) (Some gid)
    (Container_SupplementalGroups c)).

Definition JobBuilder_WithMount (h : heap) (b : nat) (src dst : string) (readOnly : bool) : outcome heap :=
  append_checked h b "Mounts"
    (EMount (mkMount dst "" readOnly (mkMountSource MountTypeHost (AnyHostMount (mkHostMount src))))).
Definition JobBuilder_WithPort (h : heap) (b : nat) (target : Z) (protocol : string) : outcome heap :=
  append_checked h b "Ports" (EPort (mkPort target None protocol)).
Definition JobBuilder_WithPublishedPort (h : heap) (b : nat) (published target : Z) (protocol : string)
    : outcome heap := append_checked h b "Ports" (EPort (mkPort target (Some published) protocol)).
Definition JobBuilder_WithLimit (h : heap) (b : nat) (limitType value : string) : outcome heap :=
  append_checked h b "Limits" (ELimit (mkResourceLimit limitType value "" "")).
Definition JobBuilder_WithConstraint (h : heap) (b : nat) (name value : string) : outcome heap :=
  append_checked h b "Constraints" (EConstraint (mkPlacementConstraint name value "")).
Definition JobBuilder_WithConfig (h : heap) (b : nat) (name valueType value : string) : outcome heap :=
  append_checked h b "Config" (EConfig (mkJobConfig name valueType value)).

Definition JobBuilder_WithMetadata (h : heap) (b : nat) (key : string) (value : any) : outcome heap :=
  o ← get_object h b;
  h ← match obj_refs o !! "Metadata" with
      | Some _ => Ret h
      | None => let '(h, l) := alloc h (CMap ∅) in set_ref h b "Metadata" (Some (mkRef l 0))
      end;
  o ← get_object h b;
  r ← deref (obj_refs o !! "Metadata");
  match heap_cells h !! ref_cell r with
  | Some (CMap m) => Ret (write_cell h (ref_cell r) (CMap (<[key := value]> m)))
  | _ => Panic nil_deref
  end.

Definition JobBuilder_WithSubmissionTime (h : heap) (b : nat) (t : Time) : outcome heap :=
  assign h b (on_job (λ j, j <| Job_Submitted := Some t |>)).
Definition JobBuilder_WithLastUpdated (h : heap) (b : nat) (t : Time) : outcome heap :=
  assign h b (on_job (λ j, j <| Job_LastUpdated := Some t |>)).
Definition JobBuilder_Pending (h : heap) (b : nat) : outcome heap :=
  assign h b (on_job (λ j, j <| Job_Status := StatusPending |>)).
Definition JobBuilder_Running (h : heap) (b : nat) : outcome heap :=
  assign h b (on_job (λ j, j <| Job_Status := StatusRunning |>)).
Definition JobBuilder_Finished (h : heap) (b : nat) (exitCode : Z) : outcome heap :=
  assign h b (on_job (λ j, j <| Job_Status := StatusFinished |> <| Job_ExitCode := Some exitCode |>)).
Definition JobBuilder_Failed (h : heap) (b : nat) (msg : string) : outcome heap :=
  assign h b (on_job (λ j,
    let j := j <| Job_Status := StatusFailed |> in
    if decide (msg ≠ "") then j <| Job_StatusMsg := msg |> else j)).
Definition JobBuilder_Killed (h : heap) (b : nat) : outcome heap :=
  assign h b (on_job (λ j, j <| Job_Status := StatusKilled |>)).
Definition JobBuilder_Canceled (h : heap) (b : nat) : outcome heap :=
  assign h b (on_job (λ j, j <| Job_Status := StatusCanceled |>)).
Definition JobBuilder_Suspended (h : heap) (b : nat) : outcome heap :=
  assign h b (on_job (λ j, j <| Job_Status := StatusSuspended |>)).

(** [Build] hands out the pointer the builder keeps writing through. *)
Definition JobBuilder_Build (b : nat) : nat := b.

(** [if b.job.F != nil { jobCopy.F = make(...); copy(...) }]: the first [len]
    elements in a new array, or the entries in a new map. *)
Definition copy_field (h : heap) (refs : gmap string ref) (field : string) : outcome (heap * gmap string ref) :=
  match refs !! field with
  | None => Ret (h, refs)
  | Some r =>
      match heap_cells h !! ref_cell r with
      | Some (CArray a) =>
          let '(h, r) := make_slice h (take (ref_len r) a) in Ret (h, <[field := r]> refs)
      | Some (CMap m) => let '(h, l) := alloc h (CMap m) in Ret (h, <[field := mkRef l 0]> refs)
      | _ => Panic nil_deref
      end
  end.

(** The fields [Clone] copies. *)
Definition cloned_fields : list string := ["Queues"; "Args"; "Env"; "Tags"; "Metadata"].

Fixpoint copy_fields (h : heap) (refs : gmap string ref) (fields : list string) : outcome (heap * gmap string ref) :=
  match fields with
  | [] => Ret (h, refs)
  | field :: fields => r ← copy_field h refs field; copy_fields r.1 r.2 fields
  end.

Definition JobBuilder_Clone (h : heap) (b : nat) : outcome (heap * nat) :=
  o ← get_object h b;
  r ← copy_fields h (obj_refs o) cloned_fields;
  Ret (new_object r.1 (mkObject (obj_struct o) r.2)).

(** ** JobFilterBuilder *)
Definition NewJobFilter (h : heap) : heap * nat :=
  new_object h (mkObject (SFilter (mkJobFilter [] None None [] [])) ∅).
Definition JobFilterBuilder_WithTag (h : heap) (b : nat) (tag : string) : outcome heap :=
  append_checked h b "Tags" (EString tag).
Definition JobFilterBuilder_WithTags (h : heap) (b : nat) (tags : option ref) : outcome heap :=
  set_ref h b "Tags" tags.
Definition JobFilterBuilder_WithStartTime (h : heap) (b : nat) (t : Time) : outcome heap :=
  assign h b (on_filter (λ f, mkJobFilter (JobFilter_Tags f) (Some t) (JobFilter_EndTime f)
    (JobFilter_Statuses f) (JobFilter_Fields f))).
Definition JobFilterBuilder_WithEndTime (h : heap) (b : nat) (t : Time) : outcome heap :=
  assign h b (on_filter (λ f, mkJobFilter (JobFilter_Tags f) (JobFilter_StartTime f) (Some t)
    (JobFilter_Statuses f) (JobFilter_Fields f))).
Definition JobFilterBuilder_WithStatus (h : heap) (b : nat) (status : string) : outcome heap :=
  append_checked h b "Statuses" (EString status).
Definition JobFilterBuilder_WithStatuses (h : heap) (b : nat) (statuses : option ref) : outcome heap :=
  set_ref h b "Statuses" statuses.
Definition JobFilterBuilder_WithField (h : heap) (b : nat) (field : string) : outcome heap :=
  append_checked h b "Fields" (EString field).
Definition JobFilterBuilder_WithFields (h : heap) (b : nat) (fields : option ref) : outcome heap :=
  set_ref h b "Fields" fields.
Definition JobFilterBuilder_Build (b : nat) : nat := b.

(** ** ClusterOptionsBuilder *)

(** [&launcher.ClusterOptions{F: []T{}, ...}]: five empty slices. *)
Fixpoint empty_slices (h : heap) (refs : gmap string ref) (fields : list string) : heap * gmap string ref :=
  match fields with
  | [] => (h, refs)
  | field :: fields =>
      let '(h, r) := make_slice h [] in empty_slices h (<[field := r]> refs) fields
  end.

Definition zeroClusterOptions : ClusterOptions :=
  mkClusterOptions None None "" None (mkImageOptions "" None false false false) None None.

Definition NewClusterOptions (h : heap) : heap * nat :=
  let '(h, refs) := empty_slices h ∅ ["Constraints"; "Queues"; "Limits"; "Configs"; "Profiles"] in
  new_object h (mkObject (SCluster zeroClusterOptions) refs).

Definition on_images (f : ImageOptions → ImageOptions) : struct → struct :=
  on_cluster (λ o, mkClusterOptions (ClusterOptions_Constraints o) (ClusterOptions_Queues o)
    (ClusterOptions_DefaultQueue o) (ClusterOptions_Limits o) (f (ClusterOptions_ImageOpt o))
    (ClusterOptions_Configs o) (ClusterOptions_Profiles o)).

Definition ClusterOptionsBuilder_WithQueue (h : heap) (b : nat) (queue : string) : outcome heap :=
  append_field h b "Queues" (EString queue).
Definition ClusterOptionsBuilder_WithQueues (h : heap) (b : nat) (queues : option ref) : outcome heap :=
  set_ref h b "Queues" queues.
Definition ClusterOptionsBuilder_WithDefaultQueue (h : heap) (b : nat) (queue : string) : outcome heap :=
  assign h b (on_cluster (λ o, mkClusterOptions (ClusterOptions_Constraints o) (ClusterOptions_Queues o) queue
    (ClusterOptions_Limits o) (ClusterOptions_ImageOpt o) (ClusterOptions_Configs o) (ClusterOptions_Profiles o))).
Definition ClusterOptionsBuilder_WithConstraint (h : heap) (b : nat) (name value : string) : outcome heap :=
  append_field h b "Constraints" (EConstraint (mkPlacementConstraint name value "")).
Definition ClusterOptionsBuilder_WithLimit (h : heap) (b : nat) (limitType value : string) : outcome heap :=
  append_field h b "Limits" (ELimit (mkResourceLimit limitType value "" "")).
Definition ClusterOptionsBuilder_WithImage (h : heap) (b : nat) (image : string) : outcome heap :=
  append_field h b "Images" (EString image).
Definition ClusterOptionsBuilder_WithDefaultImage (h : heap) (b : nat) (image : string) : outcome heap :=
  assign h b (on_images (λ i, mkImageOptions image (ImageOptions_Images i) (ImageOptions_AllowUnknown i)
    (ImageOptions_HostNetwork i) (ImageOptions_InitContainers i))).
Definition ClusterOptionsBuilder_WithAllowUnknownImages (h : heap) (b : nat) (allow : bool) : outcome heap :=
  assign h b (on_images (λ i, mkImageOptions (ImageOptions_Default i) (ImageOptions_Images i) allow
    (ImageOptions_HostNetwork i) (ImageOptions_InitContainers i))).
Definition ClusterOptionsBuilder_WithHostNetwork (h : heap) (b : nat) (hostNetwork : bool) : outcome heap :=
  assign h b (on_images (λ i, mkImageOptions (ImageOptions_Default i) (ImageOptions_Images i)
    (ImageOptions_AllowUnknown i) hostNetwork (ImageOptions_InitContainers i))).
Definition ClusterOptionsBuilder_WithProfile (h : heap) (b : nat) (name displayName : string) : outcome heap :=
  append_field h b "Profiles" (EProfile (mkResourceProfile name displayName [] "" [])).
Definition ClusterOptionsBuilder_WithConfig (h : heap) (b : nat) (name valueType value : string) : outcome heap :=
  append_field h b "Configs" (EConfig (mkJobConfig name valueType value)).

(** [return *b.opts]: a copy of the struct, with the same references. *)
Definition ClusterOptionsBuilder_Build (h : heap) (b : nat) : outcome object := get_object h b.

End Append.

(** ** What is seen through a struct *)

(** The elements of a slice field; nil has none. *)
Definition field_elems (h : heap) (o : object) (field : string) : list elem :=
  match obj_refs o !! field with
  | Some r => match heap_cells h !! ref_cell r with Some (CArray a) => take (ref_len r) a | _ => [] end
  | None => []
  end.

Definition field_container (h : heap) (o : object) : option Container :=
  r ← obj_refs o !! "Container";
  match heap_cells h !! ref_cell r with Some (CContainer c) => Some c | _ => None end.

Definition field_map (h : heap) (o : object) : gmap string any :=
  match obj_refs o !! "Metadata" with
  | Some r => match heap_cells h !! ref_cell r with Some (CMap m) => m | _ => ∅ end
  | None => ∅
  end.

Definition of_string (e : elem) : option string := match e with EString s => Some s | _ => None end.
Definition of_env (e : elem) : option Env := match e with EEnv s => Some s | _ => None end.
Definition of_mount (e : elem) : option Mount := match e with EMount s => Some s | _ => None end.
Definition of_port (e : elem) : option Port := match e with EPort s => Some s | _ => None end.
Definition of_limit (e : elem) : option ResourceLimit := match e with ELimit s => Some s | _ => None end.
Definition of_constraint (e : elem) : option PlacementConstraint := match e with EConstraint s => Some s | _ => None end.
Definition of_config (e : elem) : option JobConfig := match e with EConfig s => Some s | _ => None end.

(** The job a builder's pointer shows. *)
Definition job_view (h : heap) (b : nat) : option Job :=
  o ← heap_objs h !! b;
  match obj_struct o with
  | SJob j =>
      Some (j <| Job_Queues := omap of_string (field_elems h o "Queues") |>
              <| Job_Args := omap of_string (field_elems h o "Args") |>
              <| Job_Tags := omap of_string (field_elems h o "Tags") |>
              <| Job_Env := omap of_env (field_elems h o "Env") |>
              <| Job_Mounts := omap of_mount (field_elems h o "Mounts") |>
              <| Job_Ports := omap of_port (field_elems h o "Ports") |>
              <| Job_Limits := omap of_limit (field_elems h o "Limits") |>
              <| Job_Constraints := omap of_constraint (field_elems h o "Constraints") |>
              <| Job_Config := omap of_config (field_elems h o "Config") |>
              <| Job_Container := field_container h o |>
              <| Job_Metadata := field_map h o |>)
  | _ => None
  end.

(** The filter a builder's pointer shows. *)
Definition filter_view (h : heap) (b : nat) : option JobFilter :=
  o ← heap_objs h !! b;
  match obj_struct o with
  | SFilter f =>
      Some (mkJobFilter (omap of_string (field_elems h o "Tags")) (JobFilter_StartTime f) (JobFilter_EndTime f)
        (omap of_string (field_elems h o "Statuses")) (omap of_string (field_elems h o "Fields")))
  | _ => None
  end.
