(* ===== verification/BuildersFacts.v ===== *)
(** * Facts about the test builders

    The heap of the builders under an ownership discipline: [heap_ok D] says that
    references are valid and that a cell of a field in [D] belongs to one struct
    and one field only.  Under it, every method changes what its own builder
    shows, as documented, and nothing that any other builder shows in the fields
    of [D]. *)

From S2P Require Import Prelude GoStd Types Writer Builders.

(** ** References *)
Definition slot (h : heap) (b : nat) (n : string) : option ref := o ← heap_objs h !! b; obj_refs o !! n.

(** What a reference shows of its cell. *)
Definition trimmed (r : ref) (c : cell) : cell :=
  match c with CArray a => CArray (take (ref_len r) a) | _ => c end.

Definition contents (h : heap) (b : nat) (n : string) : option cell :=
  r ← slot h b n; trimmed r <$> heap_cells h !! ref_cell r.

(** The kind of cell a field refers to. *)
Definition fits (n : string) (len : nat) (c : cell) : Prop :=
  match c with
  | CArray a => n ≠ "Container" ∧ n ≠ "Metadata" ∧ len ≤ length a
  | CContainer _ => n = "Container"
  | CMap _ => n = "Metadata"
  end.

Record heap_ok (D : string → Prop) (h : heap) : Prop := {
  ok_refs : ∀ b n r, slot h b n = Some r → ∃ c, heap_cells h !! ref_cell r = Some c ∧ fits n (ref_len r) c;
  ok_owned : ∀ b1 n1 b2 n2 r1 r2, slot h b1 n1 = Some r1 → slot h b2 n2 = Some r2 → ref_cell r1 = ref_cell r2 →
    b1 = b2 ∧ n1 = n2 ∨ n1 = n2 ∧ ¬ D n1;
}.

(** The struct of [b] with field [n] referring to cell [l], which now holds [c]. *)
Definition point (h : heap) (b : nat) (o : object) (n : string) (l len : nat) (c : cell) : heap :=
  put_object (write_cell h l c) b (o <| obj_refs := <[n := mkRef l len]> (obj_refs o) |>).

(** The other builders, and the other fields, show the same. *)
Definition frame (D : string → Prop) (h h' : heap) (b : nat) (n : string) : Prop :=
  (∀ b' n', D n' → ¬ (b' = b ∧ n' = n) → contents h' b' n' = contents h b' n') ∧
  (∀ b', obj_struct <$> heap_objs h' !! b' = obj_struct <$> heap_objs h !! b').

Lemma frame_refl D h b n : frame D h h b n.
Proof. by split. Qed.

Lemma frame_trans D h1 h2 h3 b n : frame D h1 h2 b n → frame D h2 h3 b n → frame D h1 h3 b n.
Proof.
  intros [H1 H2] [H3 H4]. split; [|intros b'; by rewrite H4].
  intros b' n' HD Hne. by rewrite H3, H1.
Qed.

Section Point.
Context (D : string → Prop) (h : heap) (b : nat) (o : object) (n : string) (l len : nat) (c : cell).
Context (Hok : heap_ok D h) (Ho : heap_objs h !! b = Some o) (Hfit : fits n len c).

(** The cell is new, or the field's own, with an array as long as before. *)
Definition may_write : Prop :=
  heap_cells h !! l = None ∨
  (∃ r, slot h b n = Some r ∧ ref_cell r = l) ∧
  ∀ a, heap_cells h !! l = Some (CArray a) → ∃ a', c = CArray a' ∧ length a' = length a.
Context (Hmay : may_write).

Let h' := point h b o n l len c.

Lemma point_slot b' n' :
  slot h' b' n' = if decide (b' = b ∧ n' = n) then Some (mkRef l len) else slot h b' n'.
Proof.
  unfold slot, h', point, put_object. cbn. destruct (decide (b' = b)) as [->|Hb].
  - rewrite lookup_insert_eq, Ho. cbn. destruct (decide (n' = n)) as [->|Hn].
    + by rewrite lookup_insert_eq, decide_True.
    + rewrite lookup_insert_ne, decide_False by naive_solver. done.
  - rewrite lookup_insert_ne, decide_False by naive_solver. done.
Qed.

Lemma point_cell l' : heap_cells h' !! l' = if decide (l' = l) then Some c else heap_cells h !! l'.
Proof.
  unfold h', point. cbn. case_decide as Hl; [subst; by rewrite lookup_insert_eq|].
  by rewrite lookup_insert_ne by congruence.
Qed.

(** Another reference to the cell is to an untracked field of the same name. *)
Lemma point_shared b' n' r : slot h b' n' = Some r → ref_cell r = l → ¬ (b' = b ∧ n' = n) →
  n' = n ∧ ¬ D n' ∧ heap_cells h !! l ≠ None.
Proof.
  intros Hs Hl Hne. destruct Hmay as [Hnew|[(r0 & Hr0 & Hl0) _]].
  - destruct (ok_refs _ _ Hok _ _ _ Hs) as (c0 & Hc0 & _). congruence.
  - destruct (ok_owned _ _ Hok _ _ _ _ _ _ Hs Hr0) as [|[-> HD]]; [congruence|done|].
    split_and!; [done..|]. destruct (ok_refs _ _ Hok _ _ _ Hs) as (c0 & Hc0 & _). congruence.
Qed.

Lemma point_ok : heap_ok D h'.
Proof.
  split.
  - intros b' n' r. rewrite point_slot. case_decide as Hd.
    + intros [= <-]. destruct Hd as [-> ->]. exists c. rewrite point_cell, decide_True by done. done.
    + intros Hs. destruct (ok_refs _ _ Hok _ _ _ Hs) as (c0 & Hc0 & Hf). rewrite point_cell. case_decide as Hl; [|eauto].
      exists c. split; [done|]. destruct (point_shared _ _ _ Hs Hl Hd) as (-> & _ & Hal).
      destruct Hmay as [|[_ Hlen]]; [done|]. rewrite Hl in Hc0.
      destruct c0 as [a| |]; cbn in Hf.
      * destruct (Hlen a Hc0) as (a' & -> & Ha). cbn. rewrite Ha. done.
      * destruct c; cbn in Hfit |- *; naive_solver.
      * destruct c; cbn in Hfit |- *; naive_solver.
  - intros b1 n1 b2 n2 r1 r2. rewrite !point_slot. intros H1 H2 Heq.
    destruct (decide (b1 = b ∧ n1 = n)) as [Hd1|Hd1], (decide (b2 = b ∧ n2 = n)) as [Hd2|Hd2].
    + left. naive_solver.
    + injection H1 as <-. cbn in Heq. symmetry in Heq.
      destruct (point_shared _ _ _ H2 Heq Hd2) as (-> & HD & _). right. naive_solver.
    + injection H2 as <-. cbn in Heq. destruct (point_shared _ _ _ H1 Heq Hd1) as (-> & HD & _). right. naive_solver.
    + by eapply (ok_owned _ _ Hok).
Qed.

Lemma point_contents : contents h' b n = Some (trimmed (mkRef l len) c).
Proof. unfold contents. rewrite point_slot, decide_True by done. cbn. by rewrite point_cell, decide_True. Qed.

Lemma point_frame : frame D h h' b n.
Proof.
  split.
  - intros b' n' HD Hne. unfold contents. rewrite point_slot, decide_False by done.
    destruct (slot h b' n') as [r|] eqn:Hs; [|done]. cbn. rewrite point_cell. case_decide as Hl; [|done].
    by destruct (point_shared _ _ _ Hs Hl Hne) as (_ & ? & _).
  - intros b'. unfold h', point, put_object. cbn. destruct (decide (b' = b)) as [->|].
    + by rewrite lookup_insert_eq, Ho.
    + by rewrite lookup_insert_ne.
Qed.
End Point.

(** ** The primitives *)

(** The method made field [n] of [b] show [v] and changed nothing else. *)
Definition changes (D : string → Prop) (h h' : heap) (b : nat) (n : string) (v : option cell) : Prop :=
  heap_ok D h' ∧ frame D h h' b n ∧ contents h' b n = v.

Definition slice_field (n : string) : Prop := n ≠ "Container" ∧ n ≠ "Metadata".

Definition elems_of (c : option cell) : list elem := match c with Some (CArray a) => a | _ => [] end.
Definition container_of (c : option cell) : option Container :=
  match c with Some (CContainer c) => Some c | _ => None end.
Definition map_of (c : option cell) : gmap string any := match c with Some (CMap m) => m | _ => ∅ end.

Lemma fresh_cell h : heap_cells h !! fresh (dom (heap_cells h)) = None.
Proof. apply not_elem_of_dom, is_fresh. Qed.

Lemma alloc_eq h c : alloc h c = (write_cell h (fresh (dom (heap_cells h))) c, fresh (dom (heap_cells h))).
Proof. done. Qed.

Lemma make_slice_eq h xs : make_slice h xs =
  (write_cell h (fresh (dom (heap_cells h))) (CArray xs), mkRef (fresh (dom (heap_cells h))) (length xs)).
Proof. done. Qed.

Lemma get_object_eq h b o : heap_objs h !! b = Some o → get_object h b = Ret o.
Proof. intros Ho. unfold get_object. by rewrite Ho. Qed.

Lemma set_ref_point h b o n l len c : heap_objs h !! b = Some o →
  set_ref (write_cell h l c) b n (Some (mkRef l len)) = Ret (point h b o n l len c).
Proof.
  intros Ho. unfold set_ref, get_object. change (heap_objs (write_cell h l c)) with (heap_objs h). by rewrite Ho.
Qed.

Lemma alloc_set_ref h b o n len c : heap_objs h !! b = Some o →
  (let '(h, l) := alloc h c in set_ref h b n (Some (mkRef l len))) =
  Ret (point h b o n (fresh (dom (heap_cells h))) len c).
Proof. intros Ho. exact (set_ref_point h b o n _ len c Ho). Qed.

Section Primitives.
Context (D : string → Prop) (h : heap) (b : nat) (o : object).
Context (Hok : heap_ok D h) (Ho : heap_objs h !! b = Some o).

Lemma point_new n len c : fits n len c →
  changes D h (point h b o n (fresh (dom (heap_cells h))) len c) b n
    (Some (trimmed (mkRef (fresh (dom (heap_cells h))) len) c)).
Proof.
  intros Hf. assert (may_write h b n (fresh (dom (heap_cells h))) c) as Hm by (left; apply fresh_cell).
  split; [by apply point_ok|]. split; [by apply point_frame|by apply point_contents].
Qed.

Lemma assign_eq f : assign h b f = Ret (put_object h b (o <| obj_struct := f (obj_struct o) |>)).
Proof. unfold assign, get_object. by rewrite Ho. Qed.

Lemma slot_put_struct s b' n' :
  slot (put_object h b (o <| obj_struct := s |>)) b' n' = slot h b' n'.
Proof.
  unfold slot, put_object. cbn. destruct (decide (b' = b)) as [->|].
  - by rewrite lookup_insert_eq, Ho.
  - by rewrite lookup_insert_ne.
Qed.

(** Plain assignments leave all references alone. *)
Lemma assign_ok f : ∃ h', assign h b f = Ret h' ∧ heap_ok D h' ∧
  (∀ b' n', contents h' b' n' = contents h b' n') ∧
  (∀ b', obj_struct <$> heap_objs h' !! b' =
     if decide (b' = b) then Some (f (obj_struct o)) else obj_struct <$> heap_objs h !! b').
Proof.
  rewrite assign_eq. eexists. split; [done|]. split_and!.
  - destruct Hok as [H1 H2]. split; intros *; rewrite !slot_put_struct; [apply H1|apply H2].
  - intros b' n'. unfold contents. by rewrite slot_put_struct.
  - intros b'. unfold put_object. cbn. case_decide; [subst; by rewrite lookup_insert_eq|by rewrite lookup_insert_ne].
Qed.

(** A slice literal. *)
Lemma literal_ok n xs : slice_field n → ∃ h',
  (let '(h1, r) := make_slice h xs in set_ref h1 b n (Some r)) = Ret h' ∧ changes D h h' b n (Some (CArray xs)).
Proof.
  intros [Hn1 Hn2]. exists (point h b o n (fresh (dom (heap_cells h))) (length xs) (CArray xs)). split.
  - by apply set_ref_point.
  - pose proof (point_new n (length xs) (CArray xs)) as H. cbn in H. rewrite firstn_all in H. by apply H.
Qed.

Lemma nil_ok n : ∃ h', set_ref h b n None = Ret h' ∧ changes D h h' b n None.
Proof.
  unfold set_ref, get_object. rewrite Ho. eexists. split; [done|].
  assert (∀ b' n', slot (put_object h b (o <| obj_refs := partial_alter (λ _, None) n (obj_refs o) |>)) b' n' =
    if decide (b' = b ∧ n' = n) then None else slot h b' n') as Hs.
  { intros b' n'. unfold slot, put_object. cbn. destruct (decide (b' = b)) as [->|Hb].
    - rewrite lookup_insert_eq, Ho. cbn. destruct (decide (n' = n)) as [->|Hn].
      + by rewrite lookup_partial_alter_eq, decide_True.
      + rewrite lookup_partial_alter_ne, decide_False by naive_solver. done.
    - rewrite lookup_insert_ne, decide_False by naive_solver. done. }
  split_and!.
  - split.
    + intros b' n' r. rewrite Hs. case_decide; [done|]. apply Hok.
    + intros b1 n1 b2 n2 r1 r2. rewrite !Hs. do 2 (case_decide; [done|]). apply Hok.
  - split.
    + intros b' n' _ Hne. unfold contents. by rewrite Hs, decide_False.
    + intros b'. unfold put_object. cbn. destruct (decide (b' = b)) as [->|].
      * by rewrite lookup_insert_eq, Ho.
      * by rewrite lookup_insert_ne.
  - unfold contents. by rewrite Hs, decide_True.
Qed.

Lemma variadic_ok n xs : slice_field n → ∃ h',
  (let '(h1, r) := variadic h xs in set_ref h1 b n r) = Ret h' ∧
  changes D h h' b n (match xs with [] => None | _ => Some (CArray xs) end).
Proof. intros Hn. destruct xs as [|x xs]; [by apply nil_ok|by apply literal_ok]. Qed.
End Primitives.

Section Appending.
Context (grow : nat → nat → nat) (grow_enough : ∀ cap n, n ≤ grow cap n).
Context (D : string → Prop).

Lemma take_grown cap xs x : take (S (length xs)) (grown grow cap xs x) = xs ++ [x].
Proof.
  unfold grown. rewrite app_assoc, take_app_length'; [done|]. rewrite length_app. cbn. lia.
Qed.

Lemma grown_length cap xs x : S (length xs) ≤ length (grown grow cap xs x).
Proof. unfold grown. rewrite !length_app. cbn. lia. Qed.

(** [append] adds one element at the end. *)
Lemma append_field_ok h b o n x : heap_ok D h → heap_objs h !! b = Some o → slice_field n →
  ∃ h', append_field grow h b n x = Ret h' ∧
    changes D h h' b n (Some (CArray (elems_of (contents h b n) ++ [x]))).
Proof.
  intros Hok Ho Hn. unfold append_field, get_object. rewrite Ho. cbn [deref mbind outcome_bind]. unfold append.
  assert (slot h b n = obj_refs o !! n) as Hslot by (unfold slot; by rewrite Ho).
  destruct (obj_refs o !! n) as [r|] eqn:Hr.
  - destruct (ok_refs _ _ Hok b n r Hslot) as (c & Hc & Hf). rewrite Hc.
    assert (contents h b n = Some (trimmed r c)) as Hcon by (unfold contents; rewrite Hslot; cbn; by rewrite Hc).
    destruct c as [a|c|m]; [|by destruct Hn; cbn in Hf..].
    destruct Hf as (_ & _ & Hlen). rewrite Hcon. cbn [trimmed elems_of].
    destruct (Nat.ltb_spec (ref_len r) (length a)) as [Hlt|Hge].
    + exists (point h b o n (ref_cell r) (S (ref_len r)) (CArray (<[ref_len r := x]> a))). split.
      { by apply set_ref_point. }
      assert (fits n (S (ref_len r)) (CArray (<[ref_len r := x]> a))) as Hfit.
      { split; [apply Hn|]. split; [apply Hn|]. rewrite length_insert. lia. }
      assert (may_write h b n (ref_cell r) (CArray (<[ref_len r := x]> a))) as Hm.
      { right. split; [by exists r|]. rewrite Hc. intros a' [= <-]. eexists. split; [done|apply length_insert]. }
      split; [by apply point_ok|]. split; [by apply point_frame|]. rewrite point_contents by done. cbn. do 2 f_equal.
      rewrite (take_S_r _ _ x) by (by apply list_lookup_insert_eq). by rewrite take_insert_ge by lia.
    + assert (length (take (ref_len r) a) = ref_len r) as Ht by (rewrite length_take; lia).
      set (c := CArray (grown grow (length a) (take (ref_len r) a) x)).
      exists (point h b o n (fresh (dom (heap_cells h))) (S (ref_len r)) c). split.
      { by apply set_ref_point. }
      destruct (point_new D h b o Hok Ho n (S (ref_len r)) c) as (H1 & H2 & H3).
      { split; [apply Hn|]. split; [apply Hn|]. pose proof (grown_length (length a) (take (ref_len r) a) x). lia. }
      split; [done|]. split; [done|]. rewrite H3. unfold c. cbn [trimmed ref_len]. do 2 f_equal.
      rewrite <- Ht at 1. apply take_grown.
  - assert (contents h b n = None) as Hcon by (unfold contents; by rewrite Hslot).
    rewrite Hcon. cbn [elems_of app]. set (c := CArray (grown grow 0 [] x)).
    exists (point h b o n (fresh (dom (heap_cells h))) 1 c). split.
    { by apply set_ref_point. }
    destruct (point_new D h b o Hok Ho n 1 c) as (H1 & H2 & H3).
    { split; [apply Hn|]. split; [apply Hn|]. apply (grown_length 0 [] x). }
    split; [done|]. split; [done|]. by rewrite H3.
Qed.

Lemma changes_object h h' b n v o : changes D h h' b n v → heap_objs h !! b = Some o →
  ∃ o', heap_objs h' !! b = Some o' ∧ obj_struct o' = obj_struct o.
Proof.
  intros (_ & [_ Hs] & _) Ho. specialize (Hs b). rewrite Ho in Hs. cbn in Hs.
  destruct (heap_objs h' !! b) as [o'|]; [|done]. injection Hs as Hs. eauto.
Qed.

Lemma changes_trans h1 h2 h3 b n v1 v2 : changes D h1 h2 b n v1 → changes D h2 h3 b n v2 → changes D h1 h3 b n v2.
Proof. intros (_ & H1 & _) (H2 & H3 & H4). split; [done|]. split; [by eapply frame_trans|done]. Qed.

Lemma append_checked_ok h b o n x : heap_ok D h → heap_objs h !! b = Some o → slice_field n →
  ∃ h', append_checked grow h b n x = Ret h' ∧
    changes D h h' b n (Some (CArray (elems_of (contents h b n) ++ [x]))).
Proof.
  intros Hok Ho Hn. unfold append_checked, get_object. rewrite Ho. cbn [deref mbind outcome_bind].
  destruct (obj_refs o !! n) as [r|] eqn:Hr; [by eapply append_field_ok|].
  destruct (literal_ok D h b o Hok Ho n [] Hn) as (h1 & -> & H1). cbn [mbind outcome_bind].
  destruct (changes_object _ _ _ _ _ _ H1 Ho) as (o1 & Ho1 & _).
  destruct (append_field_ok h1 b o1 n x) as (h2 & -> & H2); [apply H1|done..|].
  exists h2. split; [done|]. replace (elems_of (contents h b n)) with (elems_of (contents h1 b n)).
  - by eapply changes_trans.
  - destruct H1 as (_ & _ & ->). unfold contents, slot. rewrite Ho. cbn. by rewrite Hr.
Qed.
End Appending.

(** Writes through the container pointer and the metadata map. *)
Section Cells.
Context (D : string → Prop).

Lemma write_own_ok h b o n r c c' : heap_ok D h → heap_objs h !! b = Some o → obj_refs o !! n = Some r →
  heap_cells h !! ref_cell r = Some c → fits n (ref_len r) c' →
  match c with CArray _ => False | _ => True end →
  changes D h (write_cell h (ref_cell r) c') b n (Some (trimmed r c')).
Proof.
  intros Hok Ho Hr Hc Hf Hno.
  assert (write_cell h (ref_cell r) c' = point h b o n (ref_cell r) (ref_len r) c') as ->.
  { destruct o as [s refs], r as [l len], h as [cs os]. unfold point, put_object, write_cell. cbn in *.
    by rewrite (insert_id refs), (insert_id os) by done. }
  assert (may_write h b n (ref_cell r) c') as Hm.
  { right. split; [exists r; unfold slot; by rewrite Ho|]. intros a Ha. rewrite Hc in Ha. by simplify_eq. }
  split; [by apply point_ok|]. split; [by apply point_frame|].
  rewrite point_contents by done. by destruct r.
Qed.

(** [if b.job.F == nil { b.job.F = new }]: afterwards the field refers to a cell,
    the old one or the new one. *)
Lemma ensure_ok h b o n c0 : heap_ok D h → heap_objs h !! b = Some o → ¬ slice_field n → fits n 0 c0 →
  ∃ h1 o1 r c,
    (match obj_refs o !! n with
     | Some _ => Ret h
     | None => let '(h, l) := alloc h c0 in set_ref h b n (Some (mkRef l 0))
     end) = Ret h1 ∧ heap_ok D h1 ∧ frame D h h1 b n ∧ heap_objs h1 !! b = Some o1 ∧
    obj_refs o1 !! n = Some r ∧ heap_cells h1 !! ref_cell r = Some c ∧ fits n (ref_len r) c ∧
    match c with CArray _ => False | _ => True end ∧ default c0 (contents h b n) = c.
Proof.
  intros Hok Ho Hn Hf0. unfold contents, slot. rewrite Ho. cbn [mbind option_bind].
  destruct (obj_refs o !! n) as [r|] eqn:Hr.
  - destruct (ok_refs _ _ Hok b n r) as (c & Hc & Hf); [unfold slot; by rewrite Ho|].
    assert (match c with CArray _ => False | _ => True end) as Hno.
    { destruct c; [|done..]. destruct Hf as (? & ? & _). by apply Hn. }
    exists h, o, r, c. cbn [mbind option_bind]. rewrite Hc. split_and!; try done; try apply frame_refl.
    by destruct c.
  - rewrite (alloc_set_ref h b o) by done.
    destruct (point_new D h b o Hok Ho n 0 c0 Hf0) as (H1 & H2 & H3).
    eexists _, _, _, c0. split_and!; [done|exact H1|exact H2|by cbn; rewrite lookup_insert_eq| | | | |done].
    + cbn. by rewrite lookup_insert_eq.
    + cbn. by rewrite lookup_insert_eq.
    + done.
    + destruct c0; [|done..]. destruct Hf0 as (? & ? & _). by apply Hn.
Qed.

Lemma container_field_ok h b o f : heap_ok D h → heap_objs h !! b = Some o →
  ∃ h', container_field h b f = Ret h' ∧
    changes D h h' b "Container"
      (Some (CContainer (f (default zeroContainer (container_of (contents h b "Container")))))).
Proof.
  intros Hok Ho. unfold container_field. rewrite (get_object_eq h b o Ho). cbn [mbind outcome_bind].
  destruct (ensure_ok h b o "Container" (CContainer zeroContainer) Hok Ho) as
    (h1 & o1 & r & c & -> & Hok1 & Hf1 & Ho1 & Hr1 & Hc1 & Hfit & Hno & Hc); [by intros []|done|].
  cbn [mbind outcome_bind]. rewrite (get_object_eq h1 b o1 Ho1). cbn [mbind outcome_bind]. rewrite Hr1.
  cbn [deref mbind outcome_bind]. rewrite Hc1. destruct c as [|c|]; [done| |done]. eexists. split; [done|].
  assert (default zeroContainer (container_of (contents h b "Container")) = c) as ->.
  { destruct (contents h b "Container"); cbn in Hc; [by subst|]. by injection Hc. }
  destruct (write_own_ok h1 b o1 "Container" r _ (CContainer (f c)) Hok1 Ho1 Hr1 Hc1) as (H1 & H2 & H3); [done..|].
  split; [done|]. split; [by eapply frame_trans|done].
Qed.

Lemma WithMetadata_ok h b o key value : heap_ok D h → heap_objs h !! b = Some o →
  ∃ h', JobBuilder_WithMetadata h b key value = Ret h' ∧
    changes D h h' b "Metadata" (Some (CMap (<[key := value]> (map_of (contents h b "Metadata"))))).
Proof.
  intros Hok Ho. unfold JobBuilder_WithMetadata. rewrite (get_object_eq h b o Ho). cbn [mbind outcome_bind].
  destruct (ensure_ok h b o "Metadata" (CMap ∅) Hok Ho) as
    (h1 & o1 & r & c & -> & Hok1 & Hf1 & Ho1 & Hr1 & Hc1 & Hfit & Hno & Hc); [by intros []|done|].
  cbn [mbind outcome_bind]. rewrite (get_object_eq h1 b o1 Ho1). cbn [mbind outcome_bind]. rewrite Hr1.
  cbn [deref mbind outcome_bind]. rewrite Hc1. destruct c as [| |m]; [done|done|]. eexists. split; [done|].
  assert (map_of (contents h b "Metadata") = m) as ->.
  { destruct (contents h b "Metadata"); cbn in Hc; [by subst|]. by injection Hc. }
  destruct (write_own_ok h1 b o1 "Metadata" r _ (CMap (<[key := value]> m)) Hok1 Ho1 Hr1 Hc1) as (H1 & H2 & H3); [done..|].
  split; [done|]. split; [by eapply frame_trans|done].
Qed.
End Cells.

(** ** Clone *)

(** The copies [refs] of the fields [fs] of [refs0], made since [h0]. *)
Record copied (h0 h : heap) (refs0 refs : gmap string ref) (fs : list string) : Prop := {
  cp_objs : heap_objs h = heap_objs h0;
  cp_cells : heap_cells h0 ⊆ heap_cells h;
  cp_rest : ∀ n, n ∉ fs → refs !! n = refs0 !! n;
  cp_nil : ∀ n, n ∈ fs → refs0 !! n = None → refs !! n = None;
  cp_copy : ∀ n r0 c0, n ∈ fs → refs0 !! n = Some r0 → heap_cells h0 !! ref_cell r0 = Some c0 →
    ∃ r c, refs !! n = Some r ∧ heap_cells h0 !! ref_cell r = None ∧ heap_cells h !! ref_cell r = Some c ∧
      fits n (ref_len r) c ∧ trimmed r c = trimmed r0 c0;
  cp_distinct : ∀ n1 n2 r1 r2, n1 ∈ fs → n2 ∈ fs → n1 ≠ n2 → refs !! n1 = Some r1 → refs !! n2 = Some r2 →
    ref_cell r1 ≠ ref_cell r2;
}.

(** One more copy. *)
Lemma copied_step h0 h refs0 refs fs n r c r' c' :
  copied h0 h refs0 refs fs → n ∉ fs → refs0 !! n = Some r → heap_cells h0 !! ref_cell r = Some c →
  heap_cells h !! ref_cell r' = None → fits n (ref_len r') c' → trimmed r' c' = trimmed r c →
  (∀ n0 r0, n0 ∈ fs → refs !! n0 = Some r0 → is_Some (heap_cells h !! ref_cell r0)) →
  copied h0 (write_cell h (ref_cell r') c') refs0 (<[n := r']> refs) (fs ++ [n]).
Proof.
  intros [Ho Hc Hr Hn Hcp Hd] Hnew Hr0 Hc0 Hfresh Hf Ht Hal.
  assert (heap_cells h0 !! ref_cell r' = None) as Hfresh0 by (by eapply lookup_weaken_None).
  split.
  - done.
  - cbn. by apply insert_subseteq_r.
  - intros n' Hn'. rewrite lookup_insert_ne by set_solver. apply Hr. set_solver.
  - intros n' Hin Hnone. rewrite lookup_insert_ne by congruence. apply Hn; [|done]. set_solver.
  - intros n' r0 c0 Hin Hr0' Hc0'. destruct (decide (n' = n)) as [->|Hne].
    + simplify_eq. exists r', c'. rewrite lookup_insert_eq. cbn. rewrite lookup_insert_eq. done.
    + rewrite lookup_insert_ne by done. destruct (Hcp n' r0 c0) as (r1 & c1 & H1 & H2 & H3 & H4 & H5); [set_solver|done..|].
      exists r1, c1. split_and!; try done. cbn. rewrite lookup_insert_ne; [done|]. congruence.
  - intros n1 n2 r1 r2 H1 H2 Hne. destruct (decide (n1 = n)) as [->|Hn1], (decide (n2 = n)) as [->|Hn2]; [done|..].
    + rewrite lookup_insert_eq, lookup_insert_ne by done. intros [= <-] Hr2 Heq.
      destruct (Hal n2 r2) as [x Hx]; [set_solver|done|]. congruence.
    + rewrite lookup_insert_eq, lookup_insert_ne by done. intros Hr1 [= <-] Heq.
      destruct (Hal n1 r1) as [x Hx]; [set_solver|done|]. congruence.
    + rewrite !lookup_insert_ne by done. apply Hd; set_solver.
Qed.

Lemma copied_skip h0 h refs0 refs fs n :
  copied h0 h refs0 refs fs → n ∉ fs → refs0 !! n = None → copied h0 h refs0 refs (fs ++ [n]).
Proof.
  intros [Ho Hc Hr Hn Hcp Hd] Hnew Hnone. split; [done|done|intros; apply Hr; set_solver|..].
  - intros n' Hin H. destruct (decide (n' = n)) as [->|]; [by rewrite Hr|apply Hn; set_solver].
  - intros n' r0 c0 Hin Hr0 Hc0. apply Hcp; [|done..]. destruct (decide (n' = n)); [congruence|set_solver].
  - intros n1 n2 r1 r2 H1 H2 Hne Hr1 Hr2.
    assert (n1 ≠ n) by (intros ->; rewrite Hr in Hr1 by done; congruence).
    assert (n2 ≠ n) by (intros ->; rewrite Hr in Hr2 by done; congruence).
    apply (Hd n1 n2); set_solver.
Qed.

(** The references of a struct are valid. *)
Definition refs_ok (h : heap) (refs : gmap string ref) : Prop :=
  ∀ n r, refs !! n = Some r → ∃ c, heap_cells h !! ref_cell r = Some c ∧ fits n (ref_len r) c.

Lemma copy_fields_ok h0 refs0 todo : ∀ h refs fs,
  refs_ok h0 refs0 → NoDup (fs ++ todo) → "Container" ∉ fs ++ todo → copied h0 h refs0 refs fs →
  ∃ h' refs', copy_fields h refs todo = Ret (h', refs') ∧ copied h0 h' refs0 refs' (fs ++ todo).
Proof.
  induction todo as [|n todo IH]; intros h refs fs Hv Hnd Hcont Hcp; cbn [copy_fields].
  { eexists _, _. split; [done|]. by rewrite app_nil_r. }
  assert (n ∉ fs) as Hn by (apply list.NoDup_app in Hnd as (_ & Hnd & _); intros Hin; apply (Hnd n Hin); by left).
  assert (n ≠ "Container") as Hnc by (intros ->; apply Hcont; set_solver).
  assert (∀ h1 refs1, copied h0 h1 refs0 refs1 (fs ++ [n]) →
    ∃ h' refs', copy_fields h1 refs1 todo = Ret (h', refs') ∧ copied h0 h' refs0 refs' (fs ++ n :: todo)) as Hgo.
  { intros h1 refs1 H1. destruct (IH h1 refs1 (fs ++ [n])) as (h2 & refs2 & -> & H2); try done;
      [by rewrite <- app_assoc..|]. rewrite <- app_assoc in H2. eauto. }
  unfold copy_field. rewrite (cp_rest _ _ _ _ _ Hcp n Hn).
  destruct (refs0 !! n) as [r|] eqn:Hr; [|by apply Hgo, copied_skip].
  destruct (Hv n r Hr) as (c & Hc & Hf). rewrite (lookup_weaken _ _ _ _ Hc (cp_cells _ _ _ _ _ Hcp)).
  assert (∀ n0 r0, n0 ∈ fs → refs !! n0 = Some r0 → is_Some (heap_cells h !! ref_cell r0)) as Hal.
  { intros n0 r0 Hin Hr0. destruct (refs0 !! n0) as [r1|] eqn:Hr1; [|by rewrite (cp_nil _ _ _ _ _ Hcp) in Hr0].
    destruct (Hv n0 r1 Hr1) as (c1 & Hc1 & _). destruct (cp_copy _ _ _ _ _ Hcp n0 r1 c1 Hin Hr1 Hc1) as (r2 & c2 & H1 & _ & H3 & _).
    simplify_eq. by eexists. }
  destruct c as [a|c|m].
  - destruct Hf as (Hf1 & Hf2 & Hf3). set (xs := take (ref_len r) a). rewrite make_slice_eq.
    cbn [mbind outcome_bind fst snd]. generalize (fresh_cell h); generalize (fresh (dom (heap_cells h))); intros l Hl.
    apply Hgo, (copied_step h0 h refs0 refs fs n r (CArray a) (mkRef l (length xs)) (CArray xs)); try done.
    cbn. by rewrite firstn_all.
  - done.
  - rewrite alloc_eq. cbn [mbind outcome_bind fst snd].
    generalize (fresh_cell h); generalize (fresh (dom (heap_cells h))); intros l Hl.
    by apply Hgo, (copied_step h0 h refs0 refs fs n r (CMap m) (mkRef l 0) (CMap m)).
Qed.

Lemma refs_ok_object D h b o : heap_ok D h → heap_objs h !! b = Some o → refs_ok h (obj_refs o).
Proof. intros Hok Ho n r Hr. apply (ok_refs _ _ Hok b n r). unfold slot. by rewrite Ho. Qed.

Lemma copied_nil h refs : copied h h refs refs [].
Proof. split; try done; intros *; by intros ?%not_elem_of_nil. Qed.

(** What the references after the copies show. *)
Lemma copied_ref h0 h refs0 refs fs n r : refs_ok h0 refs0 → copied h0 h refs0 refs fs → refs !! n = Some r →
  ∃ r0 c0 c, refs0 !! n = Some r0 ∧ heap_cells h0 !! ref_cell r0 = Some c0 ∧
    heap_cells h !! ref_cell r = Some c ∧ fits n (ref_len r) c ∧ trimmed r c = trimmed r0 c0 ∧
    (n ∈ fs ∧ heap_cells h0 !! ref_cell r = None ∨ n ∉ fs ∧ r = r0).
Proof.
  intros Hv Hcp Hr. destruct (decide (n ∈ fs)) as [Hin|Hnin].
  - destruct (refs0 !! n) as [r0|] eqn:Hr0; [|by rewrite (cp_nil _ _ _ _ _ Hcp) in Hr].
    destruct (Hv n r0 Hr0) as (c0 & Hc0 & _).
    destruct (cp_copy _ _ _ _ _ Hcp n r0 c0 Hin Hr0 Hc0) as (r1 & c & Hr1 & Hnew & Hc & Hf & Ht).
    simplify_eq. exists r0, c0, c. split_and!; auto.
  - rewrite (cp_rest _ _ _ _ _ Hcp n Hnin) in Hr. destruct (Hv n r Hr) as (c0 & Hc0 & Hf).
    exists r, c0, c0. split_and!; auto. by eapply lookup_weaken, cp_cells.
Qed.

Lemma copied_contents h0 h refs0 refs fs n : refs_ok h0 refs0 → copied h0 h refs0 refs fs →
  (r ← refs !! n; trimmed r <$> heap_cells h !! ref_cell r) =
  (r ← refs0 !! n; trimmed r <$> heap_cells h0 !! ref_cell r).
Proof.
  intros Hv Hcp. destruct (refs !! n) as [r|] eqn:Hr.
  - destruct (copied_ref _ _ _ _ _ _ _ Hv Hcp Hr) as (r0 & c0 & c & -> & Hc0 & Hc & _ & Ht & _).
    cbn. by rewrite Hc, Hc0; cbn; rewrite Ht.
  - destruct (refs0 !! n) as [r0|] eqn:Hr0; [|done]. exfalso. destruct (decide (n ∈ fs)) as [Hin|Hnin].
    + destruct (Hv n r0 Hr0) as (c0 & Hc0 & _).
      destruct (cp_copy _ _ _ _ _ Hcp n r0 c0 Hin Hr0 Hc0) as (r1 & ? & ? & _). congruence.
    + rewrite (cp_rest _ _ _ _ _ Hcp n Hnin) in Hr. congruence.
Qed.

Section CloneOk.
Context (D : string → Prop) (HD : ∀ n, D n → n ∈ cloned_fields).
Context (h h1 : heap) (b c : nat) (o : object) (refs : gmap string ref).
Context (Hok : heap_ok D h) (Ho : heap_objs h !! b = Some o) (Hc : heap_objs h !! c = None).
Context (Hcp : copied h h1 (obj_refs o) refs cloned_fields).

Let h' := put_object h1 c (mkObject (obj_struct o) refs).

Lemma clone_slot b' n : slot h' b' n = if decide (b' = c) then refs !! n else slot h b' n.
Proof.
  unfold slot, h', put_object. cbn. rewrite (cp_objs _ _ _ _ _ Hcp). case_decide; subst.
  - by rewrite lookup_insert_eq.
  - by rewrite lookup_insert_ne.
Qed.

Lemma clone_cells : heap_cells h ⊆ heap_cells h'.
Proof. apply (cp_cells _ _ _ _ _ Hcp). Qed.

Lemma clone_contents b' n : contents h' b' n = contents h (if decide (b' = c) then b else b') n.
Proof.
  unfold contents at 1. rewrite clone_slot. case_decide.
  - unfold contents, slot. rewrite Ho. cbn [mbind option_bind].
    apply (copied_contents h h1 _ _ cloned_fields n (refs_ok_object D h b o Hok Ho) Hcp).
  - unfold contents. destruct (slot h b' n) as [r|] eqn:Hs; [|done]. cbn.
    destruct (ok_refs _ _ Hok _ _ _ Hs) as (x & Hx & _). rewrite Hx.
    by rewrite (lookup_weaken _ _ _ _ Hx (cp_cells _ _ _ _ _ Hcp)).
Qed.

(** Where a reference of the clone comes from. *)
Lemma clone_origin n r : refs !! n = Some r →
  n ∈ cloned_fields ∧ heap_cells h !! ref_cell r = None ∨ ¬ D n ∧ slot h b n = Some r.
Proof.
  intros Hr. destruct (copied_ref _ _ _ _ _ _ _ (refs_ok_object D h b o Hok Ho) Hcp Hr)
    as (r0 & c0 & c1 & Hr0 & _ & _ & _ & _ & [|[Hnin ->]]); [by left|right].
  split; [by intros ?%HD|]. unfold slot. by rewrite Ho.
Qed.

Lemma clone_vs_old n1 b2 n2 r1 r2 : refs !! n1 = Some r1 → slot h b2 n2 = Some r2 → ref_cell r1 = ref_cell r2 →
  n1 = n2 ∧ ¬ D n1.
Proof.
  intros H1 H2 Heq. destruct (clone_origin _ _ H1) as [[_ Hnew]|[Hnd Hs]].
  - destruct (ok_refs _ _ Hok _ _ _ H2) as (x & Hx & _). congruence.
  - destruct (ok_owned _ _ Hok _ _ _ _ _ _ Hs H2 Heq); naive_solver.
Qed.

Lemma clone_vs_clone n1 n2 r1 r2 : refs !! n1 = Some r1 → refs !! n2 = Some r2 → ref_cell r1 = ref_cell r2 → n1 = n2.
Proof.
  intros H1 H2 Heq. destruct (decide (n1 = n2)) as [|Hne]; [done|].
  destruct (clone_origin _ _ H1) as [[Hi1 Hn1]|[_ Hs1]].
  - destruct (clone_origin _ _ H2) as [[Hi2 _]|[_ Hs2]].
    + by destruct (cp_distinct _ _ _ _ _ Hcp n1 n2 r1 r2 Hi1 Hi2 Hne H1 H2).
    + by destruct (clone_vs_old _ _ _ _ _ H1 Hs2 Heq).
  - by destruct (clone_vs_old _ _ _ _ _ H2 Hs1).
Qed.

Lemma clone_heap_ok : heap_ok D h'.
Proof.
  split.
  - intros b' n r. rewrite clone_slot. case_decide.
    + intros Hr. destruct (copied_ref _ _ _ _ _ _ _ (refs_ok_object D h b o Hok Ho) Hcp Hr)
        as (_ & _ & x & _ & _ & Hx & Hf & _). eauto.
    + intros Hs. destruct (ok_refs _ _ Hok _ _ _ Hs) as (x & Hx & Hf). exists x. split; [|done].
      by eapply lookup_weaken, clone_cells.
  - intros b1 n1 b2 n2 r1 r2. rewrite !clone_slot.
    destruct (decide (b1 = c)) as [->|], (decide (b2 = c)) as [->|]; intros H1 H2 Heq.
    + left. split; [done|]. by eapply clone_vs_clone.
    + right. by eapply clone_vs_old.
    + right. symmetry in Heq. destruct (clone_vs_old _ _ _ _ _ H2 H1 Heq) as [-> ?]. done.
    + by eapply (ok_owned _ _ Hok).
Qed.
End CloneOk.

(** The clone shows what the original shows; the other builders show what they
    showed. *)
Lemma Clone_ok D h b o : (∀ n, D n → n ∈ cloned_fields) → heap_ok D h → heap_objs h !! b = Some o →
  ∃ h' c, JobBuilder_Clone h b = Ret (h', c) ∧ heap_objs h !! c = None ∧ heap_ok D h' ∧
    (∀ b' n, contents h' b' n = contents h (if decide (b' = c) then b else b') n) ∧
    (∀ b', obj_struct <$> heap_objs h' !! b' = obj_struct <$> heap_objs h !! (if decide (b' = c) then b else b')).
Proof.
  intros HD Hok Ho. unfold JobBuilder_Clone. rewrite (get_object_eq h b o Ho). cbn [mbind outcome_bind].
  destruct (copy_fields_ok h (obj_refs o) cloned_fields h (obj_refs o) [] (refs_ok_object D h b o Hok Ho))
    as (h1 & refs & -> & Hcp); [by apply (bool_decide_unpack _)..|apply copied_nil|].
  cbn [mbind outcome_bind fst snd app] in *. unfold new_object.
  rewrite (cp_objs _ _ _ _ _ Hcp). set (c := fresh (dom (heap_objs h))).
  assert (heap_objs h !! c = None) as Hc by apply not_elem_of_dom, is_fresh.
  eexists _, c. split; [done|]. split; [done|]. rewrite <- (cp_objs _ _ _ _ _ Hcp).
  change (h1 <| heap_objs := <[c := mkObject (obj_struct o) refs]> (heap_objs h1) |>) with
    (put_object h1 c (mkObject (obj_struct o) refs)).
  split; [by eapply clone_heap_ok|]. split; [by intros; eapply clone_contents|].
  intros b'. unfold put_object. cbn. rewrite (cp_objs _ _ _ _ _ Hcp). case_decide; subst.
  - by rewrite lookup_insert_eq, Ho.
  - by rewrite lookup_insert_ne.
Qed.
