(* ===== verification/BuildersSound.v ===== *)
(** * The test builders against their documentation

    [effect] says what each method of a JobBuilder does to the job, as a function
    on values.  Programs create builders, clone them and call methods on them in
    any order; run on the heap they show what the same program computes on
    values, exactly when nothing is cloned, and in the plain fields and the fields
    [Clone] copies in general. *)

From S2P Require Import Prelude GoStd Types Writer Builders BuildersFacts.

(** ** Method calls *)
Module Op.
Inductive op :=
| WithID (id : JobID) | WithName (s : string) | WithUser (s : string) | WithGroup (s : string)
| WithStatus (s : string) | WithStatusMessage (s : string) | WithHost (s : string)
| WithPid (pid : Z) | WithExitCode (code : Z) | WithCommand (s : string) | WithExe (s : string)
| WithArgs (args : list string) | WithEnv (name value : string) | WithEnvVars (env : list Env)
| WithWorkDir (s : string) | WithStdout (s : string) | WithStderr (s : string) | WithStdin (s : string)
| WithQueue (s : string) | WithQueues (queues : list string) | WithCluster (s : string)
| WithProfile (s : string) | WithTag (s : string) | WithTags (tags : list string)
| WithContainer (image : string) | WithContainerUser (uid : Z) | WithContainerGroup (gid : Z)
| WithMount (src dst : string) (readOnly : bool) | WithPort (target : Z) (protocol : string)
| WithPublishedPort (published target : Z) (protocol : string) | WithLimit (limitType value : string)
| WithConstraint (name value : string) | WithConfig (name valueType value : string)
| WithMetadata (key : string) (value : any) | WithSubmissionTime (t : Time) | WithLastUpdated (t : Time)
| Pending | Running | Finished (exitCode : Z) | Failed (msg : string) | Killed | Canceled | Suspended.
End Op.
Import Op.

(** A call with a variadic list: [b.WithArgs("x", "y")]. *)
Definition call_variadic (f : heap → nat → option ref → outcome heap) (h : heap) (b : nat) (xs : list elem)
    : outcome heap := let '(h, r) := variadic h xs in f h b r.

Section Run.
Variable grow : nat → nat → nat.

Definition run_op (h : heap) (b : nat) (o : op) : outcome heap :=
  match o with
  | WithID id => JobBuilder_WithID h b id
  | WithName s => JobBuilder_WithName h b s
  | WithUser s => JobBuilder_WithUser h b s
  | WithGroup s => JobBuilder_WithGroup h b s
  | WithStatus s => JobBuilder_WithStatus h b s
  | WithStatusMessage s => JobBuilder_WithStatusMessage h b s
  | WithHost s => JobBuilder_WithHost h b s
  | WithPid pid => JobBuilder_WithPid h b pid
  | WithExitCode code => JobBuilder_WithExitCode h b code
  | WithCommand s => JobBuilder_WithCommand h b s
  | WithExe s => JobBuilder_WithExe h b s
  | WithArgs args => call_variadic JobBuilder_WithArgs h b (EString <$> args)
  | WithEnv name value => JobBuilder_WithEnv grow h b name value
  | WithEnvVars env => call_variadic JobBuilder_WithEnvVars h b (EEnv <$> env)
  | WithWorkDir s => JobBuilder_WithWorkDir h b s
  | WithStdout s => JobBuilder_WithStdout h b s
  | WithStderr s => JobBuilder_WithStderr h b s
  | WithStdin s => JobBuilder_WithStdin h b s
  | WithQueue s => JobBuilder_WithQueue h b s
  | WithQueues queues => call_variadic JobBuilder_WithQueues h b (EString <$> queues)
  | WithCluster s => JobBuilder_WithCluster h b s
  | WithProfile s => JobBuilder_WithProfile h b s
  | WithTag s => JobBuilder_WithTag grow h b s
  | WithTags tags => call_variadic JobBuilder_WithTags h b (EString <$> tags)
  | WithContainer image => JobBuilder_WithContainer h b image
  | WithContainerUser uid => JobBuilder_WithContainerUser h b uid
  | WithContainerGroup gid => JobBuilder_WithContainerGroup h b gid
  | WithMount src dst readOnly => JobBuilder_WithMount grow h b src dst readOnly
  | WithPort target protocol => JobBuilder_WithPort grow h b target protocol
  | WithPublishedPort published target protocol => JobBuilder_WithPublishedPort grow h b published target protocol
  | WithLimit limitType value => JobBuilder_WithLimit grow h b limitType value
  | WithConstraint name value => JobBuilder_WithConstraint grow h b name value
  | WithConfig name valueType value => JobBuilder_WithConfig grow h b name valueType value
  | WithMetadata key value => JobBuilder_WithMetadata h b key value
  | WithSubmissionTime t => JobBuilder_WithSubmissionTime h b t
  | WithLastUpdated t => JobBuilder_WithLastUpdated h b t
  | Pending => JobBuilder_Pending h b
  | Running => JobBuilder_Running h b
  | Finished exitCode => JobBuilder_Finished h b exitCode
  | Failed msg => JobBuilder_Failed h b msg
  | Killed => JobBuilder_Killed h b
  | Canceled => JobBuilder_Canceled h b
  | Suspended => JobBuilder_Suspended h b
  end.
End Run.

(** ** Their documentation *)
Definition the_container (j : Job) : Container := default zeroContainer (Job_Container j).

Definition effect (o : op) (j : Job) : Job :=
  match o with
  | WithID id => j <| Job_ID := id |>
  | WithName s => j <| Job_Name := s |>
  | WithUser s => j <| Job_User := s |>
  | WithGroup s => j <| Job_Group := s |>
  | WithStatus s => j <| Job_Status := s |>
  | WithStatusMessage s => j <| Job_StatusMsg := s |>
  | WithHost s => j <| Job_Host := s |>
  | WithPid pid => j <| Job_Pid := Some pid |>
  | WithExitCode code => j <| Job_ExitCode := Some code |>
  | WithCommand s => j <| Job_Command := s |>
  | WithExe s => j <| Job_Exe := s |>
  | WithArgs args => j <| Job_Args := args |>
  | WithEnv name value => j <| Job_Env := Job_Env j ++ [mkEnv name value] |>
  | WithEnvVars env => j <| Job_Env := env |>
  | WithWorkDir s => j <| Job_WorkDir := s |>
  | WithStdout s => j <| Job_Stdout := s |>
  | WithStderr s => j <| Job_Stderr := s |>
  | WithStdin s => j <| Job_Stdin := s |>
  | WithQueue s => j <| Job_Queues := [s] |>
  | WithQueues queues => j <| Job_Queues := queues |>
  | WithCluster s => j <| Job_Cluster := s |>
  | WithProfile s => j <| Job_Profile := s |>
  | WithTag s => j <| Job_Tags := Job_Tags j ++ [s] |>
  | WithTags tags => j <| Job_Tags := tags |>
  | WithContainer image => j <| Job_Container := Some (mkContainer image None None []) |>
  | WithContainerUser uid =>
      let c := the_container j in
      j <| Job_Container := Some (mkContainer (Container_Image c) (Some uid) (Container_RunAsGroup c)
             (Container_SupplementalGroups c)) |>
  | WithContainerGroup gid =>
      let c := the_container j in
      j <| Job_Container := Some (mkContainer (Container_Image c) (Container_RunAsUser c) (Some gid)
             (Container_SupplementalGroups c)) |>
  | WithMount src dst readOnly =>
      j <| Job_Mounts := Job_Mounts j ++
             [mkMount dst "" readOnly (mkMountSource MountTypeHost (AnyHostMount (mkHostMount src)))] |>
  | WithPort target protocol => j <| Job_Ports := Job_Ports j ++ [mkPort target None protocol] |>
  | WithPublishedPort published target protocol =>
      j <| Job_Ports := Job_Ports j ++ [mkPort target (Some published) protocol] |>
  | WithLimit limitType value => j <| Job_Limits := Job_Limits j ++ [mkResourceLimit limitType value "" ""] |>
  | WithConstraint name value =>
      j <| Job_Constraints := Job_Constraints j ++ [mkPlacementConstraint name value ""] |>
  | WithConfig name valueType value => j <| Job_Config := Job_Config j ++ [mkJobConfig name valueType value] |>
  | WithMetadata key value => j <| Job_Metadata := <[key := value]> (Job_Metadata j) |>
  | WithSubmissionTime t => j <| Job_Submitted := Some t |>
  | WithLastUpdated t => j <| Job_LastUpdated := Some t |>
  | Pending => j <| Job_Status := StatusPending |>
  | Running => j <| Job_Status := StatusRunning |>
  | Finished exitCode => j <| Job_Status := StatusFinished |> <| Job_ExitCode := Some exitCode |>
  | Failed msg =>
      if decide (msg = "") then j <| Job_Status := StatusFailed |>
      else j <| Job_Status := StatusFailed |> <| Job_StatusMsg := msg |>
  | Killed => j <| Job_Status := StatusKilled |>
  | Canceled => j <| Job_Status := StatusCanceled |>
  | Suspended => j <| Job_Status := StatusSuspended |>
  end.

(** ** Programs *)
Inductive cmd :=
| New (now : Time)
| NewWithID (now : Time) (id : JobID)
| Clone (i : nat)
| Do (i : nat) (o : op).

Definition blank (now : Time) : Job :=
  zeroJob <| Job_ID := "test-job-1" |> <| Job_Status := StatusPending |>
    <| Job_Submitted := Some now |> <| Job_LastUpdated := Some now |>.

(** On values: builders are numbered in the order they are made. *)
Definition spec_cmd (js : list Job) (c : cmd) : option (list Job) :=
  match c with
  | New now => Some (js ++ [blank now])
  | NewWithID now id => Some (js ++ [(blank now) <| Job_ID := id |>])
  | Clone i => j ← js !! i; Some (js ++ [j])
  | Do i o => j ← js !! i; Some (<[i := effect o j]> js)
  end.

Fixpoint spec_prog (js : list Job) (p : list cmd) : option (list Job) :=
  match p with [] => Some js | c :: p => js ← spec_cmd js c; spec_prog js p end.

Section RunProg.
Variable grow : nat → nat → nat.

(** On the heap. *)
Definition run_cmd (s : heap * list nat) (c : cmd) : outcome (heap * list nat) :=
  match c with
  | New now => let '(h, b) := NewJob s.1 now in Ret (h, s.2 ++ [b])
  | NewWithID now id => r ← NewJobWithID s.1 now id; Ret (r.1, s.2 ++ [r.2])
  | Clone i => b ← deref (s.2 !! i); r ← JobBuilder_Clone s.1 b; Ret (r.1, s.2 ++ [r.2])
  | Do i o => b ← deref (s.2 !! i); h ← run_op grow s.1 b o; Ret (h, s.2)
  end.

Fixpoint run_prog (s : heap * list nat) (p : list cmd) : outcome (heap * list nat) :=
  match p with [] => Ret s | c :: p => s ← run_cmd s c; run_prog s p end.
End RunProg.

Definition empty_heap : heap := mkHeap ∅ ∅.

(** ** What is compared *)

(** A struct with what its references show. *)
Definition show (j : Job) (w : string → option cell) : Job :=
  j <| Job_Queues := omap of_string (elems_of (w "Queues")) |>
    <| Job_Args := omap of_string (elems_of (w "Args")) |>
    <| Job_Tags := omap of_string (elems_of (w "Tags")) |>
    <| Job_Env := omap of_env (elems_of (w "Env")) |>
    <| Job_Mounts := omap of_mount (elems_of (w "Mounts")) |>
    <| Job_Ports := omap of_port (elems_of (w "Ports")) |>
    <| Job_Limits := omap of_limit (elems_of (w "Limits")) |>
    <| Job_Constraints := omap of_constraint (elems_of (w "Constraints")) |>
    <| Job_Config := omap of_config (elems_of (w "Config")) |>
    <| Job_Container := container_of (w "Container") |>
    <| Job_Metadata := map_of (w "Metadata") |>.

(** The plain fields, and the fields of [D]. *)
Definition mask (D : string → bool) (j : Job) : Job :=
  j <| Job_Queues := if D "Queues" then Job_Queues j else [] |>
    <| Job_Args := if D "Args" then Job_Args j else [] |>
    <| Job_Tags := if D "Tags" then Job_Tags j else [] |>
    <| Job_Env := if D "Env" then Job_Env j else [] |>
    <| Job_Mounts := if D "Mounts" then Job_Mounts j else [] |>
    <| Job_Ports := if D "Ports" then Job_Ports j else [] |>
    <| Job_Limits := if D "Limits" then Job_Limits j else [] |>
    <| Job_Constraints := if D "Constraints" then Job_Constraints j else [] |>
    <| Job_Config := if D "Config" then Job_Config j else [] |>
    <| Job_Container := if D "Container" then Job_Container j else None |>
    <| Job_Metadata := if D "Metadata" then Job_Metadata j else ∅ |>.

Definition all_fields (n : string) : bool := true.
(** The fields the documentation of [Clone] is right about. *)
Definition own_fields (n : string) : bool := bool_decide (n ∈ ["Queues"; "Args"; "Env"; "Tags"; "Metadata"]).

Definition update (w : string → option cell) (n : string) (v : option cell) (m : string) : option cell :=
  if String.eqb m n then v else w m.

Lemma mask_all j : mask all_fields j = j.
Proof. by destruct j. Qed.

Lemma job_view_show h b : job_view h b =
  match obj_struct <$> heap_objs h !! b with Some (SJob j) => Some (show j (contents h b)) | _ => None end.
Proof.
  unfold job_view. destruct (heap_objs h !! b) as [[s refs]|] eqn:Ho; [|done]. cbn. destruct s as [j| |]; [|done..].
  assert (∀ n, elems_of (contents h b n) = field_elems h (mkObject (SJob j) refs) n) as He.
  { intros n. unfold contents, slot, field_elems. rewrite Ho. cbn. destruct (refs !! n) as [r|]; [|done]. cbn.
    by destruct (heap_cells h !! ref_cell r) as [[]|]. }
  unfold show. rewrite !He. do 2 f_equal.
  - unfold contents, slot, field_map. rewrite Ho. cbn. destruct (refs !! "Metadata") as [r|]; [|done]. cbn.
    by destruct (heap_cells h !! ref_cell r) as [[]|].
  - f_equal. unfold contents, slot, field_container. rewrite Ho. cbn. destruct (refs !! "Container") as [r|]; [|done]. cbn.
    by destruct (heap_cells h !! ref_cell r) as [[]|].
Qed.

Lemma mask_show D j w1 w2 : (∀ n, D n = true → w1 n = w2 n) → mask D (show j w1) = mask D (show j w2).
Proof.
  intros Hw. unfold mask, show. destruct j; cbn.
  f_equal; match goal with |- context [D ?n] => specialize (Hw n); destruct (D n); [by rewrite Hw|done] end.
Qed.

Lemma mask_effect D o j1 j2 : mask D j1 = mask D j2 → mask D (effect o j1) = mask D (effect o j2).
Proof.
  destruct j1, j2. unfold mask. cbn. intros [=]. subst.
  destruct o; cbn; unfold the_container; cbn; try case_decide; cbn; f_equal; try done;
    match goal with |- context [D ?n] => destruct (D n); [by subst|done] end.
Qed.

(** ** One method call *)
Section Step.
Context (grow : nat → nat → nat) (D : string → bool).

(** The call did to [b] what its documentation says and nothing to the others. *)
Definition stepped (h h' : heap) (b : nat) (o : op) : Prop :=
  heap_ok (λ n, D n = true) h' ∧
  (∀ b', mask D <$> job_view h' b' =
     if decide (b' = b) then (λ j, mask D (effect o j)) <$> job_view h b else mask D <$> job_view h b').

Context (h : heap) (b : nat) (obj : object) (j : Job).
Context (Hok : heap_ok (λ n, D n = true) h) (Hobj : heap_objs h !! b = Some obj) (Hj : obj_struct obj = SJob j).

Lemma assign_stepped o f : (∀ w, show (f j) w = effect o (show j w)) →
  ∃ h', assign h b (on_job f) = Ret h' ∧ stepped h h' b o.
Proof.
  intros Hf. destruct (assign_ok _ h b obj Hok Hobj (on_job f)) as (h' & -> & Hok' & Hc & Hs).
  exists h'. split; [done|]. split; [done|]. intros b'. rewrite !job_view_show, Hs. case_decide as Hb.
  - subst b'. rewrite Hobj. cbn. rewrite Hj. cbn. f_equal. rewrite <- Hf. apply mask_show. intros; apply Hc.
  - destruct (obj_struct <$> heap_objs h !! b') as [[]|]; cbn; [|done..]. f_equal. apply mask_show. intros; apply Hc.
Qed.

Lemma changes_stepped o n v h' :
  changes (λ n, D n = true) h h' b n v → (∀ w, w n = contents h b n → show j (update w n v) = effect o (show j w)) →
  stepped h h' b o.
Proof.
  intros (Hok' & [Hc Hs] & Hn) Hf. split; [done|]. intros b'. rewrite !job_view_show, Hs. case_decide as Hb.
  - subst b'. rewrite Hobj. cbn. rewrite Hj. cbn. f_equal. rewrite <- Hf by done. apply mask_show. intros n' HD.
    unfold update. destruct (String.eqb_spec n' n) as [->|Hne]; [done|]. apply Hc; [done|]. naive_solver.
  - destruct (obj_struct <$> heap_objs h !! b') as [[]|]; cbn; [|done..]. f_equal. apply mask_show.
    intros n' HD. apply Hc; [done|]. naive_solver.
Qed.

Lemma append_stepped o n x : slice_field n →
  (∀ w, show j (update w n (Some (CArray (elems_of (w n) ++ [x])))) = effect o (show j w)) →
  ∃ h', append_checked grow h b n x = Ret h' ∧ stepped h h' b o.
Proof.
  intros Hn Hf. destruct (append_checked_ok grow _ h b obj n x Hok Hobj Hn) as (h' & -> & Hch).
  exists h'. split; [done|]. eapply changes_stepped; [done|]. intros w <-. apply Hf.
Qed.

Lemma variadic_stepped o n xs f : slice_field n → f = (λ h b r, set_ref h b n r) →
  (∀ w v, elems_of v = xs → show j (update w n v) = effect o (show j w)) →
  ∃ h', call_variadic f h b xs = Ret h' ∧ stepped h h' b o.
Proof.
  intros Hn -> Hf. destruct (variadic_ok _ h b obj Hok Hobj n xs Hn) as (h' & Heq & Hch).
  exists h'. split; [exact Heq|]. eapply changes_stepped; [done|]. intros w _. apply Hf. by destruct xs.
Qed.

Lemma container_stepped o f :
  (∀ w, show j (update w "Container" (Some (CContainer (f (default zeroContainer (container_of (w "Container")))))))
     = effect o (show j w)) →
  ∃ h', container_field h b f = Ret h' ∧ stepped h h' b o.
Proof.
  intros Hf. destruct (container_field_ok _ h b obj f Hok Hobj) as (h' & -> & Hch).
  exists h'. split; [done|]. eapply changes_stepped; [done|]. intros w <-. apply Hf.
Qed.

Lemma omap_map {A} (f : A → elem) (g : elem → option A) (xs : list A) : (∀ x, g (f x) = Some x) → omap g (f <$> xs) = xs.
Proof. intros Hg. induction xs as [|x xs IH]; [done|]. cbn. by rewrite Hg, IH. Qed.

Lemma run_op_ok o : ∃ h', run_op grow h b o = Ret h' ∧ stepped h h' b o.
Proof.
  destruct o; cbn [run_op];
    first [ apply assign_stepped; by destruct j
          | apply append_stepped; [done|]; intros w; destruct j; cbn; by rewrite omap_app
          | eapply variadic_stepped; [|reflexivity|]; [done|]; intros w v Hv; destruct j; cbn; rewrite Hv;
            by rewrite omap_map
          | apply container_stepped; by destruct j
          | idtac ].
  - destruct (literal_ok _ h b obj Hok Hobj "Queues" [EString s]) as (h' & Heq & Hch); [done|].
    exists h'. split; [exact Heq|]. eapply changes_stepped; [done|]. intros w _. by destruct j.
  - unfold JobBuilder_WithContainer. rewrite (alloc_set_ref h b obj) by done. eexists. split; [done|].
    eapply changes_stepped; [by apply point_new|]. intros w _. by destruct j.
  - destruct (WithMetadata_ok _ h b obj key value Hok Hobj) as (h' & -> & Hch).
    exists h'. split; [done|]. eapply changes_stepped; [done|]. intros w Hw. destruct j; cbn. by rewrite Hw.
  - apply assign_stepped. intros w. destruct j; cbn. by repeat case_decide.
Qed.
End Step.

(** ** Programs *)
Lemma NewJob_ok D h now : heap_ok D h → ∃ h' b, NewJob h now = (h', b) ∧ heap_objs h !! b = None ∧ heap_ok D h' ∧
  heap_objs h' !! b = Some (mkObject (SJob (blank now)) ∅) ∧ ∀ b', b' ≠ b → job_view h' b' = job_view h b'.
Proof.
  intros Hok. unfold NewJob, new_object. set (b := fresh (dom (heap_objs h))).
  assert (heap_objs h !! b = None) as Hb by apply not_elem_of_dom, is_fresh.
  eexists _, b. split; [done|]. split; [done|].
  match goal with |- heap_ok _ ?h0 ∧ _ => set (h' := h0) end.
  assert (∀ b' n, slot h' b' n = slot h b' n) as Hs.
  { intros b' n. unfold slot, h'. cbn. destruct (decide (b' = b)) as [->|].
    - by rewrite lookup_insert_eq, Hb.
    - by rewrite lookup_insert_ne. }
  split_and!.
  - destruct Hok as [H1 H2]. split; intros *; rewrite !Hs; [apply H1|apply H2].
  - unfold h'. cbn. by rewrite lookup_insert_eq.
  - intros b' Hne. unfold job_view, h'. cbn. by rewrite lookup_insert_ne.
Qed.

Section Simulation.
Context (grow : nat → nat → nat) (D : string → bool).

(** Each builder shows its job in the compared fields. *)
Record sim (s : heap * list nat) (js : list Job) : Prop := {
  sim_ok : heap_ok (λ n, D n = true) s.1;
  sim_nodup : NoDup s.2;
  sim_views : (λ b, mask D <$> job_view s.1 b) <$> s.2 = (λ j, Some (mask D j)) <$> js;
}.

(** Cloning is for programs compared in the fields [Clone] copies. *)
Definition allowed (c : cmd) : Prop := match c with Clone _ => ∀ n, D n = true → n ∈ cloned_fields | _ => True end.

Lemma sim_lookup s js i j : sim s js → js !! i = Some j →
  ∃ b o v, s.2 !! i = Some b ∧ heap_objs s.1 !! b = Some o ∧ obj_struct o = SJob v ∧
    (mask D <$> job_view s.1 b) = Some (mask D j).
Proof.
  intros [_ _ Hv] Hj. apply (f_equal (.!! i)) in Hv. rewrite !list_lookup_fmap, Hj in Hv. cbn in Hv.
  destruct (s.2 !! i) as [b|]; [|done]. injection Hv as Hv. pose proof Hv as Hv'. rewrite job_view_show in Hv'.
  destruct (heap_objs s.1 !! b) as [o|] eqn:Ho; [|done]. cbn in Hv'. destruct (obj_struct o) as [v| |] eqn:Hs; [|done..].
  by exists b, o, v.
Qed.

Lemma sim_allocated s js b : sim s js → b ∈ s.2 → heap_objs s.1 !! b ≠ None.
Proof.
  intros [_ _ Hv] [i Hi]%list_elem_of_lookup Hn. apply (f_equal (.!! i)) in Hv. rewrite !list_lookup_fmap, Hi in Hv.
  cbn in Hv. unfold job_view in Hv. rewrite Hn in Hv. cbn in Hv. by destruct (js !! i).
Qed.

(** One more builder. *)
Lemma sim_snoc h h' bs js b j : sim (h, bs) js → heap_objs h !! b = None → heap_ok (λ n, D n = true) h' →
  (∀ b', b' ≠ b → mask D <$> job_view h' b' = mask D <$> job_view h b') →
  mask D <$> job_view h' b = Some (mask D j) → sim (h', bs ++ [b]) (js ++ [j]).
Proof.
  intros Hsim Hb Hok Hold Hnew. assert (b ∉ bs) as Hnin by (intros Hin; by apply (sim_allocated _ _ _ Hsim Hin)).
  destruct Hsim as [_ Hnd Hv]. split; cbn in *.
  - done.
  - apply list.NoDup_app. split_and!; [done| |apply NoDup_singleton]. set_solver.
  - rewrite !fmap_app. cbn. rewrite Hnew, <- Hv. f_equal. apply list_fmap_ext. intros i b' Hi.
    apply Hold. intros ->. apply Hnin. by eapply list_elem_of_lookup_2.
Qed.

Lemma sim_step h h' bs js i b j o : sim (h, bs) js → bs !! i = Some b → js !! i = Some j →
  stepped D h h' b o → mask D <$> job_view h b = Some (mask D j) → sim (h', bs) (<[i := effect o j]> js).
Proof.
  intros [_ Hnd Hv] Hb Hj [Hok Hst] Hview. cbn in *. split; [done|done|]. cbn. rewrite list_fmap_insert, <- Hv.
  apply list_eq. intros k. destruct (decide (k = i)) as [->|Hne].
  - rewrite list_lookup_insert_eq by (rewrite length_fmap; by eapply lookup_lt_Some).
    rewrite list_lookup_fmap, Hb. cbn. rewrite Hst, decide_True by done.
    destruct (job_view h b) as [v|]; [|done]. cbn in *. injection Hview as Hview. do 2 f_equal. by apply mask_effect.
  - rewrite list_lookup_insert_ne by done. rewrite !list_lookup_fmap. destruct (bs !! k) as [b'|] eqn:Hk; [|done].
    cbn. rewrite Hst, decide_False; [done|]. intros ->. by apply Hne; eapply NoDup_lookup.
Qed.

Lemma run_cmd_ok s js c js' : allowed c → sim s js → spec_cmd js c = Some js' →
  ∃ s', run_cmd grow s c = Ret s' ∧ sim s' js'.
Proof.
  destruct s as [h bs]. intros Hal Hsim. pose proof (sim_ok _ _ Hsim) as Hok. cbn in Hok.
  destruct c as [now|now id|i|i o]; cbn [spec_cmd run_cmd fst snd].
  - intros [= <-]. destruct (NewJob_ok _ h now Hok) as (h' & b & -> & Hb & Hok' & Ho & Hold).
    eexists. split; [done|]. eapply sim_snoc; try done; [by intros; rewrite Hold|].
    rewrite job_view_show, Ho. cbn. f_equal. unfold contents, slot. by rewrite Ho.
  - intros [= <-]. unfold NewJobWithID. destruct (NewJob_ok _ h now Hok) as (h1 & b & -> & Hb & Hok1 & Ho & Hold).
    destruct (run_op_ok grow D h1 b _ (blank now) Hok1 Ho eq_refl (WithID id)) as (h2 & Heq & Hok2 & Hst).
    unfold run_op, JobBuilder_WithID in Heq. rewrite Heq. eexists. split; [done|].
    eapply sim_snoc; try done; [intros b' Hne; by rewrite Hst, decide_False, Hold by done|].
    cbn [snd]. rewrite Hst, decide_True, job_view_show, Ho by done. cbn. f_equal. unfold contents, slot. by rewrite Ho.
  - destruct (js !! i) as [j|] eqn:Hj; [|done]. intros [= <-].
    destruct (sim_lookup _ _ _ _ Hsim Hj) as (b & o & v & Hb & Ho & Hs & Hv). cbn in Hb, Ho. rewrite Hb. cbn [deref mbind outcome_bind].
    destruct (Clone_ok _ h b o Hal Hok Ho) as (h' & c & -> & Hc & Hok' & Hcon & Hstr).
    eexists. split; [done|]. cbn [fst snd].
    assert (∀ b', mask D <$> job_view h' b' = mask D <$> job_view h (if decide (b' = c) then b else b')) as Hall.
    { intros b'. rewrite !job_view_show, Hstr. destruct (obj_struct <$> _) as [[]|]; cbn; [|done..].
      f_equal. apply mask_show. intros; apply Hcon. }
    eapply sim_snoc; try done; [intros b' Hne; by rewrite Hall, decide_False|by rewrite Hall, decide_True].
  - destruct (js !! i) as [j|] eqn:Hj; [|done]. intros [= <-].
    destruct (sim_lookup _ _ _ _ Hsim Hj) as (b & ob & v & Hb & Ho & Hs & Hv). cbn in Hb, Ho. rewrite Hb. cbn [deref mbind outcome_bind].
    destruct (run_op_ok grow D h b ob v Hok Ho Hs o) as (h' & -> & Hst). eexists. split; [done|]. by eapply sim_step.
Qed.

Lemma run_prog_ok p : ∀ s js js', Forall allowed p → sim s js → spec_prog js p = Some js' →
  ∃ s', run_prog grow s p = Ret s' ∧ sim s' js'.
Proof.
  induction p as [|c p IH]; intros s js js' Hal Hsim; cbn; [intros [= <-]; eauto|].
  inversion_clear Hal as [|?? Hc Hp]. destruct (spec_cmd js c) as [js1|] eqn:Hspec; [|done]. cbn. intros Hrest.
  destruct (run_cmd_ok s js c js1 Hc Hsim Hspec) as (s1 & -> & Hsim1). by eapply IH.
Qed.

Lemma empty_sim : sim (empty_heap, []) [].
Proof.
  split; [|constructor|done]. split; intros *; unfold slot; cbn; by rewrite lookup_empty.
Qed.
End Simulation.

Definition is_clone (c : cmd) : bool := match c with Clone _ => true | _ => false end.

(** What the builders of a run show. *)
Definition views (s : heap * list nat) : list (option Job) := job_view s.1 <$> s.2.



(** Capacities doubled, as the runtime does for short slices. *)
Definition doubling (cap n : nat) : nat := Nat.max n (2 * cap).

Definition three_mounts : list cmd :=
  [New (mkTime 0 "UTC"); Do 0 (WithMount "/a" "/a" false); Do 0 (WithMount "/b" "/b" false); Do 0 (WithMount "/c" "/c" false)].

Definition mount_paths (v : option Job) : list string := match v with Some j => Mount_Path <$> Job_Mounts j | None => [] end.

(** [Clone] leaves the other references shared.  Setting the container's user
    on the clone sets it on the original; and after three mounts, when the array
    has room for one more, a mount added to the clone replaces the one added to
    the original. *)
Theorem clone_shares (grow : nat → nat → nat) (now : Time) (image : string) (uid : Z) :
  (∃ s, run_prog grow (empty_heap, [])
          [New now; Do 0 (WithContainer image); Clone 0; Do 1 (WithContainerUser uid)] = Ret s ∧
    views s !! 0 = Some (Some ((blank now) <| Job_Container := Some (mkContainer image (Some uid) None []) |>))) ∧
  ∃ s, run_prog doubling (empty_heap, [])
         (three_mounts ++ [Clone 0; Do 0 (WithMount "/d" "/d" false); Do 1 (WithMount "/e" "/e" false)]) = Ret s ∧
    mount_paths <$> views s = [["/a"; "/b"; "/c"; "/e"]; ["/a"; "/b"; "/c"; "/e"]].
Proof.
  split; eexists.
  - split; [vm_compute; reflexivity|]. vm_compute. reflexivity.
  - split; vm_compute; reflexivity.
Qed.

(** ** Concrete programs *)
Definition two_jobs : list cmd :=
  [NewWithID (mkTime 0 "UTC") "a"; New (mkTime 1 "UTC"); Do 0 (WithTag "x"); Do 1 (WithTag "y"); Do 0 (WithTag "z");
   Do 0 (WithContainerUser 7); Do 1 (WithArgs ["1"; "2"]); Do 1 (Failed "oops")].


Definition cloned_tags : list cmd :=
  three_mounts ++ [Do 0 (WithTag "x"); Clone 0; Do 0 (WithTag "y"); Do 1 (WithTag "z"); Do 1 (WithMetadata "k" AnyNil)].

