(* ===== verification/OptionBuilders.v ===== *)
(** * The filter and cluster-option builders against their documentation

    A filter builder shows the filter its calls describe.  A cluster-options
    builder hands out a copy of its struct that shares the arrays; the copy keeps
    showing what was built, whatever the builder does next. *)

From S2P Require Import Prelude GoStd Types Writer Builders BuildersFacts BuildersSound.

Definition everywhere (n : string) : Prop := True.

(** ** Filters *)
Module FilterOp.
Inductive op :=
| WithTag (tag : string) | WithTags (tags : list string)
| WithStartTime (t : Time) | WithEndTime (t : Time)
| WithStatus (status : string) | WithStatuses (statuses : list string)
| WithField (field : string) | WithFields (fields : list string).

Definition run (grow : nat → nat → nat) (h : heap) (b : nat) (o : op) : outcome heap :=
  match o with
  | WithTag tag => JobFilterBuilder_WithTag grow h b tag
  | WithTags tags => call_variadic JobFilterBuilder_WithTags h b (EString <$> tags)
  | WithStartTime t => JobFilterBuilder_WithStartTime h b t
  | WithEndTime t => JobFilterBuilder_WithEndTime h b t
  | WithStatus status => JobFilterBuilder_WithStatus grow h b status
  | WithStatuses statuses => call_variadic JobFilterBuilder_WithStatuses h b (EString <$> statuses)
  | WithField field => JobFilterBuilder_WithField grow h b field
  | WithFields fields => call_variadic JobFilterBuilder_WithFields h b (EString <$> fields)
  end.

(** What the documentation says. *)
Definition effect (f : JobFilter) (o : op) : JobFilter :=
  let '(mkJobFilter tags start stop statuses fields) := f in
  match o with
  | WithTag tag => mkJobFilter (tags ++ [tag]) start stop statuses fields
  | WithTags tags => mkJobFilter tags start stop statuses fields
  | WithStartTime t => mkJobFilter tags (Some t) stop statuses fields
  | WithEndTime t => mkJobFilter tags start (Some t) statuses fields
  | WithStatus status => mkJobFilter tags start stop (statuses ++ [status]) fields
  | WithStatuses statuses => mkJobFilter tags start stop statuses fields
  | WithField field => mkJobFilter tags start stop statuses (fields ++ [field])
  | WithFields fields => mkJobFilter tags start stop statuses fields
  end.
End FilterOp.

(** ** Cluster options *)
Module ClusterOp.
Inductive op :=
| WithQueue (queue : string) | WithQueues (queues : list string) | WithDefaultQueue (queue : string)
| WithConstraint (name value : string) | WithLimit (limitType value : string)
| WithImage (image : string) | WithDefaultImage (image : string)
| WithAllowUnknownImages (allow : bool) | WithHostNetwork (hostNetwork : bool)
| WithProfile (name displayName : string) | WithConfig (name valueType value : string).

Definition run (grow : nat → nat → nat) (h : heap) (b : nat) (o : op) : outcome heap :=
  match o with
  | WithQueue queue => ClusterOptionsBuilder_WithQueue grow h b queue
  | WithQueues queues => call_variadic ClusterOptionsBuilder_WithQueues h b (EString <$> queues)
  | WithDefaultQueue queue => ClusterOptionsBuilder_WithDefaultQueue h b queue
  | WithConstraint name value => ClusterOptionsBuilder_WithConstraint grow h b name value
  | WithLimit limitType value => ClusterOptionsBuilder_WithLimit grow h b limitType value
  | WithImage image => ClusterOptionsBuilder_WithImage grow h b image
  | WithDefaultImage image => ClusterOptionsBuilder_WithDefaultImage h b image
  | WithAllowUnknownImages allow => ClusterOptionsBuilder_WithAllowUnknownImages h b allow
  | WithHostNetwork hostNetwork => ClusterOptionsBuilder_WithHostNetwork h b hostNetwork
  | WithProfile name displayName => ClusterOptionsBuilder_WithProfile grow h b name displayName
  | WithConfig name valueType value => ClusterOptionsBuilder_WithConfig grow h b name valueType value
  end.

Definition snoc {A} (s : slice A) (x : A) : slice A := Some (default [] s ++ [x]).

(** The slice of a variadic call: nil without arguments. *)
Definition given {A} (xs : list A) : slice A := match xs with [] => None | _ => Some xs end.

Definition effect (c : ClusterOptions) (o : op) : ClusterOptions :=
  let '(mkClusterOptions cs qs dq ls im cfg ps) := c in
  let '(mkImageOptions di imgs au hn ic) := im in
  match o with
  | WithQueue queue => mkClusterOptions cs (snoc qs queue) dq ls im cfg ps
  | WithQueues queues => mkClusterOptions cs (given queues) dq ls im cfg ps
  | WithDefaultQueue queue => mkClusterOptions cs qs queue ls im cfg ps
  | WithConstraint name value => mkClusterOptions (snoc cs (mkPlacementConstraint name value "")) qs dq ls im cfg ps
  | WithLimit limitType value => mkClusterOptions cs qs dq (snoc ls (mkResourceLimit limitType value "" "")) im cfg ps
  | WithImage image => mkClusterOptions cs qs dq ls (mkImageOptions di (snoc imgs image) au hn ic) cfg ps
  | WithDefaultImage image => mkClusterOptions cs qs dq ls (mkImageOptions image imgs au hn ic) cfg ps
  | WithAllowUnknownImages allow => mkClusterOptions cs qs dq ls (mkImageOptions di imgs allow hn ic) cfg ps
  | WithHostNetwork hostNetwork => mkClusterOptions cs qs dq ls (mkImageOptions di imgs au hostNetwork ic) cfg ps
  | WithProfile name displayName =>
      mkClusterOptions cs qs dq ls im cfg (snoc ps (mkResourceProfile name displayName [] "" []))
  | WithConfig name valueType value => mkClusterOptions cs qs dq ls im (snoc cfg (mkJobConfig name valueType value)) ps
  end.

(** A new builder: empty lists, and no images. *)
Definition initial : ClusterOptions :=
  mkClusterOptions (Some []) (Some []) "" (Some []) (mkImageOptions "" None false false false) (Some []) (Some []).
End ClusterOp.

Definition of_profile (e : elem) : option ResourceProfile := match e with EProfile p => Some p | _ => None end.

(** Calls one after the other. *)
Fixpoint run_all {Op} (run : heap → nat → Op → outcome heap) (h : heap) (b : nat) (os : list Op) : outcome heap :=
  match os with [] => Ret h | o :: os => h ← run h b o; run_all run h b os end.

(** A slice field, nil or not. *)
Definition slice_at {A} (get : elem → option A) (c : option cell) : slice A :=
  match c with Some (CArray a) => Some (omap get a) | _ => None end.

(** What the references of a struct show. *)
Definition shown (h : heap) (refs : gmap string ref) (n : string) : option cell :=
  r ← refs !! n; trimmed r <$> heap_cells h !! ref_cell r.

Definition cluster_show (c : ClusterOptions) (w : string → option cell) : ClusterOptions :=
  mkClusterOptions (slice_at of_constraint (w "Constraints")) (slice_at of_string (w "Queues"))
    (ClusterOptions_DefaultQueue c) (slice_at of_limit (w "Limits"))
    (mkImageOptions (ImageOptions_Default (ClusterOptions_ImageOpt c)) (slice_at of_string (w "Images"))
       (ImageOptions_AllowUnknown (ClusterOptions_ImageOpt c)) (ImageOptions_HostNetwork (ClusterOptions_ImageOpt c))
       (ImageOptions_InitContainers (ClusterOptions_ImageOpt c)))
    (slice_at of_config (w "Configs")) (slice_at of_profile (w "Profiles")).

(** The options a built value shows: its plain fields and its slices. *)
Definition options_view (h : heap) (o : object) : option ClusterOptions :=
  match obj_struct o with SCluster c => Some (cluster_show c (shown h (obj_refs o))) | _ => None end.

(** ** One call *)

(** The call applied [f] to the struct and made field [n] show [v]. *)
Definition became (h h' : heap) (b : nat) (f : struct → struct) (n : string) (v : option cell) : Prop :=
  heap_ok everywhere h' ∧ ∃ o o', heap_objs h !! b = Some o ∧ heap_objs h' !! b = Some o' ∧
    obj_struct o' = f (obj_struct o) ∧ ∀ m, contents h' b m = update (contents h b) n v m.

Section Calls.
Context (grow : nat → nat → nat) (h : heap) (b : nat) (o : object).
Context (Hok : heap_ok everywhere h) (Ho : heap_objs h !! b = Some o).

Lemma changes_became h' n v : changes everywhere h h' b n v → became h h' b id n v.
Proof.
  intros (Hok' & [Hc Hs] & Hn). split; [done|]. pose proof (Hs b) as Hb. rewrite Ho in Hb. cbn in Hb.
  destruct (heap_objs h' !! b) as [o'|] eqn:Ho'; [|done]. injection Hb as Hb. exists o, o'. split_and!; [done..|].
  intros m. unfold update. destruct (String.eqb_spec m n) as [->|Hne]; [done|]. apply Hc; [done|]. naive_solver.
Qed.

Lemma assign_became f n : ∃ h', assign h b f = Ret h' ∧ became h h' b f n (contents h b n).
Proof.
  destruct (assign_ok _ h b o Hok Ho f) as (h' & -> & Hok' & Hc & Hs). exists h'. split; [done|]. split; [done|].
  specialize (Hs b). rewrite decide_True in Hs by done. destruct (heap_objs h' !! b) as [o'|]; [|done].
  injection Hs as Hs. exists o, o'. split_and!; [done..|]. intros m. rewrite Hc. unfold update.
  by destruct (String.eqb_spec m n) as [->|].
Qed.

Lemma append_became n x : slice_field n → ∃ h', append_field grow h b n x = Ret h' ∧
  became h h' b id n (Some (CArray (elems_of (contents h b n) ++ [x]))).
Proof.
  intros Hn. destruct (append_field_ok grow _ h b o n x Hok Ho Hn) as (h' & -> & Hch). eauto using changes_became.
Qed.

Lemma checked_became n x : slice_field n → ∃ h', append_checked grow h b n x = Ret h' ∧
  became h h' b id n (Some (CArray (elems_of (contents h b n) ++ [x]))).
Proof.
  intros Hn. destruct (append_checked_ok grow _ h b o n x Hok Ho Hn) as (h' & -> & Hch). eauto using changes_became.
Qed.

Lemma variadic_became n xs f : f = (λ h b r, set_ref h b n r) → slice_field n → ∃ h', call_variadic f h b xs = Ret h' ∧
  became h h' b id n (match xs with [] => None | _ => Some (CArray xs) end).
Proof.
  intros -> Hn. destruct (variadic_ok _ h b o Hok Ho n xs Hn) as (h' & Heq & Hch).
  exists h'. split; [exact Heq|]. by apply changes_became.
Qed.
End Calls.

(** ** Sequences of calls

    A builder over structs [X] whose references show their contents by [sh], with
    the effect of a call on values. *)
Section View.
Context {X Op : Type} (inj : X → struct) (sh : X → (string → option cell) → X) (eff : X → Op → X).
Context (sh_ext : ∀ x w w', (∀ m, w m = w' m) → sh x w = sh x w').

(** The builder shows [v]. *)
Definition shows (h : heap) (b : nat) (v : X) : Prop :=
  heap_ok everywhere h ∧ ∃ o x, heap_objs h !! b = Some o ∧ obj_struct o = inj x ∧ sh x (contents h b) = v.

Lemma became_shows r h b o x g n v op : heap_objs h !! b = Some o → obj_struct o = inj x →
  (∃ h', r = Ret h' ∧ became h h' b g n v) →
  (∀ w, w n = contents h b n → ∃ x', g (inj x) = inj x' ∧ sh x' (update w n v) = eff (sh x w) op) →
  ∃ h', r = Ret h' ∧ shows h' b (eff (sh x (contents h b)) op).
Proof.
  intros Ho Hx (h' & -> & Hok' & o0 & o' & Ho0 & Ho' & Hs & Hc) Hw. simplify_eq. rewrite Hx in Hs.
  destruct (Hw (contents h b) eq_refl) as (x' & Hg & He). exists h'. split; [done|]. split; [done|].
  exists o', x'. split_and!; [done|congruence|]. rewrite <- He. by apply sh_ext.
Qed.

Context (run : heap → nat → Op → outcome heap).
Context (run_shows : ∀ h b v op, shows h b v → ∃ h', run h b op = Ret h' ∧ shows h' b (eff v op)).

Lemma run_all_shows os : ∀ h b v, shows h b v → ∃ h', run_all run h b os = Ret h' ∧ shows h' b (foldl eff v os).
Proof.
  induction os as [|op os IH]; intros h b v Hv; cbn; [eauto|].
  destruct (run_shows h b v op Hv) as (h' & -> & Hv'). by apply IH.
Qed.
End View.

(** A heap with one builder, whose slices are distinct and empty. *)
Record fresh_slices (h : heap) (refs : gmap string ref) : Prop := {
  fs_ref : ∀ n r, refs !! n = Some r →
    heap_cells h !! ref_cell r = Some (CArray []) ∧ ref_len r = 0 ∧ slice_field n;
  fs_distinct : ∀ n1 n2 r1 r2, refs !! n1 = Some r1 → refs !! n2 = Some r2 → ref_cell r1 = ref_cell r2 → n1 = n2;
}.

Lemma empty_slices_ok fields : ∀ h refs, Forall slice_field fields → fresh_slices h refs →
  ∃ h' refs', empty_slices h refs fields = (h', refs') ∧ fresh_slices h' refs' ∧ heap_objs h' = heap_objs h ∧
    ∀ n, is_Some (refs' !! n) ↔ is_Some (refs !! n) ∨ n ∈ fields.
Proof.
  induction fields as [|n fields IH]; intros h refs Hf Hfs; cbn [empty_slices].
  { exists h, refs. split_and!; [done..|]. set_solver. }
  inversion_clear Hf as [|?? Hn Hf']. rewrite make_slice_eq.
  generalize (fresh_cell h); generalize (fresh (dom (heap_cells h))); intros l Hl.
  destruct (IH (write_cell h l (CArray [])) (<[n := mkRef l (length (@nil elem))]> refs) Hf') as (h' & refs' & -> & H1 & H2 & H3).
  - destruct Hfs as [Hr Hd]. split.
    + intros n' r. cbn. rewrite !lookup_insert_Some. intros [[<- <-]|[Hne Hn']]; [naive_solver|].
      destruct (Hr n' r Hn') as (Hc & ? & ?). split_and!; try done. right. split; [congruence|done].
    + intros n1 n2 r1 r2. rewrite !lookup_insert_Some. intros [[<- <-]|[? H1]] [[<- <-]|[? H2]] Heq; try done.
      * destruct (Hr n2 r2 H2) as (Hc & _). cbn in Heq. congruence.
      * destruct (Hr n1 r1 H1) as (Hc & _). cbn in Heq. congruence.
      * by eapply Hd.
  - exists h', refs'. split_and!; [done..|]. intros n'. rewrite H3, lookup_insert_is_Some, elem_of_cons.
    destruct (decide (n = n')); naive_solver.
Qed.

Lemma fresh_slices_shows {X} (inj : X → struct) sh h refs b x : fresh_slices h refs →
  heap_objs h = {[b := mkObject (inj x) refs]} →
  shows inj sh h b (sh x (contents h b)) ∧
  ∀ n, contents h b n = if decide (is_Some (refs !! n)) then Some (CArray []) else None.
Proof.
  intros [Hr Hd] Ho.
  assert (∀ b' n r, slot h b' n = Some r → b' = b ∧ refs !! n = Some r) as Hs.
  { intros b' n r. unfold slot. rewrite Ho. destruct (decide (b' = b)) as [->|Hne].
    - by rewrite lookup_singleton_eq.
    - by rewrite lookup_singleton_ne. }
  split; [split; [split|]|].
  - intros b' n r [_ Hn]%Hs. destruct (Hr n r Hn) as (Hc & Hl & H1 & H2). exists (CArray []). rewrite Hl. by split_and!.
  - intros b1 n1 b2 n2 r1 r2 [-> H1]%Hs [-> H2]%Hs Heq. left. split; [done|]. by eapply Hd.
  - eexists _, x. split_and!; [by rewrite Ho, lookup_singleton_eq|done..].
  - intros n. unfold contents, slot. rewrite Ho, lookup_singleton_eq. cbn. destruct (refs !! n) as [r|] eqn:Hn; [|done].
    destruct (Hr n r Hn) as (Hc & Hl & _). cbn. rewrite Hc. cbn. by rewrite take_nil.
Qed.

(** ** Filters *)
Definition filter_show (f : JobFilter) (w : string → option cell) : JobFilter :=
  mkJobFilter (omap of_string (elems_of (w "Tags"))) (JobFilter_StartTime f) (JobFilter_EndTime f)
    (omap of_string (elems_of (w "Statuses"))) (omap of_string (elems_of (w "Fields"))).

Lemma filter_view_show h b o f : heap_objs h !! b = Some o → obj_struct o = SFilter f →
  filter_view h b = Some (filter_show f (contents h b)).
Proof.
  intros Ho Hf. unfold filter_view. rewrite Ho. cbn. rewrite Hf.
  assert (∀ n, field_elems h o n = elems_of (contents h b n)) as He.
  { intros n. unfold field_elems, contents, slot. rewrite Ho. cbn. destruct (obj_refs o !! n) as [r|]; [|done]. cbn.
    by destruct (heap_cells h !! ref_cell r) as [[]|]. }
  unfold filter_show. by rewrite !He.
Qed.

Lemma filter_show_ext f w w' : (∀ m, w m = w' m) → filter_show f w = filter_show f w'.
Proof. intros Hw. unfold filter_show. by rewrite !Hw. Qed.

Lemma filter_call grow h b v op : shows SFilter filter_show h b v →
  ∃ h', FilterOp.run grow h b op = Ret h' ∧ shows SFilter filter_show h' b (FilterOp.effect v op).
Proof.
  intros (Hok & o & f & Ho & Hf & <-). pose proof (became_shows SFilter filter_show FilterOp.effect filter_show_ext) as Hgo.
  destruct op; cbn [FilterOp.run];
    (first [ eapply Hgo; [done|done|by eapply checked_became|]
           | eapply Hgo; [done|done|by eapply variadic_became|]
           | eapply (Hgo _ _ _ _ _ _ "Tags"); [done|done|by eapply assign_became|] ]);
    intros w Hw; eexists; (split; [reflexivity|]); cbn; rewrite <- ?Hw; unfold filter_show; cbn;
    rewrite ?omap_app; f_equal;
    match goal with |- context [EString <$> ?l] => by destruct l; cbn; rewrite ?omap_map end.
Qed.

(** A filter builder builds the filter its calls describe, in the order they
    are made, and none of them panics. *)
Theorem filter_builds (grow : nat → nat → nat) (os : list FilterOp.op) :
  ∃ h, run_all (FilterOp.run grow) (NewJobFilter empty_heap).1 (NewJobFilter empty_heap).2 os = Ret h ∧
    filter_view h (JobFilterBuilder_Build (NewJobFilter empty_heap).2) =
      Some (foldl FilterOp.effect (mkJobFilter [] None None [] []) os).
Proof.
  destruct (fresh_slices_shows SFilter filter_show (NewJobFilter empty_heap).1 ∅ (NewJobFilter empty_heap).2
    (mkJobFilter [] None None [] [])) as [Hv _]; [by split|done|].
  destruct (run_all_shows SFilter filter_show FilterOp.effect (FilterOp.run grow) (filter_call grow) os _ _ _ Hv)
    as (h & -> & _ & o & f & Ho & Hf & Hs).
  exists h. split; [done|]. unfold JobFilterBuilder_Build. by rewrite (filter_view_show _ _ o f), Hs.
Qed.

(** ** Cluster options *)
Lemma cluster_show_ext c w w' : (∀ m, w m = w' m) → cluster_show c w = cluster_show c w'.
Proof. intros Hw. unfold cluster_show. by rewrite !Hw. Qed.

Lemma slice_at_snoc {A} (get : elem → option A) c x y : get x = Some y →
  slice_at get (Some (CArray (elems_of c ++ [x]))) = ClusterOp.snoc (slice_at get c) y.
Proof.
  intros Hx. unfold ClusterOp.snoc. cbn. rewrite omap_app. cbn. rewrite Hx. by destruct c as [[]|].
Qed.

Lemma slice_at_given {A} (f : A → elem) (get : elem → option A) (xs : list A) : (∀ x, get (f x) = Some x) →
  slice_at get (match f <$> xs with [] => None | _ => Some (CArray (f <$> xs)) end) = ClusterOp.given xs.
Proof. intros Hg. destruct xs as [|x xs]; [done|]. cbn. by rewrite Hg, omap_map. Qed.

Lemma cluster_call grow h b v op : shows SCluster cluster_show h b v →
  ∃ h', ClusterOp.run grow h b op = Ret h' ∧ shows SCluster cluster_show h' b (ClusterOp.effect v op).
Proof.
  intros (Hok & o & c & Ho & Hc & <-).
  pose proof (became_shows SCluster cluster_show ClusterOp.effect cluster_show_ext) as Hgo.
  destruct op; cbn [ClusterOp.run];
    (first [ eapply Hgo; [done|done|by eapply append_became|]
           | eapply Hgo; [done|done|by eapply variadic_became|]
           | eapply (Hgo _ _ _ _ _ _ "Queues"); [done|done|by eapply assign_became|] ]);
    intros w Hw; eexists; (split; [reflexivity|]); rewrite <- ?Hw; unfold cluster_show, update; cbn [String.eqb Ascii.eqb Bool.eqb];
    repeat (erewrite slice_at_snoc by done); rewrite ?slice_at_given by done; done.
Qed.

(** *** Built values *)

(** References of a built value: no builder holds a shorter slice of the same
    array, so no append writes where they show. *)
Definition snapshot (h : heap) (refs : gmap string ref) : Prop :=
  ∀ n0 r0, refs !! n0 = Some r0 →
    is_Some (heap_cells h !! ref_cell r0) ∧
    ∀ b n r, slot h b n = Some r → ref_cell r = ref_cell r0 → ref_len r0 ≤ ref_len r.

Definition kept (h h' : heap) (refs : gmap string ref) : Prop :=
  snapshot h' refs ∧ ∀ n, shown h' refs n = shown h refs n.

(** A new cell, or the next free place of the field's own array. *)
Definition extends (h : heap) (b : nat) (n : string) (l len : nat) (c : cell) : Prop :=
  heap_cells h !! l = None ∨
  ∃ r a a', slot h b n = Some r ∧ ref_cell r = l ∧ heap_cells h !! l = Some (CArray a) ∧ c = CArray a' ∧
    len = S (ref_len r) ∧ take (ref_len r) a' = take (ref_len r) a.

Lemma point_kept h b o n l len c refs : heap_objs h !! b = Some o → extends h b n l len c → snapshot h refs →
  kept h (point h b o n l len c) refs.
Proof.
  intros Ho Hext Hsnap. split.
  - intros n0 r0 Hr0. destruct (Hsnap n0 r0 Hr0) as [[c0 Hc0] Hlen]. split.
    + rewrite point_cell. case_decide; [done|by exists c0].
    + intros b' n' r. rewrite (point_slot h b o n l len c Ho). case_decide as Hd; [|apply Hlen].
      intros [= <-] Hl. cbn in Hl |- *. destruct Hext as [|(r & a & a' & Hs & <- & _ & _ & -> & _)]; [congruence|].
      specialize (Hlen b n r Hs Hl). lia.
  - intros n0. unfold shown. destruct (refs !! n0) as [r0|] eqn:Hr0; [|done].
    cbn [mbind option_bind]. destruct (Hsnap n0 r0 Hr0) as [[c0 Hc0] Hlen]. rewrite point_cell. case_decide as Hl; [|done].
    destruct Hext as [|(r & a & a' & Hs & Hrl & Ha & -> & _ & Ht)]; [congruence|]. rewrite Hl, Ha. cbn. do 2 f_equal.
    assert (ref_len r0 ≤ ref_len r) as Hle by (apply (Hlen b n r Hs); congruence).
    apply (f_equal (take (ref_len r0))) in Ht. by rewrite !take_take, Nat.min_l in Ht by done.
Qed.

Lemma append_field_kept grow h b n x h' refs : append_field grow h b n x = Ret h' → snapshot h refs → kept h h' refs.
Proof.
  unfold append_field, get_object. destruct (heap_objs h !! b) as [o|] eqn:Ho; [|done]. cbn [deref mbind outcome_bind].
  assert (∀ l len c, set_ref (write_cell h l c) b n (Some (mkRef l len)) = Ret h' → extends h b n l len c →
    snapshot h refs → kept h h' refs) as Hgo.
  { intros l len c. rewrite (set_ref_point h b o n l len c Ho). intros [= <-] ?. by apply point_kept. }
  unfold append. destruct (obj_refs o !! n) as [r|] eqn:Hr.
  - destruct (heap_cells h !! ref_cell r) as [[a| |]|] eqn:Hc; [|done..]. destruct (ref_len r <? length a)%nat.
    + intros H. apply (Hgo _ _ _ H). right. exists r, a, (<[ref_len r := x]> a).
      split_and!; [unfold slot; by rewrite Ho|done..|by apply take_insert_ge].
    + rewrite alloc_eq. intros H. apply (Hgo _ _ _ H). left. apply fresh_cell.
  - rewrite alloc_eq. intros H. apply (Hgo _ _ _ H). left. apply fresh_cell.
Qed.

(** Fewer references to the same cells. *)
Lemma slots_kept h h' refs : heap_cells h' = heap_cells h → (∀ b n r, slot h' b n = Some r → slot h b n = Some r) →
  snapshot h refs → kept h h' refs.
Proof.
  intros Hc Hs Hsnap. split; [|intros n; unfold shown; by rewrite Hc]. intros n0 r0 Hr0.
  destruct (Hsnap n0 r0 Hr0) as [Hal Hlen]. split; [by rewrite Hc|]. intros b n r Hn. by eapply Hlen, Hs.
Qed.

Lemma assign_kept h b f h' refs : assign h b f = Ret h' → snapshot h refs → kept h h' refs.
Proof.
  unfold assign, get_object. destruct (heap_objs h !! b) as [o|] eqn:Ho; [|done]. cbn. intros [= <-].
  apply slots_kept; [done|]. intros b' n r. by rewrite slot_put_struct.
Qed.

Lemma variadic_kept h b n xs h' refs : call_variadic (λ h b r, set_ref h b n r) h b xs = Ret h' →
  snapshot h refs → kept h h' refs.
Proof.
  unfold call_variadic. destruct xs as [|x xs]; cbn [variadic].
  - unfold set_ref, get_object. destruct (heap_objs h !! b) as [o|] eqn:Ho; [|done]. cbn. intros [= <-].
    apply slots_kept; [done|]. intros b' n' r. unfold slot, put_object. cbn. destruct (decide (b' = b)) as [->|].
    + rewrite lookup_insert_eq, Ho. cbn. rewrite lookup_partial_alter. by case_decide.
    + by rewrite lookup_insert_ne.
  - rewrite make_slice_eq. unfold set_ref, get_object. cbn [heap_objs write_cell].
    destruct (heap_objs h !! b) as [o|] eqn:Ho.
    + intros H. pose proof (set_ref_point h b o n (fresh (dom (heap_cells h))) (length (x :: xs)) (CArray (x :: xs)) Ho) as Hp.
      unfold set_ref, get_object in Hp. rewrite H in Hp. injection Hp as ->. apply point_kept; [done|]. left. apply fresh_cell.
    + intros H. cbn in H. by rewrite Ho in H.
Qed.

Lemma cluster_kept grow h b op h' refs : ClusterOp.run grow h b op = Ret h' → snapshot h refs → kept h h' refs.
Proof. destruct op; cbn [ClusterOp.run]; first [apply append_field_kept|apply assign_kept|apply variadic_kept]. Qed.

Lemma run_all_kept grow refs os : ∀ h b h', run_all (ClusterOp.run grow) h b os = Ret h' → snapshot h refs → kept h h' refs.
Proof.
  induction os as [|op os IH]; intros h b h'; cbn [run_all]; [by intros [= <-]|].
  destruct (ClusterOp.run grow h b op) as [h1|] eqn:H1; [|done]. cbn [mbind outcome_bind]. intros H2 Hsnap.
  destruct (cluster_kept _ _ _ _ _ _ H1 Hsnap) as [Hs1 Hk1]. destruct (IH _ _ _ H2 Hs1) as [Hs2 Hk2].
  split; [done|]. intros n. by rewrite Hk2.
Qed.

(** The references of a builder that owns its arrays. *)
Lemma own_snapshot h b o : heap_ok everywhere h → heap_objs h !! b = Some o → snapshot h (obj_refs o).
Proof.
  intros Hok Ho n0 r0 Hr0. assert (slot h b n0 = Some r0) as Hs by (unfold slot; by rewrite Ho). split.
  - destruct (ok_refs _ _ Hok _ _ _ Hs) as (c & Hc & _). by exists c.
  - intros b' n r Hs' Heq. destruct (ok_owned _ _ Hok _ _ _ _ _ _ Hs' Hs Heq) as [[-> ->]|[_ []]]; [|done].
    rewrite Hs in Hs'. by simplify_eq.
Qed.

(** [Build] of a cluster-options builder returns the options its calls
    describe, nil or empty lists included, and the value returned keeps showing
    them whatever is called on the builder afterwards, although it shares the
    builder's arrays. *)
Theorem cluster_options_build (grow : nat → nat → nat) (os later : list ClusterOp.op) :
  let '(h0, b) := NewClusterOptions empty_heap in
  ∃ h1 o h2, run_all (ClusterOp.run grow) h0 b os = Ret h1 ∧ ClusterOptionsBuilder_Build h1 b = Ret o ∧
    run_all (ClusterOp.run grow) h1 b later = Ret h2 ∧
    options_view h1 o = Some (foldl ClusterOp.effect ClusterOp.initial os) ∧
    options_view h2 o = options_view h1 o.
Proof.
  unfold NewClusterOptions.
  destruct (empty_slices_ok ["Constraints"; "Queues"; "Limits"; "Configs"; "Profiles"] empty_heap ∅)
    as (h0 & refs & -> & Hfs & Ho & Hin); [by repeat (constructor; [done|]); constructor|by split|].
  unfold new_object. rewrite Ho. set (b := fresh (dom (heap_objs empty_heap))).
  set (h0' := h0 <| heap_objs := <[b := mkObject (SCluster zeroClusterOptions) refs]> (heap_objs empty_heap) |>).
  destruct (fresh_slices_shows SCluster cluster_show h0' refs b zeroClusterOptions) as [Hv Hc]; [by destruct Hfs|done|].
  assert (cluster_show zeroClusterOptions (contents h0' b) = ClusterOp.initial) as Hinit.
  { assert (∀ n, contents h0' b n =
      if bool_decide (n ∈ ["Constraints"; "Queues"; "Limits"; "Configs"; "Profiles"]) then Some (CArray []) else None) as Hc'.
    { intros n. rewrite Hc. destruct (decide _) as [Hn|Hn]; rewrite Hin, lookup_empty in Hn;
        case_bool_decide; naive_solver. }
    unfold cluster_show. by rewrite !Hc'. }
  rewrite Hinit in Hv.
  pose proof (run_all_shows SCluster cluster_show ClusterOp.effect (ClusterOp.run grow) (cluster_call grow)) as Hall.
  destruct (Hall os _ _ _ Hv) as (h1 & Hrun1 & Hv1). destruct (Hall later _ _ _ Hv1) as (h2 & Hrun2 & _).
  destruct Hv1 as (Hok1 & o & c & Ho1 & Hc1 & Hs1).
  exists h1, o, h2. split_and!; [done|by apply get_object_eq|done| |].
  - unfold options_view. rewrite Hc1, <- Hs1. f_equal. apply cluster_show_ext. intros m.
    unfold shown, contents, slot. by rewrite Ho1.
  - unfold options_view. rewrite Hc1. f_equal. apply cluster_show_ext. intros m.
    by apply (run_all_kept grow (obj_refs o) later h1 b h2 Hrun2), own_snapshot with b.
Qed.
