(* ===== verification/SmokeTest.v ===== *)
(** * The smoke test (src/cmd/smoketest)

    An interactive client of the plugin protocol.  The main goroutine reads
    commands, sends requests and waits on a condition variable; the reader
    goroutine decodes responses, files them under the lock and broadcasts; timers
    broadcast after 30 seconds.

    The main goroutine is a computation over its environment.  Wherever it waits
    for the lock or for the condition variable, the environment says what the
    other goroutines did until it runs again: a list of events, in order.  The
    environment also says which writes to the plugin fail and what the user
    types.  The texts printed and the process calls are left out. *)

From Stdlib Require Import SpecFloat.
From S2P Require Import Prelude GoStd Types Writer Stream.

(** ** Requests (src/cmd/smoketest/requests.go) *)
Definition msgBootstrap : Z := 1.
Definition msgSubmitJob : Z := 2.
Definition msgGetJob : Z := 3.
Definition msgGetJobStatus : Z := 4.
Definition msgControlJob : Z := 5.
Definition msgGetJobOutput : Z := 6.
Definition msgGetJobResourceUtil : Z := 7.
Definition msgGetJobNetwork : Z := 8.
Definition msgGetClusterInfo : Z := 9.

Definition opSuspend : Z := 0.
Definition opResume : Z := 1.
Definition opStop : Z := 2.
Definition opKill : Z := 3.
Definition opCancel : Z := 4.

Definition outputStdout : Z := 0.
Definition outputStderr : Z := 1.
Definition outputBoth : Z := 2.

(** The values of a request's [map[string]any]. *)
Inductive value :=
| VInt (z : Z)
| VString (s : string)
| VBool (b : bool)
| VStrings (l : list string)
| VVersion (v : Version)
| VJob (j : Job).

Abbreviation message := (gmap string value) (only parsing).

Definition bootstrapReq : message :=
  {["messageType" := VInt msgBootstrap; "requestId" := VInt 0; "version" := VVersion APIVersion]}.

(** The entries all requests of a user share, with the message type first. *)
Definition user_entries (t id : Z) (user : string) (rest : message) : message :=
  <["messageType" := VInt t]> (<["requestId" := VInt id]>
    (<["username" := VString user]> (<["requestUsername" := VString user]> rest))).

Definition job_entries (t id : Z) (jobID user : string) (rest : message) : message :=
  user_entries t id user (<["jobId" := VString jobID]> (<["encodedJobId" := VString ""]> rest)).

Definition clusterInfoReq (id : Z) (user : string) : message := user_entries msgGetClusterInfo id user ∅.
Definition allJobsReq (id : Z) (user : string) : message := job_entries msgGetJob id "*" user ∅.
Definition getJobReq (id : Z) (jobID user : string) : message := job_entries msgGetJob id jobID user ∅.
Definition filteredJobsReq (id : Z) (user : string) : message :=
  job_entries msgGetJob id "*" user {["tags" := VStrings ["filter job"]]}.
Definition statusJobsReq (id : Z) (user status : string) : message :=
  job_entries msgGetJob id "*" user {["statuses" := VStrings [status]]}.
Definition jobStatusStreamReq (id : Z) (user : string) : message :=
  job_entries msgGetJobStatus id "*" user {["cancel" := VBool false]}.
Definition cancelJobStatusStreamReq (id : Z) (user : string) : message :=
  job_entries msgGetJobStatus id "*" user {["cancel" := VBool true]}.
Definition controlJobMsg (id : Z) (jobID user : string) (op : Z) : message :=
  job_entries msgControlJob id jobID user {["operation" := VInt op]}.
Definition submitJobMsg (id : Z) (user : string) (job : Job) : message :=
  user_entries msgSubmitJob id user {["job" := VJob job]}.
Definition outputStreamReq (id : Z) (jobID user : string) (outputType : Z) : message :=
  job_entries msgGetJobOutput id jobID user {["outputType" := VInt outputType; "cancel" := VBool false]}.
Definition cancelOutputStreamReq (id : Z) (jobID user : string) : message :=
  job_entries msgGetJobOutput id jobID user {["cancel" := VBool true]}.
Definition resourceStreamReq (id : Z) (jobID user : string) : message :=
  job_entries msgGetJobResourceUtil id jobID user {["cancel" := VBool false]}.
Definition cancelResourceStreamReq (id : Z) (jobID user : string) : message :=
  job_entries msgGetJobResourceUtil id jobID user {["cancel" := VBool true]}.
Definition networkReqMsg (id : Z) (jobID user : string) : message := job_entries msgGetJobNetwork id jobID user ∅.

Definition nl : string := String (Ascii.ascii_of_nat 10) "".
Definition quote : string := String (Ascii.ascii_of_nat 34) "".

Definition quickJob1 (user : string) : Job :=
  zeroJob <| Job_User := user |> <| Job_Exe := "/bin/sh" |>
    <| Job_Env := [mkEnv "ENV_VAR" "This is an environment variable!"] |>
    <| Job_Stdin := ("#!/bin/sh" ++ nl ++ "echo $ENV_VAR")%string |>
    <| Job_Name := "Quick Job 1" |> <| Job_Tags := ["filter job"] |>.

Definition quickJob2 (user : string) : Job :=
  zeroJob <| Job_User := user |> <| Job_Command := "echo" |> <| Job_Args := ["This is a shell command."] |>
    <| Job_Env := [mkEnv "ENV_VAR" "This is not used!"] |> <| Job_Name := "Quick Job 2" |>
    <| Job_Tags := ["other tag"] |>.

Definition longJob (user : string) : Job :=
  zeroJob <| Job_User := user |> <| Job_Exe := "/bin/bash" |>
    <| Job_Stdin := ("#!/bin/bash" ++ nl ++ "set -e" ++ nl ++
         "for I in 1 2 3 4 5 6 7 8 9 10 11 12 13 14 15 16 17 18 19 20 21 22 23 24; do" ++ nl ++
         "  echo " ++ quote ++ "$I..." ++ quote ++ nl ++ "  sleep $I" ++ nl ++ "done")%string |>
    <| Job_Name := "Slow job" |> <| Job_Tags := ["filter job"] |>.

Definition stderrJob (user : string) : Job :=
  zeroJob <| Job_User := user |> <| Job_Command := "grep" |> <| Job_Name := "Stderr job" |>
    <| Job_Tags := ["other"; "tags"; "filter"; "job"] |>.

Definition slowSignalJob (user : string) : Job :=
  zeroJob <| Job_User := user |> <| Job_Command := "sleep 20 && echo Done" |>
    <| Job_Name := "Job for signaling" |> <| Job_Tags := ["signal"] |>.

(** ** Responses *)

(** What [json.Unmarshal] puts into an [any]. *)
Inductive jany :=
| JNull
| JBool (b : bool)
| JFloat (f : float64)
| JString (s : string)
| JArray (l : list jany)
| JObject (m : list (string * jany)).

Abbreviation response := (list (string * jany)) (only parsing).

Fixpoint field (obj : response) (k : string) : option jany :=
  match obj with
  | [] => None
  | (k', v) :: obj => if decide (k' = k) then Some v else field obj k
  end.

(** The integer part of a finite float. *)
Definition float_trunc (f : float64) : Z :=
  match f with
  | S754_finite neg m e =>
      let a := if (0 <=? e)%Z then (Zpos m * 2 ^ e)%Z else (Zpos m / 2 ^ (- e))%Z in
      if neg then (- a)%Z else a
  | _ => 0
  end.

Definition is_finite (f : float64) : bool := match f with S754_zero _ | S754_finite _ _ _ => true | _ => false end.

(** ** State *)
Record smokeTest := mkSmokeTest {
  st_username : string;
  st_requestID : Z;
  st_exited : bool;
  st_responseCount : gmap Z Z;
  st_submittedJobIDs : list string;
  st_lastRequestType : Z;
  st_outputStreamFinished : bool;
  st_resourceStreamFinished : bool;
}.

#[export] Instance eta_smokeTest : Eta smokeTest := λ s,
  mkSmokeTest (st_username s) (st_requestID s) (st_exited s) (st_responseCount s) (st_submittedJobIDs s)
    (st_lastRequestType s) (st_outputStreamFinished s) (st_resourceStreamFinished s).
#[export] Instance set_st_requestID : Setter st_requestID := ltac:(solve_setter).
#[export] Instance set_st_exited : Setter st_exited := ltac:(solve_setter).
#[export] Instance set_st_responseCount : Setter st_responseCount := ltac:(solve_setter).
#[export] Instance set_st_submittedJobIDs : Setter st_submittedJobIDs := ltac:(solve_setter).
#[export] Instance set_st_lastRequestType : Setter st_lastRequestType := ltac:(solve_setter).
#[export] Instance set_st_outputStreamFinished : Setter st_outputStreamFinished := ltac:(solve_setter).
#[export] Instance set_st_resourceStreamFinished : Setter st_resourceStreamFinished := ltac:(solve_setter).

Definition newSmokeTest (username : string) : smokeTest := mkSmokeTest username 0 false ∅ [] 0 false false.

(** [st.responseCount[id]]: 0 when there is no entry. *)
Definition count (st : smokeTest) (id : Z) : Z := default 0%Z (st_responseCount st !! id).

(** What the other goroutines do: the reader files a response, or skips a message
    that is no JSON object, or finds the stream ended; a timer, or the reader for a
    response filed before, broadcasts. *)
Inductive event :=
| Filed (obj : response)
| Unparsable
| StreamEnded
| Broadcast.

(** The environment of the main goroutine, by the number of its action: events
    before it goes on, the error of a write, the line the user types ([None] at
    the end of the input).  Conversions of floats that do not fit are left to the
    implementation by the language. *)
Record Environ := mkEnviron {
  env_events : nat → list event;
  env_write : nat → bool;
  env_line : nat → option string;
  env_uint64 : float64 → Z;
  env_int : float64 → Z;
}.

Section Session.
Variable env : Environ.

Definition to_uint64 (f : float64) : Z :=
  if is_finite f && (0 <=? float_trunc f)%Z && (float_trunc f <? 2 ^ 64)%Z then float_trunc f else wrap64 (env_uint64 env f).

Definition to_int (f : float64) : Z :=
  if is_finite f && in_int64 (float_trunc f) then float_trunc f else env_int env f.

(** ** The reader (readResponses) *)
Definition response_id (obj : response) : Z :=
  match field obj "requestId" with Some (JFloat f) => to_uint64 f | _ => 0 end.

(** The IDs of the jobs of a response. *)
Definition response_jobs (obj : response) : list string :=
  match field obj "jobs" with
  | Some (JArray l) =>
      omap (λ j, match j with
                 | JObject m => match field m "id" with Some (JString id) => Some id | _ => None end
                 | _ => None
                 end) l
  | _ => []
  end.

(** The new value of a stream's finished flag. *)
Definition stream_finished (obj : response) (old : bool) : bool :=
  let by_complete := match field obj "complete" with Some (JBool b) => b | _ => old end in
  match field obj "messageType" with
  | Some (JFloat f) => if (to_int f =? -1)%Z then true else by_complete
  | _ => by_complete
  end.

(** The body of the loop between Lock and Unlock. *)
Definition file_response (st : smokeTest) (obj : response) : smokeTest :=
  let id := response_id obj in
  let st := st <| st_responseCount := <[id := wrap64 (count st id + 1)]> (st_responseCount st) |> in
  if (st_lastRequestType st =? msgSubmitJob)%Z then
    st <| st_submittedJobIDs := st_submittedJobIDs st ++ response_jobs obj |>
  else if (st_lastRequestType st =? msgGetJobOutput)%Z then
    st <| st_outputStreamFinished := stream_finished obj (st_outputStreamFinished st) |>
  else if (st_lastRequestType st =? msgGetJobResourceUtil)%Z then
    st <| st_resourceStreamFinished := stream_finished obj (st_resourceStreamFinished st) |>
  else st.

Definition happen (st : smokeTest) (e : event) : smokeTest :=
  match e with
  | Filed obj => file_response st obj
  | StreamEnded => st <| st_exited := true |>
  | Unparsable | Broadcast => st
  end.

(** ** The main goroutine *)
Record world := mkWorld {
  w_st : smokeTest;
  w_time : nat;                (* actions so far *)
  w_sent : list message;       (* written to the plugin, oldest first *)
  w_stdin_closed : bool;
}.

Inductive result (A : Type) :=
| Done (w : world) (a : A)
| Panicked (why : string)
| Waiting.
Arguments Done {A}.
Arguments Panicked {A}.
Arguments Waiting {A}.

Definition Smoke (A : Type) : Type := world → result A.

#[export] Instance Smoke_ret : MRet Smoke := λ A a w, Done w a.
#[export] Instance Smoke_bind : MBind Smoke := λ A B f m w,
  match m w with
  | Done w a => f a w
  | Panicked why => Panicked why
  | Waiting => Waiting
  end.

(** Out of fuel. *)
Definition still_waiting {A} : Smoke A := λ _, Waiting.

Definition get : Smoke smokeTest := λ w, Done w (w_st w).
Definition modify (f : smokeTest → smokeTest) : Smoke unit :=
  λ w, Done (mkWorld (f (w_st w)) (w_time w) (w_sent w) (w_stdin_closed w)) tt.

(** [st.mu.Lock()], and [st.cond.Wait()]: the others run first. *)
Definition elapse (w : world) : world :=
  mkWorld (foldl happen (w_st w) (env_events env (w_time w))) (S (w_time w)) (w_sent w) (w_stdin_closed w).

Definition lock : Smoke unit := λ w, Done (elapse w) tt.
Definition cond_Wait : Smoke unit := λ w, Done (elapse w) tt.

(** [st.encoder.Encode(msg)], [true] for nil; a failed write is not recorded. *)
Definition encode (msg : message) : Smoke bool := λ w,
  if env_write env (w_time w)
  then Done (mkWorld (w_st w) (S (w_time w)) (w_sent w ++ [msg]) (w_stdin_closed w)) true
  else Done (mkWorld (w_st w) (S (w_time w)) (w_sent w) (w_stdin_closed w)) false.

(** [st.reader.ReadString('\n')]. *)
Definition read_line : Smoke (option string) := λ w,
  Done (mkWorld (w_st w) (S (w_time w)) (w_sent w) (w_stdin_closed w)) (env_line env (w_time w)).

Definition close_stdin : Smoke unit := λ w, Done (mkWorld (w_st w) (w_time w) (w_sent w) true) tt.

Definition index_out_of_range : string := "index out of range".

Definition nextID : Smoke Z :=
  _ ← modify (λ st, st <| st_requestID := wrap64 (st_requestID st + 1) |>);
  st ← get; mret (st_requestID st).

(** [st.submittedJobIDs[len(st.submittedJobIDs)-1]]. *)
Definition last_job : Smoke string := λ w,
  match list.last (st_submittedJobIDs (w_st w)) with Some id => Done w id | None => Panicked index_out_of_range end.

Definition reset_count (id : Z) : Smoke unit :=
  modify (λ st, st <| st_responseCount := <[id := 0%Z]> (st_responseCount st) |>).
Definition set_last (t : Z) : Smoke unit := modify (λ st, st <| st_lastRequestType := t |>).

(** The loop of waitForResponseLocked.  Every round but the last raises
    [lastCount], so [expected] bounds the rounds. *)
Fixpoint wait_rounds (fuel : nat) (requestID expected lastCount : Z) : Smoke bool :=
  st ← get;
  if (lastCount <? expected)%Z && negb (st_exited st) then
    match fuel with
    | 0 => still_waiting
    | S fuel =>
        _ ← cond_Wait;
        st ← get;
        let currentCount := count st requestID in
        if (currentCount <=? lastCount)%Z then mret false else wait_rounds fuel requestID expected currentCount
    end
  else mret (expected <=? lastCount)%Z.

Definition waitForResponseLocked (requestID expected : Z) : Smoke bool :=
  st ← get;
  let lastCount := count st requestID in
  wait_rounds (Z.to_nat (expected - lastCount)) requestID expected lastCount.

Definition waitForResponse (requestID expected : Z) : Smoke bool :=
  _ ← lock; waitForResponseLocked requestID expected.

(** [if err := st.encoder.Encode(msg); err != nil { return st.handleError(err) }]. *)
Definition handleError : Smoke bool := mret false.
Definition send (msg : message) (k : Smoke bool) : Smoke bool :=
  ok ← encode msg; if (ok : bool) then k else handleError.

(** ** Menu actions *)
Definition actionClusterInfo : Z := 0.
Definition actionGetAllJobs : Z := 1.
Definition actionGetFilteredJobs : Z := 2.
Definition actionGetRunningJobs : Z := 3.
Definition actionGetFinishedJobs : Z := 4.
Definition actionGetJobStatuses : Z := 5.
Definition actionSubmitJob1 : Z := 6.
Definition actionSubmitJob2 : Z := 7.
Definition actionSubmitStderrJob : Z := 8.
Definition actionSubmitLongJob : Z := 9.
Definition actionStreamOutputBoth : Z := 10.
Definition actionStreamOutputStdout : Z := 11.
Definition actionStreamOutputStderr : Z := 12.
Definition actionStreamResource : Z := 13.
Definition actionGetJobNetwork : Z := 14.
Definition actionCancelJob : Z := 15.
Definition actionKillJob : Z := 16.
Definition actionStopJob : Z := 17.
Definition actionSuspendResumeJob : Z := 18.
Definition actionExit : Z := 19.

Definition menuLabels : list string :=
  ["Get cluster info"; "Get all jobs"; "Get filtered jobs"; "Get running jobs"; "Get finished jobs";
   "Get job statuses"; "Submit quick job (matches filter)"; "Submit quick job 2 (doesn't match filter)";
   "Submit stderr job (doesn't match filter)"; "Submit long job (matches filter)";
   "Stream last job's output (stdout and stderr)"; "Stream last job's output (stdout)";
   "Stream last job's output (stderr)"; "Stream last job's resource utilization (must be running)";
   "Get last job's network information"; "Submit a slow job and then cancel it";
   "Submit a slow job and then kill it"; "Submit a slow job and then stop it";
   "Submit a slow job, suspend it, and then resume it"; "Exit (q or Q also exits)"].

(** The switch of sendSimpleRequest: the request type and the message; [None] for
    the cases that return without sending. *)
Definition simple_request (st : smokeTest) (action id : Z) : option (Z * message) :=
  let user := st_username st in
  if (action =? actionClusterInfo)%Z then Some (msgGetClusterInfo, clusterInfoReq id user)
  else if (action =? actionGetAllJobs)%Z then Some (msgGetJob, allJobsReq id user)
  else if (action =? actionGetFilteredJobs)%Z then Some (msgGetJob, filteredJobsReq id user)
  else if (action =? actionGetRunningJobs)%Z then Some (msgGetJob, statusJobsReq id user "Running")
  else if (action =? actionGetFinishedJobs)%Z then Some (msgGetJob, statusJobsReq id user "Finished")
  else if (action =? actionSubmitJob1)%Z then Some (msgSubmitJob, submitJobMsg id user (quickJob1 user))
  else if (action =? actionSubmitJob2)%Z then Some (msgSubmitJob, submitJobMsg id user (quickJob2 user))
  else if (action =? actionSubmitStderrJob)%Z then Some (msgSubmitJob, submitJobMsg id user (stderrJob user))
  else if (action =? actionSubmitLongJob)%Z then Some (msgSubmitJob, submitJobMsg id user (longJob user))
  else if (action =? actionGetJobNetwork)%Z then
    match list.last (st_submittedJobIDs st) with
    | None => None
    | Some job => Some (msgGetJobNetwork, networkReqMsg id job user)
    end
  else None.

Definition sendSimpleRequest (action : Z) : Smoke bool :=
  _ ← lock;
  id ← nextID;
  st ← get;
  match simple_request st action id with
  | None => mret true
  | Some (t, msg) =>
      _ ← set_last t;
      _ ← reset_count id;
      send msg (waitForResponseLocked id 1)
  end.

Definition sendJobStatusStreamRequest : Smoke bool :=
  id ← nextID;
  _ ← lock;
  _ ← reset_count 0;
  _ ← set_last msgGetJobStatus;
  st ← get;
  let jobs := Z.of_nat (length (st_submittedJobIDs st)) in
  let expected := if (0 <? jobs)%Z then jobs else 1%Z in
  send (jobStatusStreamReq id (st_username st)) (
  ok ← waitForResponse 0 expected;
  _ ← (if (ok : bool) then mret tt else lock);
  send (cancelJobStatusStreamReq id (st_username st)) (mret true)).

(** [for !timedOut && !finished { timedOut = !st.waitForResponseLocked(id, st.responseCount[id]+1) }]:
    runs as long as responses keep arriving.  The result is [timedOut]. *)
Fixpoint stream_rounds (fuel : nat) (finished : smokeTest → bool) (id : Z) : Smoke bool :=
  st ← get;
  if finished st then mret false
  else
    match fuel with
    | 0 => still_waiting
    | S fuel =>
        ok ← waitForResponseLocked id (wrap64 (count st id + 1));
        if (ok : bool) then stream_rounds fuel finished id else mret true
    end.

Variable fuel : nat.

Definition sendJobOutputStreamRequest (outputType : Z) : Smoke bool :=
  _ ← lock;
  st ← get;
  if bool_decide (st_submittedJobIDs st = []) then mret true
  else
    id ← nextID;
    jobID ← last_job;
    _ ← modify (λ st, st <| st_outputStreamFinished := false |>);
    _ ← reset_count id;
    _ ← set_last msgGetJobOutput;
    send (outputStreamReq id jobID (st_username st) outputType) (
    timedOut ← stream_rounds fuel st_outputStreamFinished id;
    st ← get;
    if timedOut && negb (st_outputStreamFinished st)
    then send (cancelOutputStreamReq id jobID (st_username st)) (mret true)
    else mret true).

Definition sendJobResourceStreamRequest : Smoke bool :=
  _ ← lock;
  st ← get;
  if bool_decide (st_submittedJobIDs st = []) then mret true
  else
    id ← nextID;
    jobID ← last_job;
    _ ← modify (λ st, st <| st_resourceStreamFinished := false |>);
    _ ← reset_count 0;
    _ ← set_last msgGetJobResourceUtil;
    send (resourceStreamReq id jobID (st_username st)) (
    timedOut ← stream_rounds fuel st_resourceStreamFinished 0;
    st ← get;
    if timedOut && negb (st_resourceStreamFinished st)
    then send (cancelResourceStreamReq id jobID (st_username st)) (mret true)
    else mret true).

Definition controlLastJobAndPrintStatus (op : Z) : Smoke bool :=
  _ ← (if (op =? opCancel)%Z then mret tt else lock);
  jobID ← last_job;
  controlID ← nextID;
  _ ← reset_count controlID;
  _ ← set_last msgControlJob;
  st ← get;
  send (controlJobMsg controlID jobID (st_username st) op) (
  ok ← waitForResponseLocked controlID 1;
  if negb (ok : bool) then mret false
  else
    statusID ← nextID;
    _ ← reset_count statusID;
    _ ← set_last msgGetJob;
    send (getJobReq statusID jobID (st_username st)) (waitForResponseLocked statusID 1)).

Definition sendControlJobRequest (op : Z) : Smoke bool :=
  _ ← lock;
  st ← get;
  let currJobCount := length (st_submittedJobIDs st) in
  id ← nextID;
  _ ← reset_count id;
  _ ← set_last msgSubmitJob;
  send (submitJobMsg id (st_username st) (slowSignalJob (st_username st))) (
  ok ← waitForResponseLocked id 1;
  st ← get;
  if negb (ok : bool) || (length (st_submittedJobIDs st) <=? currJobCount)%nat then mret false
  else controlLastJobAndPrintStatus op).

Definition sendSuspendResumeJobRequest : Smoke bool :=
  ok ← sendControlJobRequest opSuspend;
  if negb (ok : bool) then mret false
  else _ ← lock; controlLastJobAndPrintStatus opResume.

(** The choice a line stands for. *)
Definition parse_choice (line : string) : option Z :=
  match strconv_Atoi line with
  | Some n => Some n
  | None => if bool_decide (line = "q") || bool_decide (line = "Q") then Some (Z.of_nat (length menuLabels)) else None
  end.

(** The switch of sendRequest, without the exit. *)
Definition perform (action : Z) : Smoke bool :=
  if (action =? actionGetJobStatuses)%Z then sendJobStatusStreamRequest
  else if (action =? actionStreamOutputBoth)%Z then sendJobOutputStreamRequest outputBoth
  else if (action =? actionStreamOutputStdout)%Z then sendJobOutputStreamRequest outputStdout
  else if (action =? actionStreamOutputStderr)%Z then sendJobOutputStreamRequest outputStderr
  else if (action =? actionStreamResource)%Z then sendJobResourceStreamRequest
  else if (action =? actionCancelJob)%Z then sendControlJobRequest opCancel
  else if (action =? actionKillJob)%Z then sendControlJobRequest opKill
  else if (action =? actionStopJob)%Z then sendControlJobRequest opStop
  else if (action =? actionSuspendResumeJob)%Z then sendSuspendResumeJobRequest
  else sendSimpleRequest action.

Definition sendRequest : Smoke bool :=
  _ ← lock;
  st ← get;
  if st_exited st then mret false
  else
    line ← read_line;
    match line with
    | None => mret false
    | Some line =>
        let line := strings_TrimSpace line in
        _ ← lock;
        st ← get;
        if st_exited st then mret false
        else
          match parse_choice line with
          | None => mret true
          | Some choice =>
              if (choice <? 1)%Z || (Z.of_nat (length menuLabels) <? choice)%Z then mret true
              else
                let action := (choice - 1)%Z in
                if (action =? actionExit)%Z then _ ← close_stdin; mret false
                else
                  success ← perform action;
                  _ ← lock;
                  st ← get;
                  mret (negb (st_exited st) && success)
          end
    end.

(** The second half of initialize: [true] for a nil error. *)
Definition bootstrap : Smoke bool :=
  _ ← lock;
  _ ← reset_count 0;
  _ ← set_last msgBootstrap;
  send bootstrapReq (waitForResponse 0 1).

(** The plugin's command line. *)
Definition plugin_args (uid : Z) : list string :=
  ["--heartbeat-interval-seconds=0"; "--enable-debug-logging=1"; "--logging-dir="] ++
  (if (uid =? 0)%Z then [] else ["--unprivileged=1"]).

(** stop, up to the wait for the process. *)
Definition stop : Smoke unit :=
  _ ← lock;
  _ ← modify (λ st, st <| st_exited := true |>);
  close_stdin.

(** Up to [rounds] turns of [for st.sendRequest() { }]: [true] while it goes on. *)
Fixpoint request_loop (rounds : nat) : Smoke bool :=
  match rounds with
  | 0 => mret true
  | S rounds => more ← sendRequest; if (more : bool) then request_loop rounds else mret false
  end.

(** main, from newSmokeTest on. *)
Definition session (rounds : nat) : Smoke unit :=
  ok ← bootstrap;
  if (ok : bool) then
    going ← request_loop rounds;
    if (going : bool) then mret tt else stop
  else mret tt.

Definition start (username : string) : world := mkWorld (newSmokeTest username) 0 [] false.
End Session.

Arguments Done {A}.
Arguments Panicked {A}.
Arguments Waiting {A}.

(** ** The reader's input

    [readResponses] over the decoder of the wire format: the events it causes,
    until the stream ends or a message is no valid JSON. *)
Section Reader.
Context (json_Valid : bytes → bool) (unmarshal_map : bytes → option response).

Fixpoint readResponses (fuel : nat) (d : Decoder) : list event :=
  match fuel with
  | 0 => []
  | S fuel =>
      let '(d, more) := Decoder_More d in
      if more then
        let '(d, raw) := Decoder_Raw json_Valid d in
        match raw with
        | None => [StreamEnded]
        | Some raw =>
            match unmarshal_map raw with
            | None => Unparsable :: readResponses fuel d
            | Some obj => Filed obj :: readResponses fuel d
            end
        end
      else [StreamEnded]
  end.
End Reader.
