(* ===== verification/SmokeTestFacts.v ===== *)
(** * Facts about the smoke test

    Waiting for responses, the messages of whole sessions, and when sessions end,
    for every environment: whatever the plugin answers, the user types and the
    scheduler does. *)

From Stdlib Require Import SpecFloat.
From S2P Require Import Prelude GoStd Types Writer Stream SmokeTest.

(** ** Waiting *)
Section Waiting.
Context (env : Environ).

(** The world after [k] actions in which only the others do something. *)
Fixpoint after (k : nat) (w : world) : world :=
  match k with 0 => w | S k => after k (elapse env w) end.

Definition seen (w : world) (id : Z) : Z := count (w_st w) id.

Lemma wait_rounds_eq fuel id expected lastCount w : wait_rounds env fuel id expected lastCount w =
  if (lastCount <? expected)%Z && negb (st_exited (w_st w)) then
    match fuel with
    | 0 => Waiting
    | S fuel =>
        if (seen (elapse env w) id <=? lastCount)%Z then Done (elapse env w) false
        else wait_rounds env fuel id expected (seen (elapse env w) id) (elapse env w)
    end
  else Done w (expected <=? lastCount)%Z.
Proof.
  destruct fuel; cbn [wait_rounds]; unfold mbind, Smoke_bind, get; cbv beta iota;
    destruct (_ && _); [done|done| |done]. unfold cond_Wait. cbv beta iota. unfold seen. by destruct (_ <=? _)%Z.
Qed.

(** The loop takes [k] turns, at most as many as responses are missing. *)
Lemma wait_rounds_spec id expected fuel : ∀ w lastCount,
  seen w id = lastCount → (Z.to_nat (expected - lastCount) ≤ fuel)%nat →
  ∃ k b, wait_rounds env fuel id expected lastCount w = Done (after k w) b ∧ (k ≤ Z.to_nat (expected - lastCount))%nat ∧
    (b = true ↔ (expected ≤ seen (after k w) id)%Z) ∧
    (∀ i, (i < k)%nat → st_exited (w_st (after i w)) = false ∧ (seen (after i w) id < expected)%Z) ∧
    (b = false → st_exited (w_st (after k w)) = true ∨
       ∃ j, k = S j ∧ (seen (after k w) id ≤ seen (after j w) id)%Z).
Proof.
  induction fuel as [|fuel IH]; intros w lastCount Hc Hf; rewrite wait_rounds_eq;
    (destruct (Z.ltb_spec lastCount expected) as [Hlt|Hge]; cbn [andb];
      [|exists 0, (expected <=? lastCount)%Z; cbn [after]; split_and!; [done|lia| |lia|];
        [rewrite Z.leb_le, Hc; lia|rewrite Z.leb_gt; lia]]).
  all: destruct (st_exited (w_st w)) eqn:Hex; cbn [negb];
    [exists 0, (expected <=? lastCount)%Z; cbn [after]; split_and!; [done|lia| |lia|by left];
     rewrite Z.leb_le, Hc; lia|].
  - lia.
  - destruct (Z.leb_spec (seen (elapse env w) id) lastCount) as [Hle|Hgt].
    + exists 1, false. cbn [after]. split_and!; [done|lia|split; [done|lia]| |].
      * intros i Hi. assert (i = 0) as -> by lia. cbn [after]. split; [done|]. lia.
      * intros _. right. exists 0. cbn [after]. split; [done|]. lia.
    + destruct (IH (elapse env w) (seen (elapse env w) id)) as (k & b & Heq & Hk & Hb & Hi & Hfalse); [done|lia|].
      exists (S k), b. cbn [after]. split_and!; [exact Heq|lia|done| |].
      * intros [|i] Hlt'; cbn [after]; [split; [done|]; lia|]. apply Hi. lia.
      * intros Hbf. destruct (Hfalse Hbf) as [|(j & -> & Hj)]; [by left|]. right. exists (S j). by split.
Qed.

Lemma waitForResponseLocked_eq id expected w : waitForResponseLocked env id expected w =
  wait_rounds env (Z.to_nat (expected - seen w id)) id expected (seen w id) w.
Proof. done. Qed.
End Waiting.

(** ** Triples

    [triple P m Q]: from a world in [P], [m] does not panic, and the worlds it
    ends in satisfy [Q]. *)
Definition triple {A} (P : world → Prop) (m : Smoke A) (Q : A → world → Prop) : Prop :=
  ∀ w, P w → match m w with Done w' a => Q a w' | Panicked _ => False | Waiting => True end.

Section Triples.
Context (env : Environ) {A B : Type}.

Lemma triple_ret P (a : A) (Q : A → world → Prop) : (∀ w, P w → Q a w) → triple P (mret a) Q.
Proof. by intros HQ w Hw; apply HQ. Qed.

Lemma triple_bind P (m : Smoke A) R (f : A → Smoke B) Q :
  triple P m R → (∀ a, triple (R a) (f a) Q) → triple P (m ≫= f) Q.
Proof.
  intros Hm Hf w Hw. specialize (Hm w Hw). unfold mbind, Smoke_bind. destruct (m w) as [w' a| |]; [|done..].
  by apply Hf.
Qed.

Lemma triple_get P (f : smokeTest → Smoke B) Q :
  (∀ st, triple (λ w, P w ∧ w_st w = st) (f st) Q) → triple P (get ≫= f) Q.
Proof. intros Hf w Hw. apply (Hf (w_st w)). by split. Qed.

Lemma triple_conseq (P P' : world → Prop) (m : Smoke A) (Q Q' : A → world → Prop) :
  triple P' m Q' → (∀ w, P w → P' w) → (∀ a w, Q' a w → Q a w) → triple P m Q.
Proof.
  intros Hm HP HQ w Hw. specialize (Hm w (HP w Hw)). destruct (m w); [by apply HQ|done|done].
Qed.
End Triples.

(** A job the plugin has named in some response. *)
Definition named (env : Environ) (job : string) : Prop :=
  ∃ t obj, Filed obj ∈ env_events env t ∧ job ∈ response_jobs obj.

Definition jobs (w : world) : list string := st_submittedJobIDs (w_st w).

(** [l'] is [l] with more job IDs of the plugin. *)
Definition more_jobs (env : Environ) (l l' : list string) : Prop :=
  l `prefix_of` l' ∧ ∀ job, job ∈ l' → job ∈ l ∨ named env job.

#[export] Instance more_jobs_preorder env : PreOrder (more_jobs env).
Proof.
  split; [by split; auto|]. intros l1 l2 l3 [? H1] [? H2]. split; [by etrans|].
  intros job Hj. destruct (H2 job Hj) as [Hj'|]; [|by right]. by apply H1.
Qed.

(** What the other goroutines leave alone: only the reader adds job IDs. *)
Definition undisturbed (env : Environ) (w w' : world) : Prop :=
  st_username (w_st w') = st_username (w_st w) ∧ st_requestID (w_st w') = st_requestID (w_st w) ∧
  w_sent w' = w_sent w ∧ more_jobs env (jobs w) (jobs w').

#[export] Instance undisturbed_preorder env : PreOrder (undisturbed env).
Proof.
  split; [by intros w; split_and!|]. intros w1 w2 w3 (? & ? & ? & ?) (? & ? & ? & ?).
  split_and!; [congruence..|by etrans].
Qed.

Definition stable (env : Environ) (P : world → Prop) : Prop := ∀ w w', undisturbed env w w' → P w → P w'.

Lemma file_response_core env st obj : (∃ t, Filed obj ∈ env_events env t) →
  st_username (file_response env st obj) = st_username st ∧
  st_requestID (file_response env st obj) = st_requestID st ∧
  more_jobs env (st_submittedJobIDs st) (st_submittedJobIDs (file_response env st obj)).
Proof.
  intros [t Ht]. unfold file_response. cbn. repeat case_match; cbn; split_and!; try done.
  split; [by apply prefix_app_r|]. intros job [Hj|Hj]%elem_of_app; [by left|]. right. by exists t, obj.
Qed.

Lemma happen_core env evs : (∀ e, e ∈ evs → ∃ t, e ∈ env_events env t) → ∀ st,
  st_username (foldl (happen env) st evs) = st_username st ∧ st_requestID (foldl (happen env) st evs) = st_requestID st ∧
  more_jobs env (st_submittedJobIDs st) (st_submittedJobIDs (foldl (happen env) st evs)).
Proof.
  induction evs as [|e evs IH]; intros Hin st; cbn [foldl]; [done|].
  destruct (IH (λ e' He, Hin e' (list_elem_of_further _ _ _ He)) (happen env st e)) as (H1 & H2 & H3).
  assert (st_username (happen env st e) = st_username st ∧ st_requestID (happen env st e) = st_requestID st ∧
    more_jobs env (st_submittedJobIDs st) (st_submittedJobIDs (happen env st e))) as (H4 & H5 & H6).
  { destruct e as [obj| | |]; cbn; try done. apply file_response_core, Hin. by left. }
  split_and!; [congruence..|by etrans].
Qed.

Lemma elapse_undisturbed env w : undisturbed env w (elapse env w).
Proof.
  destruct (happen_core env (env_events env (w_time w))) with (w_st w) as (? & ? & ?); [eauto|]. by split_and!.
Qed.

Lemma after_undisturbed env k : ∀ w, undisturbed env w (after env k w).
Proof.
  induction k as [|k IH]; intros w; cbn [after]; [done|]. etrans; [apply (elapse_undisturbed env)|apply IH].
Qed.

Section Stable.
Context (env : Environ) (P : world → Prop) (HP : stable env P).

Lemma triple_lock : triple P (lock env) (λ _, P).
Proof. intros w Hw. by eapply HP, Hw; apply elapse_undisturbed. Qed.

Lemma triple_wait id expected : triple P (waitForResponseLocked env id expected) (λ _, P).
Proof.
  intros w Hw. rewrite waitForResponseLocked_eq.
  destruct (wait_rounds_spec env id expected (Z.to_nat (expected - seen w id)) w (seen w id)) as (k & b & -> & _); [done..|].
  eapply HP, Hw. apply after_undisturbed.
Qed.

Lemma triple_modify f : (∀ st, st_username (f st) = st_username st ∧ st_requestID (f st) = st_requestID st ∧
  st_submittedJobIDs (f st) = st_submittedJobIDs st) → triple P (modify f) (λ _, P).
Proof. intros Hf w Hw. cbn. eapply HP, Hw. destruct (Hf (w_st w)) as (? & ? & Hj). split_and!; try done. unfold jobs. cbn. by rewrite Hj. Qed.

Lemma triple_read_line : triple P (read_line env) (λ _, P).
Proof. intros w Hw. cbn. eapply HP, Hw. by split_and!. Qed.

Lemma triple_close : triple P close_stdin (λ _, P).
Proof. intros w Hw. cbn. eapply HP, Hw. by split_and!. Qed.
End Stable.

Lemma triple_stream env P finished fuel : stable env P → ∀ id, triple P (stream_rounds env fuel finished id) (λ _, P).
Proof.
  intros HP. induction fuel as [|fuel IH]; intros id; cbn [stream_rounds]; apply triple_get; intros st;
    destruct (finished st); try (apply triple_ret; naive_solver).
  - by intros w _.
  - eapply triple_bind; [eapply triple_conseq; [by apply triple_wait|naive_solver|done]|].
    intros [|]; [apply IH|by apply triple_ret].
Qed.

(** ** Transcripts *)
Section Transcript.
Context (user : string) (known : string → Prop).

(** The jobs the menu submits. *)
Definition menu_jobs : list Job := [quickJob1 user; quickJob2 user; stderrJob user; longJob user; slowSignalJob user].

(** The requests of the menu, for jobs the plugin has named. *)
Inductive request_of (id : Z) : message → Prop :=
| rq_cluster : request_of id (clusterInfoReq id user)
| rq_all : request_of id (allJobsReq id user)
| rq_filtered : request_of id (filteredJobsReq id user)
| rq_status status : status ∈ ["Running"; "Finished"] → request_of id (statusJobsReq id user status)
| rq_job job : known job → request_of id (getJobReq id job user)
| rq_submit job : job ∈ menu_jobs → request_of id (submitJobMsg id user job)
| rq_network job : known job → request_of id (networkReqMsg id job user)
| rq_control job op : known job → (0 ≤ op ≤ 4)%Z → request_of id (controlJobMsg id job user op)
| rq_statuses : request_of id (jobStatusStreamReq id user)
| rq_output job t : known job → (0 ≤ t ≤ 2)%Z → request_of id (outputStreamReq id job user t)
| rq_resource job : known job → request_of id (resourceStreamReq id job user).

(** A stream and its cancellation. *)
Inductive cancel_of : message → message → Prop :=
| cn_statuses id : cancel_of (jobStatusStreamReq id user) (cancelJobStatusStreamReq id user)
| cn_output id job t : cancel_of (outputStreamReq id job user t) (cancelOutputStreamReq id job user)
| cn_resource id job : cancel_of (resourceStreamReq id job user) (cancelResourceStreamReq id job user).

(** The messages after [n] IDs were taken: the bootstrap first, then requests with
    new IDs, each stream followed by its cancellation or not. *)
Inductive transcript : Z → list message → Prop :=
| tr_bootstrap : transcript 0 [bootstrapReq]
| tr_unused n sent : transcript n sent → transcript (n + 1) sent
| tr_request n sent msg : transcript n sent → request_of (wrap64 (n + 1)) msg → transcript (n + 1) (sent ++ [msg])
| tr_cancel n sent stream msg : transcript n (sent ++ [stream]) → cancel_of stream msg →
    transcript n (sent ++ [stream; msg]).
End Transcript.

Section Assertions.
Context (env : Environ) (user : string).

(** The user is fixed and all jobs come from the plugin. *)
Definition sound (w : world) : Prop := st_username (w_st w) = user ∧ ∀ job, job ∈ jobs w → named env job.

(** Between requests. *)
Definition idle (w : world) : Prop :=
  sound w ∧ ∃ n, st_requestID (w_st w) = wrap64 n ∧ transcript user (named env) n (w_sent w).

(** With a new ID. *)
Definition taken (id : Z) (w : world) : Prop :=
  sound w ∧ ∃ n, st_requestID (w_st w) = wrap64 (n + 1) ∧ id = wrap64 (n + 1) ∧
    transcript user (named env) n (w_sent w).

(** After a stream request. *)
Definition streaming (stream : message) (w : world) : Prop := idle w ∧ ∃ sent, w_sent w = sent ++ [stream].

Lemma sound_stable : stable env sound.
Proof.
  intros w w' (Hu & _ & _ & _ & Hj) [Hn Hs]. split; [congruence|]. intros job Hin.
  destruct (Hj job Hin) as [|]; [by apply Hs|done].
Qed.

Lemma idle_stable : stable env idle.
Proof.
  intros w w' Hu (Hs & n & Hid & Htr). split; [by eapply sound_stable|]. exists n.
  destruct Hu as (_ & -> & -> & _). done.
Qed.

Lemma taken_stable id : stable env (taken id).
Proof.
  intros w w' Hu (Hs & n & Hid & Hi & Htr). split; [by eapply sound_stable|]. exists n.
  destruct Hu as (_ & -> & -> & _). done.
Qed.

Lemma streaming_stable stream : stable env (streaming stream).
Proof.
  intros w w' Hu (Hi & sent & Hs). split; [by eapply idle_stable|]. exists sent. destruct Hu as (_ & _ & -> & _). done.
Qed.

Lemma and_stable P Q : stable env P → stable env Q → stable env (λ w, P w ∧ Q w).
Proof. intros HP HQ w w' Hu [H1 H2]. split; [by eapply HP|by eapply HQ]. Qed.

Lemma taken_idle id w : taken id w → idle w.
Proof. intros (Hs & n & Hid & _ & Htr). split; [done|]. exists (n + 1)%Z. split; [done|]. by apply tr_unused. Qed.

Lemma idle_user w : idle w → st_username (w_st w) = user.
Proof. by intros [[] _]. Qed.
End Assertions.

#[export] Hint Resolve idle_stable taken_stable streaming_stable and_stable : smoke.

(** ** Rules for requests *)

(** Facts that hold for good once they hold: about job IDs received. *)
Definition growing (R : world → Prop) : Prop := ∀ w w', jobs w `prefix_of` jobs w' → R w → R w'.

Lemma growing_stable env R : growing R → stable env R.
Proof. intros HR w w' (_ & _ & _ & Hp & _). by apply HR. Qed.

Lemma nonempty_growing : growing (λ w, jobs w ≠ []).
Proof. intros w w' [k Hk] Hj. rewrite Hk. by destruct (jobs w). Qed.

Lemma always_growing : growing (λ _, True).
Proof. done. Qed.

#[export] Hint Resolve growing_stable nonempty_growing always_growing : smoke.

Lemma triple_last_job env user P : (∀ w, P w → sound env user w ∧ jobs w ≠ []) →
  triple P last_job (λ job w, P w ∧ named env job).
Proof.
  intros HP w Hw. unfold last_job. destruct (HP w Hw) as [[_ Hs] Hne].
  destruct (list.last (st_submittedJobIDs (w_st w))) as [job|] eqn:Hl.
  - split; [done|]. apply Hs. unfold jobs. apply last_Some in Hl as [l ->]. set_solver.
  - by apply last_None in Hl.
Qed.

Section Rules.
Context (env : Environ) (user : string) (R : world → Prop) (HR : growing R).

Lemma triple_nextID : triple (λ w, idle env user w ∧ R w) nextID (λ id w, taken env user id w ∧ R w).
Proof.
  intros w [(Hs & n & Hid & Htr) Hr]. unfold nextID, mbind, Smoke_bind, modify, get, mret, Smoke_ret. cbv beta iota.
  split; [|by eapply HR, Hr]. assert (∀ z, wrap64 (wrap64 z + 1) = wrap64 (z + 1)) as Hw.
  { intros z. unfold wrap64. apply Zplus_mod_idemp_l. }
  split; [done|]. exists n. cbn. by rewrite Hid, Hw.
Qed.

Lemma triple_send id msg k Q :
  request_of user (named env) id msg → triple (λ w, streaming env user msg w ∧ R w) k Q →
  (∀ w, idle env user w → R w → Q false w) → triple (λ w, taken env user id w ∧ R w) (send env msg k) Q.
Proof.
  intros Hreq Hk HQ w [Ht Hr]. unfold send, mbind, Smoke_bind, encode. destruct (env_write env (w_time w)).
  - apply Hk. split; [|by eapply HR, Hr]. split; [|by exists (w_sent w)].
    destruct Ht as (Hu & n & Hid & Hi & Htr). split; [done|]. exists (n + 1)%Z. split; [done|]. cbn.
    apply tr_request; [done|]. by rewrite <- Hi.
  - unfold handleError, mret, Smoke_ret. apply HQ; [|by eapply HR, Hr].
    apply (taken_idle env user id) in Ht. eapply idle_stable, Ht. by split_and!.
Qed.

Lemma triple_send_cancel stream msg k Q :
  cancel_of user stream msg → triple (λ w, idle env user w ∧ R w) k Q → (∀ w, idle env user w → R w → Q false w) →
  triple (λ w, streaming env user stream w ∧ R w) (send env msg k) Q.
Proof.
  intros Hc Hk HQ w [[Hi [sent Hs]] Hr]. unfold send, mbind, Smoke_bind, encode. destruct (env_write env (w_time w)).
  - apply Hk. split; [|by eapply HR, Hr]. destruct Hi as (Hu & n & Hid & Htr). split; [done|]. exists n.
    split; [done|]. cbn. rewrite Hs, <- app_assoc. cbn. rewrite Hs in Htr. by eapply tr_cancel.
  - unfold handleError, mret, Smoke_ret. apply HQ; [|by eapply HR, Hr]. eapply idle_stable, Hi. by split_and!.
Qed.
End Rules.

(** ** The requests of the menu *)

Section Menu.
Context (env : Environ) (user : string) (fuel : nat).

Lemma triple_seq {A B} P (m : Smoke A) (k : Smoke B) Q :
  triple P m (λ _, P) → triple P k Q → triple P (m ≫= λ _, k) Q.
Proof. intros Hm Hk. by eapply triple_bind. Qed.

Lemma triple_reset P id : stable env P → triple P (reset_count id) (λ _, P).
Proof. intros HP. apply (triple_modify env P HP). intros st. by split_and!. Qed.

Lemma triple_set_last P t : stable env P → triple P (set_last t) (λ _, P).
Proof. intros HP. apply (triple_modify env P HP). intros st. by split_and!. Qed.

Lemma triple_get_user P {B} (f : smokeTest → Smoke B) Q : (∀ w, P w → sound env user w) →
  (∀ st, st_username st = user → triple P (f st) Q) → triple P (get ≫= f) Q.
Proof. intros HP Hf w Hw. apply Hf; [by apply HP|done]. Qed.

Section With.
Context (R : world → Prop) (HR : growing R).

(** Bookkeeping before a request. *)
Lemma triple_prepare {B} id c t (k : Smoke B) Q :
  triple (λ w, taken env user id w ∧ R w) k Q →
  triple (λ w, taken env user id w ∧ R w) (_ ← reset_count c; _ ← set_last t; k) Q.
Proof.
  intros Hk. apply triple_seq; [apply triple_reset; eauto with smoke|].
  apply triple_seq; [apply triple_set_last; eauto with smoke|done].
Qed.

Lemma waits_idle msg id expected :
  triple (λ w, streaming env user msg w ∧ R w) (waitForResponseLocked env id expected) (λ _ w, idle env user w ∧ R w).
Proof.
  eapply triple_conseq; [apply (triple_wait env (λ w, streaming env user msg w ∧ R w))|done|].
  - eauto with smoke.
  - by intros _ w [[] ?].
Qed.

Lemma idle_lock : triple (λ w, idle env user w ∧ R w) (lock env) (λ _ w, idle env user w ∧ R w).
Proof. apply triple_lock. eauto with smoke. Qed.
End With.

Lemma control_triple op : (0 ≤ op ≤ 4)%Z → triple (λ w, idle env user w ∧ jobs w ≠ [])
  (controlLastJobAndPrintStatus env op) (λ _ w, idle env user w ∧ jobs w ≠ []).
Proof.
  intros Hop. unfold controlLastJobAndPrintStatus. pose proof nonempty_growing as HR. apply triple_seq.
  { destruct (op =? opCancel)%Z; [by apply triple_ret|by apply idle_lock]. }
  eapply triple_bind; [apply (triple_last_job env user); by intros w [[Hs _] Hne]|]. intros job.
  intros w0 [Hw0 Hjob]. revert w0 Hw0. change (triple (λ w, idle env user w ∧ jobs w ≠ []) (
    controlID ← nextID; _ ← reset_count controlID; _ ← set_last msgControlJob; st ← get;
    send env (controlJobMsg controlID job (st_username st) op) (
    ok ← waitForResponseLocked env controlID 1;
    if negb ok then mret false
    else statusID ← nextID; _ ← reset_count statusID; _ ← set_last msgGetJob;
      send env (getJobReq statusID job (st_username st)) (waitForResponseLocked env statusID 1)))
    (λ _ w, idle env user w ∧ jobs w ≠ [])).
  eapply triple_bind; [apply (triple_nextID env user _ HR)|]. intros id. cbn beta. apply triple_prepare; [done|].
  apply triple_get_user; [by intros w [[] _]|]. intros st Hst. rewrite Hst.
  apply (triple_send env user _ HR); [by apply rq_control| |done].
  eapply triple_bind; [apply (waits_idle _ HR)|]. intros [|]; cbn [negb]; [|by apply triple_ret].
  eapply triple_bind; [apply (triple_nextID env user _ HR)|]. intros id2. cbn beta. apply triple_prepare; [done|].
  apply (triple_send env user _ HR); [by apply rq_job| |done]. apply (waits_idle _ HR).
Qed.

(** From [idle] to [idle], with nothing else known. *)
Lemma triple_idle {B} (m : Smoke B) :
  triple (λ w, idle env user w ∧ True) m (λ _ w, idle env user w ∧ True) → triple (idle env user) m (λ _, idle env user).
Proof. intros Hm. eapply triple_conseq; [exact Hm|done|]. by intros _ w []. Qed.

Lemma simple_request_of st action id t msg : simple_request st action id = Some (t, msg) → st_username st = user →
  (∀ job, job ∈ st_submittedJobIDs st → named env job) → request_of user (named env) id msg.
Proof.
  unfold simple_request. intros H Hu Hj. rewrite Hu in H.
  destruct (action =? actionClusterInfo)%Z; [injection H as <- <-; apply rq_cluster|].
  destruct (action =? actionGetAllJobs)%Z; [injection H as <- <-; apply rq_all|].
  destruct (action =? actionGetFilteredJobs)%Z; [injection H as <- <-; apply rq_filtered|].
  do 2 (match type of H with (if ?b then _ else _) = _ => destruct b end; [injection H as <- <-; apply rq_status; set_solver|]).
  do 4 (match type of H with (if ?b then _ else _) = _ => destruct b end; [injection H as <- <-; apply rq_submit; unfold menu_jobs; set_solver|]).
  destruct (action =? actionGetJobNetwork)%Z; [|done].
  destruct (list.last (st_submittedJobIDs st)) as [job|] eqn:Hl; [|done]. injection H as <- <-. apply rq_network, Hj.
  apply last_Some in Hl as [l ->]. set_solver.
Qed.

Lemma simple_triple action : triple (idle env user) (sendSimpleRequest env action) (λ _, idle env user).
Proof.
  apply triple_idle. unfold sendSimpleRequest. pose proof always_growing as HR. apply triple_seq; [by apply idle_lock|].
  eapply triple_bind; [apply (triple_nextID env user _ HR)|]. intros id. cbn beta.
  apply triple_get. intros st. destruct (simple_request st action id) as [[t msg]|] eqn:Hs.
  - intros w0 [Hw0 Hst]. pose proof Hw0 as [[[Hu Hj] _] _]. unfold jobs in Hj. rewrite Hst in Hu, Hj.
    refine ((_ : triple (λ w, taken env user id w ∧ True) _ _) w0 Hw0).
    apply triple_seq; [apply triple_set_last; eauto with smoke|].
    apply triple_seq; [apply triple_reset; eauto with smoke|].
    apply (triple_send env user _ HR); [by eapply simple_request_of| |done]. by apply waits_idle.
  - apply triple_ret. intros w [[Ht _] _]. split; [by eapply taken_idle|done].
Qed.

Lemma statuses_triple : triple (idle env user) (sendJobStatusStreamRequest env) (λ _, idle env user).
Proof.
  apply triple_idle. unfold sendJobStatusStreamRequest. pose proof always_growing as HR.
  eapply triple_bind; [apply (triple_nextID env user _ HR)|]. intros id. cbn beta.
  apply triple_seq; [apply triple_lock; eauto with smoke|].
  apply triple_prepare; [done|]. apply triple_get_user; [by intros w [[] _]|]. intros st Hst. rewrite Hst. cbv zeta.
  apply (triple_send env user _ HR); [apply rq_statuses| |done].
  set (P := λ w, streaming env user (jobStatusStreamReq id user) w ∧ True).
  assert (stable env P) as HP by (unfold P; eauto with smoke).
  eapply (triple_bind P _ (λ _, P)).
  { unfold waitForResponse. apply triple_seq; [by apply triple_lock|by apply triple_wait]. }
  intros ok. apply triple_seq; [destruct ok; [by apply triple_ret|by apply triple_lock]|].
  apply (triple_send_cancel env user _ HR (jobStatusStreamReq id user)); [apply cn_statuses|by apply triple_ret|done].
Qed.

(** A stream that is cancelled when it falls silent. *)
Lemma stream_triple R stream cancel finished flag rid : growing R → cancel_of user stream cancel →
  (∀ st, st_username st = user → flag st = cancel) →
  triple (λ w, streaming env user stream w ∧ R w)
    (timedOut ← stream_rounds env fuel finished rid;
     st ← get;
     if timedOut && negb (finished st) then send env (flag st) (mret true) else mret true)
    (λ _ w, idle env user w ∧ True).
Proof.
  intros HR Hc Hflag. eapply triple_bind; [apply (triple_stream env (λ w, streaming env user stream w ∧ R w)); eauto with smoke|].
  intros timedOut. apply triple_get_user; [by intros w [[[] _] _]|]. intros st Hst. rewrite (Hflag st Hst).
  destruct (timedOut && negb (finished st)).
  - apply (triple_send_cancel env user R HR stream); [done|apply triple_ret; naive_solver|done].
  - apply triple_ret. by intros w [[] _].
Qed.

(** The start of a stream for the last job: nothing without jobs; otherwise a new
    ID, the job and the rest. *)
Lemma last_job_triple (k : string → Z → string → Smoke bool) :
  (∀ id job, named env job → triple (λ w, taken env user id w ∧ jobs w ≠ []) (k user id job) (λ _ w, idle env user w ∧ True)) →
  triple (idle env user)
    (_ ← lock env;
     st ← get;
     if bool_decide (st_submittedJobIDs st = []) then mret true
     else id ← nextID; jobID ← last_job; k (st_username st) id jobID)
    (λ _, idle env user).
Proof.
  intros Hk. apply triple_idle. apply triple_seq; [apply idle_lock, always_growing|].
  intros w0 [Hi _]. unfold mbind at 1, Smoke_bind at 1, get at 1. cbv beta iota.
  case_bool_decide as Hj; [by split|]. pose proof (idle_user _ _ _ Hi) as Hu. rewrite Hu.
  refine ((_ : triple (λ w, idle env user w ∧ jobs w ≠ []) _ _) w0 (conj Hi Hj)).
  eapply triple_bind; [apply (triple_nextID env user _ nonempty_growing)|]. intros id. cbn beta.
  eapply triple_bind; [apply (triple_last_job env user); by intros w [[Hs _] Hne]|]. intros job.
  intros w [Hw Hjob]. exact (Hk id job Hjob w Hw).
Qed.

Lemma output_triple t : (0 ≤ t ≤ 2)%Z → triple (idle env user) (sendJobOutputStreamRequest env fuel t) (λ _, idle env user).
Proof.
  intros Ht. unfold sendJobOutputStreamRequest.
  apply (last_job_triple (λ u id job, _ ← modify (λ st, st <| st_outputStreamFinished := false |>); _ ← reset_count id;
    _ ← set_last msgGetJobOutput; send env (outputStreamReq id job u t) (
    timedOut ← stream_rounds env fuel st_outputStreamFinished id; st ← get;
    if timedOut && negb (st_outputStreamFinished st)
    then send env (cancelOutputStreamReq id job (st_username st)) (mret true) else mret true))).
  intros id job Hjob. set (P := λ w, taken env user id w ∧ jobs w ≠ []).
  assert (stable env P) as HP by (unfold P; eauto with smoke).
  apply triple_seq; [apply (triple_modify env P HP); intros; by split_and!|].
  apply triple_prepare; [apply nonempty_growing|].
  apply (triple_send env user _ nonempty_growing); [by apply rq_output| |done].
  apply (stream_triple _ _ (cancelOutputStreamReq id job user) _ (λ st, cancelOutputStreamReq id job (st_username st)));
    [apply nonempty_growing|apply cn_output|by intros st ->].
Qed.

Lemma resource_triple : triple (idle env user) (sendJobResourceStreamRequest env fuel) (λ _, idle env user).
Proof.
  unfold sendJobResourceStreamRequest.
  apply (last_job_triple (λ u id job, _ ← modify (λ st, st <| st_resourceStreamFinished := false |>); _ ← reset_count 0;
    _ ← set_last msgGetJobResourceUtil; send env (resourceStreamReq id job u) (
    timedOut ← stream_rounds env fuel st_resourceStreamFinished 0; st ← get;
    if timedOut && negb (st_resourceStreamFinished st)
    then send env (cancelResourceStreamReq id job (st_username st)) (mret true) else mret true))).
  intros id job Hjob. set (P := λ w, taken env user id w ∧ jobs w ≠ []).
  assert (stable env P) as HP by (unfold P; eauto with smoke).
  apply triple_seq; [apply (triple_modify env P HP); intros; by split_and!|].
  apply triple_prepare; [apply nonempty_growing|].
  apply (triple_send env user _ nonempty_growing); [by apply rq_resource| |done].
  apply (stream_triple _ _ (cancelResourceStreamReq id job user) _ (λ st, cancelResourceStreamReq id job (st_username st)));
    [apply nonempty_growing|apply cn_resource|by intros st ->].
Qed.

Lemma send_control_triple op : (0 ≤ op ≤ 4)%Z →
  triple (idle env user) (sendControlJobRequest env op) (λ ok w, idle env user w ∧ (ok = true → jobs w ≠ [])).
Proof.
  intros Hop. pose proof always_growing as HR. unfold sendControlJobRequest.
  apply (triple_conseq _ (λ w, idle env user w ∧ True) _ _ (λ ok w, idle env user w ∧ (ok = true → jobs w ≠ []))); [|done|done].
  apply triple_seq; [by apply idle_lock|].
  apply triple_get_user; [by intros w [[] _]|]. intros st Hst. rewrite Hst. cbv zeta.
  eapply triple_bind; [apply (triple_nextID env user _ HR)|]. intros id. cbn beta.
  apply triple_prepare; [done|]. apply (triple_send env user _ HR); [apply rq_submit; unfold menu_jobs; set_solver| |done].
  eapply triple_bind; [apply (waits_idle _ HR)|]. intros ok.
  apply triple_get. intros st1. destruct ok; cbn [negb orb]; [|by apply triple_ret; intros w [[] _]].
  destruct (Nat.leb_spec (length (st_submittedJobIDs st1)) (length (st_submittedJobIDs st)));
    [by apply triple_ret; intros w [[] _]|].
  eapply triple_conseq; [by apply control_triple| |naive_solver].
  intros w [[Hi _] Hw]. split; [done|]. unfold jobs. rewrite Hw. intros Hnil. rewrite Hnil in *. cbn in *. lia.
Qed.

Lemma suspend_triple : triple (idle env user) (sendSuspendResumeJobRequest env) (λ _, idle env user).
Proof.
  unfold sendSuspendResumeJobRequest. eapply triple_bind; [by apply send_control_triple|].
  intros [|]; cbn [negb]; [|apply triple_ret; naive_solver].
  apply (triple_conseq _ (λ w, idle env user w ∧ jobs w ≠ []) _ _ (λ _ w, idle env user w ∧ jobs w ≠ []));
    [|naive_solver|by intros _ w []].
  apply triple_seq; [apply idle_lock, nonempty_growing|by apply control_triple].
Qed.

Lemma perform_triple action : triple (idle env user) (perform env fuel action) (λ _, idle env user).
Proof.
  unfold perform.
  assert (∀ op, (0 ≤ op ≤ 4)%Z → triple (idle env user) (sendControlJobRequest env op) (λ _, idle env user)) as Hctl.
  { intros op Hop. eapply triple_conseq; [by apply send_control_triple|done|]. by intros ok w [Hi _]. }
  destruct (action =? actionGetJobStatuses)%Z; [apply statuses_triple|].
  do 3 (match goal with |- triple _ (if ?b then _ else _) _ => destruct b end; [by apply output_triple|]).
  destruct (action =? actionStreamResource)%Z; [apply resource_triple|].
  do 3 (match goal with |- triple _ (if ?b then _ else _) _ => destruct b end; [by apply Hctl|]).
  destruct (action =? actionSuspendResumeJob)%Z; [apply suspend_triple|].
  apply simple_triple.
Qed.

Lemma sendRequest_triple : triple (idle env user) (sendRequest env fuel) (λ _, idle env user).
Proof.
  unfold sendRequest. apply triple_seq; [apply triple_lock, idle_stable|]. apply triple_get_user; [by intros w []|].
  intros st _. destruct (st_exited st); [by apply triple_ret|].
  eapply triple_bind; [apply triple_read_line, idle_stable|]. intros [line|]; [|by apply triple_ret].
  apply triple_seq; [apply triple_lock, idle_stable|]. apply triple_get_user; [by intros w []|].
  intros st' _. destruct (st_exited st'); [by apply triple_ret|].
  destruct (parse_choice _) as [choice|]; [|by apply triple_ret]. destruct (_ || _); [by apply triple_ret|]. cbv zeta.
  destruct (_ =? actionExit)%Z.
  { apply triple_seq; [eapply triple_close, idle_stable|by apply triple_ret]. }
  eapply triple_bind; [apply perform_triple|]. intros success.
  apply triple_seq; [apply triple_lock, idle_stable|]. apply triple_get_user; [by intros w []|].
  intros st2 _. by apply triple_ret.
Qed.

Lemma request_loop_triple rounds : triple (idle env user) (request_loop env fuel rounds) (λ _, idle env user).
Proof.
  induction rounds as [|rounds IH]; cbn [request_loop]; [by apply triple_ret|].
  eapply triple_bind; [apply sendRequest_triple|]. intros [|]; [done|by apply triple_ret].
Qed.
End Menu.

(** ** When sessions end *)

Definition is_filed (e : event) : bool := match e with Filed _ => true | _ => false end.

(** Responses in the [k] lists of events from [t] on. *)
Fixpoint filed (env : Environ) (t k : nat) : nat :=
  match k with 0 => 0 | S k => length (filter (λ e, is_filed e = true) (env_events env t)) + filed env (S t) k end.

(** From any time on, within [fuel] waits one brings no response, and fewer than
    2^64 - 1 come before it. *)
Definition pauses (env : Environ) (fuel : nat) : Prop :=
  ∀ t, ∃ k, k < fuel ∧ filed env (t + k) 1 = 0 ∧ (Z.of_nat (filed env t k) < 2 ^ 64 - 1)%Z.

Definition never_waits {A} (m : Smoke A) : Prop := ∀ w, m w ≠ Waiting.

Lemma never_waits_bind {A B} (m : Smoke A) (f : A → Smoke B) :
  never_waits m → (∀ a, never_waits (f a)) → never_waits (m ≫= f).
Proof.
  intros Hm Hf w. unfold mbind, Smoke_bind. specialize (Hm w). destruct (m w); [apply Hf|done|done].
Qed.

Lemma wait_never_waits env id expected : never_waits (waitForResponseLocked env id expected).
Proof.
  intros w. rewrite waitForResponseLocked_eq.
  by destruct (wait_rounds_spec env id expected (Z.to_nat (expected - seen w id)) w (seen w id)) as (k & b & -> & _).
Qed.

Lemma send_never_waits env msg k : never_waits k → never_waits (send env msg k).
Proof.
  intros Hk. apply never_waits_bind; [intros w; unfold encode; by destruct (env_write env (w_time w))|]. by intros [].
Qed.

Lemma last_job_never_waits : never_waits last_job.
Proof. intros w. unfold last_job. by destruct (list.last _). Qed.

#[export] Hint Resolve wait_never_waits last_job_never_waits : smoke.

(** Decides [never_waits] for everything but the streams. *)
Ltac no_wait :=
  repeat first
    [ by intros ?
    | progress eauto with smoke
    | apply send_never_waits
    | apply never_waits_bind; [|intros ?]
    | match goal with |- never_waits (if ?b then _ else _) => destruct b end
    | match goal with |- never_waits (match ?b with _ => _ end) => destruct b end ].

(** The loop of a stream whose responses pause. *)
Section Streams.
Context (env : Environ) (fuel : nat) (Hp : pauses env fuel).

Lemma file_response_seen st obj id : count (file_response env st obj) id = count st id ∨
  count (file_response env st obj) id = wrap64 (count st id + 1).
Proof.
  assert (count (file_response env st obj) id =
    count (st <| st_responseCount := <[response_id env obj := wrap64 (count st (response_id env obj) + 1)]>
      (st_responseCount st) |>) id) as ->.
  { unfold file_response. by repeat case_match. }
  destruct (decide (response_id env obj = id)) as [->|Hne].
  - right. unfold count at 1. cbn. by rewrite lookup_insert_eq.
  - left. unfold count. cbn. by rewrite lookup_insert_ne.
Qed.

Lemma happen_seen evs id : ∀ st, (0 ≤ count st id)%Z →
  (count st id + Z.of_nat (length (filter (λ e, is_filed e = true) evs)) < 2 ^ 64)%Z →
  (0 ≤ count (foldl (happen env) st evs) id ≤
   count st id + Z.of_nat (length (filter (λ e, is_filed e = true) evs)))%Z.
Proof.
  induction evs as [|e evs IH]; intros st H0 Hb; [cbn; lia|]. cbn [foldl].
  destruct e as [obj| | |]; cbn [happen].
  - rewrite filter_cons_True in * by done. cbn [length] in *.
    assert (0 ≤ count (file_response env st obj) id ≤ count st id + 1)%Z as Hc.
    { destruct (file_response_seen st obj id) as [->| ->]; [lia|]. rewrite wrap64_small; lia. }
    specialize (IH (file_response env st obj)). lia.
  - rewrite filter_cons_False in * by done. by apply IH.
  - rewrite filter_cons_False in * by done. set (st' := st <| st_exited := true |>). exact (IH st' H0 Hb).
  - rewrite filter_cons_False in * by done. by apply IH.
Qed.

(** One turn, away from the overflow of the counter. *)
Lemma stream_rounds_eq n finished id w : (0 ≤ seen w id < 2 ^ 64 - 1)%Z → stream_rounds env (S n) finished id w =
  if finished (w_st w) then Done w false
  else if st_exited (w_st w) then Done w true
  else if (seen (elapse env w) id <=? seen w id)%Z then Done (elapse env w) true
  else stream_rounds env n finished id (elapse env w).
Proof.
  intros Hb. cbn [stream_rounds]. unfold mbind at 1, Smoke_bind at 1, get. cbv beta iota.
  destruct (finished (w_st w)); [done|]. unfold mbind, Smoke_bind. rewrite waitForResponseLocked_eq.
  fold (seen w id). rewrite wrap64_small by lia. replace (Z.to_nat (seen w id + 1 - seen w id)) with 1 by lia.
  rewrite wait_rounds_eq. destruct (Z.ltb_spec (seen w id) (seen w id + 1)); [|lia]. cbn [andb].
  destruct (st_exited (w_st w)); cbn [negb].
  - destruct (Z.leb_spec (seen w id + 1) (seen w id)); [lia|done].
  - destruct (Z.leb_spec (seen (elapse env w) id) (seen w id)); [done|]. rewrite wait_rounds_eq.
    destruct (Z.ltb_spec (seen (elapse env w) id) (seen w id + 1)); [lia|]. cbn [andb].
    destruct (Z.leb_spec (seen w id + 1) (seen (elapse env w) id)); [done|lia].
Qed.

Lemma stream_rounds_end finished id k : ∀ n w, k < n → filed env (w_time w + k) 1 = 0 →
  (0 ≤ seen w id)%Z → (seen w id + Z.of_nat (filed env (w_time w) k) < 2 ^ 64 - 1)%Z →
  stream_rounds env n finished id w ≠ Waiting.
Proof.
  induction k as [|k IH]; intros [|n] w Hn Hq H0 Hb; try lia; (rewrite stream_rounds_eq by (cbn in Hb; lia));
    destruct (finished (w_st w)), (st_exited (w_st w)); try done;
    pose proof (happen_seen (env_events env (w_time w)) id (w_st w) H0) as Hs; cbn [filed] in *.
  - rewrite !Nat.add_0_r in Hq. fold (seen w id) in Hs. destruct Hs as [_ Hs]; [lia|].
    assert (seen (elapse env w) id ≤ seen w id)%Z as Hle; [|by apply Z.leb_le in Hle as ->].
    etrans; [exact Hs|]. lia.
  - destruct (_ <=? _)%Z; [done|]. fold (seen w id) in Hs. rewrite Nat.add_succ_r in Hq.
    destruct Hs as [Hs1 Hs2]; [lia|]. change (0 ≤ seen (elapse env w) id)%Z in Hs1.
    change (seen (elapse env w) id ≤ seen w id +
      Z.of_nat (length (filter (λ e, is_filed e = true) (env_events env (w_time w)))))%Z in Hs2.
    apply IH; [lia|exact Hq|done|]. cbn [elapse w_time]. lia.
Qed.

(** Streams are opened with the counter at zero. *)
Lemma stream_never_waits finished rid t msg (k : bool → Smoke bool) : (∀ b, never_waits (k b)) →
  never_waits (_ ← reset_count rid; _ ← set_last t; send env msg (b ← stream_rounds env fuel finished rid; k b)).
Proof.
  intros Hk w. unfold mbind at 1 2, Smoke_bind at 1 2, reset_count, set_last, modify. cbv beta iota.
  unfold send, mbind at 1, Smoke_bind at 1, encode. cbn [w_time w_st w_sent w_stdin_closed].
  destruct (env_write env (w_time w)); [|done]. unfold mbind, Smoke_bind.
  match goal with |- context [stream_rounds env fuel finished rid ?x] => set (w1 := x) end.
  destruct (Hp (w_time w1)) as (n & Hn & Hq & Hb).
  assert (seen w1 rid = 0%Z) as H0 by (unfold seen, count, w1; cbn; by rewrite lookup_insert_eq).
  pose proof (stream_rounds_end finished rid n fuel w1 Hn Hq) as Hend. rewrite H0 in Hend.
  destruct (stream_rounds env fuel finished rid w1) as [w2 b| |]; [apply Hk|done|]. exfalso. apply Hend; [lia|lia|done].
Qed.

Lemma perform_never_waits action : never_waits (perform env fuel action).
Proof.
  assert (∀ op, never_waits (controlLastJobAndPrintStatus env op)) as Hctl by
    (intros; unfold controlLastJobAndPrintStatus; no_wait).
  assert (∀ op, never_waits (sendControlJobRequest env op)) as Hsend by
    (intros; unfold sendControlJobRequest; no_wait).
  assert (∀ t, never_waits (sendJobOutputStreamRequest env fuel t)) as Hout.
  { intros t. unfold sendJobOutputStreamRequest. do 2 (apply never_waits_bind; [no_wait|intros ?]). case_bool_decide; [no_wait|].
    do 3 (apply never_waits_bind; [no_wait|intros ?]). apply stream_never_waits. intros. no_wait. }
  assert (never_waits (sendJobResourceStreamRequest env fuel)) as Hres.
  { unfold sendJobResourceStreamRequest. do 2 (apply never_waits_bind; [no_wait|intros ?]). case_bool_decide; [no_wait|].
    do 3 (apply never_waits_bind; [no_wait|intros ?]). apply stream_never_waits. intros. no_wait. }
  unfold perform, sendSuspendResumeJobRequest, sendSimpleRequest, sendJobStatusStreamRequest, waitForResponse.
  repeat (match goal with |- never_waits (if ?b then _ else _) => destruct b end); try done; no_wait.
Qed.

Lemma request_loop_never_waits rounds : never_waits (request_loop env fuel rounds).
Proof.
  induction rounds as [|rounds IH]; cbn [request_loop]; [done|]. apply never_waits_bind; [|by intros []].
  pose proof perform_never_waits. unfold sendRequest. no_wait.
Qed.

Lemma session_never_waits rounds : never_waits (session env fuel rounds).
Proof.
  pose proof (request_loop_never_waits rounds). unfold session, bootstrap, stop, waitForResponse. no_wait.
Qed.
End Streams.

(** ** Whole sessions *)
Section Whole.
Context (env : Environ) (user : string).

(** Before the bootstrap. *)
Definition fresh_start (w : world) : Prop := sound env user w ∧ st_requestID (w_st w) = 0%Z ∧ w_sent w = [].

Lemma fresh_start_stable : stable env fresh_start.
Proof.
  intros w w' Hu (Hs & Hid & Hsent). split; [by eapply sound_stable|]. by destruct Hu as (_ & -> & -> & _).
Qed.

Lemma start_fresh : fresh_start (start user).
Proof. split; [|done]. split; [done|]. by intros job ?%not_elem_of_nil. Qed.

Lemma bootstrap_triple : triple fresh_start (bootstrap env) (λ ok w, if ok then idle env user w else w_sent w = [] ∨ idle env user w).
Proof.
  pose proof fresh_start_stable as HP. unfold bootstrap. apply triple_seq; [by apply triple_lock|].
  apply triple_seq; [by apply (triple_reset env)|]. apply triple_seq; [by apply (triple_set_last env)|].
  intros w (Hs & Hid & Hsent). unfold send, mbind at 1, Smoke_bind at 1, encode.
  destruct (env_write env (w_time w)); [|by left].
  refine ((_ : triple (idle env user) (waitForResponse env 0 1) _) _ _).
  - eapply triple_conseq; [|done|].
    + unfold waitForResponse. apply triple_seq; [apply triple_lock, idle_stable|apply triple_wait, idle_stable].
    + intros [|] w' Hw'; [done|by right].
  - split; [done|]. exists 0%Z. cbn. rewrite Hid, Hsent. split; [done|apply tr_bootstrap].
Qed.

Lemma stop_triple : triple (idle env user) (stop env) (λ _ w, idle env user w ∧ w_stdin_closed w = true).
Proof.
  unfold stop. apply triple_seq; [apply triple_lock, idle_stable|].
  apply triple_seq; [apply (triple_modify env); [apply idle_stable|intros; by split_and!]|].
  intros w Hw. split; [|done]. eapply (triple_close env), Hw. apply idle_stable.
Qed.

Lemma session_triple fuel rounds :
  triple fresh_start (session env fuel rounds) (λ _ w, w_sent w = [] ∨ idle env user w).
Proof.
  unfold session. eapply triple_bind; [apply bootstrap_triple|]. intros [|]; [|by apply triple_ret].
  eapply triple_conseq with (P' := idle env user) (Q' := λ _, idle env user); [|done|by right].
  eapply triple_bind; [apply request_loop_triple|]. intros [|]; [by apply triple_ret|].
  eapply triple_conseq; [apply stop_triple|done|]. by intros _ w [??].
Qed.
End Whole.
