(* ===== verification/SmokeTestProps.v ===== *)
(** * What the smoke test does

    The properties of the smoke test, over every environment: whatever the plugin
    answers, the user types and the scheduler does. *)

From Stdlib Require Import SpecFloat.
From Stdlib Require Import Strings.Byte.
From S2P Require Import Prelude GoStd Types Writer Stream SmokeTest SmokeTestFacts.

(** ** The reader *)
Section Reader.
Context (json_Valid : bytes → bool) (unmarshal_map : bytes → option response).

Definition event_of (msg : bytes) : event :=
  match unmarshal_map (json_trim msg) with Some obj => Filed obj | None => Unparsable end.

Fixpoint valid_prefix (msgs : list bytes) : list bytes :=
  match msgs with [] => [] | msg :: msgs => if json_Valid msg then msg :: valid_prefix msgs else [] end.

Lemma readResponses_frames msgs d :
  Decoder_wf d → Decoder_err d = None → Decoder_r d = mkReader (mjoin (frame <$> msgs)) io_EOF →
  Forall (fits (length (Decoder_buf d))) msgs →
  readResponses json_Valid unmarshal_map (S (length msgs)) d = (event_of <$> valid_prefix msgs) ++ [StreamEnded].
Proof.
  revert d. induction msgs as [|msg msgs IH]; intros d Hwf Herr Hr Hfit.
  - destruct (More_end d Herr Hr) as (d' & Hm & He). cbn [readResponses length]. by rewrite Hm.
  - apply list.Forall_cons in Hfit as [Hmsg Hfit].
    destruct (More_frame d msg (mjoin (frame <$> msgs))) as (d1 & Hm & Hwf1 & He1 & Hc & Hlen & Hr1);
      [done|done|by rewrite Hr|done|].
    rewrite Hr in Hr1. specialize (IH d1 Hwf1 He1 Hr1). rewrite Hlen in IH.
    change (length (msg :: msgs)) with (S (length msgs)). remember (S (length msgs)) as n. cbn [readResponses].
    rewrite Hm. unfold Decoder_Raw. rewrite He1, Hc. cbn [valid_prefix]. destruct (json_Valid msg); [|done].
    cbn [fmap list_fmap app]. unfold event_of at 1. destruct (unmarshal_map (json_trim msg)); by rewrite IH.
Qed.
End Reader.

(** The reader files what the plugin framed: for messages within the size
    limit it files every JSON object, in order, skips other JSON values, and takes
    the end of the stream, or the first message that is no JSON, for the end of
    the plugin. *)
Theorem reader_files_messages (json_Valid : bytes → bool) (unmarshal_map : bytes → option response)
    (maxSize : nat) (msgs : list bytes) (Hfit : Forall (fits maxSize) msgs) :
  ∃ w, encode_all (NewEncoder [] (Z.of_nat maxSize)) msgs = (NewEncoder w (Z.of_nat maxSize), None) ∧
    readResponses json_Valid unmarshal_map (S (length msgs)) (NewDecoder (mkReader w io_EOF) maxSize) =
      (event_of unmarshal_map <$> valid_prefix json_Valid msgs) ++ [StreamEnded].
Proof.
  rewrite encode_all_fits by done. eexists. split; [done|].
  apply readResponses_frames; [done|done|done|cbn; by rewrite length_replicate].
Qed.

(** ** Waiting *)

(** Waiting for [expected] responses to a request returns after at most as
    many wake-ups as responses are missing, with [true] exactly when they have
    arrived; it goes on only while the plugin runs and responses are missing, and
    gives up only when the plugin has exited or a wake-up brought no response to
    the request. *)
Theorem waitForResponse_spec (env : Environ) (id expected : Z) (w : world) :
  ∃ k b, waitForResponseLocked env id expected w = Done (after env k w) b ∧
    (k ≤ Z.to_nat (expected - seen w id))%nat ∧
    (b = true ↔ (expected ≤ seen (after env k w) id)%Z) ∧
    (∀ i, (i < k)%nat → st_exited (w_st (after env i w)) = false ∧ (seen (after env i w) id < expected)%Z) ∧
    (b = false → st_exited (w_st (after env k w)) = true ∨
       ∃ j, k = S j ∧ (seen (after env k w) id ≤ seen (after env j w) id)%Z).
Proof. rewrite waitForResponseLocked_eq. by apply wait_rounds_spec. Qed.

(** The request is still unanswered after a list of other responses. *)
Lemma others_unseen env id evs : ∀ st, Forall (λ e, ∃ obj, e = Filed obj ∧ response_id env obj ≠ id) evs →
  count (foldl (happen env) st evs) id = count st id.
Proof.
  induction evs as [|e evs IH]; intros st Hf; [done|]. inversion_clear Hf as [|?? (obj & -> & Hid) Hf']. cbn [foldl happen].
  rewrite IH by done. assert (count (file_response env st obj) id =
    count (st <| st_responseCount := <[response_id env obj := wrap64 (count st (response_id env obj) + 1)]>
      (st_responseCount st) |>) id) as ->.
  { unfold file_response. by repeat case_match. }
  unfold count. cbn. by rewrite lookup_insert_ne.
Qed.

(** A response to another request counts as a time-out: if the first wake-up
    of the wait is due to such responses, the wait reports failure at once, long
    before 30 seconds have passed and whatever arrives next. *)
Theorem foreign_response_times_out (env : Environ) (id expected : Z) (w : world) :
  (seen w id < expected)%Z → st_exited (w_st w) = false →
  Forall (λ e, ∃ obj, e = Filed obj ∧ response_id env obj ≠ id) (env_events env (w_time w)) →
  waitForResponseLocked env id expected w = Done (elapse env w) false.
Proof.
  intros Hlt Hex Hf. rewrite waitForResponseLocked_eq, wait_rounds_eq, Hex.
  destruct (Z.ltb_spec (seen w id) expected); [|lia]. cbn [negb andb].
  destruct (Z.to_nat (expected - seen w id)) eqn:Hn; [lia|].
  assert (seen (elapse env w) id = seen w id) as -> by (apply others_unseen, Hf). by rewrite Z.leb_refl.
Qed.

(** ** Sessions *)

(** In every session the main goroutine does not panic, and what it has sent
    is the bootstrap first, then requests of the menu for the user, each with the
    next new ID and about jobs that the plugin itself has named, where a stream
    may be followed by its own cancellation.  Only when the bootstrap cannot be
    written nothing is sent. *)
Theorem session_transcript (env : Environ) (fuel rounds : nat) (user : string) :
  match session env fuel rounds (start user) with
  | Done w _ => w_sent w = [] ∨ ∃ n, st_requestID (w_st w) = wrap64 n ∧ transcript user (named env) n (w_sent w)
  | Panicked _ => False
  | Waiting => True
  end.
Proof.
  pose proof (session_triple env user fuel rounds (start user) (start_fresh env user)) as H.
  destruct (session env fuel rounds (start user)) as [w []| |]; [|done..].
  destruct H as [|(_ & n & Hid & Htr)]; [by left|right; eauto].
Qed.

(** C31: sessions do not hang: if streams pause at last, every command returns, for
    any number of rounds, to the end of the session. *)
Theorem session_returns (env : Environ) (fuel rounds : nat) (user : string) :
  pauses env fuel → ∃ w, session env fuel rounds (start user) = Done w tt.
Proof.
  intros Hp. pose proof (session_triple env user fuel rounds (start user) (start_fresh env user)) as H.
  pose proof (session_never_waits env fuel Hp rounds (start user)) as Hw.
  destruct (session env fuel rounds (start user)) as [w []| |]; [eauto|done..].
Qed.

(** ** A session

    Bootstrap, submission of a job, its output, the end. *)
Definition reply (id : Z) (rest : response) : event := Filed (("requestId", JFloat (float_of_Z id)) :: rest).

Definition demo_events (t : nat) : list event :=
  match t with
  | 3 => [reply 0 []]
  | 9 => [reply 1 [("jobs", JArray [JObject [("id", JString "j1")]])]]
  | 16 => [reply 2 [("complete", JBool false)]; reply 2 [("complete", JBool true)]]
  | _ => []
  end.

Definition demo_env : Environ := {|
  env_events := demo_events;
  env_write := λ _, true;
  env_line := λ t, match t with 5 => Some ("7" ++ nl) | 12 => Some ("11" ++ nl) | _ => Some "q" end%string;
  env_uint64 := λ _, 0%Z;
  env_int := λ _, 0%Z;
|}.

Lemma demo_pauses : pauses demo_env 2.
Proof.
  intros t. destruct (decide (t = 3 ∨ t = 9 ∨ t = 16)) as [Ht|Ht].
  - exists 1. split; [lia|]. destruct Ht as [->|[->| ->]]; by vm_compute.
  - exists 0. split; [lia|]. split; [|done]. rewrite Nat.add_0_r. unfold filed. cbn [env_events demo_env].
    assert (demo_events t = []) as ->; [|done]. do 17 (destruct t as [|t]; [first [done|lia]|]). done.
Qed.

Definition sent_types (w : world) : list (option value) := (λ m, m !! "messageType") <$> w_sent w.

Lemma session_returns_witness : ∃ w, session demo_env 2 5 (start "ada") = Done w tt ∧
  sent_types w = [Some (VInt msgBootstrap); Some (VInt msgSubmitJob); Some (VInt msgGetJobOutput)].
Proof.
  destruct (session_returns demo_env 2 5 "ada" demo_pauses) as [w Hw]. exists w. split; [exact Hw|].
  assert (match session demo_env 2 5 (start "ada") with
    | Done w' _ => sent_types w' = [Some (VInt msgBootstrap); Some (VInt msgSubmitJob); Some (VInt msgGetJobOutput)]
    | _ => False end) as H by (vm_compute; reflexivity).
  rewrite Hw in H. exact H.
Defined.

Lemma foreign_response_times_out_witness :
  let env := mkEnviron (λ t, match t with 0 => [reply 0 []] | 1 => [reply 1 []] | _ => [] end) (λ _, true) (λ _, None)
    (λ _, 0%Z) (λ _, 0%Z) in
  ∃ w, waitForResponseLocked env 1 1 (start "ada") = Done w false.
Proof.
  eexists. apply foreign_response_times_out; [vm_compute; reflexivity|reflexivity|].
  repeat constructor. eexists. split; [reflexivity|]. vm_compute. discriminate.
Defined.

Lemma reader_files_messages_witness :
  ∃ w, encode_all (NewEncoder [] (Z.of_nat 16)) [[x7b; x7d]; [x5b; x5d]; [x7b]] = (NewEncoder w (Z.of_nat 16), None) ∧
    readResponses (λ b, bool_decide (length b = 2)) (λ b, match b with [x7b; x7d] => Some [] | _ => None end) 4
      (NewDecoder (mkReader w io_EOF) 16) = [Filed []; Unparsable; StreamEnded].
Proof.
  destruct (reader_files_messages (λ b, bool_decide (length b = 2))
    (λ b, match b with [x7b; x7d] => Some [] | _ => None end) 16 [[x7b; x7d]; [x5b; x5d]; [x7b]]) as (w & H1 & H2).
  - repeat constructor; cbn; lia.
  - exists w. split; [exact H1|exact H2].
Defined.
