(* ===== verification/SmokeMain.v ===== *)
(** * The smoke test's process (src/cmd/smoketest/main.go, smoketest.go)

    From the command line to the end of the process: the arguments, the user, the
    pipes and the start of the plugin, the session, and the wait for the plugin to
    exit.  What the calls of the operating system return is a parameter; the calls
    that start and kill the plugin are recorded. *)

From Stdlib Require Import SpecFloat.
From S2P Require Import Prelude GoStd Types Writer Stream SmokeTest SmokeTestFacts SmokeTestProps.

(** What the calls return; whether the reader is done 30 seconds after the
    plugin's input was closed, and whether it is done once the plugin is killed. *)
Record Exec := mkExec {
  os_Getuid : Z;
  user_Lookup : string → option error;
  cmd_StdinPipe : option error;
  cmd_StdoutPipe : option error;
  cmd_Start : option error;
  reader_done_in_time : bool;
  reader_done_when_killed : bool;
}.

Inductive osCall := StartProcess (path : string) (args : list string) | KillProcess.

(** How the process ends: with an exit code; by a panic; or it is still running
    (the user may go on, or the reader is never done). *)
Inductive ending :=
| Exited (code : Z) (calls : list osCall) (w : world)
| Crashed (why : string)
| Running.

Section Main.
Context (env : Environ) (x : Exec) (fuel : nat).

(** [initialize]: the calls made, and [true] for a nil error. *)
Definition initialize (pluginPath : string) : Smoke (list osCall * bool) :=
  let args := plugin_args (os_Getuid x) in
  match cmd_StdinPipe x with
  | Some err => mret ([], false)
  | None =>
      match cmd_StdoutPipe x with
      | Some err => mret ([], false)
      | None =>
          match cmd_Start x with
          | Some err => mret ([StartProcess pluginPath args], false)
          | None =>
              ok ← bootstrap env;
              mret ([StartProcess pluginPath args], ok)
          end
      end
  end.

(** The select at the end of [stop]: the calls made, and whether it returns. *)
Definition stop_wait : list osCall * bool :=
  if reader_done_in_time x then ([], true) else ([KillProcess], reader_done_when_killed x).

(** The loop of [main], up to [rounds] requests, and its deferred [stop] up to the
    select: [true] while the loop goes on. *)
Definition loop_stop (rounds : nat) : Smoke bool :=
  going ← request_loop env fuel rounds;
  if (going : bool) then mret true else _ ← stop env; mret false.

(** [main], with up to [rounds] turns of its loop.  [os.Exit] runs no deferred
    calls; without arguments the usage message fails at [os.Args[0]]. *)
Definition main (rounds : nat) (args : list string) : ending :=
  match args with
  | [_; pluginPath; username] =>
      let w := start username in
      match user_Lookup x username with
      | Some err => Exited 1 [] w
      | None =>
          match initialize pluginPath w with
          | Panicked why => Crashed why
          | Waiting => Running
          | Done w (calls, false) => Exited 1 calls w
          | Done w (calls, true) =>
              match loop_stop rounds w with
              | Panicked why => Crashed why
              | Waiting => Running
              | Done w true => Running
              | Done w false =>
                  let '(more, returns) := stop_wait in
                  if returns then Exited 0 (calls ++ more) w else Running
              end
          end
      end
  | [] => Crashed index_out_of_range
  | _ => Exited 1 [] (start "")
  end.

(** ** Properties *)

Definition only_bootstrap (w : world) : Prop := w_sent w = [] ∨ w_sent w = [bootstrapReq].

(** The bootstrap returns; when it fails, it has sent at most its own message. *)
Lemma bootstrap_runs user w : fresh_start env user w →
  ∃ w' ok, bootstrap env w = Done w' ok ∧ if (ok : bool) then idle env user w' else only_bootstrap w'.
Proof.
  intros Hw. pose proof (bootstrap_triple env user w Hw) as Hidle. revert Hidle.
  assert (w_sent w = []) as Hs by apply Hw. unfold bootstrap, send, waitForResponse, mbind, Smoke_bind, lock. cbn.
  unfold encode. destruct (env_write env _); [|intros _; eexists _, false; split; [done|by left]].
  rewrite waitForResponseLocked_eq. set (w1 := elapse env _). intros Hidle.
  destruct (wait_rounds_spec env 0 1 (Z.to_nat (1 - seen w1 0)) w1 (seen w1 0)) as (k & b & Heq & _); [done..|].
  rewrite Heq in Hidle. exists (after env k w1), b. split; [exact Heq|]. destruct b; [done|]. right.
  destruct (after_undisturbed env k w1) as (_ & _ & -> & _). subst w1. cbn. by rewrite Hs.
Qed.

(** The loop and the first half of [stop]: the requests of the menu are sent, and
    the plugin's input is closed when the loop has ended. *)
Lemma loop_stop_triple user rounds : triple (idle env user) (loop_stop rounds)
  (λ going w, if (going : bool) then True else idle env user w ∧ w_stdin_closed w = true).
Proof.
  unfold loop_stop. eapply triple_bind; [apply request_loop_triple|]. intros [|]; [by apply triple_ret|].
  eapply triple_bind; [apply stop_triple|]. intros []. by apply triple_ret.
Qed.

(** It is still going on only after all [rounds] requests. *)
Lemma loop_stop_running rounds w : pauses env fuel →
  match loop_stop rounds w with
  | Waiting => False
  | Done w' true => request_loop env fuel rounds w = Done w' true
  | _ => True
  end.
Proof.
  intros Hp. pose proof (request_loop_never_waits env fuel Hp rounds w) as Hw. unfold loop_stop, mbind, Smoke_bind.
  by destruct (request_loop env fuel rounds w) as [? []| |].
Qed.

(** The process can start the plugin for a user. *)
Definition can_start (username : string) : Prop :=
  user_Lookup x username = None ∧ cmd_StdinPipe x = None ∧ cmd_StdoutPipe x = None ∧ cmd_Start x = None.

(** [initialize] returns; it is without error exactly when the plugin was started
    and answered the bootstrap. *)
Lemma initialize_runs user path : user_Lookup x user = None →
  ∃ w calls ok, initialize path (start user) = Done w (calls, ok) ∧
    if (ok : bool) then can_start user ∧ calls = [StartProcess path (plugin_args (os_Getuid x))] ∧
      bootstrap env (start user) = Done w true ∧ idle env user w
    else KillProcess ∉ calls ∧ only_bootstrap w.
Proof.
  intros Hu. unfold initialize, can_start.
  destruct (cmd_StdinPipe x) eqn:?, (cmd_StdoutPipe x) eqn:?, (cmd_Start x) eqn:?;
    try (eexists _, _, false; split; [reflexivity|]; split; [set_solver|by left]).
  destruct (bootstrap_runs user (start user) (start_fresh env user)) as (w & ok & Heq & Hok).
  unfold mbind, Smoke_bind. rewrite Heq. eexists w, _, ok. split; [reflexivity|].
  destruct ok; [done|]. split; [set_solver|done].
Qed.

(** C22: the smoke test's process.  Only without arguments, not even its own name,
    it panics.  Otherwise it exits with 1, having neither killed anything nor sent
    more than the bootstrap message; or with 0, for a known user, after it started
    the plugin at the given path, sent a transcript of the menu's requests, closed
    the plugin's input, and killed the plugin if it did not stop in time.  Where
    streams pause and a killed plugin is done, it goes on only as long as the user
    does. *)
Theorem smoke_main_spec (rounds : nat) (args : list string) :
  match main rounds args with
  | Crashed _ => args = []
  | Exited code calls w =>
      (code = 1%Z ∧ KillProcess ∉ calls ∧ only_bootstrap w) ∨
      (code = 0%Z ∧ ∃ arg0 path user n, args = [arg0; path; user] ∧ can_start user ∧
         calls = StartProcess path (plugin_args (os_Getuid x)) :: (if reader_done_in_time x then [] else [KillProcess]) ∧
         transcript user (named env) n (w_sent w) ∧ w_stdin_closed w = true)
  | Running => pauses env fuel → reader_done_in_time x || reader_done_when_killed x →
      ∃ arg0 path user w w', args = [arg0; path; user] ∧ can_start user ∧
        bootstrap env (start user) = Done w true ∧ request_loop env fuel rounds w = Done w' true
  end.
Proof.
  destruct args as [|arg0 [|path [|user [|]]]]; cbn [main]; [done| | | |]; try (left; split_and!; [done|set_solver|by left]).
  destruct (user_Lookup x user) eqn:Hu; [left; split_and!; [done|set_solver|by left]|].
  destruct (initialize_runs user path Hu) as (w & calls & ok & -> & Hok).
  destruct ok; [|left; by destruct Hok].
  destruct Hok as (Hstart & -> & Hboot & Hidle).
  pose proof (loop_stop_triple user rounds w Hidle) as Hloop. pose proof (loop_stop_running rounds w) as Hrun.
  destruct (loop_stop rounds w) as [w1 [|]|why|]; [|destruct Hloop as ((_ & n & _ & Htr) & Hin)|done|].
  - intros Hp _. specialize (Hrun Hp). by exists arg0, path, user, w, w1.
  - unfold stop_wait. destruct (reader_done_in_time x) eqn:Ht; [|destruct (reader_done_when_killed x) eqn:Hk];
      [right; split; [done|]; by exists arg0, path, user, n..|]. by intros _ [].
  - intros Hp _. by destruct (Hrun Hp).
Qed.
End Main.

(** ** A run

    The session of [demo_env], with a plugin that has to be killed. *)
Definition demo_exec : Exec := mkExec 1000 (λ user, if decide (user = "ada") then None else Some (ErrSentinel "unknown user")) None None None false true.

Example smoke_main_demo :
  match main demo_env demo_exec 2 5 ["smoketest"; "/bin/plugin"; "ada"] with
  | Exited 0 calls w => calls = [StartProcess "/bin/plugin" (plugin_args 1000); KillProcess] ∧
      sent_types w = [Some (VInt msgBootstrap); Some (VInt msgSubmitJob); Some (VInt msgGetJobOutput)]
  | _ => False
  end.
Proof. by vm_compute. Qed.
