(* ===== verification/SmokeJson.v ===== *)
(** * The messages of the smoke test in JSON (src/cmd/smoketest)

    What the smoke test writes for the maps of requests.go, what it reads into a
    map[string]any, and which request of the protocol each of its messages is. *)

From Stdlib Require Import Strings.Byte.
From S2P Require Import Prelude GoStd Types Writer Stream Rpc Communicator Json Codec Floats Rfc3339 AnyJson ApiJson RpcJson SmokeTest.

(** ** Writing requests *)
Section Requests.
Context `{!TimeZones}.

Definition value_json (v : value) : option json :=
  match v with
  | VInt z => c_enc c_int z
  | VString s => c_enc c_string s
  | VBool b => c_enc c_bool b
  | VStrings l => c_enc (c_list c_string) l
  | VVersion v => c_enc c_Version v
  | VJob j => c_enc c_Job j
  end.

(** json.Marshal on a map[string]any: the entries in the order of their keys. *)
Definition entries (msg : message) : list (string * value) := canon (map_to_list msg).
Definition message_members (l : list (string * value)) : option (list (string * json)) :=
  mapM (λ '(k, v), pair k <$> value_json v) l.
Definition message_json (msg : message) : option bytes :=
  m ← message_members (entries msg); Some (bytes_of (print (JsonObj m))).
End Requests.

(** ** Reading responses *)

(** json.Unmarshal into an any; a number out of the range of float64 is an error. *)
Fixpoint jany_of (d : doc) : option jany :=
  match d with
  | DNull => Some JNull
  | DBool b => Some (JBool b)
  | DNumber lit => JFloat <$> ParseFloat lit
  | DString _ s => Some (JString s)
  | DArray _ l => JArray <$> mapM jany_of l
  | DObject _ m => m ← mapM (λ '(k, d), pair k <$> jany_of d) m; Some (JObject (canon m))
  end.

(** Into a map[string]any that is nil. *)
Definition unmarshal_map (buf : bytes) : option response :=
  d ← parse (text_of buf);
  match d with
  | DObject _ m => canon <$> mapM (λ '(k, d), pair k <$> jany_of d) m
  | DNull => Some []
  | _ => None
  end.

Definition json_Valid (buf : bytes) : bool := json_valid (text_of buf).

(** ** The requests meant *)
Section Meaning.
Context (user : string).

Definition base_of (t id : Z) : BaseRequest := mkBaseRequest (Some t) (Some id).
Definition user_request (t id : Z) : BaseUserRequest := mkBaseUserRequest (base_of t id) user user.
Definition job_request (t id : Z) (job : string) : BaseJobRequest := mkBaseJobRequest (user_request t id) job "".
Definition state_request (id : Z) (job : string) (tags statuses : list string) : Request :=
  ReqJobState (mkJobStateRequest (job_request requestJob id job) (mkJobFilter tags None None statuses [])).
Definition stream_request (t id : Z) (job : string) (cancel : bool) : BaseJobStreamRequest :=
  mkBaseJobStreamRequest (job_request t id job) cancel.

Inductive means : message → Request → Prop :=
| mn_bootstrap :
    means bootstrapReq (ReqBootstrap (mkBootstrapRequest (base_of requestBootstrap 0) APIVersion))
| mn_cluster id : means (clusterInfoReq id user) (ClusterInfoRequest (user_request requestClusterInfo id))
| mn_all id : means (allJobsReq id user) (state_request id "*" [] [])
| mn_filtered id : means (filteredJobsReq id user) (state_request id "*" ["filter job"] [])
| mn_status id status : means (statusJobsReq id user status) (state_request id "*" [] [status])
| mn_job id job : means (getJobReq id job user) (state_request id job [] [])
| mn_submit id job :
    means (submitJobMsg id user job)
      (ReqSubmitJob (mkSubmitJobRequest (user_request requestSubmitJob id) (Some job)))
| mn_network id job :
    means (networkReqMsg id job user) (JobNetworkRequest (job_request requestJobNetwork id job))
| mn_control id job op :
    means (controlJobMsg id job user op)
      (ReqControlJob (mkControlJobRequest (job_request requestControlJob id job) op "" ""))
| mn_statuses id :
    means (jobStatusStreamReq id user) (JobStatusStreamRequest (stream_request requestJobStatus id "*" false))
| mn_cancel_statuses id :
    means (cancelJobStatusStreamReq id user) (JobStatusStreamRequest (stream_request requestJobStatus id "*" true))
| mn_output id job t :
    means (outputStreamReq id job user t)
      (ReqJobOutput (mkJobOutputRequest (stream_request requestJobOutput id job false) t))
| mn_cancel_output id job :
    means (cancelOutputStreamReq id job user)
      (ReqJobOutput (mkJobOutputRequest (stream_request requestJobOutput id job true) 0))
| mn_resource id job :
    means (resourceStreamReq id job user)
      (JobResourceUtilRequest (stream_request requestJobResourceUtil id job false))
| mn_cancel_resource id job :
    means (cancelResourceStreamReq id job user)
      (JobResourceUtilRequest (stream_request requestJobResourceUtil id job true)).
End Meaning.
