(* ===== verification/SmokeJsonFacts.v ===== *)
(** * The plugin reads what the smoke test writes

    Each message of the smoke test is written to JSON that the decoder of the
    protocol reads as the request it means. *)

From Stdlib Require Import Strings.Byte.
From S2P Require Import Prelude GoStd Types Writer Stream Rpc Communicator Json JsonFacts JsonParse Codec Floats Rfc3339 AnyJson ApiJson ApiJsonFacts RpcJson RpcJsonFacts SmokeTest SmokeTestFacts SmokeJson.

Section Values.
Context `{!TimeZones}.

Definition value_ok (v : value) : Prop :=
  match v with
  | VInt _ | VBool _ => True
  | VString s => utf8 s
  | VStrings l => Forall utf8 l
  | VVersion v => Version_ok v
  | VJob j => Job_ok j ∧ ∀ v, c_enc c_Job j = Some v → doc_depth (doc_of v) < maxNestingDepth
  end.

(** What the decoder makes of the text of a value. *)
Definition value_reads (v : value) (d : doc) : Prop :=
  match v with
  | VInt z => d = DNumber (strconv_Itoa z)
  | VString s => ∃ raw, d = DString raw s
  | VBool b => d = DBool b
  | VStrings l => c_dec (c_list c_string) d [] = Some l
  | VVersion v => c_dec c_Version d (mkVersion 0 0 0 0 "") = Some v
  | VJob j => c_dec (c_ptr c_Job) d None = Some (Some j)
  end.

Lemma strings_depth l v : c_enc (c_list c_string) l = Some v → doc_depth (doc_of v) ≤ 1.
Proof.
  cbn [c_enc c_list]. destruct (mapM (c_enc c_string) l) as [vs|] eqn:E; [|done]. intros [= <-]. rewrite arr_depth. apply le_n_S.
  apply mapM_Some in E. induction E as [|s v l vs Hs _ IH]; [done|]. cbn in *. injection Hs as <-. cbn. lia.
Qed.

Lemma version_depth v j : c_enc c_Version v = Some j → doc_depth (doc_of j) ≤ 1.
Proof.
  destruct v as [a b c d r]. cbn. repeat case_match; cbn; repeat case_match; try done; intros [= <-]; cbn; lia.
Qed.

Lemma depth_le_max n : n ≤ 9 → n < maxNestingDepth.
Proof. intros Hn. apply (Nat.le_lt_trans _ 9 _ Hn), Nat.ltb_lt. vm_compute. reflexivity. Qed.

Lemma value_json_reads v : value_ok v → ∃ j, value_json v = Some j ∧ json_ok j = true ∧
  doc_depth (doc_of j) < maxNestingDepth ∧ value_reads v (doc_of j).
Proof.
  destruct v as [z|s|b|l|ver|job]; cbn [value_ok value_json value_reads].
  - intros _. eexists. split_and!; [done|apply Itoa_ok|apply depth_le_max; cbn; lia|done].
  - intros Hs. eexists. split_and!; [done|done|apply depth_le_max; cbn; lia|]. cbn. rewrite repair_valid by done. eauto.
  - intros _. eexists. split_and!; [done|done|apply depth_le_max; cbn; lia|done].
  - intros Hl. pose proof (c_list_lawful _ _ c_string_lawful) as Hc. destruct (enc_total _ _ Hc l Hl) as [j Hj].
    pose proof (depth_le_max _ (Nat.le_trans _ _ 9 (strings_depth l j Hj) ltac:(lia))) as Hd.
    exists j. split_and!; [done|by eapply (enc_ok _ _ Hc)|done|]. eapply (dec_enc _ _ Hc); [done..|lia].
  - intros Hv. pose proof c_Version_lawful as Hc. destruct (enc_total _ _ Hc ver Hv) as [j Hj].
    pose proof (depth_le_max _ (Nat.le_trans _ _ 9 (version_depth ver j Hj) ltac:(lia))) as Hd.
    exists j. split_and!; [done|by eapply (enc_ok _ _ Hc)|done|]. eapply (dec_enc _ _ Hc); [done..|lia].
  - intros [Hj Hd]. assert (lawful (c_ptr c_Job) (ptr_wf Job_ok)) as Hc by eauto with codec.
    destruct (enc_total _ _ Hc (Some job) Hj) as [j Hj']. specialize (Hd j Hj'). exists j.
    split_and!; [done|by eapply (enc_ok _ _ Hc (Some job))|done|]. apply (dec_enc _ _ Hc (Some job)); [done..|lia].
Qed.

(** The members of a message, as they are read. *)
Lemma message_members_read l :
  Forall (λ kv, utf8 kv.1 ∧ value_ok kv.2) l → ∃ m ds, message_members l = Some m ∧ json_ok (JsonObj m) = true ∧
    doc_depth (doc_of (JsonObj m)) ≤ maxNestingDepth ∧ doc_members m = zip l.*1 ds ∧ Forall2 value_reads l.*2 ds.
Proof.
  intros Hl. cut (∃ m ds, message_members l = Some m ∧ json_ok (JsonObj m) = true ∧
    S (max_list (doc_depth ∘ doc_of ∘ snd <$> m)) ≤ maxNestingDepth ∧ doc_members m = zip l.*1 ds ∧ Forall2 value_reads l.*2 ds).
  { intros (m & ds & ? & ? & ? & ? & ?). exists m, ds. rewrite obj_depth. done. }
  induction Hl as [|[k v] l [Hk Hv] _ (m & ds & Hm & Hok & Hd & Hmem & Hr)].
  { exists [], []. split_and!; try done. pose proof (depth_le_max 0). cbn. lia. }
  destruct (value_json_reads v Hv) as (j & Hj & Hjok & Hjd & Hjr).
  exists ((k, j) :: m), (doc_of j :: ds). unfold message_members in *. cbn [fst snd] in *. split_and!.
  - cbn [mapM]. rewrite Hj, Hm. done.
  - cbn in *. by rewrite Hjok.
  - cbn in *. lia.
  - unfold doc_members in *. cbn [fmap list_fmap zip]. cbn [fmap] in Hmem. rewrite Hmem, repair_valid by done. done.
  - by constructor.
Qed.

(** ** Messages that can be sent *)
Definition sendable (msg : message) : Prop :=
  map_Forall (λ k v, value_ok v ∧ ∀ z, v = VInt z → if decide (k = "requestId") then uint64_range z else int_range z) msg.

Lemma entries_perm (msg : message) : entries msg ≡ₚ map_to_list msg.
Proof. apply canon_perm, NoDup_fst_map_to_list. Qed.

Lemma entries_ok msg l :
  sendable msg → entries msg = l → Forall (λ kv, utf8 kv.1) l → Forall (λ kv, utf8 kv.1 ∧ value_ok kv.2) l.
Proof.
  intros Hs <- Hk. rewrite list.Forall_forall in *. intros [k v] Hin. split; [by apply (Hk (k, v))|].
  rewrite entries_perm in Hin. apply elem_of_map_to_list in Hin. by apply (Hs k v).
Qed.

Context (error_text : bytes → string).
#[local] Existing Instance json_requests.

(** A message whose entries are read as the fields of [req]. *)
Lemma understood msg l rt id req0 req :
  sendable msg → entries msg = l → Forall (λ kv, utf8 kv.1) l →
  Request_Base req = base_of rt id → requestForType rt = inl req0 →
  (∀ raw ds, Forall2 value_reads l.*2 ds → dec_request (DObject raw (zip l.*1 ds)) req0 = Some req) →
  ∃ text, message_json msg = Some text ∧ @RequestFromJSON (json_requests error_text) text = Ret (inl req).
Proof.
  intros Hs Hl Hk Hbase Hrt Hdec. destruct (message_members_read l (entries_ok msg l Hs Hl Hk)) as (m & ds & Hm & Hjok & Hd & Hmem & Hr).
  unfold message_json. rewrite Hl, Hm. eexists. split; [done|].
  unfold RequestFromJSON. cbn [unmarshal_base unmarshal_request json_requests]. rewrite text_of_bytes_of.
  rewrite parse_print by done. cbn [mbind option_bind].
  change (doc_of (JsonObj m)) with (DObject (print (JsonObj m)) (doc_members m)). rewrite Hmem. specialize (Hdec (print (JsonObj m)) ds Hr). pose proof (dec_request_base _ _ _ Hdec) as Hb.
  rewrite (requestForType_zero _ _ Hrt), Hbase in Hb. unfold dec_base. rewrite Hb.
  generalize dependent (DObject (print (JsonObj m)) (zip l.*1 ds)). intros d Hdec _. cbn -[dec_request].
  destruct (rt =? requestHeartbeat)%Z eqn:E.
  { unfold requestForType in Hrt. by rewrite E in Hrt. }
  by rewrite Hrt, Hdec.
Qed.

(** ** Each message *)
Lemma ints_sendable msg id t :
  sendable msg → msg !! "requestId" = Some (VInt id) → msg !! "messageType" = Some (VInt t) → uint64_range id ∧ int_range t.
Proof. intros Hs Hid Ht. split; [by apply (Hs _ _ Hid)|by apply (Hs _ _ Ht)]. Qed.

Ltac reads :=
  repeat match goal with
    | H : Forall2 _ [] ?ds |- _ => apply Forall2_nil_inv_l in H; subst ds
    | H : Forall2 _ (_ :: _) ?ds |- _ => apply Forall2_cons_inv_l in H as (? & ? & ? & ? & ?); subst ds
    | H : value_reads (VInt _) ?d |- _ => cbn in H; subst d
    | H : value_reads (VString _) ?d |- _ => destruct H as [? ->]
    | H : value_reads (VBool _) ?d |- _ => cbn in H; subst d
    end.

(** The fields, by computation but for the integers and the jobs. *)
Ltac fields := lazy -[ParseUint strconv_Itoa strconv_Atoi c_Job c_Version c_list].
Ltac read_fields :=
  repeat match goal with H : value_reads _ _ |- _ => lazy -[c_Job c_Version c_list] in H; revert H end; fields;
  repeat match goal with
    | |- context [ParseUint (strconv_Itoa ?z)] => rewrite (uint64_Itoa z) by assumption
    | |- context [strconv_Atoi (strconv_Itoa ?z)] => rewrite (Atoi_Itoa z) by assumption
    | |- context [strconv_Atoi ?s] => let v := eval vm_compute in (strconv_Atoi s) in change (strconv_Atoi s) with v
    | |- context [ParseUint ?s] => let v := eval vm_compute in (ParseUint s) in change (ParseUint s) with v
    end; fields; repeat (let E := fresh "E" in intros E; try rewrite E); reflexivity.

Ltac understand Hs :=
  eapply understood;
    [exact Hs|vm_compute; reflexivity|struct_fields; reflexivity|reflexivity|reflexivity|
     intros raw ds Hds; cbn [fmap list_fmap fst snd] in Hds; reads; clear Hs].

Lemma means_understood user msg req : means user msg req → sendable msg →
  ∃ text, message_json msg = Some text ∧ @RequestFromJSON (json_requests error_text) text = Ret (inl req).
Proof.
  intros Hm Hs. destruct Hm;
    try (assert (uint64_range id) as Hid by by apply (Hs "requestId" _ eq_refl));
    try (assert (int_range op) as Hop by by apply (Hs "operation" _ eq_refl));
    try (assert (int_range t) as Ht by by apply (Hs "outputType" _ eq_refl));
    understand Hs.
  all: read_fields.
Qed.

(** ** Sessions *)
Lemma menu_job_ok user job : utf8 user → job ∈ menu_jobs user → Job_ok job.
Proof.
  intros Hu Hjob. unfold menu_jobs in Hjob.
  repeat (apply elem_of_cons in Hjob as [->|Hjob]; [by split; repeat constructor|]). by apply elem_of_nil in Hjob.
Qed.

Lemma menu_job_depth user job v : job ∈ menu_jobs user → c_enc c_Job job = Some v → doc_depth (doc_of v) ≤ 9.
Proof.
  intros Hjob. unfold menu_jobs in Hjob.
  repeat (apply elem_of_cons in Hjob as [->|Hjob];
    [intros Hv; destruct user; vm_compute in Hv; injection Hv as <-; apply Nat.leb_le; lazy; reflexivity|]).
  by apply elem_of_nil in Hjob.
Qed.

Section Sessions.
Context (user : string) (known : string → Prop).
Context (user_utf8 : utf8 user) (known_utf8 : ∀ job, known job → utf8 job).

(** Entry by entry. *)
Ltac sendable_entries :=
  repeat (apply map_Forall_insert_2; [split; [|intros ? [= <-]] |]);
  match goal with |- map_Forall _ ∅ => apply map_Forall_empty | _ => idtac end;
  first [done | by apply known_utf8 | by repeat constructor | assumption | idtac].

Lemma small_int z : (0 ≤ z ≤ 9)%Z → int_range z.
Proof. intros Hz. apply andb_true_iff. unfold int64_min, int64_max. rewrite !Z.leb_le. lia. Qed.

Lemma request_sendable id msg : request_of user known id msg → uint64_range id → sendable msg.
Proof.
  intros Hr Hid. destruct Hr; sendable_entries; try (apply small_int; lia).
  - constructor; [|done]. repeat (apply elem_of_cons in H0 as [->|H0]; [done|]). by apply elem_of_nil in H0.
  - split; [by eapply menu_job_ok|]. intros v Hv. eapply depth_le_max, menu_job_depth; eauto.
Qed.

Lemma request_means id msg : request_of user known id msg → ∃ req, means user msg req.
Proof.
  destruct 1; eexists;
    [apply mn_cluster|apply mn_all|apply mn_filtered|apply mn_status|apply mn_job|apply mn_submit|apply mn_network|
     apply mn_control|apply mn_statuses|apply mn_output|apply mn_resource].
Qed.

(** A cancellation has nothing that its stream has not. *)
Lemma cancel_sendable stream msg : cancel_of user stream msg → sendable stream → sendable msg.
Proof.
  intros Hc Hs. assert (∀ k z, stream !! k = Some (VInt z) → if decide (k = "requestId") then uint64_range z else int_range z) as Hz.
  { intros k z Hk. by apply (Hs k _ Hk). }
  destruct Hc; pose proof (Hz "requestId" id eq_refl : uint64_range id) as Hid;
    try (assert (utf8 job) as Hj by by apply (Hs "jobId" _ eq_refl)); sendable_entries.
Qed.

Lemma cancel_means stream msg : cancel_of user stream msg → ∃ req, means user msg req.
Proof. destruct 1; eexists; [apply mn_cancel_statuses|apply mn_cancel_output|apply mn_cancel_resource]. Qed.

Lemma bootstrap_sendable : sendable bootstrapReq.
Proof. sendable_entries. Qed.

Lemma transcript_sendable n sent :
  transcript user known n sent → Forall (λ msg, sendable msg ∧ ∃ req, means user msg req) sent.
Proof.
  induction 1 as [|n sent _ IH|n sent msg _ IH Hr|n sent stream msg _ IH Hc].
  - apply Forall_singleton. split; [apply bootstrap_sendable|]. eexists. apply mn_bootstrap.
  - done.
  - apply Forall_app. split; [done|]. apply Forall_singleton. split; [|by eapply request_means].
    eapply request_sendable; [done|apply wrap64_range].
  - apply Forall_app in IH as [IH [[Hs ?] _]%list.Forall_cons]. apply Forall_app. split; [done|].
    apply Forall_cons_2; [done|]. apply Forall_singleton. split; [by eapply cancel_sendable|by eapply cancel_means].
Qed.

(** All of a session is written, and read as what it means. *)
Lemma transcript_understood n sent :
  transcript user known n sent →
  ∃ texts reqs, mapM message_json sent = Some texts ∧ Forall2 (means user) sent reqs ∧
    Forall2 (λ text req, @RequestFromJSON (json_requests error_text) text = Ret (inl req)) texts reqs.
Proof.
  intros Hall%transcript_sendable. clear n. induction Hall as [|msg sent [Hs [req Hm]] _ (texts & reqs & IH & Hr & Ht)].
  { exists [], []. by repeat constructor. }
  destruct (means_understood user msg req Hm Hs) as (text & Htext & Hreq).
  exists (text :: texts), (req :: reqs). split_and!; [|by constructor..]. cbn [mapM]. by rewrite Htext, IH.
Qed.
End Sessions.
End Values.
