(* ===== verification/SmokeReader.v ===== *)
(** * The smoke test reads what the plugin writes

    A response comes out of the reader as an object with the members of the
    response; it is filed under the request ID it carries, as long as that is
    below 2^53 and survives being a float64, and its jobs are found. *)

From Stdlib Require Import SpecFloat.
From Stdlib Require Import Strings.Byte.
From S2P Require Import Prelude GoStd Types Writer Stream Rpc Json JsonFacts JsonParse JsonText Codec Floats Rfc3339 AnyJson ApiJson ApiJsonFacts RpcJson RpcJsonFacts RpcResponses SmokeTest SmokeTestFacts SmokeTestProps SmokeJson SmokeJsonFacts.

(** ** Integers as float64 *)
Lemma trunc_small z : (Z.abs z < 2 ^ 53)%Z → float_trunc (float_of_Z z) = z ∧ is_finite (float_of_Z z) = true.
Proof.
  destruct z as [|p|p]; [done|..]; intros Hp.
  - change (float_of_Z (Zpos p)) with (binary_round prec emax false p 0).
    destruct (small_exact false p Hp) as (m & e & -> & He & Hm). split; [|done]. cbn. rewrite Hm.
    destruct (Z.leb_spec 0 e); [by replace e with 0%Z by lia; cbn; lia|]. apply Z.div_mul. apply Z.pow_nonzero; lia.
  - change (float_of_Z (Zneg p)) with (binary_round prec emax true p 0).
    destruct (small_exact true p Hp) as (m & e & -> & He & Hm). split; [|done]. cbn. rewrite Hm.
    destruct (Z.leb_spec 0 e); [by replace e with 0%Z by lia; cbn; lia|]. rewrite Z.div_mul; [done|]. apply Z.pow_nonzero; lia.
Qed.

Lemma to_uint64_small env z : (0 ≤ z < 2 ^ 53)%Z → to_uint64 env (float_of_Z z) = z.
Proof.
  intros Hz. destruct (trunc_small z) as [Ht Hf]; [lia|]. unfold to_uint64. rewrite Ht, Hf.
  destruct (Z.leb_spec 0 z); [|lia]. destruct (Z.ltb_spec z (2 ^ 64)); [done|lia].
Qed.

(** ** Documents as any *)

(** All numbers are in the range of float64. *)
Fixpoint numbers_fit (d : doc) : bool :=
  match d with
  | DNumber lit => bool_decide (is_Some (ParseFloat lit))
  | DArray _ l => forallb numbers_fit l
  | DObject _ m => forallb (λ '(_, d), numbers_fit d) m
  | _ => true
  end.

Section doc_ind.
Variable P : doc → Prop.
Hypothesis Hnull : P DNull.
Hypothesis Hbool : ∀ b, P (DBool b).
Hypothesis Hnum : ∀ lit, P (DNumber lit).
Hypothesis Hstr : ∀ raw s, P (DString raw s).
Hypothesis Harr : ∀ raw l, Forall P l → P (DArray raw l).
Hypothesis Hobj : ∀ raw m, Forall (P ∘ snd) m → P (DObject raw m).

Fixpoint doc_nested_ind (d : doc) : P d :=
  match d with
  | DNull => Hnull
  | DBool b => Hbool b
  | DNumber lit => Hnum lit
  | DString raw s => Hstr raw s
  | DArray raw l =>
      Harr raw l ((fix go l := match l return Forall P l with
                               | [] => Forall_nil_2 _
                               | d :: l => Forall_cons_2 _ _ _ (doc_nested_ind d) (go l)
                               end) l)
  | DObject raw m =>
      Hobj raw m ((fix go m := match m return Forall (P ∘ snd) m with
                               | [] => Forall_nil_2 _
                               | kd :: m => Forall_cons_2 _ _ _ (doc_nested_ind kd.2) (go m)
                               end) m)
  end.
End doc_ind.

Definition jany_member (kd : string * doc) : option (string * jany) := let '(k, d) := kd in pair k <$> jany_of d.

Lemma jany_members_total m :
  Forall ((λ d, numbers_fit d = true → is_Some (jany_of d)) ∘ snd) m → forallb (λ '(_, d), numbers_fit d) m = true →
  is_Some (mapM jany_member m).
Proof.
  induction 1 as [|[k d] m Hd _ IH]; [by eexists|]. cbn. intros [H1 H2]%andb_true_iff.
  destruct (Hd H1) as [a Ha]. cbn in Ha. destruct (IH H2) as [l Hl]. rewrite Ha, Hl. by eexists.
Qed.

Lemma jany_total d : numbers_fit d = true → is_Some (jany_of d).
Proof.
  induction d as [|b|lit|raw s|raw l IH|raw m IH] using doc_nested_ind; cbn; try by eexists.
  - intros [f ->]%bool_decide_eq_true. by eexists.
  - intros H. assert (is_Some (mapM jany_of l)) as [a ->]; [|by eexists].
    induction IH as [|d l Hd _ IHl]; [by eexists|]. cbn in *. apply andb_true_iff in H as [H1 H2].
    destruct (Hd H1) as [a ->]. destruct (IHl H2) as [l' ->]. by eexists.
  - intros H. destruct (jany_members_total m IH H) as [l Hl]. unfold jany_member in Hl. rewrite Hl. by eexists.
Qed.

(** A member of an object, found by its name. *)
Lemma field_elem (obj : response) k a : NoDup obj.*1 → (k, a) ∈ obj → field obj k = Some a.
Proof.
  induction obj as [|[k' a'] obj IH]; [by intros _ ?%elem_of_nil|]. cbn. intros [Hk Hnd]%list.NoDup_cons [[= -> ->]|Hin]%elem_of_cons.
  - by rewrite decide_True.
  - rewrite decide_False; [by apply IH|]. intros ->. destruct Hk. by apply (list_elem_of_fmap_2 fst _ (k, a)).
Qed.

Lemma field_none (obj : response) k : k ∉ obj.*1 → field obj k = None.
Proof.
  induction obj as [|[k' a'] obj IH]; [done|]. cbn. intros [Hk Hin]%not_elem_of_cons.
  rewrite decide_False by done. by apply IH.
Qed.

Lemma mapM_jany_keys m l : mapM jany_member m = Some l → l.*1 = m.*1.
Proof.
  revert l. induction m as [|[k d] m IH]; intros l; cbn; [by intros [= <-]|]. destruct (jany_of d) as [a|]; [|done]. cbn.
  destruct (mapM jany_member m) as [l'|]; [|done]. intros [= <-]. cbn. by rewrite (IH l').
Qed.

(** The object of a document: member by member. *)
Lemma object_of m :
  NoDup m.*1 → forallb (λ '(_, d), numbers_fit d) m = true →
  ∃ obj, (canon <$> mapM jany_member m) = Some obj ∧
    (∀ k d a, (k, d) ∈ m → jany_of d = Some a → field obj k = Some a) ∧
    (∀ k, k ∉ m.*1 → field obj k = None).
Proof.
  intros Hnd Hn. destruct (jany_members_total m) as [l Hl]; [|done|].
  { apply Forall_true. intros kd. exact (jany_total kd.2). }
  pose proof (mapM_jany_keys m l Hl) as Hk. rewrite Hl. eexists. split; [done|].
  assert (NoDup l.*1) as Hnl by by rewrite Hk. assert (canon l ≡ₚ l) as Hp by by apply canon_perm.
  assert (NoDup (canon l).*1) as Hnc by by rewrite Hp. split.
  - intros k d a Hin Ha. apply field_elem; [done|]. rewrite Hp. apply mapM_Some in Hl.
    apply list_elem_of_lookup in Hin as [i Hi]. destruct (Forall2_lookup_l _ _ _ _ _ Hl Hi) as (ka & Hka & E).
    cbn in E. rewrite Ha in E. injection E as <-. by apply list_elem_of_lookup_2 with i.
  - intros k Hin. apply field_none. by rewrite Hp, Hk.
Qed.

(** ** Responses as objects *)

(** A printed object is its own value: there is no white space around it. *)
Lemma bytes_of_app s t : bytes_of (s +:+ t) = bytes_of s ++ bytes_of t.
Proof.
  induction s as [|c s IH]; [done|]. change (bytes_of (String c s)) with (byte_of_ascii c :: bytes_of s).
  change (String c s +:+ t) with (String c (s +:+ t)).
  change (bytes_of (String c (s +:+ t))) with (byte_of_ascii c :: bytes_of (s +:+ t)). by rewrite IH.
Qed.

Lemma trim_printed m : json_trim (bytes_of (print (JsonObj m))) = bytes_of (print (JsonObj m)).
Proof.
  unfold print. rewrite print_obj. change (RAscii "{"%char :: ?l) with ([RAscii "{"%char] ++ l).
  rewrite !encode_app, !bytes_of_app. change (bytes_of (encode_utf8 [RAscii "{"%char])) with [x7b].
  change (bytes_of (encode_utf8 [RAscii "}"%char])) with [x7d].
  unfold json_trim. cbn [app skip_space json_space]. rewrite !reverse_cons, !reverse_app.
  change (reverse [x7d]) with [x7d]. cbn [app skip_space json_space].
  rewrite reverse_cons, !reverse_app, !reverse_involutive. done.
Qed.

(** What json.Unmarshal makes of a printed object. *)
Lemma unmarshal_printed m :
  json_ok (JsonObj m) = true → doc_depth (doc_of (JsonObj m)) ≤ maxNestingDepth →
  json_Valid (bytes_of (print (JsonObj m))) = true ∧
  unmarshal_map (bytes_of (print (JsonObj m))) = canon <$> mapM jany_member (doc_members m).
Proof.
  intros Hok Hd. unfold json_Valid, json_valid, unmarshal_map. rewrite text_of_bytes_of, parse_print by done. done.
Qed.

(** Names are those of fields. *)
Lemma enc_members_names {R} (fs : list (Codec.field R)) r m :
  enc_members fs r = Some m → m.*1 `sublist_of` (f_name <$> fs).
Proof.
  revert m. induction fs as [|f fs IH]; intros m; [by intros [= <-]|].
  intros (v & m' & _ & Hm & ->)%enc_members_cons. cbn. destruct v; [by apply sublist_skip, IH|by apply sublist_cons, IH].
Qed.

Lemma doc_members_keys m : forallb utf8_Valid m.*1 = true → (doc_members m).*1 = m.*1.
Proof.
  induction m as [|[k v] m IH]; [done|]. cbn. intros [Hk Hm]%andb_true_iff. rewrite repair_valid by done. f_equal. by apply IH.
Qed.

Lemma names_of_members {R} (fs : list (Codec.field R)) r m :
  names_ok fs = true → enc_members fs r = Some m →
  (doc_members m).*1 = m.*1 ∧ NoDup m.*1.
Proof.
  intros [Hnd%bool_decide_eq_true Hu]%andb_true_iff Hs%enc_members_names. split.
  - apply doc_members_keys, forallb_Forall_iff, list.Forall_forall. intros k Hk. pose proof (elem_of_sublist _ _ _ Hk Hs) as (f & -> & Hf)%list_elem_of_fmap.
    apply forallb_Forall_iff in Hu. rewrite list.Forall_forall in Hu. by apply Hu.
  - by eapply sublist_NoDup.
Qed.

Section Responses.
Context `{!TimeZones}.

Lemma response_names resp m : response_members resp = Some m → (doc_members m).*1 = m.*1 ∧ NoDup m.*1.
Proof. destruct resp; cbn [response_members]; apply names_of_members; vm_compute; reflexivity. Qed.

(** The header comes first. *)
Definition base_members (b : responseBase) : list (string * json) :=
  [("messageType", JsonNum (strconv_Itoa (responseBase_MessageType b)));
   ("requestId", JsonNum (strconv_Itoa (responseBase_RequestID b)));
   ("responseId", JsonNum (strconv_Itoa (responseBase_ResponseID b)))].

Lemma enc_base {R} (p : R → responseBase) `{!Setter p} (fs : list (Codec.field R)) r m :
  enc_members (embed p responseBase_fields ++ fs) r = Some m → ∃ rest, m = base_members (p r) ++ rest ∧ enc_members fs r = Some rest.
Proof. cbn. destruct (enc_members fs r) as [rest|]; [|done]. cbn. intros [= <-]. by exists rest. Qed.

Lemma base_no_jobs b (rest : list (string * json)) : "jobs" ∉ rest.*1 → "jobs" ∉ (base_members b ++ rest).*1.
Proof. intros Hr. cbn. by rewrite !not_elem_of_cons. Qed.

(** The members behind the header. *)
Lemma response_head resp m :
  response_members resp = Some m → ∃ rest, m = base_members (Response_Base resp) ++ rest ∧
    match resp with
    | RespJobState r => ∃ v, c_enc (c_slice c_Job) (JobStateResponse_Jobs r) = Some v ∧ rest = [("jobs", v)]
    | _ => "jobs" ∉ rest.*1
    end.
Proof.
  destruct resp; cbn [response_members Response_Base]; intros Hm.
  1: { by exists []; injection Hm as <-; split; [|apply not_elem_of_nil]. }
  all: apply enc_base in Hm as (rest & -> & Hr); exists rest; split; [done|].
  all: try (apply enc_members_names in Hr; intros Hin; apply (elem_of_sublist _ _ _ Hin) in Hr; revert Hr;
            apply (bool_decide_eq_false_1 (_ ∈ _)); vm_compute; reflexivity).
  apply enc_members_cons in Hr as (v & m' & Hv & [= <-] & ->). cbn [f_enc field_of andb f_name] in Hv |- *.
  destruct (c_enc _ _) as [j|] eqn:E; [|done]. injection Hv as <-. by exists j.
Qed.

(** ** Jobs in a response *)
Lemma job_object j v :
  Job_ok j → c_enc c_Job j = Some v → numbers_fit (doc_of v) = true →
  ∃ obj, jany_of (doc_of v) = Some (JObject obj) ∧ field obj "id" = Some (JString (Job_ID j)).
Proof.
  intros Hj Hv Hn. assert (utf8 (Job_ID j)) as Hid. { pose proof (ok_strings j Hj) as Hs. by apply list.Forall_cons in Hs as [? _]. }
  cbn [c_enc c_Job c_struct] in Hv. destruct (enc_members Job_fields j) as [m|] eqn:E; [|done]. injection Hv as <-.
  destruct (names_of_members _ _ _ Job_names E) as [Hk Hnd].
  apply enc_members_cons in E as (v & m' & [= <-] & _ & ->). cbn [f_name field_of] in *.
  destruct (object_of (doc_members (("id", JsonStr (Job_ID j)) :: m'))) as (obj & Hobj & Hin & _); [by rewrite Hk|done|].
  exists obj. split.
  - change (jany_of (doc_of (JsonObj ?m))) with (l ← mapM jany_member (doc_members m); Some (JObject (canon l))).
    destruct (mapM jany_member _) as [l|]; [|done]. by injection Hobj as <-.
  - apply (Hin _ (DString (print (JsonStr (Job_ID j))) (Job_ID j))); [|done].
    cbn [doc_members fmap list_fmap]. cbn [doc_of]. rewrite (repair_valid (Job_ID j)) by done. by left.
Qed.

(** The job ID of an element, as the reader looks for it. *)
Definition job_id (j : jany) : option string :=
  match j with
  | JObject m => match field m "id" with Some (JString id) => Some id | _ => None end
  | _ => None
  end.

Lemma jobs_objects jobs v :
  Forall Job_ok jobs → c_enc (c_list c_Job) jobs = Some v → numbers_fit (doc_of v) = true →
  ∃ l, jany_of (doc_of v) = Some (JArray l) ∧ omap job_id l = Job_ID <$> jobs.
Proof.
  intros Hjobs Hv Hn. cbn [c_enc c_list] in Hv. destruct (mapM (c_enc c_Job) jobs) as [vs|] eqn:E; [|done]. injection Hv as <-.
  cut (∃ l, mapM jany_of (doc_of <$> vs) = Some l ∧ omap job_id l = Job_ID <$> jobs).
  { intros (l & Hl & Hids). exists l. split; [|done]. cbn. by rewrite Hl. }
  cbn in Hn. apply mapM_Some in E. revert Hn. induction E as [|j v jobs vs Hv _ IH]; cbn; intros Hn; [by exists []|].
  apply andb_true_iff in Hn as [Hn1 Hn2]. apply list.Forall_cons in Hjobs as [Hj Hjobs].
  destruct (job_object j v Hj Hv Hn1) as (obj & -> & Hid). destruct (IH Hjobs Hn2) as (l & -> & Hids).
  exists (JObject obj :: l). split; [done|]. cbn. rewrite Hid. by rewrite Hids.
Qed.

Definition response_job_ids (resp : Response) : list string :=
  match resp with RespJobState r => Job_ID <$> default [] (JobStateResponse_Jobs r) | _ => [] end.

(** ** What the reader makes of a response *)
Definition Response_fits (resp : Response) : Prop :=
  (0 ≤ responseBase_RequestID (Response_Base resp) < 2 ^ 53)%Z ∧
  ∀ m, response_members resp = Some m →
    numbers_fit (doc_of (JsonObj m)) = true ∧ doc_depth (doc_of (JsonObj m)) ≤ maxNestingDepth.

Lemma response_object env resp :
  Response_ok resp → Response_fits resp → ∃ text obj,
    response_json resp = Some text ∧ json_trim text = text ∧ json_Valid text = true ∧ unmarshal_map text = Some obj ∧
    response_id env obj = responseBase_RequestID (Response_Base resp) ∧ response_jobs obj = response_job_ids resp.
Proof.
  intros Hok [Hid Hfit]. destruct (response_members_ok resp Hok) as (m & Hm & Hjok). destruct (Hfit m Hm) as [Hn Hd].
  destruct (response_names resp m Hm) as [Hk Hnd]. destruct (unmarshal_printed m Hjok Hd) as [Hvalid Hun].
  destruct (object_of (doc_members m)) as (obj & Hobj & Hin & Hout); [by rewrite Hk|done|]. rewrite Hk in Hout.
  exists (bytes_of (print (JsonObj m))), obj. unfold response_json. rewrite Hm. split_and!; [done|apply trim_printed|done|congruence|..].
  - destruct (response_head resp m Hm) as (rest & -> & _).
    unfold response_id. rewrite (Hin "requestId" (DNumber (strconv_Itoa (responseBase_RequestID (Response_Base resp))))
      (JFloat (float_of_Z (responseBase_RequestID (Response_Base resp))))).
    + by apply to_uint64_small.
    + right. by left.
    + cbn. rewrite parse_float_Itoa by lia. done.
  - unfold response_jobs, response_job_ids. fold job_id.
    destruct (response_head resp m Hm) as (rest & -> & Hjobs).
    destruct resp as [r|r|r|r|r|r|r|r|r|r|r|r]; try (rewrite (Hout "jobs" (base_no_jobs _ _ Hjobs)); done).
    destruct Hjobs as (v & Hv & ->). cbn [Response_ok] in Hok.
    assert (numbers_fit (doc_of v) = true) as Hnv.
    { cbn in Hn. do 3 apply andb_true_iff in Hn as [_ Hn]. by apply andb_true_iff in Hn as [Hn _]. }
    assert (("jobs", doc_of v) ∈ doc_members (base_members (Response_Base (RespJobState r)) ++ [("jobs", v)])) as Hmem.
    { do 3 right. by left. }
    destruct (JobStateResponse_Jobs r) as [jobs|].
    + destruct (jobs_objects jobs v Hok Hv Hnv) as (l & Hl & Hids). by rewrite (Hin _ _ _ Hmem Hl).
    + injection Hv as <-. by rewrite (Hin _ _ _ Hmem eq_refl).
Qed.
End Responses.

(** ** Job IDs are UTF-8 *)
Fixpoint jany_utf8 (a : jany) : bool :=
  match a with
  | JString s => utf8_Valid s
  | JArray l => forallb jany_utf8 l
  | JObject m => forallb (λ '(_, a), jany_utf8 a) m
  | _ => true
  end.

Lemma insert_member_sub {A} k (a : A) m kv : kv ∈ insert_member k a m → kv = (k, a) ∨ kv ∈ m.
Proof.
  induction m as [|[k' a'] m IH]; cbn; [by intros ->%list_elem_of_singleton; left|].
  destruct (String.compare k k'); rewrite !elem_of_cons; naive_solver.
Qed.

Lemma canon_sub {A} (m : list (string * A)) kv : kv ∈ canon m → kv ∈ m.
Proof.
  unfold canon. cut (∀ acc, kv ∈ foldl (λ acc kv, insert_member kv.1 kv.2 acc) acc m → kv ∈ acc ∨ kv ∈ m).
  { intros H Hk. by destruct (H [] Hk) as [?%elem_of_nil|]. }
  induction m as [|[k a] m IH]; cbn; [by left|]. intros acc [H|H]%IH; [|right; by right].
  apply insert_member_sub in H as [->|H]; [right; by left|by left].
Qed.

Lemma canon_utf8 m l :
  Forall ((λ d, ∀ a, doc_utf8 d = true → jany_of d = Some a → jany_utf8 a = true) ∘ snd) m →
  forallb (λ kd, utf8_Valid kd.1 && doc_utf8 kd.2) m = true → mapM jany_member m = Some l →
  forallb (λ '(_, a), jany_utf8 a) (canon l) = true.
Proof.
  intros Hm Hu Hl. cut (Forall (λ '(_, a), jany_utf8 a = true) l).
  { rewrite list.Forall_forall. intros H. apply forallb_Forall_iff, list.Forall_forall. intros [k a] Hin.
    by apply (H (k, a)), canon_sub. }
  revert l Hl Hu. induction Hm as [|[k d] m Hd _ IH]; cbn; intros l Hl Hu; [by injection Hl as <-|].
  apply andb_true_iff in Hu as [[_ Hu1]%andb_true_iff Hu2].
  destruct (jany_of d) as [a|] eqn:Ea; [|done]. cbn in Hl. destruct (mapM jany_member m) as [l'|] eqn:El; [|done].
  injection Hl as <-. constructor; [|by apply IH]. by apply (Hd a).
Qed.

Lemma jany_of_utf8 d : ∀ a, doc_utf8 d = true → jany_of d = Some a → jany_utf8 a = true.
Proof.
  induction d as [|b|lit|raw s|raw l IH|raw m IH] using doc_nested_ind; cbn; intros a Hu Ha; try by injection Ha as <-.
  - destruct (ParseFloat lit); [|done]. by injection Ha as <-.
  - destruct (mapM jany_of l) as [as_|] eqn:E; [|done]. injection Ha as <-. cbn.
    revert as_ E. induction IH as [|d l Hd _ IHl]; cbn in *; intros as_ E; [by injection E as <-|].
    apply andb_true_iff in Hu as [Hu1 Hu2]. destruct (jany_of d) as [a|] eqn:Ea; [|done]. cbn in E.
    destruct (mapM jany_of l) as [as'|] eqn:El; [|done]. injection E as <-. cbn. rewrite (Hd a) by done. by apply (IHl Hu2).
  - change (mapM _ m) with (mapM jany_member m) in Ha. destruct (mapM jany_member m) as [l|] eqn:E; [|done].
    injection Ha as <-. by eapply canon_utf8.
Qed.

Lemma field_in (obj : response) k a : field obj k = Some a → (k, a) ∈ obj.
Proof.
  induction obj as [|[k' a'] obj IH]; cbn; [done|]. case_decide as Hk; [intros [= <-]; subst; by left|].
  intros H. right. by apply IH.
Qed.

Lemma field_utf8 obj k a : forallb (λ '(_, a), jany_utf8 a) obj = true → field obj k = Some a → jany_utf8 a = true.
Proof.
  intros Hu Hf%field_in. apply forallb_Forall_iff in Hu. rewrite list.Forall_forall in Hu. by apply (Hu (k, a)).
Qed.

(** The IDs of jobs in anything that was read. *)
Lemma response_jobs_utf8 buf obj job : unmarshal_map buf = Some obj → job ∈ response_jobs obj → utf8 job.
Proof.
  intros Hb Hj. assert (forallb (λ '(_, a), jany_utf8 a) obj = true) as Hu.
  { unfold unmarshal_map in Hb. destruct (parse (text_of buf)) as [d|] eqn:Ep; [|done]. apply parse_utf8 in Ep. cbn in Hb.
    destruct d as [| | | | |raw m]; try done; [by injection Hb as <-|].
    change (mapM _ m) with (mapM jany_member m) in Hb. destruct (mapM jany_member m) as [l|] eqn:E; [|done].
    injection Hb as <-. eapply canon_utf8; [|exact Ep|done]. apply Forall_true. intros kd. exact (jany_of_utf8 kd.2). }
  unfold response_jobs in Hj. destruct (field obj "jobs") as [a|] eqn:E; [|by apply elem_of_nil in Hj].
  apply field_utf8 in E; [|done]. destruct a as [| | | |l|]; try by apply elem_of_nil in Hj.
  apply list_elem_of_omap in Hj as (x & Hx & Hid). cbn in E. apply forallb_Forall_iff in E. rewrite list.Forall_forall in E.
  specialize (E x Hx). destruct x as [| | | | |m]; try done. destruct (field m "id") as [a|] eqn:Ef; [|done].
  apply field_utf8 in Ef; [|done]. destruct a; try done. by injection Hid as <-.
Qed.
