(* ===== verification/SmokeWire.v ===== *)
(** * The smoke test and the plugin over the wire

    Both directions end to end: what a session of the smoke test writes is what
    [Serve] dispatches, and what the plugin sends is what the reader of the smoke
    test files. *)

From Stdlib Require Import SpecFloat.
From Stdlib Require Import Strings.Byte.
From S2P Require Import Prelude GoStd Types Writer Stream Rpc Communicator CommunicatorFacts Json JsonFacts JsonParse JsonText Codec Floats Rfc3339 AnyJson ApiJson ApiJsonFacts RpcJson RpcJsonFacts RpcResponses SmokeTest SmokeTestFacts SmokeTestProps SmokeJson SmokeJsonFacts SmokeReader.

(** ** Requests *)
Section Requests.
Context `{!TimeZones} (error_text : bytes → string).

(** What the environment files was read from some message. *)
Definition from_reader (env : Environ) : Prop :=
  ∀ t obj, Filed obj ∈ env_events env t → ∃ buf, unmarshal_map buf = Some obj.

Lemma named_utf8 env job : from_reader env → named env job → utf8 job.
Proof. intros Hr (t & obj & Hobj & Hjob). destruct (Hr t obj Hobj) as [buf Hbuf]. by eapply response_jobs_utf8. Qed.

(** C23: a session of the smoke test, end to end: every message it sends has a JSON
    form, and [Serve], fed with these bytes, hands its handlers the requests that
    the messages mean, in order, and all of them when it returns nil without a
    cancellation.  The user name is UTF-8, and what the environment files was read
    from the plugin. *)
Theorem smoke_session_served (env : Environ) (fuel rounds : nat) (user : string)
    (Huser : utf8 user) (Hread : from_reader env) :
  match session env fuel rounds (start user) with
  | Done w _ => ∃ texts reqs,
      mapM message_json (w_sent w) = Some texts ∧ Forall2 (means user) (w_sent w) reqs ∧
      ∀ maxSize (out : bytes) (s : Serve bytes), Forall (fits maxSize) texts →
        @serve_reachable _ _ (json_requests error_text) response_json (input_comm texts maxSize out) s →
        sv_dispatched s `prefix_of` reqs ∧
        (sv_main s = MnReturned None → sv_cancelled s = false → sv_dispatched s = reqs)
  | Panicked _ => False
  | Waiting => True
  end.
Proof.
  pose proof (session_triple env user fuel rounds (start user) (start_fresh env user)) as Hend.
  destruct (session env fuel rounds (start user)) as [w []| |]; [|done..].
  assert (∃ texts reqs, mapM message_json (w_sent w) = Some texts ∧ Forall2 (means user) (w_sent w) reqs ∧
    Forall2 (λ text req, @RequestFromJSON (json_requests error_text) text = Ret (inl req)) texts reqs)
    as (texts & reqs & Ht & Hm & Hr).
  { destruct Hend as [->|(_ & n & _ & Htr)]; [by exists [], []; repeat constructor|].
    eapply transcript_understood; [done| |done]. intros job. by apply named_utf8. }
  exists texts, reqs. split_and!; [done..|]. intros maxSize out s Hfit Hs.
  by apply (@dispatched_prefix _ _ (json_requests error_text) response_json texts reqs maxSize out Hr Hfit (json_requests_laws _) s).
Qed.
End Requests.

(** ** Responses *)
Lemma count_filed env st obj id :
  count (file_response env st obj) id = if decide (response_id env obj = id) then wrap64 (count st id + 1) else count st id.
Proof.
  assert (count (file_response env st obj) id =
    count (st <| st_responseCount := <[response_id env obj := wrap64 (count st (response_id env obj) + 1)]>
      (st_responseCount st) |>) id) as ->.
  { unfold file_response. by repeat case_match. }
  unfold count at 1. cbn. case_decide as E; [subst; by rewrite lookup_insert_eq|by rewrite lookup_insert_ne].
Qed.

Definition request_id (resp : Response) : Z := responseBase_RequestID (Response_Base resp).
Definition answers (id : Z) (resps : list Response) : Z := Z.of_nat (length (filter (λ r, request_id r = id) resps)).

Lemma count_all env resps objs id :
  Forall2 (λ r obj, response_id env obj = request_id r) resps objs → ∀ st, (0 ≤ count st id < 2 ^ 64)%Z →
  count (foldl (happen env) st (Filed <$> objs)) id = wrap64 (count st id + answers id resps).
Proof.
  induction 1 as [|r obj resps objs Hr _ IH]; intros st Hc; cbn.
  - unfold answers. cbn. rewrite Z.add_0_r. by rewrite wrap64_small.
  - rewrite IH; rewrite count_filed, Hr; [|case_decide; [apply wrap64_range|done]].
    unfold answers. rewrite filter_cons. case_decide; [|done].
    unfold wrap64. rewrite Zplus_mod_idemp_l. f_equal. cbn [length]. lia.
Qed.

Section Responses.
Context `{!TimeZones}.

(** C24: the way back: responses that have a JSON form and whose numbers fit into
    float64 come out of the reader of the smoke test one by one, before the end of
    the stream; the counter of every request ID grows by the number of responses
    to that request, and the jobs of a response are found with their IDs. *)
Theorem smoke_files_responses (env : Environ) (resps : list Response)
    (Hok : Forall Response_ok resps) (Hfit : Forall Response_fits resps) :
  ∃ texts objs, mapM response_json resps = Some texts ∧
    (∀ maxSize, Forall (fits maxSize) texts →
      readResponses json_Valid unmarshal_map (S (length texts))
        (NewDecoder (mkReader (mjoin (frame <$> texts)) io_EOF) maxSize) = (Filed <$> objs) ++ [StreamEnded]) ∧
    response_jobs <$> objs = response_job_ids <$> resps ∧
    ∀ st id, (0 ≤ count st id < 2 ^ 64)%Z →
      count (foldl (happen env) st (Filed <$> objs)) id = wrap64 (count st id + answers id resps).
Proof.
  assert (∃ texts objs, mapM response_json resps = Some texts ∧
    (event_of unmarshal_map <$> valid_prefix json_Valid texts) = Filed <$> objs ∧
    response_jobs <$> objs = response_job_ids <$> resps ∧
    Forall2 (λ r obj, response_id env obj = request_id r) resps objs) as (texts & objs & Ht & He & Hj & Hid).
  { induction Hok as [|r resps Hr _ IH]; [by exists [], []; repeat constructor|].
    apply list.Forall_cons in Hfit as [Hf Hfit]. destruct (IH Hfit) as (texts & objs & Ht & He & Hj & Hid).
    destruct (response_object env r Hr Hf) as (text & obj & Htext & Htrim & Hval & Hobj & Hi & Hjobs).
    exists (text :: texts), (obj :: objs). split_and!; [|..|by constructor].
    - cbn [mapM]. by rewrite Htext, Ht.
    - cbn [valid_prefix]. rewrite Hval. cbn. unfold event_of at 1. by rewrite Htrim, Hobj, He.
    - cbn. by rewrite Hjobs, Hj. }
  exists texts, objs. split_and!; [done| |done|].
  - intros maxSize Hsize. rewrite <- He. apply readResponses_frames; [done|done|done|cbn; by rewrite length_replicate].
  - intros st id. by apply count_all.
Qed.
End Responses.

(** ** A session over the wire

    Bootstrap, submission of a job, its output, the end; the answers as texts. *)
Definition answer_texts (t : nat) : list string :=
  match t with
  | 3 => ["{`messageType`:1,`requestId`:0}"]
  | 9 => ["{`requestId`:1,`jobs`:[{`id`:`j1`}]}"]
  | 16 => ["{`requestId`:2,`complete`:false}"; "{`requestId`:2,`complete`:true}"]
  | _ => []
  end.

(** Backquotes stand for quotes. *)
Definition quoted (s : string) : bytes := (λ b, match b with x60 => x22 | _ => b end) <$> bytes_of s.

Definition wire_env : Environ := {|
  env_events t := omap (λ s, Filed <$> unmarshal_map (quoted s)) (answer_texts t);
  env_write := λ _, true;
  env_line := λ t, match t with 5 => Some ("7" ++ nl) | 12 => Some ("11" ++ nl) | _ => Some "q" end%string;
  env_uint64 := λ _, 0%Z;
  env_int := λ _, 0%Z;
|}.

Lemma wire_env_read : from_reader wire_env.
Proof.
  intros t obj (s & _ & Hs)%list_elem_of_omap. exists (quoted s). by destruct (unmarshal_map (quoted s)); simplify_eq/=.
Qed.

Lemma smoke_session_served_witness :
  ∃ w texts reqs, session wire_env 2 5 (start "ada") = Done w tt ∧
    sent_types w = [Some (VInt msgBootstrap); Some (VInt msgSubmitJob); Some (VInt msgGetJobOutput)] ∧
    mapM (@message_json no_zones) (w_sent w) = Some texts ∧ Forall2 (means "ada") (w_sent w) reqs.
Proof.
  pose proof (@smoke_session_served no_zones (λ _, "bad") wire_env 2 5 "ada" eq_refl wire_env_read) as H.
  assert (match session wire_env 2 5 (start "ada") with
    | Done w' _ => sent_types w' = [Some (VInt msgBootstrap); Some (VInt msgSubmitJob); Some (VInt msgGetJobOutput)]
    | _ => False end) as Hs by (vm_compute; reflexivity).
  destruct (session wire_env 2 5 (start "ada")) as [w []| |]; [|destruct Hs..].
  destruct H as (texts & reqs & Ht & Hm & _). exists w, texts, reqs.
  split; [reflexivity|]. split; [exact Hs|]. split; [exact Ht|exact Hm].
Defined.

Definition wire_job : Job := zeroJob <| Job_ID := "j1" |> <| Job_User := "ada" |> <| Job_Status := StatusRunning |>.

Lemma wire_job_ok : @Job_ok no_zones wire_job.
Proof. by split; repeat constructor. Qed.

Definition wire_responses : list Response :=
  [RespBootstrap (NewBootstrapResponse 0 0); RespJobState (NewJobStateResponse 1 1 (Some [wire_job]));
   RespJobOutput (NewJobOutputStreamResponse 2 2); RespJobOutput (NewJobOutputStreamResponse 2 3)].

Lemma smoke_files_responses_witness :
  ∃ texts objs, mapM (@response_json no_zones) wire_responses = Some texts ∧
    response_jobs <$> objs = [[]; ["j1"]; []; []] ∧
    count (foldl (happen wire_env) (newSmokeTest "ada") (Filed <$> objs)) 2 = 2%Z.
Proof.
  destruct (@smoke_files_responses no_zones wire_env wire_responses) as (texts & objs & Ht & _ & Hj & Hc).
  - repeat (apply Forall_cons_2; [first [exact I|apply Forall_singleton, wire_job_ok]|]). apply Forall_nil_2.
  - repeat (apply Forall_cons_2; [split; [vm_compute; split; [discriminate|reflexivity]|]|]); [..|apply Forall_nil_2];
      intros m Hm; vm_compute in Hm; injection Hm as <-; (split; [vm_compute; reflexivity|apply Nat.leb_le; vm_compute; reflexivity]).
  - exists texts, objs. split; [exact Ht|]. split; [exact Hj|].
    rewrite Hc; [reflexivity|]. vm_compute. split; [discriminate|reflexivity].
Defined.
