(* ===== verification/Options.v ===== *)
(** * Command-line options (src/launcher/launcher.go)

    DefaultOptions with AddFlags and Validate, LoadOptions over the parser of
    package flag, and ConfigPathf with the parts of packages os and path it uses.
    The conversion of a decimal numeral to a float is a parameter. *)

From Stdlib Require Import SpecFloat.
From S2P Require Import Prelude GoStd Types Writer.

(** ** Parsing values (package strconv) *)
Definition strconv_ParseBool (s : string) : option bool :=
  if bool_decide (s ∈ ["1"; "t"; "T"; "TRUE"; "true"; "True"]) then Some true
  else if bool_decide (s ∈ ["0"; "f"; "F"; "FALSE"; "false"; "False"]) then Some false
  else None.

Definition code (c : ascii) : Z := Z.of_nat (Ascii.nat_of_ascii c).
(** [c | ('x' - 'X')]. *)
Definition lower (c : ascii) : Z := Z.lor (code c) 32.
Definition is_digit (c : ascii) : bool := (48 <=? code c)%Z && (code c <=? 57)%Z.
Definition is_hex_letter (c : ascii) : bool := (97 <=? lower c)%Z && (lower c <=? 102)%Z.

(** The base a numeral's prefix stands for, and the digits. *)
Definition numeral_base (s : string) : Z * string :=
  match s with
  | String "0" (String c (String d s') as rest) =>
      if (lower c =? 98)%Z then (2%Z, String d s')
      else if (lower c =? 111)%Z then (8%Z, String d s')
      else if (lower c =? 120)%Z then (16%Z, String d s')
      else (8%Z, rest)
  | String "0" s' => (8%Z, s')
  | _ => (10%Z, s)
  end.

Definition digit_value (c : ascii) : option Z :=
  if is_digit c then Some (code c - 48)%Z
  else if (97 <=? lower c)%Z && (lower c <=? 122)%Z then Some (lower c - 97 + 10)%Z
  else None.

(** The digits, skipping underscores: the value, if it fits in 64 bits. *)
Fixpoint numeral_value (base n : Z) (s : string) : option Z :=
  match s with
  | EmptyString => Some n
  | String "_" s' => numeral_value base n s'
  | String c s' =>
      d ← digit_value c;
      if (base <=? d)%Z then None
      else let n' := (n * base + d)%Z in if (2 ^ 64 <=? n')%Z then None else numeral_value base n' s'
  end.

(** What was seen last: the beginning, a digit or base prefix, an underscore,
    anything else. *)
Inductive saw := SawNothing | SawDigit | SawUnderscore | SawOther.

Fixpoint underscores_ok (hex : bool) (last : saw) (s : string) : bool :=
  match s with
  | EmptyString => match last with SawUnderscore => false | _ => true end
  | String c s' =>
      if is_digit c || (hex && is_hex_letter c) then underscores_ok hex SawDigit s'
      else if Ascii.eqb c "_" then match last with SawDigit => underscores_ok hex SawUnderscore s' | _ => false end
      else match last with SawUnderscore => false | _ => underscores_ok hex SawOther s' end
  end.

Definition underscoreOK (s : string) : bool :=
  let s := match s with String c s' => if Ascii.eqb c "-" || Ascii.eqb c "+" then s' else s | _ => s end in
  match s with
  | String "0" (String c s') =>
      if (lower c =? 98)%Z || (lower c =? 111)%Z || (lower c =? 120)%Z
      then underscores_ok (lower c =? 120)%Z SawDigit s' else underscores_ok false SawNothing s
  | _ => underscores_ok false SawNothing s
  end.

(** [strconv.ParseUint(s, 0, 64)]. *)
Definition strconv_ParseUint (s : string) : option Z :=
  match s with
  | EmptyString => None
  | _ =>
      let '(base, digits) := numeral_base s in
      n ← numeral_value base 0 digits;
      if contains_byte "_" s && negb (underscoreOK s) then None else Some n
  end.

(** ** Options *)
Record DefaultOptions := mkDefaultOptions {
  DefaultOptions_Debug : bool;
  DefaultOptions_JobExpiry : Z;
  DefaultOptions_HeartbeatInterval : Z;
  DefaultOptions_LauncherConfig : string;
  DefaultOptions_PluginName : string;
  DefaultOptions_ScratchPath : string;
  DefaultOptions_ServerUser : string;
  DefaultOptions_Unprivileged : bool;
  DefaultOptions_LoggingDir : string;
  DefaultOptions_ConfigFile : string;
  DefaultOptions_MetricsInterval : Z;
  DefaultOptions_jobExpiryHours : float64;
  DefaultOptions_heartbeatSeconds : Z;
  DefaultOptions_metricsIntervalSeconds : Z;
  DefaultOptions_threadPoolSize : Z;
}.

#[export] Instance set_DefaultOptions_Debug : Setter DefaultOptions_Debug := ltac:(solve_setter).
#[export] Instance set_DefaultOptions_JobExpiry : Setter DefaultOptions_JobExpiry := ltac:(solve_setter).
#[export] Instance set_DefaultOptions_HeartbeatInterval : Setter DefaultOptions_HeartbeatInterval := ltac:(solve_setter).
#[export] Instance set_DefaultOptions_LauncherConfig : Setter DefaultOptions_LauncherConfig := ltac:(solve_setter).
#[export] Instance set_DefaultOptions_PluginName : Setter DefaultOptions_PluginName := ltac:(solve_setter).
#[export] Instance set_DefaultOptions_ScratchPath : Setter DefaultOptions_ScratchPath := ltac:(solve_setter).
#[export] Instance set_DefaultOptions_ServerUser : Setter DefaultOptions_ServerUser := ltac:(solve_setter).
#[export] Instance set_DefaultOptions_Unprivileged : Setter DefaultOptions_Unprivileged := ltac:(solve_setter).
#[export] Instance set_DefaultOptions_LoggingDir : Setter DefaultOptions_LoggingDir := ltac:(solve_setter).
#[export] Instance set_DefaultOptions_ConfigFile : Setter DefaultOptions_ConfigFile := ltac:(solve_setter).
#[export] Instance set_DefaultOptions_MetricsInterval : Setter DefaultOptions_MetricsInterval := ltac:(solve_setter).
#[export] Instance set_DefaultOptions_jobExpiryHours : Setter DefaultOptions_jobExpiryHours := ltac:(solve_setter).
#[export] Instance set_DefaultOptions_heartbeatSeconds : Setter DefaultOptions_heartbeatSeconds := ltac:(solve_setter).
#[export] Instance set_DefaultOptions_metricsIntervalSeconds : Setter DefaultOptions_metricsIntervalSeconds := ltac:(solve_setter).
#[export] Instance set_DefaultOptions_threadPoolSize : Setter DefaultOptions_threadPoolSize := ltac:(solve_setter).

Definition zeroOptions : DefaultOptions :=
  mkDefaultOptions false 0 0 "" "" "" "" false "" "" 0 (S754_zero false) 0 0 0.

(** ** Paths (package path) *)

(** The components left by [path.Clean], in reverse. *)
Fixpoint clean_components (rooted : bool) (done : list string) (cs : list string) : list string :=
  match cs with
  | [] => done
  | c :: cs =>
      if bool_decide (c = "") || bool_decide (c = ".") then clean_components rooted done cs
      else if bool_decide (c = "..") then
        match done with
        | [] => clean_components rooted (if rooted then [] else [".."]) cs
        | d :: rest =>
            if bool_decide (d = "..") then clean_components rooted (".." :: done) cs
            else clean_components rooted rest cs
        end
      else clean_components rooted (c :: done) cs
  end.

Definition path_Clean (p : string) : string :=
  match p with
  | EmptyString => "."
  | String c _ =>
      let rooted := Ascii.eqb c "/" in
      let body := strings_Join (reverse (clean_components rooted [] (strings_Split p "/"))) "/" in
      if rooted then ("/" ++ body)%string else if bool_decide (body = "") then "." else body
  end.

(** [path.Join]: empty elements are ignored. *)
Definition path_Join (elems : list string) : string :=
  match filter (λ e, e ≠ "") elems with [] => "" | es => path_Clean (strings_Join es "/") end.

(** ** Environment variables (package os) *)
Definition isShellSpecialVar (c : ascii) : bool :=
  existsb (Ascii.eqb c) ["*"; "#"; "$"; "@"; "!"; "?"; "-"]%char || is_digit c.

Definition isAlphaNum (c : ascii) : bool :=
  Ascii.eqb c "_" || is_digit c ||
  ((65 <=? code c)%Z && (code c <=? 90)%Z) || ((97 <=? code c)%Z && (code c <=? 122)%Z).

(** The text before the first closing brace, and what follows it. *)
Fixpoint until_brace (s : string) : option (string * string) :=
  match s with
  | EmptyString => None
  | String c s' =>
      if Ascii.eqb c "}" then Some ("", s')
      else match until_brace s' with Some (name, rest) => Some (String c name, rest) | None => None end
  end.

Fixpoint alphanumerics (s : string) : string * string :=
  match s with
  | String c s' => if isAlphaNum c then let '(name, rest) := alphanumerics s' in (String c name, rest) else ("", s)
  | EmptyString => ("", "")
  end.

(** The name at the head of [s], after a dollar sign: the text to put in its
    place, given the variables, and what is left. *)
Definition shell_name (mapping : string → string) (s : string) : string * string :=
  match s with
  | String "{" s' =>
      match until_brace s' with
      | Some (EmptyString, rest) => ("", rest)
      | Some (name, rest) => (mapping name, rest)
      | None => ("", s')
      end
  | String c s' =>
      if isShellSpecialVar c then (mapping (String c ""), s')
      else match alphanumerics s with
           | (EmptyString, _) => ("$", s)
           | (name, rest) => (mapping name, rest)
           end
  | EmptyString => ("$", "")
  end.

(** [os.Expand]; each round takes at least a byte. *)
Fixpoint expand (fuel : nat) (mapping : string → string) (s : string) : string :=
  match fuel with
  | 0 => ""
  | S fuel =>
      match s with
      | EmptyString => ""
      | String c s' =>
          if Ascii.eqb c "$" && negb (bool_decide (s' = "")) then
            let '(text, rest) := shell_name mapping s' in (text ++ expand fuel mapping rest)%string
          else String c (expand fuel mapping s')
      end
  end.

Definition os_Expand (mapping : string → string) (s : string) : string := expand (String.length s) mapping s.

(** What a process sees of its system. *)
Record Sys := mkSys {
  sys_Getenv : string → string;
  sys_Stat : string → bool;
  sys_Getuid : Z;
}.

Section WithSystem.
Variable sys : Sys.
(** [strconv.ParseFloat(s, 64)], without the text of its error. *)
Variable strconv_ParseFloat : string → option float64.
(** [int64(f)] where [f] does not fit, which the language leaves open. *)
Variable float_overflow : float64 → Z.

Definition os_ExpandEnv (s : string) : string := os_Expand (sys_Getenv sys) s.

(** The loop over the directories. *)
Fixpoint first_config_dir (dirs : list string) : option string :=
  match dirs with
  | [] => None
  | dir :: dirs =>
      let dir := path_Join [dir; "rstudio"] in
      if sys_Stat sys dir then Some dir else first_config_dir dirs
  end.

(** With the formatted leaf path. *)
Definition ConfigPathf (leafPath : string) : string :=
  let configDir := os_ExpandEnv (sys_Getenv sys "RSTUDIO_CONFIG_DIR") in
  if bool_decide (configDir ≠ "") then path_Join [configDir; leafPath]
  else
    let configDir := os_ExpandEnv (sys_Getenv sys "XDG_CONFIG_DIRS") in
    match first_config_dir (strings_Split configDir ":") with
    | Some dir => path_Join [dir; leafPath]
    | None => path_Join ["/etc/rstudio"; leafPath]
    end.

(** ** Flags (package flag) *)

(** A flag: its name, whether it may stand without a value, and how a value
    changes the options; [None] for a value it refuses. *)
Record Flag := mkFlag {
  Flag_Name : string;
  Flag_IsBool : bool;
  Flag_Set : string → DefaultOptions → option DefaultOptions;
}.

Definition StringVar (set : string → DefaultOptions → DefaultOptions) (name : string) : Flag :=
  mkFlag name false (λ s o, Some (set s o)).
Definition UintVar (set : Z → DefaultOptions → DefaultOptions) (name : string) : Flag :=
  mkFlag name false (λ s o, n ← strconv_ParseUint s; Some (set n o)).
Definition Float64Var (set : float64 → DefaultOptions → DefaultOptions) (name : string) : Flag :=
  mkFlag name false (λ s o, f ← strconv_ParseFloat s; Some (set f o)).
Definition BoolVar (set : bool → DefaultOptions → DefaultOptions) (name : string) : Flag :=
  mkFlag name true (λ s o, b ← strconv_ParseBool s; Some (set b o)).
(** [f.Func]: a value is always needed. *)
Definition FuncVar (set : string → DefaultOptions → option DefaultOptions) (name : string) : Flag :=
  mkFlag name false set.

(** How parsing ends: all flags taken, with the other arguments; or the process
    exits, with the code of [ExitOnError]. *)
Inductive parsed :=
| Parsed (o : DefaultOptions) (rest : list string)
| ExitHelp
| ExitUsage.

(** The name and the value, if the argument has one; "=" cannot come first. *)
Fixpoint split_value (name : string) : string * option string :=
  match name with
  | EmptyString => ("", None)
  | String c name' =>
      if Ascii.eqb c "=" then ("", Some name')
      else let '(n, v) := split_value name' in (String c n, v)
  end.

(** What an argument is: no flag, the end of the flags, bad syntax, a flag. *)
Inductive argument := ArgOther | ArgEnd | ArgBad | ArgFlag (name : string) (value : option string).

Definition classify (s : string) : argument :=
  match s with
  | String "-" (String c s') =>
      let name := if Ascii.eqb c "-" then s' else String c s' in
      if Ascii.eqb c "-" && bool_decide (s' = "") then ArgEnd
      else
        match name with
        | EmptyString => ArgBad
        | String d _ =>
            if Ascii.eqb d "-" || Ascii.eqb d "=" then ArgBad
            else let '(n, v) := split_value name in ArgFlag n v
        end
  | _ => ArgOther
  end.

Definition lookup_flag (flags : list Flag) (name : string) : option Flag :=
  snd <$> list_find (λ f, Flag_Name f = name) flags.

(** [f.Parse(args)]. *)
Fixpoint parse (flags : list Flag) (o : DefaultOptions) (args : list string) : parsed :=
  match args with
  | [] => Parsed o []
  | s :: args' =>
      match classify s with
      | ArgOther => Parsed o args
      | ArgEnd => Parsed o args'
      | ArgBad => ExitUsage
      | ArgFlag name value =>
          match lookup_flag flags name with
          | None => if bool_decide (name = "help") || bool_decide (name = "h") then ExitHelp else ExitUsage
          | Some f =>
              let set v rest := match Flag_Set f v o with Some o' => parse flags o' rest | None => ExitUsage end in
              if Flag_IsBool f then set (default "true" value) args'
              else
                match value, args' with
                | Some v, _ => set v args'
                | None, v :: rest => match Flag_Set f v o with Some o' => parse flags o' rest | None => ExitUsage end
                | None, [] => ExitUsage
                end
          end
      end
  end.

(** ** AddFlags, Validate, LoadOptions *)

(** The options with the flags' defaults. *)
Definition flag_defaults (pluginName : string) (o : DefaultOptions) : DefaultOptions :=
  o <| DefaultOptions_jobExpiryHours := float_of_Z 24 |>
    <| DefaultOptions_heartbeatSeconds := 5%Z |>
    <| DefaultOptions_LauncherConfig := "" |>
    <| DefaultOptions_PluginName := pluginName |>
    <| DefaultOptions_ScratchPath := ("/var/lib/rstudio-launcher/" ++ pluginName)%string |>
    <| DefaultOptions_ServerUser := "rstudio-server" |>
    <| DefaultOptions_metricsIntervalSeconds := 60%Z |>
    <| DefaultOptions_threadPoolSize := 0%Z |>
    <| DefaultOptions_Unprivileged := negb (sys_Getuid sys =? 0)%Z |>
    <| DefaultOptions_LoggingDir := "/var/log/rstudio/launcher" |>
    <| DefaultOptions_ConfigFile := ConfigPathf ("launcher." ++ pluginName ++ ".conf")%string |>.

Definition default_flags : list Flag := [
  FuncVar (λ s o, b ← strconv_ParseBool s; Some (o <| DefaultOptions_Debug := b |>)) "enable-debug-logging";
  Float64Var (λ f o, o <| DefaultOptions_jobExpiryHours := f |>) "job-expiry-hours";
  UintVar (λ n o, o <| DefaultOptions_heartbeatSeconds := n |>) "heartbeat-interval-seconds";
  StringVar (λ s o, o <| DefaultOptions_LauncherConfig := s |>) "launcher-config-file";
  StringVar (λ s o, o <| DefaultOptions_PluginName := s |>) "plugin-name";
  StringVar (λ s o, o <| DefaultOptions_ScratchPath := s |>) "scratch-path";
  StringVar (λ s o, o <| DefaultOptions_ServerUser := s |>) "server-user";
  UintVar (λ n o, o <| DefaultOptions_metricsIntervalSeconds := n |>) "plugin-metrics-interval-seconds";
  UintVar (λ n o, o <| DefaultOptions_threadPoolSize := n |>) "thread-pool-size";
  BoolVar (λ b o, o <| DefaultOptions_Unprivileged := b |>) "unprivileged";
  StringVar (λ s o, o <| DefaultOptions_LoggingDir := s |>) "logging-dir";
  StringVar (λ s o, o <| DefaultOptions_ConfigFile := s |>) "config-file"].

(** Defining a flag stores its default; the flags join those of the flag set. *)
Definition DefaultOptions_AddFlags (o : DefaultOptions) (f : list Flag) (pluginName : string) : DefaultOptions * list Flag :=
  (flag_defaults pluginName o, f ++ default_flags).

Definition time_Second : Z := 10 ^ 9.
Definition time_Hour : Z := 3600 * 10 ^ 9.

(** Conversion to, and arithmetic in, a signed 64-bit integer. *)
Definition wrap_int64 (z : Z) : Z := ((z + 2 ^ 63) mod 2 ^ 64 - 2 ^ 63)%Z.

Definition trunc_float (f : float64) : option Z :=
  match f with
  | S754_zero _ => Some 0%Z
  | S754_finite neg m e =>
      let a := if (0 <=? e)%Z then (Zpos m * 2 ^ e)%Z else (Zpos m / 2 ^ (- e))%Z in
      Some (if neg then (- a)%Z else a)
  | _ => None
  end.

Definition int64_of_float (f : float64) : Z :=
  match trunc_float f with
  | Some z => if in_int64 z then z else float_overflow f
  | None => float_overflow f
  end.

(** The error is always nil. *)
Definition DefaultOptions_Validate (o : DefaultOptions) : DefaultOptions :=
  o <| DefaultOptions_JobExpiry :=
         int64_of_float (SFmul 53 1024 (float_of_Z time_Hour) (DefaultOptions_jobExpiryHours o)) |>
    <| DefaultOptions_HeartbeatInterval := wrap_int64 (time_Second * wrap_int64 (DefaultOptions_heartbeatSeconds o)) |>
    <| DefaultOptions_MetricsInterval :=
         wrap_int64 (time_Second * wrap_int64 (DefaultOptions_metricsIntervalSeconds o)) |>.

(** [None] when the process exits. *)
Definition LoadOptions (o : DefaultOptions) (pluginName : string) (args : list string) : option DefaultOptions :=
  let '(o, flags) := DefaultOptions_AddFlags o [] (strings_ToLower pluginName) in
  match parse flags o args with
  | Parsed o _ => Some (DefaultOptions_Validate o)
  | ExitHelp | ExitUsage => None
  end.
End WithSystem.
