(* ===== verification/OptionsProps.v ===== *)
(** * Command-line options: properties *)

From Stdlib Require Import SpecFloat DecimalString DecimalN DecimalFacts.
From S2P Require Import Prelude GoStd Types Writer SmokeTest Options.

(** ** Numerals *)

(** The decimal form of a number starts with a zero only for zero. *)
Lemma to_uint_head n d : N.to_uint n = Decimal.D0 d → n = 0%N.
Proof.
  intros H. pose proof (Unsigned.to_of (N.to_uint n)) as Hu. rewrite Unsigned.of_to in Hu. rewrite H in Hu.
  unfold Decimal.unorm in Hu. cbn [Decimal.nzhead] in Hu.
  assert (∀ u v, Decimal.nzhead u ≠ Decimal.D0 v) as Hnz by (induction u; cbn; congruence).
  destruct (Decimal.nzhead d) eqn:Hd; try discriminate Hu; [|by destruct (Hnz d u)].
  injection Hu as ->. rewrite <- (Unsigned.of_to n), H. done.
Qed.

Lemma format_N_zero_head n s : format_N n = String "0" s → n = 0%N.
Proof.
  unfold format_N. destruct (N.to_uint n) as [|d|d|d|d|d|d|d|d|d|d] eqn:Hd; cbn; intros H; try discriminate H.
  - by rewrite <- (Unsigned.of_to n), Hd.
  - by eapply to_uint_head.
Qed.

Lemma digits_go_ge s : ∀ acc n, digits_go acc s = Some n → (acc ≤ n)%N.
Proof.
  induction s as [|c s IH]; intros acc n; cbn; [naive_solver lia|].
  destruct (digit_val c) as [d|]; cbn; [|done]. intros H%IH. lia.
Qed.

Lemma digit_val_value c d : digit_val c = Some d → digit_value c = Some (Z.of_N d) ∧ (d < 10)%N ∧ c ≠ "_"%char.
Proof.
  destruct c as [[] [] [] [] [] [] [] []]; intros H; vm_compute in H; try discriminate H; injection H as <-;
    (split; [vm_compute; reflexivity|]); (split; [lia|discriminate]).
Qed.

Lemma numeral_value_digits s : ∀ acc n, digits_go acc s = Some n → (Z.of_N n < 2 ^ 64)%Z →
  numeral_value 10 (Z.of_N acc) s = Some (Z.of_N n).
Proof.
  induction s as [|c s IH]; intros acc n; cbn [digits_go]; [intros [= <-]; done|].
  destruct (digit_val c) as [d|] eqn:Hc; [|done]. cbn [mbind option_bind]. intros Hd Hn.
  destruct (digit_val_value c d Hc) as (Hv & Hlt & Hne). pose proof (digits_go_ge _ _ _ Hd) as Hge.
  assert (numeral_value 10 (Z.of_N acc) (String c s) =
    (d' ← digit_value c; if (10 <=? d')%Z then None else let n' := (Z.of_N acc * 10 + d')%Z in
       if (2 ^ 64 <=? n')%Z then None else numeral_value 10 n' s)) as ->.
  { destruct c as [[] [] [] [] [] [] [] []]; first [done|by destruct Hne]. }
  rewrite Hv. cbn [mbind option_bind]. destruct (Z.leb_spec 10 (Z.of_N d)); [lia|]. cbv zeta.
  replace (Z.of_N acc * 10 + Z.of_N d)%Z with (Z.of_N (10 * acc + d)) by lia.
  destruct (Z.leb_spec (2 ^ 64) (Z.of_N (10 * acc + d))); [lia|]. by apply IH.
Qed.

(** A decimal numeral is read back. *)
Lemma ParseUint_Itoa z : (0 ≤ z < 2 ^ 64)%Z → strconv_ParseUint (strconv_Itoa z) = Some z.
Proof.
  intros Hz. unfold strconv_Itoa. destruct (Z.ltb_spec z 0); [lia|].
  pose proof (parse_digits_format (Z.to_N z)) as Hp. pose proof (format_N_no_byte "_" (Z.to_N z) eq_refl) as Hu.
  destruct (decide (z = 0%Z)) as [->|Hnz]; [done|].
  destruct (format_N_head (Z.to_N z)) as (c & s & Hf & _). rewrite Hf in *.
  assert (c ≠ "0"%char) as Hc by (intros ->; apply format_N_zero_head in Hf; lia).
  unfold strconv_ParseUint. assert (numeral_base (String c s) = (10%Z, String c s)) as ->.
  { destruct c as [[] [] [] [] [] [] [] []]; first [done|by destruct Hc]. }
  cbn [parse_digits] in Hp. pose proof (numeral_value_digits (String c s) 0 _ Hp) as Hn. rewrite Z2N.id in Hn by lia.
  change (Z.of_N 0) with 0%Z in Hn. rewrite Hn by lia. cbn [mbind option_bind]. by rewrite Hu.
Qed.

(** ** Arguments *)

Lemma split_value_none name : contains_byte "=" name = false → split_value name = (name, None).
Proof.
  induction name as [|c name IH]; cbn; [done|]. destruct (Ascii.eqb c "="); [done|]. cbn. intros H. by rewrite IH.
Qed.

Lemma split_value_some name v : contains_byte "=" name = false → split_value (name ++ String "=" v)%string = (name, Some v).
Proof.
  induction name as [|c name IH]; intros H; [done|]. unfold String.app in *. simpl in *.
  destruct (Ascii.eqb c "="); [done|]. by rewrite IH.
Qed.

(** A name a flag can have on the command line. *)
Definition plain_name (name : string) : bool :=
  match name with
  | EmptyString => false
  | String c _ => negb (Ascii.eqb c "-") && negb (contains_byte "=" name)
  end.

Lemma plain_name_eq name : plain_name name = true → ∃ c s, name = String c s ∧ contains_byte "=" name = false ∧
  Ascii.eqb c "-" = false ∧ Ascii.eqb c "=" = false.
Proof.
  unfold plain_name. destruct name as [|c s]; [done|]. intros [Hc%negb_true_iff He%negb_true_iff]%andb_true_iff.
  exists c, s. split_and!; [done..|]. cbn in He. by apply orb_false_iff in He as [? _].
Qed.

Lemma classify_separate name : plain_name name = true → classify ("--" ++ name) = ArgFlag name None.
Proof.
  intros (c & s & -> & He & Hm & Heq)%plain_name_eq. pose proof (split_value_none _ He) as Hs.
  unfold classify, String.app in *. simpl in *. rewrite Hm, Heq. simpl. by rewrite Heq, Hs in *.
Qed.

Lemma classify_joined name v : plain_name name = true → classify ("--" ++ name ++ String "=" v) = ArgFlag name (Some v).
Proof.
  intros (c & s & -> & He & Hm & Heq)%plain_name_eq. pose proof (split_value_some _ v He) as Hs.
  unfold classify, String.app in *. simpl in *. rewrite Hm, Heq. simpl. by rewrite Heq, Hs in *.
Qed.

(** One flag with its value. *)
Record setting := mkSetting { setting_name : string; setting_value : string; setting_joined : bool }.

Definition render (s : setting) : list string :=
  if setting_joined s then [("--" ++ setting_name s ++ String "=" (setting_value s))%string]
  else [("--" ++ setting_name s)%string; setting_value s].

(** The flag is defined, takes the value, and stands apart from it only if it
    always has one. *)
Definition takes (flags : list Flag) (s : setting) (o o' : DefaultOptions) : Prop :=
  plain_name (setting_name s) = true ∧ ∃ f, lookup_flag flags (setting_name s) = Some f ∧
    Flag_Set f (setting_value s) o = Some o' ∧ (Flag_IsBool f = true → setting_joined s = true).

Lemma parse_setting flags s o o' rest : takes flags s o o' → parse flags o (render s ++ rest) = parse flags o' rest.
Proof.
  intros (Hn & f & Hl & Hset & Hb). unfold render. destruct (setting_joined s) eqn:Hj; cbn [app parse].
  - rewrite classify_joined by done. rewrite Hl. cbv beta iota zeta.
    destruct (Flag_IsBool f); cbn [from_option id]; by rewrite Hset.
  - rewrite classify_separate by done. rewrite Hl. cbv beta iota zeta.
    destruct (Flag_IsBool f); [by specialize (Hb eq_refl)|]. by rewrite Hset.
Qed.

(** ** The options of a plugin *)
Section Options.
Context (sys : Sys) (strconv_ParseFloat : string → option float64) (float_overflow : float64 → Z).

(** The options the Launcher sets, with their values; hours as text. *)
Inductive opt :=
| EnableDebugLogging (b : bool)
| JobExpiryHours (text : string) (hours : float64)
| HeartbeatIntervalSeconds (n : Z)
| LauncherConfigFile (s : string)
| PluginName (s : string)
| ScratchPath (s : string)
| ServerUser (s : string)
| PluginMetricsIntervalSeconds (n : Z)
| ThreadPoolSize (n : Z)
| Unprivileged (b : bool)
| LoggingDir (s : string)
| ConfigFile (s : string).

Definition bool_text (b : bool) : string := if b then "1" else "0".

(** Name and value stand apart; only "unprivileged" is joined. *)
Definition opt_setting (x : opt) : setting :=
  match x with
  | EnableDebugLogging b => mkSetting "enable-debug-logging" (bool_text b) false
  | JobExpiryHours text _ => mkSetting "job-expiry-hours" text false
  | HeartbeatIntervalSeconds n => mkSetting "heartbeat-interval-seconds" (strconv_Itoa n) false
  | LauncherConfigFile s => mkSetting "launcher-config-file" s false
  | PluginName s => mkSetting "plugin-name" s false
  | ScratchPath s => mkSetting "scratch-path" s false
  | ServerUser s => mkSetting "server-user" s false
  | PluginMetricsIntervalSeconds n => mkSetting "plugin-metrics-interval-seconds" (strconv_Itoa n) false
  | ThreadPoolSize n => mkSetting "thread-pool-size" (strconv_Itoa n) false
  | Unprivileged b => mkSetting "unprivileged" (bool_text b) true
  | LoggingDir s => mkSetting "logging-dir" s false
  | ConfigFile s => mkSetting "config-file" s false
  end.

Definition opt_ok (x : opt) : Prop :=
  match x with
  | JobExpiryHours text hours => strconv_ParseFloat text = Some hours
  | HeartbeatIntervalSeconds n | PluginMetricsIntervalSeconds n | ThreadPoolSize n => (0 ≤ n < 2 ^ 64)%Z
  | _ => True
  end.

(** What an option means. *)
Definition opt_effect (o : DefaultOptions) (x : opt) : DefaultOptions :=
  match x with
  | EnableDebugLogging b => o <| DefaultOptions_Debug := b |>
  | JobExpiryHours _ hours => o <| DefaultOptions_jobExpiryHours := hours |>
  | HeartbeatIntervalSeconds n => o <| DefaultOptions_heartbeatSeconds := n |>
  | LauncherConfigFile s => o <| DefaultOptions_LauncherConfig := s |>
  | PluginName s => o <| DefaultOptions_PluginName := s |>
  | ScratchPath s => o <| DefaultOptions_ScratchPath := s |>
  | ServerUser s => o <| DefaultOptions_ServerUser := s |>
  | PluginMetricsIntervalSeconds n => o <| DefaultOptions_metricsIntervalSeconds := n |>
  | ThreadPoolSize n => o <| DefaultOptions_threadPoolSize := n |>
  | Unprivileged b => o <| DefaultOptions_Unprivileged := b |>
  | LoggingDir s => o <| DefaultOptions_LoggingDir := s |>
  | ConfigFile s => o <| DefaultOptions_ConfigFile := s |>
  end.

Definition command_line (xs : list opt) : list string := mjoin ((λ x, render (opt_setting x)) <$> xs).

Lemma opt_takes x o : opt_ok x → takes (default_flags strconv_ParseFloat) (opt_setting x) o (opt_effect o x).
Proof.
  intros Hok. split; [by destruct x|].
  destruct x; (eexists; split; [reflexivity|]); (split; [|done]); cbn in *;
    rewrite ?ParseUint_Itoa by done; try (by destruct b); try done. by rewrite Hok.
Qed.

Lemma parse_command_line xs : ∀ o rest, Forall opt_ok xs →
  parse (default_flags strconv_ParseFloat) o (command_line xs ++ rest) =
  parse (default_flags strconv_ParseFloat) (foldl opt_effect o xs) rest.
Proof.
  induction xs as [|x xs IH]; intros o rest Hok; [done|]. inversion_clear Hok as [|?? Hx Hxs].
  change (command_line (x :: xs)) with (render (opt_setting x) ++ command_line xs). rewrite <- app_assoc.
  rewrite (parse_setting _ _ o (opt_effect o x)) by (by apply opt_takes). by apply IH.
Qed.

(** Options given on the command line, in any order and number, are read
    back: every option has its last value or its default, and the intervals are
    computed from them.  In particular the value that follows
    "enable-debug-logging" does not end the parsing of the flags after it. *)
Theorem options_roundtrip (o : DefaultOptions) (pluginName : string) (xs : list opt) :
  Forall opt_ok xs →
  LoadOptions sys strconv_ParseFloat float_overflow o pluginName (command_line xs) =
  Some (DefaultOptions_Validate float_overflow
    (foldl opt_effect (flag_defaults sys (strings_ToLower pluginName) o) xs)).
Proof.
  intros Hok. unfold LoadOptions, DefaultOptions_AddFlags. rewrite <- (app_nil_r (command_line xs)), app_nil_l.
  by rewrite parse_command_line.
Qed.

(** C37: the intervals of valid options are the seconds given, exactly when they
    fit: up to 9223372036 seconds; more wrap around. *)
Theorem Validate_bounds (o : DefaultOptions) :
  (0 ≤ DefaultOptions_heartbeatSeconds o < 2 ^ 64)%Z → (0 ≤ DefaultOptions_metricsIntervalSeconds o < 2 ^ 64)%Z →
  let o' := DefaultOptions_Validate float_overflow o in
  (DefaultOptions_HeartbeatInterval o' = time_Second * DefaultOptions_heartbeatSeconds o ↔
     DefaultOptions_heartbeatSeconds o ≤ 9223372036)%Z ∧
  (DefaultOptions_MetricsInterval o' = time_Second * DefaultOptions_metricsIntervalSeconds o ↔
     DefaultOptions_metricsIntervalSeconds o ≤ 9223372036)%Z.
Proof.
  assert (∀ n, (0 ≤ n < 2 ^ 64)%Z → (wrap_int64 (time_Second * wrap_int64 n) = time_Second * n ↔ n ≤ 9223372036)%Z) as H.
  { intros n Hn. assert (∀ z, (- 2 ^ 63 ≤ wrap_int64 z < 2 ^ 63)%Z) as Hr.
    { intros z. unfold wrap_int64. pose proof (Z.mod_pos_bound (z + 2 ^ 63) (2 ^ 64)). lia. }
    assert (∀ z, (- 2 ^ 63 ≤ z < 2 ^ 63)%Z → wrap_int64 z = z) as Hs.
    { intros z Hz. unfold wrap_int64. rewrite Z.mod_small; lia. }
    unfold time_Second in *. split; intros Hx.
    - pose proof (Hr (10 ^ 9 * wrap_int64 n)%Z). lia.
    - rewrite (Hs n), Hs; lia. }
  intros Hh Hm. destruct o. cbn in *. by split; apply H.
Qed.

End Options.

(** ** Configuration files *)
Section ConfigFiles.
Context (sys : Sys).

Lemma Clean_rooted s : path_IsAbs (path_Clean (String "/" s)) = true.
Proof. done. Qed.

Lemma Join_absolute dir leaf : path_IsAbs dir = true → path_IsAbs (path_Join [dir; leaf]) = true.
Proof.
  destruct dir as [|c dir]; [done|]. cbn [path_IsAbs]. intros ->%Ascii.eqb_eq. unfold path_Join.
  rewrite filter_cons_True by done. destruct (decide (leaf = "")) as [->|Hl].
  - rewrite filter_cons_False by naive_solver. apply Clean_rooted.
  - rewrite filter_cons_True by done. apply Clean_rooted.
Qed.

Lemma first_config_dir_spec dirs dir : first_config_dir sys dirs = Some dir →
  ∃ before d after, dirs = before ++ d :: after ∧ dir = path_Join [d; "rstudio"] ∧ sys_Stat sys dir = true ∧
    Forall (λ d, sys_Stat sys (path_Join [d; "rstudio"]) = false) before.
Proof.
  induction dirs as [|d dirs IH]; [done|]. cbn [first_config_dir]. destruct (sys_Stat sys (path_Join [d; "rstudio"])) eqn:Hs.
  - intros [= <-]. exists [], d, dirs. by split_and!.
  - intros (before & d' & after & -> & Hd & Hst & Hb)%IH. exists (d :: before), d', after. split_and!; try done. by constructor.
Qed.

(** With absolute directories in the environment, the path of a
    configuration file is absolute: in the product's directory if there is one,
    else in the first XDG directory with an "rstudio" entry, else in
    /etc/rstudio. *)
Theorem ConfigPathf_absolute (leaf : string) :
  let product := os_ExpandEnv sys (sys_Getenv sys "RSTUDIO_CONFIG_DIR") in
  let dirs := strings_Split (os_ExpandEnv sys (sys_Getenv sys "XDG_CONFIG_DIRS")) ":" in
  (product = "" ∨ path_IsAbs product = true) → Forall (λ d, path_IsAbs d = true) dirs →
  path_IsAbs (ConfigPathf sys leaf) = true ∧
  (ConfigPathf sys leaf = path_Join [product; leaf] ∧ product ≠ "" ∨
   product = "" ∧ (∃ before d after, dirs = before ++ d :: after ∧
     ConfigPathf sys leaf = path_Join [path_Join [d; "rstudio"]; leaf] ∧
     Forall (λ d, sys_Stat sys (path_Join [d; "rstudio"]) = false) before) ∨
   product = "" ∧ ConfigPathf sys leaf = path_Join ["/etc/rstudio"; leaf]).
Proof.
  intros product dirs Hp Hd. unfold ConfigPathf. fold product. fold dirs. case_bool_decide as Hne.
  - split; [|by left]. apply Join_absolute. naive_solver.
  - destruct (decide (product = "")) as [Hnil|]; [|done]. destruct (first_config_dir sys dirs) as [dir|] eqn:Hf.
    + destruct (first_config_dir_spec dirs dir Hf) as (before & d & after & Hdirs & -> & _ & Hb).
      split; [|right; left; split; [done|]; exists before, d, after; by split_and!].
      apply Join_absolute, Join_absolute. rewrite Hdirs in Hd. by apply Forall_app in Hd as [_ [Hd' _]%list.Forall_cons].
    + split; [apply Join_absolute; reflexivity|]. right; right. by split.
Qed.

(** Without XDG_CONFIG_DIRS the search looks into the working directory: its
    list of directories is one empty name, and an entry "rstudio" there is taken
    before /etc/rstudio. *)
Theorem ConfigPathf_relative (leaf : string) :
  sys_Getenv sys "RSTUDIO_CONFIG_DIR" = "" → sys_Getenv sys "XDG_CONFIG_DIRS" = "" → sys_Stat sys "rstudio" = true →
  ConfigPathf sys leaf = path_Join ["rstudio"; leaf].
Proof.
  intros H1 H2 H3. unfold ConfigPathf. rewrite H1, H2. cbn -[path_Join first_config_dir]. cbn [first_config_dir].
  change (path_Join [""; "rstudio"]) with "rstudio". by rewrite H3.
Qed.
End ConfigFiles.

(** ** Concrete command lines *)
Definition plain_sys : Sys := mkSys (λ _, "") (λ p, bool_decide (p = "rstudio")) 0.

Definition parse_24 (s : string) : option float64 := if decide (s = "48") then Some (float_of_Z 48) else None.

Lemma options_roundtrip_witness :
  let xs := [EnableDebugLogging false; JobExpiryHours "48" (float_of_Z 48); HeartbeatIntervalSeconds 0;
    Unprivileged true; PluginName "local"; HeartbeatIntervalSeconds 7] in
  ∃ o, LoadOptions plain_sys parse_24 (λ _, 0%Z) zeroOptions "Local" (command_line xs) = Some o ∧
    DefaultOptions_JobExpiry o = (48 * time_Hour)%Z ∧ DefaultOptions_HeartbeatInterval o = (7 * time_Second)%Z ∧
    DefaultOptions_ScratchPath o = "/var/lib/rstudio-launcher/local".
Proof.
  intros xs. eexists. split; [apply (options_roundtrip plain_sys parse_24 (λ _, 0%Z) zeroOptions "Local" xs)|].
  - repeat constructor; cbn; lia.
  - split_and!; vm_compute; reflexivity.
Defined.

Lemma Validate_bounds_witness :
  let o := zeroOptions <| DefaultOptions_heartbeatSeconds := 9223372037%Z |> in
  DefaultOptions_HeartbeatInterval (DefaultOptions_Validate (λ _, 0%Z) o) ≠ (time_Second * 9223372037)%Z.
Proof.
  intros o H. destruct (Validate_bounds (λ _, 0%Z) o) as [[Hb _] _]; [by vm_compute; split|by vm_compute; split|].
  specialize (Hb H). by vm_compute in Hb.
Defined.

Lemma ConfigPathf_absolute_witness :
  let sys := mkSys (λ k, if decide (k = "XDG_CONFIG_DIRS") then "/etc/xdg:/opt" else "") (λ p, bool_decide (p = "/opt/rstudio")) 0 in
  path_IsAbs (ConfigPathf sys "launcher.local.conf") = true.
Proof.
  intros sys. apply (ConfigPathf_absolute sys "launcher.local.conf"); [left; reflexivity|]. repeat constructor.
Defined.

Lemma ConfigPathf_relative_witness : ConfigPathf plain_sys "launcher.local.conf" = "rstudio/launcher.local.conf".
Proof. exact (ConfigPathf_relative plain_sys "launcher.local.conf" eq_refl eq_refl eq_refl). Defined.

(** A plugin started by the smoke test understands its command line: no
    heartbeats, debug logging, no log directory, and unprivileged unless the
    smoke test runs as root; everything else has its default. *)
Theorem smoke_test_arguments (sys : Sys) (ParseFloat : string → option float64) (overflow : float64 → Z)
    (o : DefaultOptions) (pluginName : string) :
  let defaults := flag_defaults sys (strings_ToLower pluginName) o in
  LoadOptions sys ParseFloat overflow o pluginName (plugin_args (sys_Getuid sys)) =
  Some (DefaultOptions_Validate overflow (defaults <| DefaultOptions_heartbeatSeconds := 0%Z |>
    <| DefaultOptions_Debug := true |> <| DefaultOptions_LoggingDir := "" |>)).
Proof.
  unfold LoadOptions, DefaultOptions_AddFlags, plugin_args. cbv zeta. destruct o as [d1 d2 d3 d4 d5 d6 d7 d8 d9 d10 d11 d12 d13 d14 d15].
  destruct (sys_Getuid sys =? 0)%Z eqn:Hu.
  - reflexivity.
  - match goal with |- _ = Some (DefaultOptions_Validate _ ?d) =>
      trans (Some (DefaultOptions_Validate overflow (d <| DefaultOptions_Unprivileged := true |>))) end; [reflexivity|].
    do 2 f_equal. unfold flag_defaults. by rewrite Hu.
Qed.
