(* ===== verification/Startup.v ===== *)
(** * Starting up (src/launcher/launcher.go, src/logger/logger.go, src/examples/inmemory/main.go)

    [Runtime], [Run] up to the loop of the communicator, the creation of loggers,
    and the main function of the example plugin: from the command line, the
    environment and the configuration file to a running communicator, or to the
    end of the process.  The file system and the build information are
    parameters. *)

From Stdlib Require Import SpecFloat.
From S2P Require Import Prelude GoStd Types Writer Stream Rpc Communicator Runtime InMemory Cache Logger Options.

(** ** Build information *)
Definition slice_out_of_range : string := "slice bounds out of range".

(** [s[:n]]. *)
Definition slice_to (s : string) (n : nat) : outcome string :=
  if (n <=? String.length s)%nat then Ret (String.substring 0 n s) else Panic slice_out_of_range.

(** The loop over [info.Settings]. *)
Fixpoint build_settings (settings : list (string * string)) (revision date : string) : outcome (string * string) :=
  match settings with
  | [] => Ret (revision, date)
  | (key, value) :: settings =>
      revision ← (if decide (key = "vcs.revision") then slice_to value 7 else Ret revision);
      build_settings settings revision (if decide (key = "vcs.time") then value else date)
  end.

(** [info] is what [debug.ReadBuildInfo] returns. *)
Definition buildInfo (info : option (list (string * string))) : outcome (string * string) :=
  match info with
  | Some settings => build_settings settings "unknown" "unknown"
  | None => Ret ("unknown", "unknown")
  end.

(** ** The runtime *)
Record Runtime (P : Type) := mkRuntime {
  Runtime_MaxMessageSize : Z;
  Runtime_MetricsInterval : Z;
  Runtime_p : P;
}.
Arguments mkRuntime {P}.
Arguments Runtime_MaxMessageSize {P}.
Arguments Runtime_MetricsInterval {P}.
Arguments Runtime_p {P}.

Definition NewRuntime {P} (p : P) : Runtime P := mkRuntime DefaultMaxMsgSize 0 p.

(** [Run], up to [comm.Serve]: the state in which Serve starts. *)
Definition Runtime_Run {P W} (r : Runtime P) (info : option (list (string * string))) (stdin : Reader) (stdout : W)
    : outcome (Serve W) :=
  let comm := NewCommunicator stdin stdout (Z.to_nat (Runtime_MaxMessageSize r)) in
  _ ← buildInfo info;
  Ret (Serve_start comm).

(** ** Loggers *)

(** What [os.MkdirAll] and [os.Create] return. *)
Record Files := mkFiles { os_MkdirAll : string → option error; os_Create : string → option error }.

(** Where records go: to standard error, or to a file as well. *)
Inductive sink := SinkStderr | SinkBoth (path : string).

Definition NewLogger (fs : Files) (name : string) (cfg : Config) : (workbenchHandler * sink) + error :=
  if decide (Config_Type cfg = DestinationStderr ∨ Config_Dir cfg = "")
  then inl (newWorkbenchLogger name (Config_Level cfg), SinkStderr)
  else
    match os_MkdirAll fs (Config_Dir cfg) with
    | Some err => inr err
    | None =>
        let path := path_Join [Config_Dir cfg; (name ++ ".log")%string] in
        match os_Create fs path with
        | Some err => inr err
        | None => inl (newWorkbenchLogger name (Config_Level cfg), SinkBoth path)
        end
    end.

(** A process that goes on, or that ends: by the flag package, or by os.Exit(1). *)
Inductive ended := EndFlags | EndError.
Definition process (A : Type) : Type := A + ended.

(** The fallback logger cannot fail; the process exits either way. *)
Definition MustNewLogger (fs : Files) (name : string) (cfg : Config) : process (workbenchHandler * sink) :=
  match NewLogger fs name cfg with
  | inl lgr => inl lgr
  | inr err =>
      match NewLogger fs name (mkConfig LevelDebug DestinationStderr "") with
      | inl fallback => inr EndError
      | inr fallbackErr => inr EndError
      end
  end.

(** ** The example's main *)
Definition log_defaults (options : DefaultOptions) : Config :=
  let cfg := mkConfig LevelInfo DestinationFile (DefaultOptions_LoggingDir options) in
  if DefaultOptions_Debug options then cfg <| Config_Level := LevelDebug |> else cfg.

(** --enable-debug-logging enforces at least DEBUG. *)
Definition enforce_debug (options : DefaultOptions) (cfg : Config) : Config :=
  if DefaultOptions_Debug options && (LevelDebug <? Config_Level cfg)%Z
  then cfg <| Config_Level := LevelDebug |> else cfg.

Record started := mkStarted {
  started_logger : workbenchHandler * sink;
  started_runtime : Runtime InMemoryPlugin;
  started_serve : Serve bytes;
}.

Section Main.
Context (sys : Sys) (strconv_ParseFloat : string → option float64) (float_overflow : float64 → Z).
Context (files : string → conf_file) (fs : Files) (info : option (list (string * string))).

(** From the arguments to [Serve]. *)
Definition main (args : list string) (stdin : Reader) (stdout : bytes) : outcome (process started) :=
  match LoadOptions sys strconv_ParseFloat float_overflow zeroOptions "inmemory" args with
  | None => Ret (inr EndFlags)
  | Some options =>
      match LoadConfig (sys_Getenv sys) files "inmemory" (log_defaults options) with
      | (_, Some err) => Ret (inr EndError)
      | (logCfg, None) =>
          match MustNewLogger fs "inmemory" (enforce_debug options logCfg) with
          | inr e => Ret (inr e)
          | inl lgr =>
              let plugin := mkInMemoryPlugin NewJobCache 0 in
              let rt := NewRuntime plugin in
              let rt := mkRuntime (Runtime_MaxMessageSize rt) (DefaultOptions_MetricsInterval options) (Runtime_p rt) in
              s ← Runtime_Run rt info stdin stdout;
              Ret (inl (mkStarted lgr rt s))
          end
      end
  end.
End Main.

(** ** Properties *)

(** The settings that decide: the last of each key. *)
Definition setting (key : string) (settings : list (string * string)) : option string :=
  list.last ((filter (λ kv, kv.1 = key) settings).*2).

Definition revision_ok (kv : string * string) : Prop := kv.1 = "vcs.revision" → 7 ≤ String.length kv.2.

Lemma setting_cons key kv settings :
  setting key (kv :: settings) =
    match setting key settings with Some v => Some v | None => if decide (kv.1 = key) then Some kv.2 else None end.
Proof.
  unfold setting. rewrite filter_cons. case_decide; [|by destruct (list.last _)]. by rewrite fmap_cons, last_cons.
Qed.

Lemma build_settings_ok settings revision date :
  Forall revision_ok settings →
  build_settings settings revision date =
    Ret (from_option (String.substring 0 7) revision (setting "vcs.revision" settings), default date (setting "vcs.time" settings)).
Proof.
  intros Hs. revert revision date. induction Hs as [|[key value] settings Hv _ IH]; intros revision date; [done|].
  cbn [build_settings]. rewrite !setting_cons. cbn [fst snd].
  assert (∀ r d, build_settings settings r (if decide (key = "vcs.time") then d else date) =
    Ret (from_option (String.substring 0 7) r (setting "vcs.revision" settings),
         default (if decide (key = "vcs.time") then d else date) (setting "vcs.time" settings))) as H by (intros; apply IH).
  assert (default (if decide (key = "vcs.time") then value else date) (setting "vcs.time" settings) =
    default date (match setting "vcs.time" settings with Some v => Some v | None => if decide (key = "vcs.time") then Some value else None end)) as Ht
    by (destruct (setting "vcs.time" settings); [done|by case_decide]).
  destruct (decide (key = "vcs.revision")) as [Hk|Hk]; [|cbn [mbind outcome_bind]; rewrite H, Ht; by destruct (setting "vcs.revision" settings)].
  unfold slice_to. destruct (Nat.leb_spec 7 (String.length value)) as [_|Hl]; [|specialize (Hv Hk); cbn in Hv; lia].
  cbn [mbind outcome_bind]. rewrite H, Ht. by destruct (setting "vcs.revision" settings).
Qed.

Lemma build_settings_short settings revision date :
  ¬ Forall revision_ok settings → build_settings settings revision date = Panic slice_out_of_range.
Proof.
  revert revision date. induction settings as [|[key value] settings IH]; intros revision date Hs; [by destruct Hs|].
  cbn [build_settings]. unfold slice_to. destruct (decide (key = "vcs.revision")) as [Hk|Hk];
    [destruct (Nat.leb_spec 7 (String.length value)) as [Hl|Hl]; [|done]|];
    cbn [mbind outcome_bind]; apply IH; intros Hf; apply Hs; (constructor; [|done]); intros E; [exact Hl|by destruct Hk].
Qed.

#[export] Instance revision_ok_dec kv : Decision (revision_ok kv).
Proof. unfold revision_ok. apply _. Defined.

(** The build information is the last revision, shortened to seven bytes, and the
    last time; a revision of fewer bytes makes the plugin panic at its start. *)
Theorem buildInfo_spec (settings : list (string * string)) :
  buildInfo (Some settings) =
    if decide (Forall revision_ok settings)
    then Ret (from_option (String.substring 0 7) "unknown" (setting "vcs.revision" settings),
              default "unknown" (setting "vcs.time" settings))
    else Panic slice_out_of_range.
Proof. cbn. case_decide; [by apply build_settings_ok|by apply build_settings_short]. Qed.

(** Logging to standard error needs no files and cannot fail. *)
Lemma NewLogger_stderr fs name cfg :
  Config_Type cfg = DestinationStderr ∨ Config_Dir cfg = "" →
  NewLogger fs name cfg = inl (newWorkbenchLogger name (Config_Level cfg), SinkStderr).
Proof. intros H. unfold NewLogger. by rewrite decide_True. Qed.

Section MainProps.
Context (sys : Sys) (strconv_ParseFloat : string → option float64) (float_overflow : float64 → Z).
Context (files : string → conf_file) (fs : Files) (settings : list (string * string)).

Definition writable (cfg : Config) : Prop :=
  os_MkdirAll fs (Config_Dir cfg) = None ∧ os_Create fs (path_Join [Config_Dir cfg; "inmemory.log"]) = None.

(** The example starts: with options that are understood, a usable logging
    configuration, a writable log directory and revisions of the usual length, main
    reaches Serve with the default message limit and the metrics interval of the
    options; with --enable-debug-logging debug records are written whatever the
    configuration says, and without it the configured level holds. *)
Theorem main_starts (args : list string) (stdin : Reader) (stdout : bytes) (options : DefaultOptions) (cfg : Config)
    (Hopt : LoadOptions sys strconv_ParseFloat float_overflow zeroOptions "inmemory" args = Some options)
    (Hcfg : LoadConfig (sys_Getenv sys) files "inmemory" (log_defaults options) = (cfg, None))
    (Hfs : writable cfg) (Hrev : Forall revision_ok settings) :
  ∃ lgr sk, main sys strconv_ParseFloat float_overflow files fs (Some settings) args stdin stdout =
    Ret (inl (mkStarted (lgr, sk)
      (mkRuntime DefaultMaxMsgSize (DefaultOptions_MetricsInterval options) new_plugin)
      (Serve_start (NewCommunicator stdin stdout (Z.to_nat DefaultMaxMsgSize))))) ∧
    (∀ level, workbenchHandler_Enabled lgr level = true ↔
      (Config_Level cfg ≤ level)%Z ∨ DefaultOptions_Debug options = true ∧ (LevelDebug ≤ level)%Z) ∧
    (sk = SinkStderr ↔ Config_Type cfg = DestinationStderr ∨ Config_Dir cfg = "").
Proof.
  destruct Hfs as [Hmk Hcr]. unfold main. rewrite Hopt, Hcfg.
  assert (∃ lgr sk, MustNewLogger fs "inmemory" (enforce_debug options cfg) = inl (lgr, sk) ∧
    handler_level lgr = Config_Level (enforce_debug options cfg) ∧
    (sk = SinkStderr ↔ Config_Type cfg = DestinationStderr ∨ Config_Dir cfg = "")) as (lgr & sk & -> & Hl & Hsk).
  { assert (Config_Type (enforce_debug options cfg) = Config_Type cfg ∧ Config_Dir (enforce_debug options cfg) = Config_Dir cfg) as [Ht Hd].
    { unfold enforce_debug. by destruct (_ && _). }
    unfold MustNewLogger, NewLogger. rewrite Ht, Hd, Hmk.
    change ("inmemory" ++ ".log")%string with "inmemory.log". rewrite Hcr.
    case_decide; eexists _, _; (split; [done|]); (split; [done|]); naive_solver. }
  exists lgr, sk. split_and!; [|..|done].
  - unfold Runtime_Run. cbn [buildInfo]. by rewrite build_settings_ok.
  - intros level. unfold workbenchHandler_Enabled. rewrite Z.leb_le, Hl. unfold enforce_debug.
    destruct (DefaultOptions_Debug options); cbn [andb]; [|naive_solver].
    destruct (Z.ltb_spec LevelDebug (Config_Level cfg)); cbn; [naive_solver lia|]. split; [by left|]. intros [?|[_ ?]]; lia.
Qed.
End MainProps.

(** ** An example *)
Definition example_sys : Sys := mkSys (λ _, "") (λ _, false) 1000.
Definition example_files : Files := mkFiles (λ _, None) (λ _, None).
Definition example_args : list string := ["--enable-debug-logging=1"; "--logging-dir=/var/log"].

Lemma main_starts_witness :
  ∃ lgr sk, main example_sys (λ _, Some (float_of_Z 24)) (λ _, 0%Z) (λ _, NotExist) example_files
      (Some [("vcs.revision", "0123456789abcdef"); ("vcs.time", "2024-01-01")]) example_args (mkReader [] io_EOF) [] =
    Ret (inl (mkStarted (lgr, sk) (mkRuntime DefaultMaxMsgSize 60000000000 new_plugin)
      (Serve_start (NewCommunicator (mkReader [] io_EOF) [] (Z.to_nat DefaultMaxMsgSize))))) ∧
    workbenchHandler_Enabled lgr LevelDebug = true ∧ sk ≠ SinkStderr.
Proof.
  destruct (LoadOptions example_sys (λ _, Some (float_of_Z 24)) (λ _, 0%Z) zeroOptions "inmemory" example_args) as [o|] eqn:Ho;
    [|vm_compute in Ho; discriminate].
  pose proof Ho as Ho'. vm_compute in Ho'. injection Ho' as <-.
  destruct (main_starts example_sys (λ _, Some (float_of_Z 24)) (λ _, 0%Z) (λ _, NotExist) example_files
    [("vcs.revision", "0123456789abcdef"); ("vcs.time", "2024-01-01")] example_args (mkReader [] io_EOF) [] _
    (mkConfig LevelDebug DestinationFile "/var/log") Ho) as (lgr & sk & Hm & Hen & Hsk).
  - vm_compute. reflexivity.
  - split; reflexivity.
  - repeat constructor; intros E; cbn in *; try discriminate; lia.
  - exists lgr, sk. split; [exact Hm|]. split; [apply Hen; right; split; [reflexivity|lia]|].
    intros E. apply Hsk in E as [E|E]; discriminate.
Defined.
